(* ===== verification/_CoqProject ===== *)
-Q . S2P
Prelude.v
PyStr.v
Sha256.v
Json.v
JsonParse.v
Fingerprint.v
PyTime.v
Contracts.v
Wire.v
Database.v
Catalog.v
World.v
Samples.v
Repository.v
Recorder.v
Delivery.v
Actions.v
Triage.v
Worker.v
System.v
Trimming.v
Progress.v
Interleave.v
TicketOverlap.v
Verification.v
PyValue.v
Normalizers.v
Encoding.v
Routes.v
Config.v
App.v
Migrations.v
Inbound.v
Ports.v
HostPorts.v
DocContract.v
RenderSvg.v
Lifespan.v
PyFloat.v
Swimlane.v
Journeys.v
Scenarios.v
C3.v
C3Scene.v
