(* ===== verification/Prelude.v ===== *)
(** * Smokejumper: a verification development

    Smokejumper receives alerts, admits each incident once, queues it, triages
    it, files one ticket per incident and records what it did.  This library
    models the Python under src/src/smokejumper, the migrations that create its
    tables, the scripts beside it and the generators of its diagrams, and
    proves what makes them correct.

    ** The program and its parts

    A webhook request is verified ([Verification]), decoded ([Encoding],
    [JsonParse]), normalized to AgentEvents ([Normalizers]) and admitted in one
    transaction ([Repository]); a duplicate inside the 15-minute window only
    counts.  The admitted row is also the outbox entry: the handler tries to
    publish it at once ([Routes], [Delivery]) and a background loop retries.
    The worker reads the Redis stream ([Worker]), opens a run, triages
    ([Triage]), applies the conclusion to the tickets ([Actions]), writes audit
    lines ([Recorder]) and acknowledges last.  [App] composes the routes and
    answers for health and for one run; [Config] refuses to boot on unsafe
    settings; [Lifespan] starts and stops the background tasks.

    ** Files

    - Prelude: results and exceptions, sorting, sums over maps, tactics.
    - PyStr, Json, JsonParse, PyTime, PyValue, PyFloat, Encoding, Sha256: the
      parts of Python the code relies on, executable: strings as UTF-8 bytes,
      json.dumps and json.loads, datetimes, str() and int() of payload values,
      binary64 arithmetic and its repr, SHA-256 and HMAC.
    - Fingerprint, Contracts, Wire, Inbound (contracts/): the B-contracts, their
      validation and their JSON form.
    - Database (migrations/versions): the four tables with constraints, partial
      unique index, foreign keys, trigger and integer widths.
    - Catalog, Migrations (migrations): tables, indexes and triggers as data, with
      the statements the four revisions run on them and the runner of env.py.
    - World: the state of the process's surroundings and the monad [M] of code
      with effects.  [env_fault] decides for every call out whether it succeeds,
      fails before or after its effect, or ends the task; [Others] is what other
      tasks do between two transactions.
    - Samples: concrete instances of the interfaces, for the witnesses.
    - Repository, Delivery, Recorder, Actions, Triage, Worker, Verification,
      Normalizers, Routes, Config, App, Ports: the modules of the same names
      (receiver/repository.py, queue/producer.py and receiver/delivery.py,
      recorder/writer.py, actions/service.py, intelligence/triage.py, worker.py,
      receiver/verification.py, receiver/normalizers, receiver/routes.py,
      config.py and cli.py, app.py and persistence/database.py, ports/stubs.py).
    - System: all of it on one shared state, any interleaving, fault and
      restart, as a step relation.
    - Trimming: a run of System that loses an incident to the stream's length
      bound.
    - Progress: what the two loops achieve together once the services work, from
      any state System can reach.
    - Interleave: the same admissions and dispatches statement by statement,
      overlapping under READ COMMITTED with the locks the code takes.
    - TicketOverlap: the same for conclusions, which rely on the run row's lock
      and on the partial unique index.
    - Lifespan: the lifespan of app.py with worker_task and outbox_task.
    - HostPorts, DocContract, RenderSvg (scripts/): the port preflight, the
      documentation gate and the post-processing of the Mermaid drawing.
    - Swimlane, Journeys, Scenarios, C3, C3Scene (architecture/_gen): the
      renderer, its six diagrams and the component diagram, down to the text
      of the files.

    A Python function that can raise returns a [result]; one with effects is in
    [M].  Handlers are whole: every guard, early return and except clause of the
    source is a branch here.

    ** What the theorems show

    - System: no admitted incident is lost in any reachable state, unless the
      stream was at its length bound and Redis trimmed its message, which
      Trimming shows can happen (a finding); the tables stay consistent; a
      failed message is never retried (a finding).
    - Progress: once the services work, the loops conclude whatever was not
      left pending or trimmed before.
    - Admission and outbox (Repository, Delivery, Routes): the transactions
      refine small abstract relations ([admits], [dispatches]) under every
      fault; a storm handled without
      faults is one row and one stream entry; a committed admission is
      answered whatever the queue does; overlapping admissions are
      serializable and dispatches publish once, because of their locks
      (Interleave, with the race that follows without the lock); the outbox
      drains; counters do not wrap;
      recovery closes the window, so the next alert is a new incident.
    - Worker and actions: a message is acknowledged only after its conclusion is
      durable; redelivery repeats nothing; tickets and their ledger agree
      ([applies]), also when conclusions overlap, which then share one ticket; the stored byte
      range holds exactly the run's audit lines.
    - Schema: the migrations build exactly the constraints the model of the
      tables assumes, each downgrade restores what its upgrade found, and the
      upgrade to the outbox replays no old event.
    - Front door: unverified requests change nothing, malformed ones are kept,
      signature checks are exact, normalizers give valid events only and
      resolutions carry their trigger's fingerprint.
    - Data: fingerprints identify incidents up to SHA-256 collisions; JSON,
      base64 and audit round trips.
    - Boot, health and stop: fail-closed settings, exact health answer, both
      tasks ended on every stop.
    - Tools: the preflight's exit code is exact, except that an lsof output which
      is not text kills it (a finding); the documentation gate accepts exactly
      the compliant trees and its link search ends with exactly the leftmost
      links; the swimlane renderer draws every card in its lane and columns
      and no two on each other, and the shipped diagrams meet its conditions;
      the boxes of the component diagram do not overlap, though a tag may stick
      out of its box (a finding).

    ** Interfaces

    Code outside the repository is a class, with only documented behaviour as
    laws: [Pydantic] (coercion of JSON values and text of datetimes),
    [RedisStreams] (XADD, XREADGROUP, XACK), [FloatText], [PyText] and
    [WordText] (float text, the Unicode database, fromisoformat), [ErrorText]
    (the text of exceptions), [SettingsSource] (pydantic-settings' merge),
    [Env] and [Others] (clock, uuids, faults, other tasks), [Host], [Tree] and
    [Shell] (sockets, files, subprocesses of the scripts).  Samples and the
    witnesses instantiate each.  The ports are classes too ([AuthPort],
    [ChannelAdapter], [MemoryPort], ...), with the substitutes as instances;
    [TicketingPort] states what the ticketing port promises and the fixture
    discharges it.

    ** Fuel and bounds

    JSON parsing, repr and the text searches recurse on text that shrinks by at
    least a byte per step; their fuel is the length of the text, and
    [loads_dumps], [findall_exact] and [status_search_exact] show it is enough.
    The endless loops of the worker and the outbox are bounded by a number of
    rounds that every theorem about them quantifies.  Postgres integers keep
    their width; floats are exact dyadic numbers rounded to 53 bits, and half
    integers below 2^52, which the layouts use, are proved exact.

    ** Not modelled

    Alembic's choice of the revisions to run (a parameter of the runner) and
    deadlocks; FastAPI, SQLAlchemy's pools and asyncio's scheduler beyond
    interleaving at transactions, and at statements for admissions, dispatches
    and conclusions; the merge of settings layers and URL parsing inside
    pydantic-settings; argparse;
    json's NaN and Infinity, lone surrogates, its integer digit limit and
    recursion limit; overflow and subnormals of floats in the drawings. *)

From stdpp Require Export base tactics strings gmap list sorting numbers countable.

(** ** Scopes, hint databases *)

Declare Scope smoke_scope.
Delimit Scope smoke_scope with smoke.
#[global] Open Scope smoke_scope.

Create HintDb smoke.

(** ** Fallible code: a result is a value or a raised exception *)

Inductive result (E A : Type) : Type :=
| Ok (a : A)
| Raise (e : E).
Arguments Ok {E A} a.
Arguments Raise {E A} e.

Definition rbind {E A B} (m : result E A) (k : A → result E B) : result E B :=
  match m with
  | Ok a => k a
  | Raise e => Raise e
  end.

Notation "'let?' x ':=' m 'in' k" := (rbind m (λ x, k))
  (at level 10, x pattern, m at level 100, k at level 200) : smoke_scope.

Definition rmap {E A B} (f : A → B) (m : result E A) : result E B :=
  let? a := m in Ok (f a).

Definition is_ok {E A} (m : result E A) : bool :=
  match m with Ok _ => true | Raise _ => false end.

(** The exceptions the program raises or meets.  [CancelledError] stands for
    every [BaseException] that [except Exception] lets through: task
    cancellation and the death of the process. *)
Inductive exn :=
| ValidationError (model : string)
| UnparseablePayload (msg : string)
| JSONDecodeError
| ValueError (msg : string)
| TypeError (msg : string)
| OverflowError
| RuntimeError (msg : string)
| IntegrityError (constraint : string)
| DataError (column : string)
| ServiceError (service : string)
| ResponseError (msg : string)
| OSError
| LookupError (msg : string)
| KeyError (key : string)
| AttributeError (name : string)
| IndexError
| SubprocessError
| ProgrammingError (msg : string)
| InternalError (msg : string)
| CancelledError.

#[export] Instance exn_eq_dec : EqDecision exn.
Proof. solve_decision. Defined.

(** Caught by [except Exception]. *)
Definition is_Exception (e : exn) : bool :=
  match e with CancelledError => false | _ => true end.

(** Caught by [except (ValueError, TypeError)]: pydantic's ValidationError,
    UnparseablePayload and json's JSONDecodeError are ValueErrors; OverflowError
    and OSError are not. *)
Definition is_ValueError (e : exn) : bool :=
  match e with
  | ValidationError _ | UnparseablePayload _ | JSONDecodeError | ValueError _ | TypeError _ => true
  | _ => false
  end.

(** [for x in l: out.append(f(x))], stopping at the first exception. *)
Fixpoint rmapM {E A B} (f : A → result E B) (l : list A) : result E (list B) :=
  match l with
  | [] => Ok []
  | x :: l => let? y := f x in let? ys := rmapM f l in Ok (y :: ys)
  end.

Lemma rbind_Ok {E A B} (m : result E A) (k : A → result E B) b :
  rbind m k = Ok b ↔ ∃ a, m = Ok a ∧ k a = Ok b.
Proof. destruct m; naive_solver. Qed.

Lemma Ok_inj {E A} (x y : A) : @Ok E A x = Ok y → x = y.
Proof. by intros [= ->]. Qed.

Lemma rbind_Raise {E A B} (m : result E A) (k : A → result E B) e :
  rbind m k = Raise e ↔ m = Raise e ∨ ∃ a, m = Ok a ∧ k a = Raise e.
Proof. destruct m; naive_solver. Qed.

Lemma rmapM_Ok {E A B} (f : A → result E B) l ys :
  rmapM f l = Ok ys ↔ Forall2 (λ x y, f x = Ok y) l ys.
Proof.
  revert ys; induction l as [|x l IH]; intros ys; cbn.
  - split; [by intros [= <-] | by inversion 1].
  - rewrite rbind_Ok. split.
    + intros (y & Hy & (zs & Hzs & [= <-])%rbind_Ok). constructor; naive_solver.
    + inversion 1 as [|? y ? zs Hy Hzs]; simplify_eq.
      exists y. split; [done|]. rewrite rbind_Ok. exists zs. naive_solver.
Qed.

(** ** Tactics *)

(** Splits the [result] binds and matches of the hypotheses. *)
Ltac inv_result :=
  repeat match goal with
  | H : rbind _ _ = Ok _ |- _ => apply rbind_Ok in H as (? & ? & ?)
  | H : Ok _ = Ok _ |- _ => injection H as H
  | H : Raise _ = Raise _ |- _ => injection H as H
  | H : Ok _ = Raise _ |- _ => discriminate H
  | H : Raise _ = Ok _ |- _ => discriminate H
  end; simplify_eq.

(** ** Sorting: Python's [sorted] on a totally ordered key *)

Section sorting.
Context {A : Type} (R : relation A) `{!RelDecision R, !PartialOrder R, !Total R}.

Definition sorted (l : list A) : list A := merge_sort R l.

Lemma sorted_perm l : sorted l ≡ₚ l.
Proof. apply merge_sort_Permutation. Qed.

Lemma sorted_Sorted l : StronglySorted R (sorted l).
Proof. apply (StronglySorted_merge_sort _). Qed.

(** The result depends on the elements only, not on their order. *)
Lemma sorted_proper l k : l ≡ₚ k → sorted l = sorted k.
Proof.
  intros Hp. apply (StronglySorted_unique R); [apply sorted_Sorted..|].
  by rewrite !sorted_perm.
Qed.

Lemma sorted_eq_perm l k : sorted l = sorted k ↔ l ≡ₚ k.
Proof.
  split; [|apply sorted_proper].
  intros He. by rewrite <-(sorted_perm l), He, sorted_perm.
Qed.

Lemma sorted_fixed l : StronglySorted R l → sorted l = l.
Proof.
  intros Hs. apply (StronglySorted_unique R); [apply sorted_Sorted|done|].
  apply sorted_perm.
Qed.

Lemma elem_of_sorted x l : x ∈ sorted l ↔ x ∈ l.
Proof. by rewrite sorted_perm. Qed.
End sorting.

(** Lexicographic order on pairs, the order of Python's two-element lists. *)
Section pair_order.
Context {A B : Type} (RA : relation A) (RB : relation B).
Context `{!EqDecision A, !RelDecision RA, !PartialOrder RA, !Total RA}.
Context `{!RelDecision RB, !PartialOrder RB, !Total RB}.

Definition pair_le (p q : A * B) : Prop :=
  (p.1 = q.1 ∧ RB p.2 q.2) ∨ (p.1 ≠ q.1 ∧ RA p.1 q.1).

#[export] Instance pair_le_dec : RelDecision pair_le.
Proof. intros p q. unfold pair_le. apply _. Defined.

#[export] Instance pair_le_po : PartialOrder pair_le.
Proof.
  unfold pair_le. split; [split|].
  - intros [a b]; simpl. left. by split.
  - intros [a b] [a' b'] [a'' b'']; simpl.
    intros [[-> H1]|[N1 H1]] [[-> H2]|[N2 H2]]; [left|by right..|right].
    + split; [done|]. by trans b'.
    + split; [|by trans a']. intros ->. by apply N1, (anti_symm RA).
  - intros [a b] [a' b']; simpl.
    intros [[-> H1]|[N1 H1]] [[E2 H2]|[N2 H2]]; try done.
    + f_equal. by apply (anti_symm RB).
    + exfalso. by apply N1, (anti_symm RA).
Qed.

#[export] Instance pair_le_total : Total pair_le.
Proof.
  intros [a b] [a' b']. unfold pair_le; simpl.
  destruct (decide (a = a')) as [->|Hn].
  - destruct (total RB b b'); tauto.
  - destruct (total RA a a'); naive_solver.
Qed.
End pair_order.

(** The outcome of a run, with the world it leaves. *)
Lemma run_pair {A B} (p : A * B) a : p.1 = a → p = (a, p.2).
Proof. by intros <-; destruct p. Defined.

(** ** Association lists with distinct keys *)

Lemma NoDup_keys_unique {K A} (l : list (K * A)) k x y :
  NoDup l.*1 → (k, x) ∈ l → (k, y) ∈ l → x = y.
Proof.
  induction l as [|[k' z] l IH]; cbn; [by intros _ ?%not_elem_of_nil|].
  intros [Hn Hnd]%list.NoDup_cons [[= -> ->]|Hx]%elem_of_cons [[= E]|Hy]%elem_of_cons; subst.
  - done.
  - exfalso. apply Hn. apply list_elem_of_fmap. by exists (k', y).
  - exfalso. apply Hn. apply list_elem_of_fmap. by exists (k', x).
  - by apply IH.
Qed.

Lemma filter_none {A} (P : A → Prop) `{!∀ x, Decision (P x)} (l : list A) :
  filter P l = [] ↔ ∀ x, x ∈ l → ¬ P x.
Proof.
  split.
  - intros E x Hx Hp. assert (x ∈ filter P l) as Hin by (by apply list_elem_of_filter).
    rewrite E in Hin. by apply not_elem_of_nil in Hin.
  - intros Hno. destruct (filter P l) as [|x k] eqn:E; [done|].
    assert (x ∈ filter P l) as [Hp Hx]%list_elem_of_filter by (rewrite E; left).
    by destruct (Hno x Hx).
Qed.

(** A filter and its complement make up the list. *)
Lemma filter_partition {A} (P Q : A → Prop) `{!∀ x, Decision (P x), !∀ x, Decision (Q x)} l :
  (∀ x, Q x ↔ ¬ P x) → filter P l ++ filter Q l ≡ₚ l.
Proof.
  intros HQ. induction l as [|x l IH]; [done|]. rewrite !filter_cons.
  destruct (decide (P x)) as [HP|HP].
  - rewrite decide_False by naive_solver. by rewrite <-app_comm_cons, IH.
  - rewrite decide_True by naive_solver. by rewrite <-Permutation_middle, IH.
Qed.

(** ** Sums over the rows of a table *)

Section msum.
Context {K A : Type} `{Countable K} (f : A → Z).

Definition msum (m : gmap K A) : Z := map_fold (λ _ x n, f x + n)%Z 0%Z m.

Lemma msum_insert_new (m : gmap K A) i x :
  m !! i = None → msum (<[i := x]> m) = (f x + msum m)%Z.
Proof.
  intros Hi. unfold msum. rewrite map_fold_insert_L; [done| |done]. intros. lia.
Qed.

Lemma msum_insert_old (m : gmap K A) i x y :
  m !! i = Some y → msum (<[i := x]> m) = (msum m + (f x - f y))%Z.
Proof.
  intros Hi. rewrite <-(insert_delete_id m i y Hi) at 2. rewrite <-insert_delete_eq.
  rewrite !msum_insert_new by apply lookup_delete_eq. lia.
Qed.

Lemma msum_empty : msum ∅ = 0%Z.
Proof. apply map_fold_empty. Qed.
End msum.

Lemma msum_fmap {K A B} `{Countable K} (f : B → Z) (g : A → B) (m : gmap K A) :
  msum f (g <$> m) = msum (f ∘ g) m.
Proof.
  induction m as [|i x m Hi IH] using map_ind; [by rewrite fmap_empty, !msum_empty|].
  rewrite fmap_insert, !msum_insert_new by (rewrite ?lookup_fmap, ?Hi; done).
  by rewrite IH.
Qed.

Lemma msum_ext {K A} `{Countable K} (f g : A → Z) (m : gmap K A) :
  (∀ i x, m !! i = Some x → f x = g x) → msum f m = msum g m.
Proof.
  induction m as [|i x m Hi IH] using map_ind; intros Hfg; [by rewrite !msum_empty|].
  rewrite !msum_insert_new by done. rewrite IH, (Hfg i x); [done|by simplify_map_eq|].
  intros j y Hj. apply (Hfg j). rewrite lookup_insert_ne; [done|congruence].
Qed.
