(* ===== verification/PyStr.v ===== *)
(** * Python strings

    A Python [str] without lone surrogates is represented by its UTF-8
    encoding, a Stdlib [string] of bytes.  UTF-8 preserves the code point
    order, concatenation and equality, and the separators the program splits
    on are ASCII, so [sorted], [split], [partition], [startswith] and the like
    act on the bytes as they do on the characters.  [encode("utf-8")] is the
    identity.  Whitespace is the full Unicode set of [str.strip], recognised
    by its UTF-8 byte sequences.  [lower] and [upper] map the ASCII letters,
    and [lower] the one other code point whose lower case is ASCII (U+212A,
    the Kelvin sign): every caller compares the outcome with ASCII keywords
    only, which no other case mapping can reach. *)

From Stdlib Require Import Ascii.
From S2P Require Import Prelude.

Open Scope N_scope.

(** ** Append *)

Lemma app_nil_str (s : string) : EmptyString +:+ s = s.
Proof. done. Qed.
Lemma app_cons_str a (s t : string) : String a s +:+ t = String a (s +:+ t).
Proof. done. Qed.
Lemma app_str_nil (s : string) : s +:+ EmptyString = s.
Proof. induction s as [|a s IH]; [done|]. by rewrite app_cons_str, IH. Qed.
Lemma app_str_assoc (s t u : string) : (s +:+ t) +:+ u = s +:+ (t +:+ u).
Proof. induction s as [|a s IH]; [done|]. by rewrite !app_cons_str, IH. Qed.
Lemma length_app_str (s t : string) :
  String.length (s +:+ t) = (String.length s + String.length t)%nat.
Proof. induction s as [|a s IH]; [done|]. rewrite app_cons_str. simpl. lia. Qed.

#[export] Hint Rewrite app_nil_str app_cons_str app_str_nil app_str_assoc : pystr.

(** ** Whitespace: [str.strip] *)

Definition byte_val (a : ascii) : N := N_of_ascii a.

Definition ws1 (a : ascii) : bool :=
  let n := byte_val a in
  ((9 <=? n) && (n <=? 13)) || ((28 <=? n) && (n <=? 32)).

(** U+0085 and U+00A0. *)
Definition ws2 (a b : ascii) : bool :=
  (byte_val a =? 194) && ((byte_val b =? 133) || (byte_val b =? 160)).

(** U+1680, U+2000 to U+200A, U+2028, U+2029, U+202F, U+205F and U+3000. *)
Definition ws3 (a b c : ascii) : bool :=
  let x := byte_val a in let y := byte_val b in let z := byte_val c in
  ((x =? 225) && (y =? 154) && (z =? 128)) ||
  ((x =? 226) && (y =? 128) &&
     (((128 <=? z) && (z <=? 138)) || (z =? 168) || (z =? 169) || (z =? 175))) ||
  ((x =? 226) && (y =? 129) && (z =? 159)) ||
  ((x =? 227) && (y =? 128) && (z =? 128)).

(** Drops the leading whitespace characters; [w2] and [w3] recognise the
    characters of two and three bytes in the reading direction. *)
Fixpoint drop_ws (w2 : ascii → ascii → bool) (w3 : ascii → ascii → ascii → bool)
    (s : string) : string :=
  match s with
  | EmptyString => s
  | String a r =>
      if ws1 a then drop_ws w2 w3 r else
      match r with
      | EmptyString => s
      | String b r2 =>
          if w2 a b then drop_ws w2 w3 r2 else
          match r2 with
          | EmptyString => s
          | String c r3 => if w3 a b c then drop_ws w2 w3 r3 else s
          end
      end
  end.

Definition lstrip (s : string) : string := drop_ws ws2 ws3 s.
Definition rstrip (s : string) : string :=
  String.rev (drop_ws (λ a b, ws2 b a) (λ a b c, ws3 c b a) (String.rev s)).
Definition strip (s : string) : string := rstrip (lstrip s).

(** ** Case *)

Definition lower_ascii (a : ascii) : ascii :=
  let n := byte_val a in
  if (65 <=? n) && (n <=? 90) then ascii_of_N (n + 32) else a.
Definition upper_ascii (a : ascii) : ascii :=
  let n := byte_val a in
  if (97 <=? n) && (n <=? 122) then ascii_of_N (n - 32) else a.

Definition kelvin (a b c : ascii) : bool :=
  (byte_val a =? 226) && (byte_val b =? 132) && (byte_val c =? 170).

Fixpoint lower (s : string) : string :=
  match s with
  | String a r =>
      match r with
      | String b (String c r3) =>
          if kelvin a b c then String "k"%char (lower r3) else String (lower_ascii a) (lower r)
      | _ => String (lower_ascii a) (lower r)
      end
  | EmptyString => EmptyString
  end.

Fixpoint upper (s : string) : string :=
  match s with
  | String a r => String (upper_ascii a) (upper r)
  | EmptyString => EmptyString
  end.

(** ** Splitting and joining on one ASCII character *)

Fixpoint split_go (sep : ascii) (cur : string) (s : string) : list string :=
  match s with
  | EmptyString => [String.rev cur]
  | String a r =>
      if decide (a = sep) then String.rev cur :: split_go sep EmptyString r
      else split_go sep (String a cur) r
  end.
(** [s.split(sep)] *)
Definition split (sep : ascii) (s : string) : list string := split_go sep EmptyString s.

(** [s.partition(sep)]: the part before, whether the separator was found, the
    part after. *)
Fixpoint partition (sep : ascii) (s : string) : string * bool * string :=
  match s with
  | EmptyString => (EmptyString, false, EmptyString)
  | String a r =>
      if decide (a = sep) then (EmptyString, true, r)
      else let '(x, f, y) := partition sep r in (String a x, f, y)
  end.

(** [sep.join(l)] *)
Fixpoint join (sep : string) (l : list string) : string :=
  match l with
  | [] => EmptyString
  | [x] => x
  | x :: l => x +:+ sep +:+ join sep l
  end.

(** What follows the first element in a joined list. *)
Definition join_tl (sep : string) (l : list string) : string :=
  match l with [] => EmptyString | _ => sep +:+ join sep l end.

Lemma join_cons sep x l : join sep (x :: l) = x +:+ join_tl sep l.
Proof. destruct l; simpl; [by rewrite app_str_nil|done]. Qed.

(** [s.startswith(p)] and [s.removeprefix(p)] *)
Fixpoint strip_prefix (p s : string) : option string :=
  match p, s with
  | EmptyString, _ => Some s
  | String a p, String b s => if decide (a = b) then strip_prefix p s else None
  | _, _ => None
  end.
Definition startswith (s p : string) : bool :=
  match strip_prefix p s with Some _ => true | None => false end.
Definition removeprefix (s p : string) : string := default s (strip_prefix p s).
Definition endswith (s p : string) : bool := startswith (String.rev s) (String.rev p).

(** [part in s] *)
Fixpoint contains (part s : string) : bool :=
  startswith s part ||
  match s with EmptyString => false | String _ r => contains part r end.

(** [s[:n]]: the first [n] characters; a continuation byte (10xxxxxx) does not
    count. *)
Definition is_cont (a : ascii) : bool := (128 <=? byte_val a) && (byte_val a <? 192).
Fixpoint take_chars (n : nat) (s : string) : string :=
  match s with
  | EmptyString => EmptyString
  | String a r =>
      if is_cont a then String a (take_chars n r)
      else match n with
           | O => EmptyString
           | S n => String a (take_chars n r)
           end
  end.

(** Truth value of a string. *)
Definition nonempty (s : string) : bool :=
  match s with EmptyString => false | _ => true end.
(** [a or b] on strings *)
Definition str_or (a b : string) : string := if nonempty a then a else b.

Lemma strip_prefix_Some p s r : strip_prefix p s = Some r ↔ s = p +:+ r.
Proof.
  revert s; induction p as [|a p IH]; intros s; simpl.
  - rewrite app_nil_str. naive_solver.
  - destruct s as [|b s]; [done|]. rewrite app_cons_str.
    case_decide; subst; [rewrite IH|]; naive_solver.
Qed.

Lemma startswith_true s p : startswith s p = true ↔ ∃ r, s = p +:+ r.
Proof.
  unfold startswith. setoid_rewrite <-strip_prefix_Some.
  destruct (strip_prefix p s); naive_solver.
Qed.

Lemma removeprefix_app p r : removeprefix (p +:+ r) p = r.
Proof. unfold removeprefix. by rewrite (proj2 (strip_prefix_Some p (p +:+ r) r) eq_refl). Qed.

Lemma nonempty_true s : nonempty s = true ↔ s ≠ EmptyString.
Proof. by destruct s. Qed.

(** [partition] cuts at the first separator. *)
Lemma partition_app sep s x y :
  partition sep s = (x, true, y) → s = x +:+ String sep y.
Proof.
  revert x; induction s as [|a s IH]; intros x; simpl; [done|].
  case_decide; [naive_solver|].
  destruct (partition sep s) as [[x' f] y'] eqn:E. intros [= <- -> ->].
  rewrite app_cons_str. f_equal. by apply IH.
Qed.

(** ** Integers and hexadecimal digits as text *)

Definition hex_digit (n : N) : ascii :=
  if n <? 10 then ascii_of_N (48 + n) else ascii_of_N (87 + n).

(** The [k] low hexadecimal digits of [n], most significant first. *)
Fixpoint hex_go (k : nat) (n : N) (acc : string) : string :=
  match k with
  | O => acc
  | S k => hex_go k (N.shiftr n 4) (String (hex_digit (N.land n 15)) acc)
  end.
Definition hex (k : nat) (n : N) : string := hex_go k n EmptyString.

Definition is_hex (a : ascii) : bool :=
  let n := byte_val a in ((48 <=? n) && (n <=? 57)) || ((97 <=? n) && (n <=? 102)).

Fixpoint str_forallb (p : ascii → bool) (s : string) : bool :=
  match s with
  | EmptyString => true
  | String a r => p a && str_forallb p r
  end.

Lemma str_forallb_app p s t :
  str_forallb p (s +:+ t) = str_forallb p s && str_forallb p t.
Proof.
  induction s as [|a s IH]; [done|]. rewrite app_cons_str. simpl.
  by rewrite IH, andb_assoc.
Qed.

(** A text without the separator. *)
Definition free_of (sep : ascii) (s : string) : Prop := str_forallb (λ a, negb (Ascii.eqb a sep)) s = true.

Lemma partition_iff sep s x y :
  partition sep s = (x, true, y) ↔ s = x +:+ String sep y ∧ free_of sep x.
Proof.
  unfold free_of. revert x. induction s as [|a s IH]; intros x; simpl.
  { split; [done|]. intros [He _]. by destruct x. }
  case_decide as Ha.
  - subst a. split; [by intros [= <- <-]|]. intros [He Hf]. destruct x as [|b x].
    { rewrite app_nil_str in He. by injection He as <-. }
    rewrite app_cons_str in He. injection He as <- _. simpl in Hf. by rewrite Ascii.eqb_refl in Hf.
  - destruct (partition sep s) as [[x' f] y'] eqn:E. split.
    + intros [= <- -> ->]. destruct (proj1 (IH x') eq_refl) as [-> Hf]. rewrite app_cons_str.
      split; [done|]. simpl. rewrite Hf. by destruct (Ascii.eqb_spec a sep).
    + intros [He Hf]. destruct x as [|b x].
      { rewrite app_nil_str in He. by injection He. }
      rewrite app_cons_str in He. injection He as <- He. simpl in Hf.
      apply andb_prop in Hf as [_ Hf]. by injection (proj2 (IH x) (conj He Hf)) as -> -> ->.
Qed.

(** Not a control character. *)
Definition visible (a : ascii) : bool := 32 <=? byte_val a.

(** *** Reversal *)

Lemma rev_app_str s t : String.rev_app s t = String.rev s +:+ t.
Proof.
  unfold String.rev. revert t. induction s as [|a s IH]; intros t; [done|]. cbn.
  rewrite IH, (IH (String a EmptyString)). by rewrite app_str_assoc.
Qed.

Lemma rev_cons_str a s : String.rev (String a s) = String.rev s +:+ String a EmptyString.
Proof. unfold String.rev at 1. cbn. apply rev_app_str. Qed.

Lemma rev_str_app s t : String.rev (s +:+ t) = String.rev t +:+ String.rev s.
Proof.
  induction s as [|a s IH]; [by rewrite app_nil_str, app_str_nil|].
  by rewrite app_cons_str, !rev_cons_str, IH, app_str_assoc.
Qed.

Lemma rev_str_involutive s : String.rev (String.rev s) = s.
Proof.
  induction s as [|a s IH]; [done|]. by rewrite rev_cons_str, rev_str_app, IH.
Qed.

Lemma hex_digit_is_hex n : (n < 16)%N → is_hex (hex_digit n) = true.
Proof.
  intros Hn. destruct n as [|p]; [done|].
  do 4 (destruct p as [p|p|]; try reflexivity); exfalso; lia.
Qed.

Lemma hex_go_length k n acc :
  String.length (hex_go k n acc) = (k + String.length acc)%nat.
Proof. revert n acc; induction k as [|k IH]; intros n acc; simpl; [done|]. rewrite IH. simpl. lia. Qed.

Lemma hex_go_is_hex k n acc :
  str_forallb is_hex acc = true → str_forallb is_hex (hex_go k n acc) = true.
Proof.
  revert n acc; induction k as [|k IH]; intros n acc Hacc; simpl; [done|].
  apply IH. simpl. rewrite Hacc, andb_true_r. apply hex_digit_is_hex.
  change 15%N with (N.ones 4). rewrite N.land_ones. by apply N.mod_lt.
Qed.

(** ** UUIDs *)

(** A UUID is its 128-bit value; [str(uuid)] is 8-4-4-4-12 hex digits. *)
Definition uuid := N.
Definition uuid_str (u : uuid) : string :=
  hex 8 (N.shiftr u 96) +:+ String "-"%char (hex 4 (N.shiftr u 80) +:+
  String "-"%char (hex 4 (N.shiftr u 64) +:+ String "-"%char (hex 4 (N.shiftr u 48) +:+
  String "-"%char (hex 12 u)))).

(** ** Decimal integers *)

Fixpoint dec_go (fuel : nat) (n : N) (acc : string) : string :=
  match fuel with
  | O => acc
  | S fuel =>
      let acc := String (ascii_of_N (48 + n mod 10)) acc in
      if n <? 10 then acc else dec_go fuel (n / 10) acc
  end.
(** [str(z)]; the number of bits of the value bounds its digits. *)
Definition str_int (z : Z) : string :=
  let m := Z.abs_N z in
  let d := dec_go (S (N.size_nat m)) m EmptyString in
  if (z <? 0)%Z then String "-"%char d else d.
