(* ===== verification/Sha256.v ===== *)
(** * SHA-256 and HMAC-SHA256 (hashlib, hmac)

    The digests the program computes with Python's [hashlib] and [hmac]
    (FIPS 180-4 and RFC 2104), executable, on 32-bit words kept in [N] with the
    reduction modulo 2^32 written out.  A byte string is a Stdlib [string]. *)

From Stdlib Require Import Ascii.
From S2P Require Import Prelude PyStr.

Open Scope N_scope.

Definition mask32 : N := 4294967295.
Definition add32 (x y : N) : N := N.land (x + y) mask32.
Definition rotr (n x : N) : N :=
  N.lor (N.shiftr x n) (N.land (N.shiftl x (32 - n)) mask32).
Definition not32 (x : N) : N := N.lxor x mask32.

Definition big_sigma0 (x : N) : N := N.lxor (rotr 2 x) (N.lxor (rotr 13 x) (rotr 22 x)).
Definition big_sigma1 (x : N) : N := N.lxor (rotr 6 x) (N.lxor (rotr 11 x) (rotr 25 x)).
Definition sigma0 (x : N) : N := N.lxor (rotr 7 x) (N.lxor (rotr 18 x) (N.shiftr x 3)).
Definition sigma1 (x : N) : N := N.lxor (rotr 17 x) (N.lxor (rotr 19 x) (N.shiftr x 10)).
Definition choose (x y z : N) : N := N.lxor (N.land x y) (N.land (not32 x) z).
Definition majority (x y z : N) : N :=
  N.lxor (N.land x y) (N.lxor (N.land x z) (N.land y z)).

Definition round_constants : list N :=
 [1116352408; 1899447441; 3049323471; 3921009573; 961987163; 1508970993; 2453635748;
  2870763221; 3624381080; 310598401; 607225278; 1426881987; 1925078388; 2162078206;
  2614888103; 3248222580; 3835390401; 4022224774; 264347078; 604807628; 770255983;
  1249150122; 1555081692; 1996064986; 2554220882; 2821834349; 2952996808; 3210313671;
  3336571891; 3584528711; 113926993; 338241895; 666307205; 773529912; 1294757372;
  1396182291; 1695183700; 1986661051; 2177026350; 2456956037; 2730485921; 2820302411;
  3259730800; 3345764771; 3516065817; 3600352804; 4094571909; 275423344; 430227734;
  506948616; 659060556; 883997877; 958139571; 1322822218; 1537002063; 1747873779;
  1955562222; 2024104815; 2227730452; 2361852424; 2428436474; 2756734187; 3204031479;
  3329325298].

(** The eight working words. *)
Record hstate := HState { ha : N; hb : N; hc : N; hd : N; he : N; hf : N; hg : N; hh : N }.

Definition initial_hash : hstate :=
  HState 1779033703 3144134277 1013904242 2773480762 1359893119 2600822924 528734635
    1541459225.

(** One round with the round constant [k] and the schedule word [w]. *)
Definition round (s : hstate) (k w : N) : hstate :=
  let t1 := add32 (hh s) (add32 (big_sigma1 (he s))
              (add32 (choose (he s) (hf s) (hg s)) (add32 k w))) in
  let t2 := add32 (big_sigma0 (ha s)) (majority (ha s) (hb s) (hc s)) in
  HState (add32 t1 t2) (ha s) (hb s) (hc s) (add32 (hd s) t1) (he s) (hf s) (hg s).

(** [win] holds the schedule words [w(t) .. w(t+15)]. *)
Definition next_word (win : list N) : N :=
  add32 (sigma1 (nth 14 win 0)) (add32 (nth 9 win 0)
    (add32 (sigma0 (nth 1 win 0)) (nth 0 win 0))).

Fixpoint rounds (ks : list N) (win : list N) (s : hstate) : hstate :=
  match ks with
  | [] => s
  | k :: ks =>
      rounds ks (tail win ++ [next_word win]) (round s k (nth 0 win 0))
  end.

Definition compress (h : hstate) (block : list N) : hstate :=
  let s := rounds round_constants block h in
  HState (add32 (ha h) (ha s)) (add32 (hb h) (hb s)) (add32 (hc h) (hc s))
    (add32 (hd h) (hd s)) (add32 (he h) (he s)) (add32 (hf h) (hf s))
    (add32 (hg h) (hg s)) (add32 (hh h) (hh s)).

(** ** Padding and blocks *)

Fixpoint bytes_of (s : string) : list N :=
  match s with
  | EmptyString => []
  | String a r => N_of_ascii a :: bytes_of r
  end.

Fixpoint be_bytes (k : nat) (n : N) (acc : list N) : list N :=
  match k with
  | O => acc
  | S k => be_bytes k (N.shiftr n 8) (N.land n 255 :: acc)
  end.

Definition pad (m : list N) : list N :=
  let len := N.of_nat (length m) in
  m ++ 128 :: replicate (N.to_nat ((119 - len mod 64) mod 64)) 0 ++ be_bytes 8 (8 * len) [].

Fixpoint words_of (l : list N) : list N :=
  match l with
  | a :: b :: c :: d :: l =>
      N.lor (N.shiftl a 24) (N.lor (N.shiftl b 16) (N.lor (N.shiftl c 8) d)) :: words_of l
  | _ => []
  end.

(** Feeds the words one at a time; a full buffer of sixteen is compressed. *)
Definition feed (st : hstate * list N) (w : N) : hstate * list N :=
  let '(h, buf) := st in
  if (Nat.ltb (length buf) 15) then (h, buf ++ [w]) else (compress h (buf ++ [w]), []).

Definition sha256_words (m : list N) : hstate :=
  (fold_left feed (words_of (pad m)) (initial_hash, [])).1.

(** [digest()] *)
Definition sha256_bytes (m : list N) : list N :=
  let h := sha256_words m in
  be_bytes 4 (ha h) (be_bytes 4 (hb h) (be_bytes 4 (hc h) (be_bytes 4 (hd h)
    (be_bytes 4 (he h) (be_bytes 4 (hf h) (be_bytes 4 (hg h) (be_bytes 4 (hh h) []))))))).

(** [hexdigest()] *)
Definition hexdigest (h : hstate) : string :=
  hex 8 (ha h) +:+ hex 8 (hb h) +:+ hex 8 (hc h) +:+ hex 8 (hd h) +:+
  hex 8 (he h) +:+ hex 8 (hf h) +:+ hex 8 (hg h) +:+ hex 8 (hh h).

(** [hashlib.sha256(s).hexdigest()] *)
Definition sha256_hex (s : string) : string := hexdigest (sha256_words (bytes_of s)).

(** ** HMAC *)

Definition hmac_block_key (key : list N) : list N :=
  let k := if Nat.ltb 64 (length key) then sha256_bytes key else key in
  k ++ replicate (64 - length k) 0.

(** [hmac.new(key, msg, hashlib.sha256).hexdigest()] *)
Definition hmac_sha256_hex (key msg : string) : string :=
  let k := hmac_block_key (bytes_of key) in
  let inner := sha256_bytes ((N.lxor 54 <$> k) ++ bytes_of msg) in
  hexdigest (sha256_words ((N.lxor 92 <$> k) ++ inner)).

(** ** Shape of the hexadecimal digest *)

(** The pattern [^[0-9a-f]{64}$] of [contracts/base.py]. *)
Definition Sha256Hex (s : string) : bool :=
  Nat.eqb (String.length s) 64 && str_forallb is_hex s.

Lemma hex_length k n : String.length (hex k n) = k.
Proof. unfold hex. rewrite hex_go_length. simpl. lia. Qed.

Lemma hex_is_hex k n : str_forallb is_hex (hex k n) = true.
Proof. by apply hex_go_is_hex. Qed.

Lemma hexdigest_Sha256Hex h : Sha256Hex (hexdigest h) = true.
Proof.
  unfold Sha256Hex, hexdigest.
  by rewrite !length_app_str, !str_forallb_app, !hex_length, !hex_is_hex.
Qed.

Lemma sha256_hex_Sha256Hex s : Sha256Hex (sha256_hex s) = true.
Proof. apply hexdigest_Sha256Hex. Qed.

#[export] Hint Resolve sha256_hex_Sha256Hex hexdigest_Sha256Hex : smoke.

(** FIPS 180-4 and RFC 4231 test vectors. *)
Example sha256_abc :
  sha256_hex "abc" = "ba7816bf8f01cfea414140de5dae2223b00361a396177a9cb410ff61f20015ad".
Proof. vm_compute. reflexivity. Qed.

Example sha256_two_blocks :
  sha256_hex "abcdbcdecdefdefgefghfghighijhijkijkljklmklmnlmnomnopnopq" =
  "248d6a61d20638b8e5c026930c3e6039a33ce45964ff2167f6ecedd419db06c1".
Proof. vm_compute. reflexivity. Qed.

Example hmac_rfc4231_2 :
  hmac_sha256_hex "Jefe" "what do ya want for nothing?" =
  "5bdcc146bf60754e6a042426089575c75a003f089d2739839dec58b964ec3843".
Proof. vm_compute. reflexivity. Qed.
