(* ===== verification/Json.v ===== *)
(** * JSON values and [json.dumps]

    A parsed JSON document as Python holds it.  Integers are unbounded; a float
    is kept as the text Python's [repr] gives it, which is all the program
    reads of one.  Objects keep insertion order, as [dict] does; a document
    read by [json.loads] has each key once. *)

From Stdlib Require Import Ascii.
From S2P Require Import Prelude PyStr.

Inductive json :=
| JNull
| JBool (b : bool)
| JInt (z : Z)
| JFloat (repr : string)
| JStr (s : string)
| JArr (l : list json)
| JObj (fields : list (string * json)).

(** ** Induction, equality and countability *)

Section json_ind.
Variable P : json → Prop.
Hypothesis Hnull : P JNull.
Hypothesis Hbool : ∀ b, P (JBool b).
Hypothesis Hint : ∀ z, P (JInt z).
Hypothesis Hfloat : ∀ s, P (JFloat s).
Hypothesis Hstr : ∀ s, P (JStr s).
Hypothesis Harr : ∀ l, Forall P l → P (JArr l).
Hypothesis Hobj : ∀ l, Forall (λ kv, P kv.2) l → P (JObj l).

Fixpoint json_nested_ind (j : json) : P j :=
  match j with
  | JNull => Hnull
  | JBool b => Hbool b
  | JInt z => Hint z
  | JFloat s => Hfloat s
  | JStr s => Hstr s
  | JArr l =>
      Harr l ((fix go (l : list json) : Forall P l :=
        match l with
        | [] => Forall_nil P
        | x :: l => Forall_cons P x l (json_nested_ind x) (go l)
        end) l)
  | JObj l =>
      Hobj l ((fix go (l : list (string * json)) : Forall (λ kv, P kv.2) l :=
        match l with
        | [] => Forall_nil _
        | (k, x) :: l => Forall_cons (λ kv, P kv.2) (k, x) l (json_nested_ind x) (go l)
        end) l)
  end.
End json_ind.

(** Leaves of the generic tree that encodes a document. *)
Notation json_leaf := (unit + bool + Z + string + string + string)%type.

Fixpoint json_tree (j : json) : gen_tree json_leaf :=
  match j with
  | JNull => GenLeaf (inl (inl (inl (inl (inl ())))))
  | JBool b => GenLeaf (inl (inl (inl (inl (inr b)))))
  | JInt z => GenLeaf (inl (inl (inl (inr z))))
  | JFloat s => GenLeaf (inl (inl (inr s)))
  | JStr s => GenLeaf (inl (inr s))
  | JArr l => GenNode 0 (json_tree <$> l)
  | JObj l => GenNode 1 ((λ kv, GenNode 2 [GenLeaf (inr kv.1); json_tree kv.2]) <$> l)
  end.

Fixpoint tree_json (t : gen_tree json_leaf) : json :=
  match t with
  | GenLeaf (inl (inl (inl (inl (inl _))))) => JNull
  | GenLeaf (inl (inl (inl (inl (inr b))))) => JBool b
  | GenLeaf (inl (inl (inl (inr z)))) => JInt z
  | GenLeaf (inl (inl (inr s))) => JFloat s
  | GenLeaf (inl (inr s)) => JStr s
  | GenLeaf (inr s) => JStr s
  | GenNode 0 l => JArr (tree_json <$> l)
  | GenNode _ l =>
      JObj ((λ t, match t with
                  | GenNode _ [GenLeaf (inr k); v] => (k, tree_json v)
                  | _ => (EmptyString, JNull)
                  end) <$> l)
  end.

Lemma tree_json_tree j : tree_json (json_tree j) = j.
Proof.
  induction j as [| | | | |l IH|l IH] using json_nested_ind; simpl; try done; f_equal.
  - induction IH as [|x l Hx _ IHl]; [done|].
    cbn. f_equal; [apply Hx|apply IHl].
  - induction IH as [|[k x] l Hx _ IHl]; [done|].
    cbn in *. f_equal; [by f_equal|apply IHl].
Qed.

#[export] Instance json_eq_dec : EqDecision json.
Proof.
  intros x y.
  destruct (decide (json_tree x = json_tree y)) as [E|E]; [left|right; congruence].
  by rewrite <-(tree_json_tree x), E, tree_json_tree.
Defined.

#[export] Instance json_countable : Countable json :=
  inj_countable' json_tree tree_json tree_json_tree.

(** ** [json.dumps(v, separators=(",", ":"), ensure_ascii=False)] *)

(** Escapes of one byte of a string: the quote, the backslash and the control
    characters; everything else, non-ASCII included, is copied. *)
Definition json_esc (a : ascii) : string :=
  let n := N_of_ascii a in
  if (n =? 34)%N then String "\"%char (String a EmptyString)
  else if (n =? 92)%N then String "\"%char (String a EmptyString)
  else if (n =? 10)%N then "\n"
  else if (n =? 13)%N then "\r"
  else if (n =? 9)%N then "\t"
  else if (n =? 12)%N then "\f"
  else if (n =? 8)%N then "\b"
  else if (n <? 32)%N then "\u" +:+ hex 4 n
  else String a EmptyString.

Definition dquote : ascii := ascii_of_N 34.

Fixpoint json_escape (s : string) : string :=
  match s with
  | EmptyString => EmptyString
  | String a r => json_esc a +:+ json_escape r
  end.

Definition dumps_str (s : string) : string :=
  String dquote (json_escape s +:+ String dquote EmptyString).

Fixpoint dumps (j : json) : string :=
  match j with
  | JNull => "null"
  | JBool true => "true"
  | JBool false => "false"
  | JInt z => str_int z
  | JFloat r => r
  | JStr s => dumps_str s
  | JArr l => "[" +:+ join "," (dumps <$> l) +:+ "]"
  | JObj l =>
      "{" +:+ join "," ((λ kv, dumps_str kv.1 +:+ ":" +:+ dumps kv.2) <$> l) +:+ "}"
  end.

(** ** The encoding of strings is a prefix code *)

(** Reads one escaped byte back. *)
Definition json_unesc (s : string) : option (ascii * string) :=
  match s with
  | String "\"%char (String c r) =>
      if decide (c = dquote) then Some (dquote, r) else
      match c with
      | "\"%char => Some ("\"%char, r)
      | "n"%char => Some (ascii_of_N 10, r)
      | "r"%char => Some (ascii_of_N 13, r)
      | "t"%char => Some (ascii_of_N 9, r)
      | "f"%char => Some (ascii_of_N 12, r)
      | "b"%char => Some (ascii_of_N 8, r)
      | _ =>
        match r with
        | String _ (String _ (String x (String y r))) =>
            let d (a : ascii) := let n := N_of_ascii a in
                     if (n <? 58)%N then (n - 48)%N else (n - 87)%N in
            Some (ascii_of_N (16 * d x + d y), r)
        | _ => None
        end
      end
  | String c r => Some (c, r)
  | EmptyString => None
  end.

Lemma json_unesc_esc a r : json_unesc (json_esc a +:+ r) = Some (a, r).
Proof. by destruct a as [[] [] [] [] [] [] [] []]. Qed.

Lemma json_esc_not_quote a r s : json_esc a +:+ r ≠ String dquote s.
Proof. by destruct a as [[] [] [] [] [] [] [] []]. Qed.

Lemma json_escape_prefix s s' r r' :
  json_escape s +:+ String dquote r = json_escape s' +:+ String dquote r' →
  s = s' ∧ r = r'.
Proof.
  revert s'; induction s as [|a s IH]; intros [|b s']; simpl;
    rewrite ?app_str_assoc, ?app_nil_str.
  - by intros [= ->].
  - intros He. by destruct (json_esc_not_quote _ _ _ (eq_sym He)).
  - intros He. by destruct (json_esc_not_quote _ _ _ He).
  - intros He. assert (Some (a, json_escape s +:+ String dquote r) =
      Some (b, json_escape s' +:+ String dquote r')) as [= -> Hr]
      by (rewrite <-!json_unesc_esc; by f_equal).
    destruct (IH _ Hr) as [-> ->]. done.
Qed.

Lemma dumps_str_prefix s s' r r' :
  dumps_str s +:+ r = dumps_str s' +:+ r' → s = s' ∧ r = r'.
Proof.
  unfold dumps_str. rewrite !app_cons_str, !app_str_assoc, !app_cons_str, !app_nil_str.
  intros [= He]. by apply json_escape_prefix in He.
Qed.

(** A comma-separated list of codes that are prefix codes and never start with
    a bracket is decodable up to the closing bracket. *)
Lemma join_prefix {A} (f : A → string) :
  (∀ x y r r', f x +:+ r = f y +:+ r' → x = y ∧ r = r') →
  (∀ x r r', f x +:+ r ≠ String "]" r') →
  ∀ l l' r r',
  join "," (f <$> l) +:+ String "]" r = join "," (f <$> l') +:+ String "]" r' →
  l = l' ∧ r = r'.
Proof.
  intros Hf Hb. induction l as [|x l IH]; intros [|y l'] r r';
    rewrite ?fmap_cons, ?join_cons, ?app_str_assoc; intros He.
  - by injection He as ->.
  - by destruct (Hb _ _ _ (eq_sym He)).
  - by destruct (Hb _ _ _ He).
  - apply Hf in He as [-> He].
    destruct l as [|z l], l' as [|z' l']; try discriminate He; [by injection He as ->|].
    unfold join_tl in He. cbn [fmap list_fmap] in He.
    rewrite !app_str_assoc, !app_cons_str, !app_nil_str in He. injection He as He.
    by destruct (IH (z' :: l') r r' He) as [-> ->].
Qed.
