(* ===== verification/JsonParse.v ===== *)
(** * [json.loads]

    The parser of Python's [json] module on UTF-8 text, and the round trip with
    [dumps].  A number with a fraction or an exponent becomes the text [repr]
    gives the float it denotes: the conversion is the parameter [float_repr]
    (CPython's correctly rounded [float] and shortest [repr]), of which only
    idempotence is used.  Text with a lone surrogate escape, or with one of the
    literals NaN and Infinity, is outside the model and is not accepted. *)

From Stdlib Require Import Ascii.
From S2P Require Import Prelude PyStr Json.

(** [repr(float(text))] on the text of a JSON number. *)
Class FloatText := {
  float_repr : string → string;
  float_repr_idem : ∀ s, float_repr (float_repr s) = float_repr s;
}.

(** ** Lexical level *)

Definition json_ws (a : ascii) : bool :=
  let n := N_of_ascii a in ((n =? 32) || (n =? 9) || (n =? 10) || (n =? 13))%N.

Fixpoint skip_ws (s : string) : string :=
  match s with
  | String a r => if json_ws a then skip_ws r else s
  | EmptyString => s
  end.

Definition is_digit (a : ascii) : bool :=
  let n := N_of_ascii a in ((48 <=? n) && (n <=? 57))%N.

Fixpoint scan_digits (s : string) : string * string :=
  match s with
  | String a r =>
      if is_digit a then let '(d, r') := scan_digits r in (String a d, r') else (EmptyString, s)
  | EmptyString => (EmptyString, EmptyString)
  end.

Fixpoint digits_val (acc : N) (d : string) : N :=
  match d with
  | String a r => digits_val (10 * acc + (N_of_ascii a - 48)) r
  | EmptyString => acc
  end.

(** 0, or digits that do not start with 0, and the rest. *)
Definition scan_nat (s : string) : option (string * string) :=
  match scan_digits s with
  | (String a d, r) =>
      if decide (a = "0"%char) then Some ("0", d +:+ r) else Some (String a d, r)
  | (EmptyString, _) => None
  end.

(** An optional minus sign and the digits. *)
Definition scan_int (s : string) : option (bool * string * string) :=
  match strip_prefix "-" s with
  | Some s => '(d, r) ← scan_nat s; Some (true, d, r)
  | None => '(d, r) ← scan_nat s; Some (false, d, r)
  end.

(** The fraction: a dot and at least one digit, or nothing. *)
Definition scan_frac (s : string) : string * string :=
  match s with
  | String "."%char r =>
      match scan_digits r with
      | (EmptyString, _) => (EmptyString, s)
      | (d, r') => (String "."%char d, r')
      end
  | _ => (EmptyString, s)
  end.

(** The exponent, or nothing. *)
Definition scan_exp (s : string) : string * string :=
  match s with
  | String e r =>
      if decide (e = "e"%char ∨ e = "E"%char) then
        let '(sg, r1) := match r with
                         | String c r1 =>
                             if decide (c = "+"%char ∨ c = "-"%char)
                             then (String c EmptyString, r1) else (EmptyString, r)
                         | EmptyString => (EmptyString, r)
                         end in
        match scan_digits r1 with
        | (EmptyString, _) => (EmptyString, s)
        | (d, r2) => (String e (sg +:+ d), r2)
        end
      else (EmptyString, s)
  | EmptyString => (EmptyString, s)
  end.

Definition hex_val (a : ascii) : option N :=
  let n := N_of_ascii a in
  if ((48 <=? n) && (n <=? 57))%N then Some (n - 48)%N
  else if ((97 <=? n) && (n <=? 102))%N then Some (n - 87)%N
  else if ((65 <=? n) && (n <=? 70))%N then Some (n - 55)%N
  else None.

Definition hex4 (a b c d : ascii) : option N :=
  x ← hex_val a; y ← hex_val b; z ← hex_val c; w ← hex_val d;
  Some (4096 * x + 256 * y + 16 * z + w)%N.

(** UTF-8 encoding of one code point. *)
Definition utf8 (n : N) : string :=
  let c k := ascii_of_N k in
  (if n <? 128 then String (c n) EmptyString
   else if n <? 2048 then String (c (192 + n / 64)) (String (c (128 + n mod 64)) EmptyString)
   else if n <? 65536 then
     String (c (224 + n / 4096)) (String (c (128 + n / 64 mod 64))
       (String (c (128 + n mod 64)) EmptyString))
   else
     String (c (240 + n / 262144)) (String (c (128 + n / 4096 mod 64))
       (String (c (128 + n / 64 mod 64)) (String (c (128 + n mod 64)) EmptyString))))%N.

(** The characters of a string literal up to the closing quote. *)
Fixpoint scan_string (s : string) : option (string * string) :=
  match s with
  | EmptyString => None
  | String a r =>
      if decide (a = dquote) then Some (EmptyString, r)
      else if decide (a = "\"%char) then
        match r with
        | String e r1 =>
            let out (c : N) := '(t, r2) ← scan_string r1; Some (String (ascii_of_N c) t, r2) in
            if decide (e = dquote) then out 34%N else
            match e with
            | "\"%char => out 92%N
            | "/"%char => out 47%N
            | "b"%char => out 8%N
            | "f"%char => out 12%N
            | "n"%char => out 10%N
            | "r"%char => out 13%N
            | "t"%char => out 9%N
            | "u"%char =>
                match r1 with
                | String a1 (String a2 (String a3 (String a4 r2))) =>
                    match hex4 a1 a2 a3 a4 with
                    | Some n =>
                        if ((55296 <=? n) && (n <? 56320))%N then
                          match r2 with
                          | String "\"%char (String "u"%char
                              (String b1 (String b2 (String b3 (String b4 r3))))) =>
                              match hex4 b1 b2 b3 b4 with
                              | Some m =>
                                  if ((56320 <=? m) && (m <? 57344))%N then
                                    '(t, r4) ← scan_string r3;
                                    Some (utf8 (65536 + (n - 55296) * 1024 + (m - 56320)) +:+ t, r4)
                                  else None
                              | None => None
                              end
                          | _ => None
                          end
                        else if ((56320 <=? n) && (n <? 57344))%N then None
                        else '(t, r3) ← scan_string r2; Some (utf8 n +:+ t, r3)
                    | None => None
                    end
                | _ => None
                end
            | _ => None
            end
        | EmptyString => None
        end
      else if (N_of_ascii a <? 32)%N then None
      else '(t, r2) ← scan_string r; Some (String a t, r2)
  end.

(** [d[k] = v] on an insertion-ordered dict. *)
Fixpoint dict_set (k : string) (v : json) (d : list (string * json)) : list (string * json) :=
  match d with
  | [] => [(k, v)]
  | (k', v') :: d => if decide (k = k') then (k, v) :: d else (k', v') :: dict_set k v d
  end.

(** ** Grammar *)

Section parser.
Context `{!FloatText}.

Definition parse_number (s : string) : option (json * string) :=
  '(neg, d, r) ← scan_int s;
  let '(f, r1) := scan_frac r in
  let '(e, r2) := scan_exp r1 in
  let sgn := if (neg : bool) then "-" else EmptyString in
  if nonempty f || nonempty e then Some (JFloat (float_repr (sgn +:+ d +:+ f +:+ e)), r2)
  else let n := Z.of_N (digits_val 0 d) in Some (JInt (if neg then - n else n)%Z, r2).

(** Literals and numbers. *)
Definition parse_atom (s : string) : option (json * string) :=
  match strip_prefix "null" s, strip_prefix "true" s, strip_prefix "false" s with
  | Some r, _, _ => Some (JNull, r)
  | _, Some r, _ => Some (JBool true, r)
  | _, _, Some r => Some (JBool false, r)
  | _, _, _ => parse_number s
  end.

(** Each nested value consumes at least one unit of [fuel]; the length of the
    text is enough for any text. *)
Fixpoint parse_value (fuel : nat) (s : string) : option (json * string) :=
  match fuel with
  | O => None
  | S fuel =>
      match s with
      | String a r =>
          if decide (a = dquote) then '(t, r1) ← scan_string r; Some (JStr t, r1)
          else if decide (a = "["%char) then
            match strip_prefix "]" (skip_ws r) with
            | Some r1 => Some (JArr [], r1)
            | None => '(l, r2) ← parse_elems fuel (skip_ws r); Some (JArr l, r2)
            end
          else if decide (a = "{"%char) then
            match strip_prefix "}" (skip_ws r) with
            | Some r1 => Some (JObj [], r1)
            | None => '(d, r2) ← parse_members fuel [] (skip_ws r); Some (JObj d, r2)
            end
          else parse_atom s
      | EmptyString => None
      end
  end
with parse_elems (fuel : nat) (s : string) : option (list json * string) :=
  match fuel with
  | O => None
  | S fuel =>
      '(v, r) ← parse_value fuel s;
      match skip_ws r with
      | String c r1 =>
          if decide (c = ","%char) then
            '(l, r2) ← parse_elems fuel (skip_ws r1); Some (v :: l, r2)
          else if decide (c = "]"%char) then Some ([v], r1)
          else None
      | EmptyString => None
      end
  end
with parse_members (fuel : nat) (d : list (string * json)) (s : string) :
    option (list (string * json) * string) :=
  match fuel with
  | O => None
  | S fuel =>
      match s with
      | String q r =>
          if decide (q = dquote) then
            '(k, r0) ← scan_string r;
            match skip_ws r0 with
            | String ":"%char r1 =>
                '(v, r2) ← parse_value fuel (skip_ws r1);
                match skip_ws r2 with
                | String c r3 =>
                    if decide (c = ","%char) then
                      parse_members fuel (dict_set k v d) (skip_ws r3)
                    else if decide (c = "}"%char) then Some (dict_set k v d, r3)
                    else None
                | EmptyString => None
                end
            | _ => None
            end
          else None
      | EmptyString => None
      end
  end.

(** [json.loads(text)] *)
Definition loads (s : string) : option json :=
  '(j, r) ← parse_value (2 * String.length s + 1) (skip_ws s);
  match skip_ws r with EmptyString => Some j | _ => None end.
End parser.

(** ** Round trip *)

(** What may follow a value: nothing, or a separator or closing bracket. *)
Definition delim (s : string) : bool :=
  match s with
  | EmptyString => true
  | String c _ => bool_decide (c = ","%char ∨ c = "]"%char ∨ c = "}"%char)
  end.

Lemma scan_string_esc a t :
  scan_string (json_esc a +:+ t) = '(t', r) ← scan_string t; Some (String a t', r).
Proof. by destruct a as [[] [] [] [] [] [] [] []]. Qed.

Lemma scan_string_escape s r :
  scan_string (json_escape s +:+ String dquote r) = Some (s, r).
Proof.
  induction s as [|a s IH]; [done|]. cbn [json_escape].
  by rewrite app_str_assoc, scan_string_esc, IH.
Qed.

(** *** Integers *)

Fixpoint all_digits (s : string) : bool :=
  match s with String a r => is_digit a && all_digits r | EmptyString => true end.

Lemma digits_val_app acc d e :
  digits_val acc (d +:+ e) = digits_val (digits_val acc d) e.
Proof. revert acc; induction d as [|a d IH]; intros acc; [done|]. rewrite app_cons_str. apply IH. Qed.

Lemma digit_char n : (n < 10)%N →
  is_digit (ascii_of_N (48 + n)) = true ∧ (N_of_ascii (ascii_of_N (48 + n)) - 48 = n)%N ∧
  (ascii_of_N (48 + n) = "0"%char → n = 0%N).
Proof.
  intros Hn. destruct n as [|p]; [done|].
  do 4 (destruct p as [p|p|]; try done); exfalso; lia.
Qed.

(** The digits [dec_go] puts in front of its accumulator. *)
Definition digits_of (n : N) (d : string) : Prop :=
  all_digits d = true ∧ digits_val 0 d = n ∧
  ∃ a t, d = String a t ∧ (a = "0"%char → n = 0%N ∧ t = EmptyString).

Lemma all_digits_app d e : all_digits (d +:+ e) = all_digits d && all_digits e.
Proof.
  induction d as [|a d IH]; [done|]. rewrite app_cons_str. simpl. by rewrite IH, andb_assoc.
Qed.

Lemma dec_go_digits fuel n acc :
  (n < 10 ^ N.of_nat fuel)%N → fuel ≠ O →
  ∃ d, dec_go fuel n acc = d +:+ acc ∧ digits_of n d.
Proof.
  revert n acc. induction fuel as [|fuel IH]; intros n acc Hn Hf; [done|]. cbn [dec_go].
  destruct (digit_char (n mod 10)) as (D1 & D2 & D3); [by apply N.mod_lt|].
  destruct (N.ltb_spec n 10) as [Hlt|Hge].
  - exists (String (ascii_of_N (48 + n mod 10)) EmptyString). split; [done|].
    rewrite (N.mod_small n 10) in * by done. split; [simpl; by rewrite D1|]. split; [simpl; lia|].
    eexists _, _. split; [done|]. eauto.
  - destruct (IH (n / 10)%N (String (ascii_of_N (48 + n mod 10)) acc)) as (d & -> & Hd).
    + apply N.Div0.div_lt_upper_bound. by rewrite <-N.pow_succ_r', <-Nat2N.inj_succ.
    + intros ->. simpl in Hn. lia.
    + destruct Hd as (E1 & E2 & a & t & -> & Ha).
      exists (String a t +:+ String (ascii_of_N (48 + n mod 10)) EmptyString).
      split; [by rewrite app_str_assoc|]. split; [|split].
      * rewrite all_digits_app, E1. simpl. by rewrite D1.
      * rewrite digits_val_app, E2. simpl. rewrite D2. pose proof (N.div_mod n 10). lia.
      * rewrite app_cons_str. eexists _, _. split; [done|]. intros H0.
        destruct (Ha H0) as [Hz _]. apply N.div_small_iff in Hz; lia.
Qed.

Lemma str_int_digits z :
  ∃ d, str_int z = (if (z <? 0)%Z then String "-"%char d else d) ∧ digits_of (Z.abs_N z) d.
Proof.
  unfold str_int.
  destruct (dec_go_digits (S (N.size_nat (Z.abs_N z))) (Z.abs_N z) EmptyString)
    as (d & -> & Hd); [|done|].
  - eapply N.lt_le_trans; [apply N.size_gt|].
    trans (10 ^ N.size (Z.abs_N z))%N; [by apply N.pow_le_mono_l|].
    apply N.pow_le_mono_r; [done|]. rewrite Nat2N.inj_succ.
    assert (N.of_nat (N.size_nat (Z.abs_N z)) = N.size (Z.abs_N z)) as ->; [|lia].
    destruct (Z.abs_N z) as [|p]; simpl; [done|]. induction p; simpl; lia.
  - exists d. rewrite app_str_nil. done.
Qed.

Lemma scan_digits_delim d r :
  all_digits d = true → delim r = true → scan_digits (d +:+ r) = (d, r).
Proof.
  intros Hd Hr. induction d as [|a d IH].
  - rewrite app_nil_str. destruct r as [|c r]; [done|]. cbn in *.
    apply bool_decide_eq_true in Hr. by destruct Hr as [->|[->| ->]].
  - rewrite app_cons_str. cbn in *. apply andb_prop in Hd as [-> Hd].
    by rewrite (IH Hd).
Qed.

Lemma scan_frac_delim r : delim r = true → scan_frac r = (EmptyString, r).
Proof. destruct r as [|c r]; [done|]. intros Hr%bool_decide_eq_true. by destruct Hr as [->|[->| ->]]. Qed.

Lemma scan_exp_delim r : delim r = true → scan_exp r = (EmptyString, r).
Proof. destruct r as [|c r]; [done|]. intros Hr%bool_decide_eq_true. by destruct Hr as [->|[->| ->]]. Qed.

Lemma scan_nat_digits d n r :
  digits_of n d → delim r = true → scan_nat (d +:+ r) = Some (d, r).
Proof.
  intros (H1 & H2 & a & t & -> & Ha) Hr. unfold scan_nat.
  rewrite (scan_digits_delim _ _ H1 Hr). case_decide as Hz; [|done].
  subst a. by destruct (Ha eq_refl) as [_ ->].
Qed.

Lemma scan_int_digits d n r (neg : bool) :
  digits_of n d → delim r = true →
  scan_int ((if neg then String "-"%char d else d) +:+ r) = Some (neg, d, r).
Proof.
  intros Hd Hr. unfold scan_int. destruct neg.
  - change (String "-"%char d +:+ r) with ("-" +:+ (d +:+ r)).
    rewrite (proj2 (strip_prefix_Some "-" _ (d +:+ r)) eq_refl).
    by rewrite (scan_nat_digits _ _ _ Hd Hr).
  - destruct (strip_prefix "-" (d +:+ r)) eqn:E.
    + apply strip_prefix_Some in E. exfalso. destruct Hd as (H1 & _ & a & t & -> & _).
      rewrite app_cons_str in E. injection E as -> _. discriminate H1.
    + by rewrite (scan_nat_digits _ _ _ Hd Hr).
Qed.

(** *** Scanners on a longer text: what they read is unchanged by a delimiter
    and what follows it *)

Lemma scan_digits_app s d r1 r :
  scan_digits s = (d, r1) → delim r = true → scan_digits (s +:+ r) = (d, r1 +:+ r).
Proof.
  revert d; induction s as [|a s IH]; intros d Hs Hr.
  - injection Hs as <- <-. by apply (scan_digits_delim EmptyString).
  - rewrite app_cons_str. simpl in *. destruct (is_digit a).
    + destruct (scan_digits s) as [d' r'] eqn:E. injection Hs as <- <-.
      by rewrite (IH _ eq_refl Hr).
    + by injection Hs as <- <-.
Qed.

Lemma scan_digits_split s d r : scan_digits s = (d, r) → s = d +:+ r.
Proof.
  revert d; induction s as [|a s IH]; intros d; simpl; [by intros [= <- <-]|].
  destruct (is_digit a); [|by intros [= <- <-]].
  destruct (scan_digits s) as [d' r'] eqn:E. intros [= <- <-].
  rewrite app_cons_str. f_equal. by apply IH.
Qed.

Lemma scan_nat_app s d r1 r :
  scan_nat s = Some (d, r1) → delim r = true → scan_nat (s +:+ r) = Some (d, r1 +:+ r).
Proof.
  unfold scan_nat. destruct (scan_digits s) as [d' r'] eqn:E. intros Hs Hr.
  rewrite (scan_digits_app _ _ _ _ E Hr). destruct d' as [|a d']; [done|].
  case_decide; simplify_eq; by rewrite ?app_str_assoc.
Qed.

Lemma scan_nat_split s d r :
  scan_nat s = Some (d, r) → s = d +:+ r ∧ ∃ a t, s = String a t ∧ is_digit a = true.
Proof.
  unfold scan_nat. destruct (scan_digits s) as [[|a d'] r'] eqn:E; [done|]. intros Hs.
  split.
  - apply scan_digits_split in E as ->. case_decide; simplify_eq; done.
  - destruct s as [|b s]; [done|]. simpl in E. exists b, s. split; [done|].
    by destruct (is_digit b).
Qed.

Lemma scan_int_app s n d r1 r :
  scan_int s = Some (n, d, r1) → delim r = true → scan_int (s +:+ r) = Some (n, d, r1 +:+ r).
Proof.
  unfold scan_int. intros Hs Hr. destruct (strip_prefix "-" s) as [t|] eqn:E.
  - apply strip_prefix_Some in E as ->. rewrite app_str_assoc.
    rewrite (proj2 (strip_prefix_Some "-" _ (t +:+ r)) eq_refl).
    destruct (scan_nat t) as [[d' r']|] eqn:E; [|done]. cbn in Hs. simplify_eq.
    by rewrite (scan_nat_app _ _ _ _ E Hr).
  - destruct (scan_nat s) as [[d' r']|] eqn:E2; [|done].
    cbn in Hs. simplify_eq.
    destruct (scan_nat_split _ _ _ E2) as (_ & a & t & -> & Ha).
    destruct (strip_prefix "-" (String a t +:+ r)) eqn:E3.
    + apply strip_prefix_Some in E3. rewrite app_cons_str in E3.
      injection E3 as -> _. discriminate Ha.
    + by rewrite (scan_nat_app _ _ _ _ E2 Hr).
Qed.

(** The first character of a number. *)
Definition num_head (a : ascii) : bool := is_digit a || bool_decide (a = "-"%char).

Lemma scan_int_split s n d r :
  scan_int s = Some (n, d, r) →
  s = (if n then "-" else EmptyString) +:+ d +:+ r ∧
  ∃ a t, s = String a t ∧ num_head a = true.
Proof.
  unfold scan_int. destruct (strip_prefix "-" s) as [t|] eqn:E.
  - apply strip_prefix_Some in E as ->. intros Hs.
    destruct (scan_nat t) as [[d' r']|] eqn:E; [|done]. cbn in Hs. simplify_eq.
    apply scan_nat_split in E as [-> _]. split; [done|]. by eexists _, _.
  - intros Hs. destruct (scan_nat s) as [[d' r']|] eqn:E2; [|done].
    cbn in Hs. simplify_eq.
    apply scan_nat_split in E2 as (Hs & a & t & -> & Ha). split; [done|].
    exists a, t. split; [done|]. unfold num_head. by rewrite Ha.
Qed.

Lemma scan_frac_app s f r1 r :
  scan_frac s = (f, r1) → delim r = true → scan_frac (s +:+ r) = (f, r1 +:+ r).
Proof.
  intros Hs Hr. destruct s as [|a s].
  - injection Hs as <- <-. by apply scan_frac_delim.
  - rewrite app_cons_str.
    destruct (decide (a = "."%char)) as [->|Hn].
    + simpl in *. destruct (scan_digits s) as [d r'] eqn:E.
      rewrite (scan_digits_app _ _ _ _ E Hr). by destruct d; simplify_eq.
    + assert (∀ t, scan_frac (String a t) = (EmptyString, String a t)) as Hf.
      { intros t. clear -Hn. destruct a as [[] [] [] [] [] [] [] []]; done. }
      rewrite Hf in *. by simplify_eq.
Qed.

Lemma scan_frac_split s f r : scan_frac s = (f, r) → s = f +:+ r.
Proof.
  destruct s as [|a s]; [by intros [= <- <-]|].
  destruct (decide (a = "."%char)) as [->|Hn].
  - simpl. destruct (scan_digits s) as [[|b d] r'] eqn:E; intros [= <- <-]; [done|].
    apply scan_digits_split in E as ->. done.
  - assert (scan_frac (String a s) = (EmptyString, String a s)) as ->
      by (clear -Hn; destruct a as [[] [] [] [] [] [] [] []]; done).
    by intros [= <- <-].
Qed.

Lemma scan_exp_app s e r1 r :
  scan_exp s = (e, r1) → delim r = true → scan_exp (s +:+ r) = (e, r1 +:+ r).
Proof.
  intros Hs Hr. destruct s as [|a s]; [injection Hs as <- <-; by apply scan_exp_delim|].
  rewrite app_cons_str. simpl in *. case_decide as Ha; [|by simplify_eq].
  assert (∃ sg t, match s with
    | String c r1 => if decide (c = "+"%char ∨ c = "-"%char)
                     then (String c EmptyString, r1) else (EmptyString, s)
    | EmptyString => (EmptyString, s) end = (sg, t) ∧
    match s +:+ r with
    | String c r1 => if decide (c = "+"%char ∨ c = "-"%char)
                     then (String c EmptyString, r1) else (EmptyString, s +:+ r)
    | EmptyString => (EmptyString, s +:+ r) end = (sg, t +:+ r)) as (sg & t & E1 & E2).
  { destruct s as [|c s].
    - rewrite app_nil_str. eexists _, _. split; [done|]. destruct r as [|c r]; [done|].
      apply bool_decide_eq_true in Hr. by destruct Hr as [->|[->| ->]].
    - rewrite app_cons_str. case_decide; eexists _, _; done. }
  rewrite E1 in Hs. rewrite E2. destruct (scan_digits t) as [d r'] eqn:E.
  rewrite (scan_digits_app _ _ _ _ E Hr). by destruct d; simplify_eq.
Qed.

Lemma scan_exp_split s e r : scan_exp s = (e, r) → s = e +:+ r.
Proof.
  destruct s as [|a s]; [by intros [= <- <-]|]. simpl.
  case_decide; [|by intros [= <- <-]].
  assert (∃ sg t, match s with
    | String c r1 => if decide (c = "+"%char ∨ c = "-"%char)
                     then (String c EmptyString, r1) else (EmptyString, s)
    | EmptyString => (EmptyString, s) end = (sg, t) ∧ s = sg +:+ t) as (sg & t & -> & ->).
  { destruct s as [|c s]; [by eexists _, _|]. case_decide; by eexists _, _. }
  destruct (scan_digits t) as [[|b d] r'] eqn:E; intros [= <- <-]; [done|].
  apply scan_digits_split in E as ->. by rewrite ?app_cons_str, ?app_str_assoc.
Qed.

(** *** Well-formed documents *)

(** The text of a number with a fraction or an exponent, and nothing else. *)
Definition float_text (s : string) : bool :=
  match scan_int s with
  | Some (_, _, r) =>
      let '(f, r1) := scan_frac r in
      let '(e, r2) := scan_exp r1 in
      negb (nonempty r2) && (nonempty f || nonempty e)
  | None => false
  end.

Section roundtrip.
Context `{!FloatText}.

(** Floats carry their [repr], and every object has each key once. *)
Fixpoint json_wf (j : json) : Prop :=
  match j with
  | JFloat r => float_text r = true ∧ float_repr r = r
  | JArr l => foldr (λ x P, json_wf x ∧ P) True l
  | JObj l => NoDup l.*1 ∧ foldr (λ kv P, json_wf kv.2 ∧ P) True l
  | _ => True
  end.

(** Fuel that [parse_value] needs on the text of a document. *)
Fixpoint jfuel (j : json) : nat :=
  match j with
  | JArr l => S (foldr (λ x n, S (jfuel x + n)) 0 l)
  | JObj l => S (foldr (λ kv n, S (jfuel kv.2 + n)) 0 l)
  | _ => 1
  end%nat.

Lemma parse_number_app s j r :
  parse_number s = Some (j, EmptyString) → delim r = true →
  parse_number (s +:+ r) = Some (j, r).
Proof.
  unfold parse_number. intros Hs Hr.
  destruct (scan_int s) as [[[n d] r1]|] eqn:E1; [|done]. cbn in Hs.
  destruct (scan_frac r1) as [f r2] eqn:E2. destruct (scan_exp r2) as [e r3] eqn:E3.
  rewrite (scan_int_app _ _ _ _ _ E1 Hr). cbn.
  rewrite (scan_frac_app _ _ _ _ E2 Hr), (scan_exp_app _ _ _ _ E3 Hr).
  by destruct (nonempty f || nonempty e); simplify_eq.
Qed.

Lemma parse_number_int z : parse_number (str_int z) = Some (JInt z, EmptyString).
Proof.
  destruct (str_int_digits z) as (d & -> & Hd). unfold parse_number.
  pose proof (scan_int_digits d _ EmptyString (z <? 0)%Z Hd eq_refl) as Hs.
  rewrite app_str_nil in Hs. rewrite Hs. cbn.
  destruct Hd as (_ & -> & _). do 3 f_equal. destruct (Z.ltb_spec z 0); lia.
Qed.

Lemma parse_number_float s :
  float_text s = true → parse_number s = Some (JFloat (float_repr s), EmptyString).
Proof.
  unfold float_text, parse_number.
  destruct (scan_int s) as [[[n d] r1]|] eqn:E1; [|done]. cbn.
  destruct (scan_frac r1) as [f r2] eqn:E2. destruct (scan_exp r2) as [e r3] eqn:E3.
  intros [Hr Hne]%andb_prop. rewrite Hne. destruct r3; [|done].
  apply scan_int_split in E1 as [-> _]. apply scan_frac_split in E2 as ->.
  apply scan_exp_split in E3 as ->. by rewrite app_str_nil.
Qed.

(** A number starts with a digit or a minus sign. *)
Lemma parse_number_head s j r :
  parse_number s = Some (j, r) → ∃ a t, s = String a t ∧ num_head a = true.
Proof.
  unfold parse_number. destruct (scan_int s) as [[[n d] r1]|] eqn:E1; [|done].
  intros _. by apply scan_int_split in E1 as [_ ?].
Qed.

Lemma parse_value_number fuel s j r :
  parse_number s = Some (j, EmptyString) → delim r = true →
  parse_value (S fuel) (s +:+ r) = Some (j, r).
Proof.
  intros Hs Hr. destruct (parse_number_head _ _ _ Hs) as (a & t & -> & Ha).
  pose proof (parse_number_app _ _ _ Hs Hr) as Hp. rewrite app_cons_str in *.
  cbn [parse_value]. unfold parse_atom.
  by destruct a as [[] [] [] [] [] [] [] []]; try discriminate Ha.
Qed.

(** No value starts with whitespace or a closing bracket. *)
Definition open_head (s : string) : bool :=
  match s with
  | String a _ => negb (json_ws a) && bool_decide (a ≠ "]"%char ∧ a ≠ "}"%char)
  | EmptyString => false
  end.

Lemma num_head_open a t : num_head a = true → open_head (String a t) = true.
Proof. by destruct a as [[] [] [] [] [] [] [] []]. Qed.

Lemma open_head_dumps j r : json_wf j → open_head (dumps j +:+ r) = true.
Proof.
  destruct j as [|[]|z|s|s|l|l]; intros Hwf; try done.
  - destruct (parse_number_head _ _ _ (parse_number_int z)) as (a & t & Hz & Ha).
    cbn [dumps]. rewrite Hz, app_cons_str. by apply num_head_open.
  - destruct Hwf as [Hf _]. apply parse_number_float in Hf.
    destruct (parse_number_head _ _ _ Hf) as (a & t & -> & Ha).
    cbn [dumps]. rewrite app_cons_str. by apply num_head_open.
Qed.

Lemma skip_ws_open s : open_head s = true → skip_ws s = s.
Proof. destruct s as [|a s]; [done|]. simpl. by destruct (json_ws a). Qed.

Lemma open_head_no_bracket s :
  open_head s = true → strip_prefix "]" s = None ∧ strip_prefix "}" s = None.
Proof.
  destruct s as [|a s]; [done|]. cbn [open_head].
  intros [_ [H1 H2]%bool_decide_eq_true]%andb_prop. cbn [strip_prefix].
  by rewrite !decide_False.
Qed.

Lemma dict_set_fresh k v d : k ∉ d.*1 → dict_set k v d = d ++ [(k, v)].
Proof.
  induction d as [|[k' v'] d IH]; intros Hk; [done|]. cbn in *.
  apply not_elem_of_cons in Hk as [Hk Hk']. rewrite decide_False by done.
  by rewrite IH.
Qed.

(** What the parser does on the text of [j], followed by a delimiter. *)
Definition parses (j : json) : Prop :=
  json_wf j → ∀ fuel r, (jfuel j ≤ fuel)%nat → delim r = true →
  parse_value fuel (dumps j +:+ r) = Some (j, r).

Lemma parse_elems_dumps l fuel r :
  l ≠ [] → Forall parses l → json_wf (JArr l) →
  (foldr (λ x n, S (jfuel x + n)) 0 l ≤ fuel)%nat →
  parse_elems fuel (join "," (dumps <$> l) +:+ String "]" r) = Some (l, r).
Proof.
  revert fuel. induction l as [|x l IH]; intros fuel Hne HP Hwf Hfuel; [done|].
  apply list.Forall_cons in HP as [Hx HP]. destruct Hwf as [Hwx Hwf].
  cbn in Hfuel. destruct fuel as [|fuel]; [lia|].
  rewrite fmap_cons, join_cons, app_str_assoc. cbn [parse_elems].
  rewrite (Hx Hwx) by (lia || by destruct l). cbn.
  destruct l as [|y l]; [done|].
  assert (open_head (join "," (dumps <$> y :: l) +:+ String "]" r) = true) as Ho.
  { rewrite fmap_cons, join_cons, app_str_assoc. by apply open_head_dumps, Hwf. }
  pose proof (IH fuel ltac:(done) HP Hwf ltac:(lia)) as IH'.
  change (join_tl "," (dumps <$> y :: l)) with ("," +:+ join "," (dumps <$> y :: l)).
  rewrite app_str_assoc, app_cons_str, app_nil_str.
  revert Ho IH'. generalize (join "," (dumps <$> y :: l) +:+ String "]" r). intros t Ho IH'.
  change (skip_ws (String "," t)) with (String ","%char t). cbv iota beta.
  rewrite decide_True by done. by rewrite (skip_ws_open _ Ho), IH'.
Qed.

Lemma parse_members_dumps l d fuel r :
  l ≠ [] → Forall (λ kv, parses kv.2) l → json_wf (JObj (d ++ l)) →
  (foldr (λ kv n, S (jfuel kv.2 + n)) 0 l ≤ fuel)%nat →
  parse_members fuel d
    (join "," ((λ kv, dumps_str kv.1 +:+ ":" +:+ dumps kv.2) <$> l) +:+ String "}" r) =
  Some (d ++ l, r).
Proof.
  revert d fuel. induction l as [|[k x] l IH]; intros d fuel Hne HP Hwf Hfuel; [done|].
  apply list.Forall_cons in HP as [Hx HP]. change (parses x) in Hx.
  assert (json_wf x) as Hwx.
  { destruct Hwf as [_ Hwf]. rewrite foldr_app in Hwf.
    clear -Hwf. induction d; cbn in Hwf; naive_solver. }
  assert (k ∉ d.*1) as Hk.
  { destruct Hwf as [Hnd _]. rewrite fmap_app in Hnd. apply list.NoDup_app in Hnd.
    destruct Hnd as (_ & Hnd & _). intros Hin. apply (Hnd k Hin). by left. }
  cbn in Hfuel. destruct fuel as [|fuel]; [lia|].
  rewrite fmap_cons, join_cons, !app_str_assoc. unfold dumps_str at 1.
  rewrite app_cons_str, app_str_assoc, app_cons_str, app_nil_str.
  cbn [parse_members fst snd]. rewrite decide_True, scan_string_escape by done.
  cbn [mbind option_bind]. rewrite app_cons_str, app_nil_str.
  match goal with |- context [skip_ws (String ":" ?t)] =>
    change (skip_ws (String ":" t)) with (String ":"%char t) end. cbv iota beta.
  rewrite (skip_ws_open _ (open_head_dumps _ _ Hwx)).
  rewrite (Hx Hwx) by (lia || by destruct l). cbn [mbind option_bind].
  destruct l as [|[k' y] l]; [by rewrite (dict_set_fresh _ _ _ Hk)|].
  set (f := λ kv : string * json, dumps_str kv.1 +:+ ":" +:+ dumps kv.2) in *.
  assert (open_head (join "," (f <$> (k', y) :: l) +:+ String "}" r) = true) as Ho
    by (rewrite fmap_cons, join_cons; done).
  assert (parse_members fuel (d ++ [(k, x)]) (join "," (f <$> (k', y) :: l) +:+ String "}" r)
    = Some (d ++ (k, x) :: (k', y) :: l, r)) as IH'.
  { rewrite IH; rewrite <-?(assoc app); try done. lia. }
  change (join_tl "," (f <$> (k', y) :: l)) with ("," +:+ join "," (f <$> (k', y) :: l)).
  rewrite app_str_assoc, app_cons_str, app_nil_str.
  revert Ho IH'. generalize (join "," (f <$> (k', y) :: l) +:+ String "}" r). intros t Ho IH'.
  change (skip_ws (String "," t)) with (String ","%char t). cbv iota beta.
  rewrite decide_True by done. by rewrite (dict_set_fresh _ _ _ Hk), (skip_ws_open _ Ho), IH'.
Qed.

Lemma parses_dumps j : parses j.
Proof.
  induction j as [|b|z|s|s|l IH|l IH] using json_nested_ind; intros Hwf fuel r Hfuel Hr;
    (destruct fuel as [|fuel]; [cbn in Hfuel; lia|]).
  - done.
  - by destruct b.
  - by apply parse_value_number, Hr; apply parse_number_int.
  - destruct Hwf as [Hf Hfix]. apply parse_value_number, Hr.
    cbn [dumps]. by rewrite (parse_number_float _ Hf), Hfix.
  - cbn [dumps]. unfold dumps_str.
    rewrite app_cons_str, app_str_assoc, app_cons_str, app_nil_str.
    cbn [parse_value]. by rewrite decide_True, scan_string_escape.
  - cbn [dumps]. rewrite !app_str_assoc, app_cons_str, app_nil_str. cbn [parse_value].
    destruct l as [|x l]; [done|]. cbn in Hfuel.
    assert (open_head (join "," (dumps <$> x :: l) +:+ "]" +:+ r) = true) as Ho.
    { rewrite fmap_cons, join_cons, app_str_assoc. by apply open_head_dumps, Hwf. }
    rewrite decide_False, decide_True, (skip_ws_open _ Ho) by done.
    destruct (open_head_no_bracket _ Ho) as [-> _].
    change ("]" +:+ r) with (String "]"%char r).
    by rewrite parse_elems_dumps by (done || cbn; lia).
  - cbn [dumps]. rewrite !app_str_assoc, app_cons_str, app_nil_str. cbn [parse_value].
    destruct l as [|[k x] l]; [done|]. cbn in Hfuel.
    rewrite decide_False, decide_False, decide_True by done.
    set (f := λ kv : string * json, dumps_str kv.1 +:+ ":" +:+ dumps kv.2).
    assert (open_head (join "," (f <$> (k, x) :: l) +:+ "}" +:+ r) = true) as Ho
      by (rewrite fmap_cons, join_cons; done).
    rewrite (skip_ws_open _ Ho). destruct (open_head_no_bracket _ Ho) as [_ ->].
    unfold f. change ("}" +:+ r) with (String "}"%char r).
    by rewrite (parse_members_dumps _ []) by (done || cbn; lia).
Qed.

Lemma jfuel_elems_bound l :
  (∀ x, x ∈ l → 1 ≤ String.length (dumps x) ∧ jfuel x ≤ 2 * String.length (dumps x))%nat →
  (foldr (λ x n, S (jfuel x + n)) 0 l ≤ 2 * String.length (join "," (dumps <$> l)) + 1)%nat.
Proof.
  induction l as [|x l IH]; intros HP; [cbn; lia|].
  rewrite fmap_cons, join_cons, length_app_str. cbn [foldr].
  destruct (HP x ltac:(by left)) as [? ?].
  assert (∀ y, y ∈ l → 1 ≤ String.length (dumps y) ∧ jfuel y ≤ 2 * String.length (dumps y))%nat
    as HP' by (intros y Hy; apply HP; by right).
  specialize (IH HP'). destruct l as [|y l]; cbn [foldr fmap list_fmap join_tl] in *; [lia|].
  rewrite length_app_str. cbn [String.length]. lia.
Qed.

Lemma jfuel_members_bound l :
  (∀ kv, kv ∈ l → jfuel kv.2 ≤ 2 * String.length (dumps kv.2))%nat →
  (foldr (λ kv n, S (jfuel kv.2 + n)) 0 l ≤
   2 * String.length (join "," ((λ kv, dumps_str kv.1 +:+ ":" +:+ dumps kv.2) <$> l)))%nat.
Proof.
  induction l as [|[k x] l IH]; intros HP; [cbn; lia|].
  rewrite fmap_cons, join_cons, !length_app_str. cbn [foldr fst snd].
  specialize (HP (k, x) ltac:(by left)) as Hx. cbn [snd] in Hx.
  assert (∀ kv, kv ∈ l → jfuel kv.2 ≤ 2 * String.length (dumps kv.2))%nat as HP'
    by (intros y Hy; apply HP; by right).
  specialize (IH HP'). cbn [String.length] in *.
  destruct l as [|y l]; [cbn [foldr] in *; lia|]. cbn [join_tl fmap list_fmap].
  rewrite length_app_str. cbn [String.length fmap list_fmap] in *. lia.
Qed.

Lemma json_wf_arr l x : json_wf (JArr l) → x ∈ l → json_wf x.
Proof.
  intros Hwf Hx. induction Hx as [x l|x y l Hx IH]; destruct Hwf; [done|by apply IH].
Qed.

Lemma json_wf_obj l kv : json_wf (JObj l) → kv ∈ l → json_wf kv.2.
Proof.
  intros [_ Hwf] Hx. induction Hx as [x l|x y l Hx IH]; destruct Hwf; [done|by apply IH].
Qed.

Lemma dumps_length_pos j : json_wf j → (1 ≤ String.length (dumps j))%nat.
Proof.
  intros Hwf. pose proof (open_head_dumps j EmptyString Hwf) as Ho.
  rewrite app_str_nil in Ho. destruct (dumps j); simpl in *; [done|lia].
Qed.

(** The length of the text bounds the fuel: twice is enough. *)
Lemma jfuel_bound j : json_wf j → (jfuel j ≤ 2 * String.length (dumps j))%nat.
Proof.
  induction j as [|b|z|s|s|l IH|l IH] using json_nested_ind; intros Hwf;
    try (specialize (dumps_length_pos _ Hwf); cbn [jfuel]; lia).
  - cbn [dumps jfuel]. rewrite !length_app_str. cbn [String.length].
    assert (∀ x, x ∈ l → 1 ≤ String.length (dumps x) ∧ jfuel x ≤ 2 * String.length (dumps x))%nat
      as Hl.
    { intros x Hx. pose proof (json_wf_arr _ _ Hwf Hx).
      rewrite list.Forall_forall in IH. auto using dumps_length_pos. }
    apply jfuel_elems_bound in Hl. lia.
  - cbn [dumps jfuel]. rewrite !length_app_str. cbn [String.length].
    assert (∀ kv, kv ∈ l → jfuel kv.2 ≤ 2 * String.length (dumps kv.2))%nat as Hl.
    { intros kv Hx. rewrite list.Forall_forall in IH. eauto using json_wf_obj. }
    apply jfuel_members_bound in Hl. lia.
Qed.

Lemma loads_dumps_wf j : json_wf j → loads (dumps j) = Some j.
Proof.
  intros Hwf. unfold loads.
  pose proof (open_head_dumps j EmptyString Hwf) as Ho. rewrite app_str_nil in Ho.
  rewrite (skip_ws_open _ Ho).
  pose proof (parses_dumps j Hwf (2 * String.length (dumps j) + 1)%nat EmptyString) as Hp.
  rewrite app_str_nil in Hp. rewrite Hp; [done| |done].
  pose proof (jfuel_bound j Hwf). lia.
Qed.

(** [json.loads] reads back what [json.dumps] wrote: on every document
    whose floats carry their [repr] and whose objects have each key once, the
    parser succeeds on the compact text, within the fuel the text's length
    gives it, and returns the document. *)
Theorem loads_dumps (j : json) : json_wf j → loads (dumps j) = Some j.
Proof. apply loads_dumps_wf. Qed.

(** *** The text of a document has no control characters *)

Lemma visible_digits s d r : scan_digits s = (d, r) → str_forallb visible d = true.
Proof.
  revert d; induction s as [|a s IH]; intros d; simpl; [by intros [= <- <-]|].
  destruct (is_digit a) eqn:Ha; [|by intros [= <- <-]].
  destruct (scan_digits s) as [d' r'] eqn:E. intros [= <- <-]. simpl.
  rewrite (IH _ eq_refl), andb_true_r. by destruct a as [[] [] [] [] [] [] [] []].
Qed.

Lemma visible_nat s d r : scan_nat s = Some (d, r) → str_forallb visible d = true.
Proof.
  unfold scan_nat. destruct (scan_digits s) as [[|a d'] r'] eqn:E; [done|].
  apply visible_digits in E. case_decide; intros [= <- <-]; done.
Qed.

Lemma visible_int s n d r : scan_int s = Some (n, d, r) → str_forallb visible d = true.
Proof.
  unfold scan_int. destruct (strip_prefix "-" s) as [t|].
  - destruct (scan_nat t) as [[d' r']|] eqn:E; [|done]. apply visible_nat in E. cbn.
    by intros [= _ <- _].
  - destruct (scan_nat s) as [[d' r']|] eqn:E; [|done]. apply visible_nat in E. cbn.
    by intros [= _ <- _].
Qed.

Lemma visible_frac s f r : scan_frac s = (f, r) → str_forallb visible f = true.
Proof.
  destruct s as [|a s]; [by intros [= <- <-]|].
  destruct (decide (a = "."%char)) as [->|Hn].
  - simpl. destruct (scan_digits s) as [[|b d] r'] eqn:E; intros [= <- <-]; [done|].
    by apply visible_digits in E.
  - assert (scan_frac (String a s) = (EmptyString, String a s)) as ->
      by (clear -Hn; destruct a as [[] [] [] [] [] [] [] []]; done).
    by intros [= <- <-].
Qed.

Lemma visible_exp s e r : scan_exp s = (e, r) → str_forallb visible e = true.
Proof.
  destruct s as [|a s]; [by intros [= <- <-]|]. simpl. case_decide as Ha; [|by intros [= <- <-]].
  destruct (match s with
    | String c r1 => if decide (c = "+"%char ∨ c = "-"%char)
                     then (String c EmptyString, r1) else (EmptyString, s)
    | EmptyString => (EmptyString, s) end) as [sg t] eqn:Esg.
  assert (str_forallb visible sg = true) as Hsg.
  { destruct s as [|c s]; [by injection Esg as <- _|].
    case_decide as Hc; injection Esg as <- _; [|done]. by destruct Hc as [->| ->]. }
  destruct (scan_digits t) as [[|b d] r'] eqn:E; intros [= <- <-]; [done|].
  apply visible_digits in E. cbn [str_forallb]. rewrite str_forallb_app, Hsg, E.
  by destruct Ha as [->| ->].
Qed.

Lemma visible_float s : float_text s = true → str_forallb visible s = true.
Proof.
  unfold float_text. destruct (scan_int s) as [[[n d] r]|] eqn:E1; [|done].
  destruct (scan_frac r) as [f r1] eqn:E2. destruct (scan_exp r1) as [e r2] eqn:E3.
  intros [Hr _]%andb_prop. destruct r2; [|done].
  pose proof (visible_int _ _ _ _ E1) as V1. pose proof (visible_frac _ _ _ E2) as V2.
  pose proof (visible_exp _ _ _ E3) as V3.
  apply scan_int_split in E1 as [-> _]. apply scan_frac_split in E2 as ->.
  apply scan_exp_split in E3 as ->. rewrite !str_forallb_app.
  rewrite V1, V2, V3. by destruct n.
Qed.

Lemma visible_str_int z : str_forallb visible (str_int z) = true.
Proof.
  pose proof (parse_number_int z) as Hp. revert Hp. unfold parse_number.
  destruct (scan_int (str_int z)) as [[[n d] r]|] eqn:E1; [|done]. cbn.
  destruct (scan_frac r) as [f r1] eqn:E2. destruct (scan_exp r1) as [e r2] eqn:E3.
  pose proof (visible_int _ _ _ _ E1) as V1. pose proof (visible_frac _ _ _ E2) as V2.
  pose proof (visible_exp _ _ _ E3) as V3.
  apply scan_int_split in E1 as [-> _]. apply scan_frac_split in E2 as ->.
  apply scan_exp_split in E3 as ->. intros Hr.
  assert (r2 = EmptyString) as -> by (by repeat case_match; simplify_eq).
  rewrite !str_forallb_app, V1, V2, V3. by destruct n.
Qed.

Lemma visible_dumps_str s : str_forallb visible (dumps_str s) = true.
Proof.
  unfold dumps_str. cbn [str_forallb]. rewrite str_forallb_app.
  assert (str_forallb visible (json_escape s) = true) as ->; [|done].
  induction s as [|a s IH]; [done|]. cbn [json_escape]. rewrite str_forallb_app, IH.
  by destruct a as [[] [] [] [] [] [] [] []].
Qed.

Lemma visible_join l :
  Forall (λ s, str_forallb visible s = true) l → str_forallb visible (join "," l) = true.
Proof.
  induction 1 as [|x l Hx Hl IH]; [done|]. rewrite join_cons, str_forallb_app, Hx.
  unfold join_tl. destruct l; [done|]. rewrite str_forallb_app. by rewrite IH.
Qed.

Lemma visible_dumps j : json_wf j → str_forallb visible (dumps j) = true.
Proof.
  induction j as [|[]|z|r|s|l IH|l IH] using json_nested_ind; intros Hwf; try done.
  - apply visible_str_int.
  - by apply visible_float; destruct Hwf.
  - apply visible_dumps_str.
  - cbn [dumps]. rewrite !str_forallb_app, visible_join; [done|].
    apply list.Forall_forall. intros t (x & -> & Hx)%list_elem_of_fmap.
    rewrite list.Forall_forall in IH. apply IH; [done|]. by eapply json_wf_arr.
  - cbn [dumps]. rewrite !str_forallb_app, visible_join; [done|].
    apply list.Forall_forall. intros t (x & -> & Hx)%list_elem_of_fmap.
    rewrite !str_forallb_app, visible_dumps_str.
    rewrite list.Forall_forall in IH. rewrite IH; [done|done|]. by eapply json_wf_obj.
Qed.
End roundtrip.

(** A float conversion that keeps every text, for examples on documents whose
    floats are written as [repr] writes them. *)
Definition repr_text : FloatText := {| float_repr := λ s, s; float_repr_idem := λ s, eq_refl |}.

Definition sample_document : json :=
  JObj [("alert_id", JStr "142857301"); ("tags", JArr [JStr "env:prod"; JInt (-7); JFloat "34.2"]);
        ("org", JObj [("id", JNull); ("on", JBool true)])].

Lemma loads_dumps_witness : @loads repr_text (dumps sample_document) = Some sample_document.
Proof.
  apply (@loads_dumps repr_text). vm_compute. repeat split; try done;
    repeat (apply list.NoDup_cons; split; [set_solver|]); apply list.NoDup_nil; done.
Defined.

Example loads_escapes :
  @loads repr_text (" [ " +:+ dumps_str "a
" +:+ " , 1e5, {} ] ") =
  Some (JArr [JStr "a
"; JFloat "1e5"; JObj []]).
Proof. vm_compute. reflexivity. Qed.
