(* ===== verification/Fingerprint.v ===== *)
(** * The canonical incident fingerprint (contracts/fingerprint.py) *)

From Stdlib Require Import Ascii.
From S2P Require Import Prelude PyStr Sha256 Json.

(** Order of the two-element lists [[type, id]]. *)
Notation entity_le := (pair_le String.le String.le).

Definition sorted_entities (entities : list (string * string)) : list (string * string) :=
  sorted entity_le entities.

Definition canonical (source source_event_key : string)
    (entities : list (string * string)) : string :=
  dumps (JArr [JStr source; JStr source_event_key;
    JArr ((λ e, JArr [JStr e.1; JStr e.2]) <$> sorted_entities entities)]).

Definition event_fingerprint (source source_event_key : string)
    (entities : list (string * string)) : string :=
  sha256_hex (canonical source source_event_key entities).

(** ** Encoding *)

Definition entity_code (e : string * string) : string :=
  dumps (JArr [JStr e.1; JStr e.2]).

(** Peels the shared text of two equal codes off their front. *)
Local Ltac peel He :=
  repeat first [ apply (inj (String.app _)) in He
               | apply dumps_str_prefix in He as [-> He] ].

Lemma entity_code_prefix e e' r r' :
  entity_code e +:+ r = entity_code e' +:+ r' → e = e' ∧ r = r'.
Proof.
  destruct e as [t i], e' as [t' i']. unfold entity_code; cbn [dumps fmap list_fmap join fst snd].
  rewrite !app_str_assoc. intros He. peel He. done.
Qed.

(** The canonical text determines the identity it was made from. *)
Lemma canonical_inj src src' key key' es es' :
  canonical src key es = canonical src' key' es' →
  src = src' ∧ key = key' ∧ es ≡ₚ es'.
Proof.
  unfold canonical. cbn [dumps fmap list_fmap join].
  rewrite !app_str_assoc. intros He. peel He.
  rewrite <-!list_fmap_compose in He.
  apply (join_prefix entity_code) in He as [He _].
  - split; [done|]. split; [done|]. by apply sorted_eq_perm in He; [|apply _..].
  - apply entity_code_prefix.
  - done.
Qed.

(** Equal digests come from one identity or from a SHA-256 collision. *)
Lemma fingerprint_cases src src' key key' es es' :
  event_fingerprint src key es = event_fingerprint src' key' es' →
  (src = src' ∧ key = key' ∧ es ≡ₚ es') ∨
  (canonical src key es ≠ canonical src' key' es' ∧
   sha256_hex (canonical src key es) = sha256_hex (canonical src' key' es')).
Proof.
  intros He. destruct (decide (canonical src key es = canonical src' key' es')) as [Ec|Ec].
  - left. by apply canonical_inj.
  - by right.
Qed.

(** ** Properties *)

(** The caller's ordering of the entities cannot change an incident's
    fingerprint: [event_fingerprint] returns the same digest on every
    permutation of the [(type, id)] pairs. *)
Theorem fingerprint_order_irrelevant (source key : string) (es es' : list (string * string)) :
  es ≡ₚ es' → event_fingerprint source key es = event_fingerprint source key es'.
Proof.
  intros Hp. unfold event_fingerprint, canonical, sorted_entities.
  by rewrite (sorted_proper _ _ _ Hp).
Qed.

Lemma fingerprint_order_irrelevant_witness :
  event_fingerprint "grafana" "alert-42" [("service", "checkout"); ("host", "web-1")] =
  event_fingerprint "grafana" "alert-42" [("host", "web-1"); ("service", "checkout")].
Proof. apply fingerprint_order_irrelevant. constructor. Defined.

(** C24. Equal fingerprints mean equal identities, unless two different byte
    strings with one SHA-256 digest are at hand: when two events share a
    fingerprint, either they have the same source, the same source event key
    and the same entities (as a multiset), or their canonical encodings are a
    SHA-256 collision. *)
Theorem fingerprint_identity (src src' key key' : string) (es es' : list (string * string)) :
  event_fingerprint src key es = event_fingerprint src' key' es' →
  (src = src' ∧ key = key' ∧ es ≡ₚ es') ∨
  (canonical src key es ≠ canonical src' key' es' ∧
   sha256_hex (canonical src key es) = sha256_hex (canonical src' key' es')).
Proof. apply fingerprint_cases. Qed.

Lemma fingerprint_identity_witness :
  ("slack" = "slack" ∧ "k" = "k" ∧ [("a", "b"); ("c", "d")] ≡ₚ [("c", "d"); ("a", "b")]) ∨
  (canonical "slack" "k" [("a", "b"); ("c", "d")] ≠ canonical "slack" "k" [("c", "d"); ("a", "b")] ∧
   sha256_hex (canonical "slack" "k" [("a", "b"); ("c", "d")]) =
   sha256_hex (canonical "slack" "k" [("c", "d"); ("a", "b")])).
Proof. apply fingerprint_identity. vm_compute. reflexivity. Defined.

(** The byte encoding is pinned: the two digests that
    tests/contracts/test_fingerprint.py fixes are the ones the model computes,
    so the separators, the sort and the escaping are those of the code. *)
Theorem fingerprint_pinned :
  event_fingerprint "grafana" "alert-42" [("service", "checkout"); ("host", "web-1")] =
    "779f0b514e31fc4b83fa0d1dcad8c3498fe929e0c2a86b43d05bd4a41bda5e86" ∧
  event_fingerprint "slack" "1720000000.000100" [] =
    "47d459543eae27d1a6c61f0dae2e44f42eed9c6be2663ba7ec281f0e5210604f".
Proof. split; vm_compute; reflexivity. Qed.

Lemma event_fingerprint_Sha256Hex source key es :
  Sha256Hex (event_fingerprint source key es) = true.
Proof. apply sha256_hex_Sha256Hex. Qed.

#[export] Hint Resolve event_fingerprint_Sha256Hex : smoke.
