(* ===== verification/PyTime.v ===== *)
(** * Aware datetimes

    A timezone-aware [datetime] is an instant, in microseconds since the Unix
    epoch, and the UTC offset it was written with, in microseconds.  Aware
    datetimes compare by their instants. *)

From Stdlib Require Import Ascii.
From S2P Require Import Prelude PyStr.

Open Scope Z_scope.

Record datetime := DateTime { dt_us : Z; dt_offset : Z }.

#[export] Instance datetime_eq_dec : EqDecision datetime.
Proof. solve_decision. Defined.

#[export] Instance datetime_countable : Countable datetime :=
  inj_countable' (λ d, (dt_us d, dt_offset d)) (λ p, DateTime p.1 p.2)
    (λ d, match d with DateTime _ _ => eq_refl end).

(** [datetime.now(tz=UTC)] at an instant. *)
Definition utc (us : Z) : datetime := DateTime us 0.

Definition dt_le (a b : datetime) : bool := dt_us a <=? dt_us b.

(** [timedelta(minutes=m)] *)
Definition minutes (m : Z) : Z := m * 60 * 1000000.

(** ** The proleptic Gregorian calendar *)

(** Days since 1970-01-01 to (year, month, day): eras of 400 years counted from
    0000-03-01. *)
Definition civil_of_days (days : Z) : Z * Z * Z :=
  let z := days + 719468 in
  let era := z / 146097 in
  let doe := z mod 146097 in
  let yoe := (doe - doe / 1460 + doe / 36524 - doe / 146096) / 365 in
  let doy := doe - (365 * yoe + yoe / 4 - yoe / 100) in
  let mp := (5 * doy + 2) / 153 in
  let d := doy - (153 * mp + 2) / 5 + 1 in
  let m := if mp <? 10 then mp + 3 else mp - 9 in
  (yoe + era * 400 + (if m <=? 2 then 1 else 0), m, d).

(** Zero-padded decimal of a non-negative number. *)
Definition zpad (w : nat) (z : Z) : string :=
  let s := str_int z in
  String.app (Nat.iter (w - String.length s) (String "0"%char) EmptyString) s.

Definition iso_offset (off : Z) : string :=
  let a := Z.abs off in
  let secs := a / 1000000 in
  (if off <? 0 then "-" else "+") +:+
  zpad 2 (secs / 3600) +:+ ":" +:+ zpad 2 (secs / 60 mod 60) +:+
  (if (secs mod 60 =? 0) && (a mod 1000000 =? 0) then ""
   else ":" +:+ zpad 2 (secs mod 60)) +:+
  (if a mod 1000000 =? 0 then "" else "." +:+ zpad 6 (a mod 1000000)).

(** [d.isoformat()] *)
Definition isoformat (d : datetime) : string :=
  let local := dt_us d + dt_offset d in
  let day := local / 86400000000 in
  let us := local mod 86400000000 in
  let secs := us / 1000000 in
  let '(y, m, dd) := civil_of_days day in
  zpad 4 y +:+ "-" +:+ zpad 2 m +:+ "-" +:+ zpad 2 dd +:+ "T" +:+
  zpad 2 (secs / 3600) +:+ ":" +:+ zpad 2 (secs / 60 mod 60) +:+ ":" +:+
  zpad 2 (secs mod 60) +:+
  (if us mod 1000000 =? 0 then "" else "." +:+ zpad 6 (us mod 1000000)) +:+
  iso_offset (dt_offset d).

Example isoformat_fixture :
  isoformat (utc 1785090600000000) = "2026-07-26T18:30:00+00:00".
Proof. vm_compute. reflexivity. Qed.

Example isoformat_leap :
  isoformat (DateTime 951782400123000 (-19800000000)) = "2000-02-28T18:30:00.123000-05:30".
Proof. vm_compute. reflexivity. Qed.

(** ** Elapsed time through binary floating point

    [int(delta.total_seconds() * 1000)]: [total_seconds] divides the
    microseconds by 10^6 and the product rounds again, each time to the nearest
    double, ties to even. *)

(** [a / b] for positive integers as the double [m * 2^e], [m] of 53 bits. *)
Definition round_ratio (a b : Z) : Z * Z :=
  let e0 := Z.log2 a - Z.log2 b - 53 in
  let e := if a * 2 ^ Z.max 0 (- e0) <? b * 2 ^ Z.max 0 e0 * 2 ^ 53 then e0 else e0 + 1 in
  let num := a * 2 ^ Z.max 0 (- e) in
  let den := b * 2 ^ Z.max 0 e in
  let q := num / den in
  let r := num mod den in
  let up := (den <? 2 * r) || ((2 * r =? den) && Z.odd q) in
  (if up then q + 1 else q, e).

(** [int(x)] of a non-negative double. *)
Definition trunc_double (f : Z * Z) : Z :=
  if 0 <=? f.2 then f.1 * 2 ^ f.2 else f.1 / 2 ^ (- f.2).

(** The exponent leaves a quotient of at least 52 bits where it scales down. *)
Lemma round_ratio_scale a b : 0 < a → 0 < b →
  let e := (round_ratio a b).2 in 0 < e → 2 ^ 52 * (b * 2 ^ e) <= a.
Proof.
  intros Ha Hb. unfold round_ratio. cbn [snd].
  pose proof (Z.log2_spec a Ha) as [Ha1 _]. pose proof (Z.log2_spec b Hb) as [_ Hb2].
  pose proof (Z.log2_nonneg b). set (e0 := Z.log2 a - Z.log2 b - 53).
  destruct (_ <? _) eqn:E; intros He.
  - apply Z.le_trans with (2 ^ 52 * (2 ^ Z.succ (Z.log2 b) * 2 ^ e0)).
    + apply Z.mul_le_mono_nonneg_l; [lia|]. apply Z.mul_le_mono_nonneg_r; lia.
    + rewrite <-!Z.pow_add_r by lia.
      replace (52 + (Z.succ (Z.log2 b) + e0)) with (Z.log2 a) by lia. lia.
  - apply Z.ltb_ge in E. rewrite (Z.max_l 0 (- e0)), (Z.max_r 0 e0) in E by lia.
    rewrite Z.pow_add_r by lia. change (2 ^ 53) with (2 ^ 52 * 2) in E. nia.
Qed.

(** The mantissa is not below the exact quotient's floor. *)
Lemma round_ratio_floor a b :
  let '(m, e) := round_ratio a b in
  a * 2 ^ Z.max 0 (- e) / (b * 2 ^ Z.max 0 e) <= m.
Proof. unfold round_ratio. cbv zeta. destruct (_ || _); lia. Qed.

(** Rounding does not take a quotient below an integer it reaches. *)
Lemma trunc_round_ratio_ge a b n :
  0 < a → 0 < b → n <= 2 ^ 53 → n * b <= a → n <= trunc_double (round_ratio a b).
Proof.
  intros Ha Hb Hn Hnb. pose proof (round_ratio_scale a b Ha Hb) as Hs.
  pose proof (round_ratio_floor a b) as Hf. unfold trunc_double.
  destruct (round_ratio a b) as [m e]. cbn [fst snd] in *.
  destruct (0 <=? e) eqn:E.
  - apply Z.leb_le in E. rewrite (Z.max_l 0 (- e)), (Z.max_r 0 e) in Hf by lia.
    change (2 ^ 0) with 1 in Hf. rewrite Z.mul_1_r in Hf.
    destruct (decide (0 < e)) as [He|He].
    + specialize (Hs He). assert (2 ^ 52 <= a / (b * 2 ^ e)).
      { apply Z.div_le_lower_bound; [|lia]. assert (0 < 2 ^ e) by lia. nia. }
      assert (2 <= 2 ^ e). { change 2 with (2 ^ 1) at 1. apply Z.pow_le_mono_r; lia. }
      change (2 ^ 53) with (2 ^ 52 * 2) in Hn. nia.
    + replace e with 0 in * by lia. change (2 ^ 0) with 1 in *. rewrite Z.mul_1_r in *.
      trans (a / b); [|done]. apply Z.div_le_lower_bound; lia.
  - apply Z.leb_gt in E. rewrite (Z.max_r 0 (- e)), (Z.max_l 0 e) in Hf by lia.
    change (2 ^ 0) with 1 in Hf. rewrite Z.mul_1_r in Hf.
    assert (0 < 2 ^ (- e)) by (apply Z.pow_pos_nonneg; lia).
    apply Z.div_le_lower_bound; [done|]. trans (a * 2 ^ (- e) / b); [|done].
    apply Z.div_le_lower_bound; [done|]. nia.
Qed.

(** [int(timedelta(microseconds=d).total_seconds() * 1000)] *)
Definition elapsed_ms (d : Z) : Z :=
  if d =? 0 then 0 else
  let '(m, e) := round_ratio (Z.abs d) 1000000 in
  let p := round_ratio (m * 1000 * 2 ^ Z.max 0 e) (2 ^ Z.max 0 (- e)) in
  (if d <? 0 then -1 else 1) * trunc_double p.

(** 1.001 s is 1000.9999999999999 ms in doubles. *)
Example elapsed_ms_rounds :
  elapsed_ms <$> [1001000; 2001000; 1500; 999999; 1005000; 16001000; 123456789] =
  [1000; 2001; 1; 999; 1004; 16001; 123456].
Proof. vm_compute. reflexivity. Qed.
