(* ===== verification/Contracts.v ===== *)
(** * Boundary contracts (src/smokejumper/contracts)

    Every B-contract as a record with the constraints its pydantic model
    declares.  [construct] is the model's constructor: it returns the instance
    or raises ValidationError.  What pydantic itself does to turn a JSON value
    into a field (its coercions and its datetime text) is the interface
    [Pydantic]; which fields a model has, which are required, their bounds and
    the model validators are the source's. *)

From Stdlib Require Import Ascii.
From S2P Require Import Prelude PyStr Sha256 Json Fingerprint PyTime.

Open Scope Z_scope.

(** ** Numbers *)

(** A Python float: a finite [m * 2^e], an infinity or NaN. *)
Inductive pyfloat := FFin (m e : Z) | FInf (neg : bool) | FNaN.

#[export] Instance pyfloat_eq_dec : EqDecision pyfloat.
Proof. solve_decision. Defined.

(** [Field(ge=0.0, le=1.0)] *)
Definition unit_interval (f : pyfloat) : bool :=
  match f with
  | FFin m e => (0 <=? m) && (m * 2 ^ Z.max 0 e <=? 2 ^ Z.max 0 (- e))
  | FInf _ | FNaN => false
  end.

(** The doubles nearest to 1.0, 0.9 and 0.6. *)
Definition f1_0 : pyfloat := FFin 1 0.
Definition f0_9 : pyfloat := FFin 8106479329266893 (-53).
Definition f0_6 : pyfloat := FFin 5404319552844595 (-53).

(** A finite [Decimal], [coef * 10^exp]. *)
Record decimal := Dec { coef : Z; exp10 : Z }.
Definition dec_nonneg (d : decimal) : bool := 0 <=? coef d.

(** [Field(min_length=1)] *)
Definition min_length_1 (s : string) : bool := nonempty s.

(** ** The shared base (base.py) *)

Class Contract (A : Type) := {
  contract_name : string;
  schema_version : A → Z;
  fields_ok : A → bool;
}.

Section contract.
Context `{Contract A}.

Definition valid (a : A) : bool := (schema_version a =? 1) && fields_ok a.

Definition construct (a : A) : result exn A :=
  if valid a then Ok a else Raise (ValidationError contract_name).

Lemma construct_Ok a b : construct a = Ok b ↔ a = b ∧ valid a = true.
Proof. unfold construct. destruct (valid a); naive_solver. Qed.

Lemma construct_valid a : valid a = true → construct a = Ok a.
Proof. unfold construct. by intros ->. Qed.
End contract.

#[export] Hint Resolve construct_valid : smoke.

(** ** B2 AgentEvent (events.py) *)

Inductive EventSource :=
| GRAFANA | ALERTMANAGER | DATADOG | PAGERDUTY | GENERIC | SLACK | SCHEDULED.
Inductive EventKind := KALERT | KCHAT | KSCHEDULED | KSTORM.
Inductive Severity := CRITICAL | HIGH | MEDIUM | LOW | INFO.

#[export] Instance EventSource_eq_dec : EqDecision EventSource.
Proof. solve_decision. Defined.
#[export] Instance EventKind_eq_dec : EqDecision EventKind.
Proof. solve_decision. Defined.
#[export] Instance Severity_eq_dec : EqDecision Severity.
Proof. solve_decision. Defined.

Definition source_value (s : EventSource) : string :=
  match s with
  | GRAFANA => "grafana" | ALERTMANAGER => "alertmanager" | DATADOG => "datadog"
  | PAGERDUTY => "pagerduty" | GENERIC => "generic" | SLACK => "slack"
  | SCHEDULED => "scheduled"
  end.
Definition kind_value (k : EventKind) : string :=
  match k with
  | KALERT => "alert" | KCHAT => "chat" | KSCHEDULED => "scheduled" | KSTORM => "storm"
  end.
Definition severity_value (s : Severity) : string :=
  match s with
  | CRITICAL => "critical" | HIGH => "high" | MEDIUM => "medium" | LOW => "low"
  | INFO => "info"
  end.

(** [StrEnum(value)]: the member with that value. *)
Definition enum_of {E} (members : list E) (value : E → string) (s : string) : option E :=
  snd <$> list_find (λ m, value m = s) members.

Definition sources : list EventSource :=
  [GRAFANA; ALERTMANAGER; DATADOG; PAGERDUTY; GENERIC; SLACK; SCHEDULED].
Definition kinds : list EventKind := [KALERT; KCHAT; KSCHEDULED; KSTORM].
Definition severities : list Severity := [CRITICAL; HIGH; MEDIUM; LOW; INFO].

Definition source_of_value := enum_of sources source_value.
Definition kind_of_value := enum_of kinds kind_value.
Definition severity_of_value := enum_of severities severity_value.

Record Entity := mkEntity { en_version : Z; en_type : string; en_id : string }.

#[export] Instance Entity_eq_dec : EqDecision Entity.
Proof. solve_decision. Defined.

#[export] Instance Entity_contract : Contract Entity := {|
  contract_name := "Entity";
  schema_version := en_version;
  fields_ok e := min_length_1 (en_type e) && min_length_1 (en_id e);
|}.

Record AgentEvent := mkAgentEvent {
  ae_version : Z;
  ae_id : uuid;
  ae_source : EventSource;
  ae_kind : EventKind;
  ae_source_event_key : string;
  ae_fingerprint : string;
  ae_severity : Severity;
  ae_title : string;
  ae_body : string;
  ae_entities : list Entity;
  ae_occurred_at : datetime;
  ae_received_at : datetime;
  ae_dedupe_count : Z;
  ae_raw : list (string * json);
}.

#[export] Instance AgentEvent_eq_dec : EqDecision AgentEvent.
Proof. solve_decision. Defined.

(** [[(e.type, e.id) for e in entities]] *)
Definition entity_pairs (es : list Entity) : list (string * string) :=
  (λ e, (en_type e, en_id e)) <$> es.

(** The digest [_fingerprint_is_the_canonical_one] expects. *)
Definition expected_fingerprint (e : AgentEvent) : string :=
  event_fingerprint (source_value (ae_source e)) (ae_source_event_key e)
    (entity_pairs (ae_entities e)).

#[export] Instance AgentEvent_contract : Contract AgentEvent := {|
  contract_name := "AgentEvent";
  schema_version := ae_version;
  fields_ok e :=
    min_length_1 (ae_source_event_key e) && Sha256Hex (ae_fingerprint e) &&
    forallb valid (ae_entities e) && (1 <=? ae_dedupe_count e) &&
    bool_decide (ae_fingerprint e = expected_fingerprint e);
|}.

(** ** B11 Assignment and Finding (assignments.py) *)

Record Budget := mkBudget { bu_version : Z; bu_tool_calls : Z; bu_tokens : Z }.
#[export] Instance Budget_eq_dec : EqDecision Budget.
Proof. solve_decision. Defined.
#[export] Instance Budget_contract : Contract Budget := {|
  contract_name := "Budget";
  schema_version := bu_version;
  fields_ok b := (0 <=? bu_tool_calls b) && (0 <=? bu_tokens b);
|}.

Record Assignment := mkAssignment {
  as_version : Z; as_agent : string; as_question : string; as_context_slice : string;
  as_budget : Budget;
}.
#[export] Instance Assignment_contract : Contract Assignment := {|
  contract_name := "Assignment";
  schema_version := as_version;
  fields_ok a :=
    min_length_1 (as_agent a) && min_length_1 (as_question a) && valid (as_budget a);
|}.

Record Finding := mkFinding {
  fi_version : Z; fi_agent : string; fi_hypothesis : string; fi_evidence : list string;
  fi_confidence : pyfloat; fi_budget_spent : Budget;
}.
#[export] Instance Finding_eq_dec : EqDecision Finding.
Proof. solve_decision. Defined.
#[export] Instance Finding_contract : Contract Finding := {|
  contract_name := "Finding";
  schema_version := fi_version;
  fields_ok f :=
    min_length_1 (fi_agent f) && unit_interval (fi_confidence f) && valid (fi_budget_spent f);
|}.

(** ** B6 Conclusion (conclusions.py) *)

Inductive ConclusionStatus := ROOT_CAUSED | MITIGATED | INCONCLUSIVE | NEEDS_HUMAN.
#[export] Instance ConclusionStatus_eq_dec : EqDecision ConclusionStatus.
Proof. solve_decision. Defined.

Definition status_value (s : ConclusionStatus) : string :=
  match s with
  | ROOT_CAUSED => "root_caused" | MITIGATED => "mitigated"
  | INCONCLUSIVE => "inconclusive" | NEEDS_HUMAN => "needs_human"
  end.

Record Conclusion := mkConclusion {
  co_version : Z;
  co_run_id : uuid;
  co_fingerprint : string;
  co_status : ConclusionStatus;
  co_confidence : pyfloat;
  co_summary_md : string;
  co_findings : list Finding;
  co_evidence_refs : list string;
  co_proposed_actions : list string;
  co_tokens_spent : Z;
  co_wall_ms : Z;
}.
#[export] Instance Conclusion_eq_dec : EqDecision Conclusion.
Proof. solve_decision. Defined.
#[export] Instance Conclusion_contract : Contract Conclusion := {|
  contract_name := "Conclusion";
  schema_version := co_version;
  fields_ok c :=
    Sha256Hex (co_fingerprint c) && unit_interval (co_confidence c) &&
    forallb valid (co_findings c) && (0 <=? co_tokens_spent c) && (0 <=? co_wall_ms c);
|}.

(** ** B9 DistillationCandidate (distillation.py) *)

Record DistillationCandidate := mkDistillationCandidate {
  dc_version : Z; dc_run_id : uuid; dc_fingerprint : string; dc_conclusion : Conclusion;
  dc_closed_at : datetime;
}.
#[export] Instance DistillationCandidate_contract : Contract DistillationCandidate := {|
  contract_name := "DistillationCandidate";
  schema_version := dc_version;
  fields_ok d := Sha256Hex (dc_fingerprint d) && valid (dc_conclusion d);
|}.

(** ** B3 KnowledgeBundle (knowledge.py) *)

Record KnowledgeItem := mkKnowledgeItem {
  ki_version : Z; ki_content : string; ki_source_ref : string; ki_valid_at : datetime;
  ki_recorded_at : datetime; ki_score : pyfloat;
}.
#[export] Instance KnowledgeItem_contract : Contract KnowledgeItem := {|
  contract_name := "KnowledgeItem";
  schema_version := ki_version;
  fields_ok k := min_length_1 (ki_source_ref k);
|}.

Record KnowledgeBundle := mkKnowledgeBundle {
  kb_version : Z; kb_episodes : list KnowledgeItem; kb_graph_paths : list KnowledgeItem;
  kb_recipes : list KnowledgeItem; kb_federated : list KnowledgeItem; kb_tokens_used : Z;
}.
#[export] Instance KnowledgeBundle_contract : Contract KnowledgeBundle := {|
  contract_name := "KnowledgeBundle";
  schema_version := kb_version;
  fields_ok b :=
    forallb valid (kb_episodes b) && forallb valid (kb_graph_paths b) &&
    forallb valid (kb_recipes b) && forallb valid (kb_federated b) && (0 <=? kb_tokens_used b);
|}.

(** ** Ticketing models (ticketing.py) *)

Inductive TicketProvider := LINEAR | GITHUB | JIRA | ASANA.
#[export] Instance TicketProvider_eq_dec : EqDecision TicketProvider.
Proof. solve_decision. Defined.

Record TicketRef := mkTicketRef {
  tr_version : Z; tr_provider : TicketProvider; tr_external_id : string; tr_url : option string;
}.
#[export] Instance TicketRef_eq_dec : EqDecision TicketRef.
Proof. solve_decision. Defined.
#[export] Instance TicketRef_contract : Contract TicketRef := {|
  contract_name := "TicketRef";
  schema_version := tr_version;
  fields_ok t := min_length_1 (tr_external_id t);
|}.

Record TicketDraft := mkTicketDraft {
  td_version : Z; td_fingerprint : string; td_run_id : uuid; td_title : string;
  td_body_md : string;
}.
#[export] Instance TicketDraft_contract : Contract TicketDraft := {|
  contract_name := "TicketDraft";
  schema_version := td_version;
  fields_ok t := Sha256Hex (td_fingerprint t) && min_length_1 (td_title t);
|}.

Record TicketUpdate := mkTicketUpdate {
  tu_version : Z; tu_run_id : uuid; tu_comment_md : string; tu_status : option ConclusionStatus;
}.
#[export] Instance TicketUpdate_contract : Contract TicketUpdate := {|
  contract_name := "TicketUpdate";
  schema_version := tu_version;
  fields_ok _ := true;
|}.

(** ** B4 ToolCall and ToolResult (tools.py) *)

Inductive ToolTier := READ | PRIVILEGED.
#[export] Instance ToolTier_eq_dec : EqDecision ToolTier.
Proof. solve_decision. Defined.

Record ToolCall := mkToolCall {
  tc_version : Z; tc_run_id : uuid; tc_agent : string; tc_tool : string;
  tc_args : list (string * json); tc_tier : ToolTier;
}.
#[export] Instance ToolCall_contract : Contract ToolCall := {|
  contract_name := "ToolCall";
  schema_version := tc_version;
  fields_ok t := min_length_1 (tc_agent t) && min_length_1 (tc_tool t);
|}.

(** [value] is a JsonValue whose [None] is JSON null. *)
Record ToolResult := mkToolResult {
  tl_version : Z; tl_ok : bool; tl_value : json; tl_error : option string;
  tl_latency_ms : Z; tl_cost : decimal;
}.

(** [x is None] *)
Definition is_null (j : json) : bool := match j with JNull => true | _ => false end.
Definition is_none {A} (o : option A) : bool := match o with None => true | _ => false end.

Definition exactly_one_outcome (t : ToolResult) : bool :=
  negb (eqb (is_null (tl_value t)) (is_none (tl_error t))) &&
  eqb (tl_ok t) (is_none (tl_error t)).

#[export] Instance ToolResult_contract : Contract ToolResult := {|
  contract_name := "ToolResult";
  schema_version := tl_version;
  fields_ok t :=
    (0 <=? tl_latency_ms t) && dec_nonneg (tl_cost t) && exactly_one_outcome t;
|}.

(** ** B5 ApprovalRequest and ApprovalDecision (approvals.py) *)

Record ApprovalRequest := mkApprovalRequest {
  ar_version : Z; ar_id : uuid; ar_run_id : uuid; ar_channel_id : string;
  ar_message_ts : string; ar_thread_ts : string; ar_tool_call : ToolCall;
  ar_tool_call_sha256 : string; ar_reason : string; ar_requested_at : datetime;
  ar_expires_at : datetime;
}.

Definition approvable_and_expiring (a : ApprovalRequest) : bool :=
  bool_decide (tc_tier (ar_tool_call a) = PRIVILEGED) &&
  negb (dt_le (ar_expires_at a) (ar_requested_at a)).

#[export] Instance ApprovalRequest_contract : Contract ApprovalRequest := {|
  contract_name := "ApprovalRequest";
  schema_version := ar_version;
  fields_ok a :=
    min_length_1 (ar_channel_id a) && min_length_1 (ar_message_ts a) &&
    min_length_1 (ar_thread_ts a) && valid (ar_tool_call a) &&
    Sha256Hex (ar_tool_call_sha256 a) && approvable_and_expiring a;
|}.

Record ApprovalDecision := mkApprovalDecision {
  ad_version : Z; ad_approved : bool; ad_decided_by : string; ad_decided_at : datetime;
  ad_token : string;
}.
#[export] Instance ApprovalDecision_contract : Contract ApprovalDecision := {|
  contract_name := "ApprovalDecision";
  schema_version := ad_version;
  fields_ok a := min_length_1 (ad_decided_by a) && min_length_1 (ad_token a);
|}.
