(* ===== verification/Wire.v ===== *)
(** * Contracts as JSON: [model_dump] and [model_validate]

    The JSON form of the contracts that cross a queue, a table or the audit
    file, and the validators that read them back.  Field names, order,
    defaults, [extra="forbid"] and the model validators are the source's; how
    pydantic coerces one JSON value to a field type and how it writes a
    datetime or a float is the interface [Pydantic]. *)

From Stdlib Require Import Ascii.
From S2P Require Import Prelude PyStr Sha256 Json JsonParse Fingerprint PyTime Contracts.

Open Scope Z_scope.

(** Datetimes whose text carries them whole: the years 1 to 9999 and an offset
    of whole minutes below one day. *)
Definition dt_ok (d : datetime) : Prop :=
  -62135596800000000 <= dt_us d + dt_offset d <= 253402300799999999 ∧
  Z.abs (dt_offset d) < 86400000000 ∧ dt_offset d mod 60000000 = 0.

(** A UUID has 128 bits. *)
Definition uuid_ok (u : uuid) : Prop := (u < 2 ^ 128)%N.

(** What pydantic promises: each coercion accepts the JSON form of its own
    type, and reads a datetime it wrote. *)
Class Pydantic := {
  lit_one : json → bool;                 (** [Literal[1]] *)
  as_str : json → option string;
  as_int : json → option Z;
  as_decimal : json → option decimal;
  as_uuid : json → option uuid;
  as_datetime : json → option datetime;
  dump_datetime : datetime → string;
  dump_float : pyfloat → json;
  lit_one_1 : lit_one (JInt 1) = true;
  as_str_str : ∀ s, as_str (JStr s) = Some s;
  as_int_int : ∀ z, as_int (JInt z) = Some z;
  as_uuid_str : ∀ u, uuid_ok u → as_uuid (JStr (uuid_str u)) = Some u;
  (** A float is written as a number, or as null when it is not finite. *)
  dump_float_scalar : ∀ f, match dump_float f with
                           | JInt _ | JFloat _ | JNull => True | _ => False end;
  as_datetime_dump : ∀ d, dt_ok d → as_datetime (JStr (dump_datetime d)) = Some d;
}.

(** [d.get(k)] on a parsed object *)
Fixpoint dget (k : string) (d : list (string * json)) : option json :=
  match d with
  | [] => None
  | (k', v) :: d => if String.eqb k k' then Some v else dget k d
  end.

(** [extra="forbid"] *)
Definition no_extra (allowed : list string) (d : list (string * json)) : bool :=
  forallb (λ kv, existsb (String.eqb kv.1) allowed) d.

Definition as_list {A} (f : json → option A) (j : json) : option (list A) :=
  match j with JArr l => mapM f l | _ => None end.
Definition as_dict (j : json) : option (list (string * json)) :=
  match j with JObj d => Some d | _ => None end.
Definition as_enum {E} (of_value : string → option E) (j : json) : option E :=
  match j with JStr s => of_value s | _ => None end.
(** A field with a default. *)
Definition with_default {A} (dflt : A) (f : json → option A) (o : option json) : option A :=
  match o with None => Some dflt | Some j => f j end.

Section wire.
Context `{!Pydantic}.

Definition version_field (d : list (string * json)) : option Z :=
  v ← dget "schema_version" d; if lit_one v then Some 1 else None.

(** *** Entity and AgentEvent *)

Definition entity_json (e : Entity) : json :=
  JObj [("schema_version", JInt (en_version e)); ("type", JStr (en_type e));
        ("id", JStr (en_id e))].

Definition entity_of_json (j : json) : option Entity :=
  d ← as_dict j;
  v ← version_field d;
  t ← dget "type" d ≫= as_str;
  i ← dget "id" d ≫= as_str;
  let e := mkEntity v t i in
  if no_extra ["schema_version"; "type"; "id"] d && valid e then Some e else None.

(** [event.model_dump(mode="json")] *)
Definition event_json (e : AgentEvent) : json :=
  JObj [("schema_version", JInt (ae_version e));
        ("id", JStr (uuid_str (ae_id e)));
        ("source", JStr (source_value (ae_source e)));
        ("kind", JStr (kind_value (ae_kind e)));
        ("source_event_key", JStr (ae_source_event_key e));
        ("fingerprint", JStr (ae_fingerprint e));
        ("severity", JStr (severity_value (ae_severity e)));
        ("title", JStr (ae_title e));
        ("body", JStr (ae_body e));
        ("entities", JArr (entity_json <$> ae_entities e));
        ("occurred_at", JStr (dump_datetime (ae_occurred_at e)));
        ("received_at", JStr (dump_datetime (ae_received_at e)));
        ("dedupe_count", JInt (ae_dedupe_count e));
        ("raw", JObj (ae_raw e))].

Definition event_fields : list string :=
  ["schema_version"; "id"; "source"; "kind"; "source_event_key"; "fingerprint"; "severity";
   "title"; "body"; "entities"; "occurred_at"; "received_at"; "dedupe_count"; "raw"].

Definition event_of_json (j : json) : option AgentEvent :=
  d ← as_dict j;
  v ← version_field d;
  id ← dget "id" d ≫= as_uuid;
  src ← dget "source" d ≫= as_enum source_of_value;
  knd ← dget "kind" d ≫= as_enum kind_of_value;
  key ← dget "source_event_key" d ≫= as_str;
  fp ← dget "fingerprint" d ≫= as_str;
  sev ← dget "severity" d ≫= as_enum severity_of_value;
  title ← dget "title" d ≫= as_str;
  body ← dget "body" d ≫= as_str;
  ents ← with_default [] (as_list entity_of_json) (dget "entities" d);
  occ ← dget "occurred_at" d ≫= as_datetime;
  rcv ← dget "received_at" d ≫= as_datetime;
  cnt ← with_default 1 as_int (dget "dedupe_count" d);
  raw ← with_default [] as_dict (dget "raw" d);
  let e := mkAgentEvent v id src knd key fp sev title body ents occ rcv cnt raw in
  if no_extra event_fields d && valid e then Some e else None.

(** [AgentEvent.model_validate(payload)] *)
Definition model_validate_event (j : json) : result exn AgentEvent :=
  match event_of_json j with
  | Some e => Ok e
  | None => Raise (ValidationError "AgentEvent")
  end.

(** *** Conclusion *)

Definition budget_json (b : Budget) : json :=
  JObj [("schema_version", JInt (bu_version b)); ("tool_calls", JInt (bu_tool_calls b));
        ("tokens", JInt (bu_tokens b))].

Definition finding_json (f : Finding) : json :=
  JObj [("schema_version", JInt (fi_version f)); ("agent", JStr (fi_agent f));
        ("hypothesis", JStr (fi_hypothesis f)); ("evidence", JArr (JStr <$> fi_evidence f));
        ("confidence", dump_float (fi_confidence f));
        ("budget_spent", budget_json (fi_budget_spent f))].

(** [conclusion.model_dump_json()] as a document *)
Definition conclusion_json (c : Conclusion) : json :=
  JObj [("schema_version", JInt (co_version c));
        ("run_id", JStr (uuid_str (co_run_id c)));
        ("fingerprint", JStr (co_fingerprint c));
        ("status", JStr (status_value (co_status c)));
        ("confidence", dump_float (co_confidence c));
        ("summary_md", JStr (co_summary_md c));
        ("findings", JArr (finding_json <$> co_findings c));
        ("evidence_refs", JArr (JStr <$> co_evidence_refs c));
        ("proposed_actions", JArr (JStr <$> co_proposed_actions c));
        ("tokens_spent", JInt (co_tokens_spent c));
        ("wall_ms", JInt (co_wall_ms c))].
End wire.

(** ** B8 AuditEvent (audit.py) *)

Inductive AuditKind := AEVENT | ATRANSITION | ALLM_CALL | ATOOL_CALL | AGATE | AACTION.
#[export] Instance AuditKind_eq_dec : EqDecision AuditKind.
Proof. solve_decision. Defined.

Definition audit_kind_value (k : AuditKind) : string :=
  match k with
  | AEVENT => "event" | ATRANSITION => "transition" | ALLM_CALL => "llm_call"
  | ATOOL_CALL => "tool_call" | AGATE => "gate" | AACTION => "action"
  end.

Record TokenUsage := mkTokenUsage { us_version : Z; us_input_tokens : Z; us_output_tokens : Z }.
#[export] Instance TokenUsage_contract : Contract TokenUsage := {|
  contract_name := "TokenUsage";
  schema_version := us_version;
  fields_ok u := (0 <=? us_input_tokens u) && (0 <=? us_output_tokens u);
|}.

Record LlmCallPayload := mkLlmCallPayload {
  lp_version : Z; lp_prompt_ref : string; lp_prompt_sha256 : string; lp_model : string;
  lp_request_sha256 : string; lp_response : json; lp_usage : TokenUsage;
  lp_cost_usd : decimal; lp_latency_ms : Z;
}.
#[export] Instance LlmCallPayload_contract : Contract LlmCallPayload := {|
  contract_name := "LlmCallPayload";
  schema_version := lp_version;
  fields_ok p :=
    min_length_1 (lp_prompt_ref p) && Sha256Hex (lp_prompt_sha256 p) &&
    min_length_1 (lp_model p) && Sha256Hex (lp_request_sha256 p) && valid (lp_usage p) &&
    dec_nonneg (lp_cost_usd p) && (0 <=? lp_latency_ms p);
|}.

Record AuditEvent := mkAuditEvent {
  au_version : Z; au_run_id : uuid; au_seq : Z; au_ts : datetime; au_actor : string;
  au_kind : AuditKind; au_payload : list (string * json);
}.

Section audit.
Context `{!Pydantic}.

Definition usage_of_json (j : json) : option TokenUsage :=
  d ← as_dict j;
  v ← version_field d;
  i ← dget "input_tokens" d ≫= as_int;
  o ← dget "output_tokens" d ≫= as_int;
  let u := mkTokenUsage v i o in
  if no_extra ["schema_version"; "input_tokens"; "output_tokens"] d && valid u
  then Some u else None.

(** [LlmCallPayload.model_validate(payload)]; unknown fields are ignored. *)
Definition llm_payload_of_json (d : list (string * json)) : option LlmCallPayload :=
  v ← version_field d;
  pr ← dget "prompt_ref" d ≫= as_str;
  ps ← dget "prompt_sha256" d ≫= as_str;
  m ← dget "model" d ≫= as_str;
  rs ← dget "request_sha256" d ≫= as_str;
  resp ← dget "response" d;
  u ← dget "usage" d ≫= usage_of_json;
  c ← dget "cost_usd" d ≫= as_decimal;
  l ← dget "latency_ms" d ≫= as_int;
  let p := mkLlmCallPayload v pr ps m rs resp u c l in
  if valid p then Some p else None.

(** [_llm_calls_are_attributable] *)
Definition llm_calls_are_attributable (a : AuditEvent) : bool :=
  match au_kind a with
  | ALLM_CALL => negb (is_none (llm_payload_of_json (au_payload a)))
  | _ => true
  end.

#[export] Instance AuditEvent_contract : Contract AuditEvent := {|
  contract_name := "AuditEvent";
  schema_version := au_version;
  fields_ok a :=
    (0 <=? au_seq a) && min_length_1 (au_actor a) && llm_calls_are_attributable a;
|}.

(** [event.model_dump_json()] as a document *)
Definition audit_json (a : AuditEvent) : json :=
  JObj [("schema_version", JInt (au_version a));
        ("run_id", JStr (uuid_str (au_run_id a)));
        ("seq", JInt (au_seq a));
        ("ts", JStr (dump_datetime (au_ts a)));
        ("actor", JStr (au_actor a));
        ("kind", JStr (audit_kind_value (au_kind a)));
        ("payload", JObj (au_payload a))].
End audit.

(** ** Round trip *)

Section roundtrip.
Context `{!Pydantic}.

Lemma valid_version `{Contract A} (a : A) : valid a = true → schema_version a = 1.
Proof. unfold valid. intros [Hv%Z.eqb_eq _]%andb_prop. done. Qed.

Lemma entity_of_json_entity_json e :
  valid e = true → entity_of_json (entity_json e) = Some e.
Proof.
  intros Hv. pose proof (valid_version e Hv) as H1. destruct e as [v t i]. cbn in H1. subst v.
  unfold entity_of_json, entity_json, version_field. cbn -[valid].
  rewrite lit_one_1. cbn -[valid]. rewrite !as_str_str. cbn -[valid]. by rewrite Hv.
Qed.

Lemma entities_of_json es :
  forallb valid es = true → mapM entity_of_json (entity_json <$> es) = Some es.
Proof.
  induction es as [|e es IH]; [done|]. intros [He Hes]%andb_prop.
  rewrite fmap_cons. cbn [mapM]. rewrite (entity_of_json_entity_json e He). cbn.
  by rewrite (IH Hes).
Qed.

Lemma source_of_source_value s : source_of_value (source_value s) = Some s.
Proof. by destruct s. Qed.
Lemma kind_of_kind_value k : kind_of_value (kind_value k) = Some k.
Proof. by destruct k. Qed.
Lemma severity_of_severity_value s : severity_of_value (severity_value s) = Some s.
Proof. by destruct s. Qed.

(** Events whose identifiers and times fit their text. *)
Definition event_ok (e : AgentEvent) : Prop :=
  uuid_ok (ae_id e) ∧ dt_ok (ae_occurred_at e) ∧ dt_ok (ae_received_at e).

Lemma valid_entities e : valid e = true → forallb valid (ae_entities e) = true.
Proof.
  intros [_ Hf]%andb_prop. cbn -[valid] in Hf.
  by repeat (apply andb_prop in Hf as [Hf ?]).
Qed.

Local Ltac wsimpl :=
  cbn -[valid source_of_value kind_of_value severity_of_value source_value kind_value
        severity_value].

Lemma event_of_json_event_json e :
  valid e = true → event_ok e → event_of_json (event_json e) = Some e.
Proof.
  intros Hv (Hid & Hocc & Hrcv). pose proof (valid_version e Hv) as H1.
  pose proof (valid_entities e Hv) as Hents.
  destruct e as [v id src knd key fp sev title body ents occ rcv cnt raw].
  cbn in H1, Hid, Hocc, Hrcv, Hents. subst v.
  unfold event_of_json, event_json, version_field. wsimpl.
  rewrite lit_one_1. wsimpl. rewrite (as_uuid_str _ Hid). wsimpl.
  rewrite source_of_source_value. wsimpl. rewrite kind_of_kind_value. wsimpl.
  rewrite !as_str_str. wsimpl. rewrite severity_of_severity_value. wsimpl.
  rewrite (entities_of_json _ Hents). wsimpl.
  rewrite (as_datetime_dump _ Hocc). wsimpl.
  rewrite (as_datetime_dump _ Hrcv). wsimpl. rewrite as_int_int. wsimpl.
  by rewrite Hv.
Qed.

Lemma event_of_json_valid j e : event_of_json j = Some e → valid e = true.
Proof.
  unfold event_of_json. intros He. repeat (apply bind_Some in He as (? & _ & He)).
  case_match eqn:Hv; [|done]. apply andb_prop in Hv as [_ Hv]. by simplify_eq.
Qed.
End roundtrip.

(** ** A pydantic that keeps the promises

    Strict coercions, UUIDs read from their 8-4-4-4-12 text, datetimes written
    as a two-element JSON array, floats by their exact decimal value.  It shows the interface can be met and lets
    the definitions run on concrete input. *)

Open Scope N_scope.

Definition unhex_digit (a : ascii) : N :=
  let n := N_of_ascii a in if n <? 58 then n - 48 else n - 87.

(** The value of the hexadecimal digits of a text; dashes are skipped. *)
Fixpoint unhex (acc : N) (s : string) : N :=
  match s with
  | EmptyString => acc
  | String a r => unhex (if decide (a = "-"%char) then acc else 16 * acc + unhex_digit a) r
  end.

Lemma unhex_hex_digit n : n < 16 → unhex_digit (hex_digit n) = n ∧ hex_digit n ≠ "-"%char.
Proof.
  intros Hn. destruct n as [|p]; [done|].
  do 4 (destruct p as [p|p|]; try done); exfalso; lia.
Qed.

Lemma hex_go_acc k n acc : hex_go k n acc = hex_go k n EmptyString +:+ acc.
Proof.
  revert n acc. induction k as [|k IH]; intros n acc; [done|]. cbn [hex_go].
  rewrite IH, (IH _ (String _ EmptyString)). by rewrite app_str_assoc.
Qed.

Lemma unhex_hex k n acc r :
  unhex acc (hex k n +:+ r) = unhex (16 ^ N.of_nat k * acc + n mod 16 ^ N.of_nat k) r.
Proof.
  unfold hex. revert n acc r. induction k as [|k IH]; intros n acc r.
  - cbn [hex_go]. rewrite app_nil_str. f_equal. change (16 ^ N.of_nat 0) with 1.
    rewrite N.mod_1_r. lia.
  - cbn [hex_go]. rewrite hex_go_acc, app_str_assoc, IH, app_cons_str. cbn [unhex].
    change 15 with (N.ones 4). rewrite N.land_ones, N.shiftr_div_pow2.
    change (2 ^ 4) with 16.
    destruct (unhex_hex_digit (n mod 16)) as [Hu Hd]; [by apply N.mod_lt|].
    rewrite decide_False by done. rewrite Hu, app_nil_str. f_equal.
    rewrite Nat2N.inj_succ, N.pow_succ_r'.
    rewrite N.Div0.mod_mul_r. lia.
Qed.

Lemma unhex_dash acc r : unhex acc (String "-"%char r) = unhex acc r.
Proof. done. Qed.
Lemma unhex_nil acc : unhex acc EmptyString = acc.
Proof. done. Qed.

Lemma shiftr_join u i j :
  N.shiftr u (i + j) * 2 ^ j + N.shiftr u i mod 2 ^ j = N.shiftr u i.
Proof.
  rewrite <-N.shiftr_shiftr, (N.shiftr_div_pow2 _ j), N.mul_comm.
  symmetry. apply N.Div0.div_mod.
Qed.

Lemma shiftr_join' u i j k :
  i + j = k → N.shiftr u k * 2 ^ j + N.shiftr u i mod 2 ^ j = N.shiftr u i.
Proof. intros <-. apply shiftr_join. Qed.

Lemma unhex_uuid_str u : uuid_ok u → unhex 0 (uuid_str u) = u.
Proof.
  intros Hu. unfold uuid_str. rewrite <-(app_str_nil (hex 12 u)).
  repeat rewrite unhex_hex, ?unhex_dash. rewrite unhex_nil.
  assert (16 ^ N.of_nat 8 = 2 ^ 32) as -> by reflexivity.
  assert (16 ^ N.of_nat 4 = 2 ^ 16) as -> by reflexivity.
  assert (16 ^ N.of_nat 12 = 2 ^ 48) as -> by reflexivity.
  rewrite (N.mod_small (N.shiftr u 96)).
  - rewrite N.mul_0_r, N.add_0_l, !(N.mul_comm (2 ^ _)).
    rewrite (shiftr_join' u 80 16 96), (shiftr_join' u 64 16 80), (shiftr_join' u 48 16 64)
      by reflexivity.
    pose proof (shiftr_join' u 0 48 48 eq_refl) as J. by rewrite N.shiftr_0_r in J.
  - rewrite N.shiftr_div_pow2. apply N.Div0.div_lt_upper_bound.
    eapply N.lt_le_trans; [exact Hu|]. by rewrite <-N.pow_add_r.
Qed.

Definition strict_uuid (j : json) : option uuid :=
  match j with
  | JStr s => let u := unhex 0 s in if decide (uuid_str u = s) then Some u else None
  | _ => None
  end.

Definition strict_datetime (j : json) : option datetime :=
  match j with
  | JStr s =>
      match @loads repr_text s with
      | Some (JArr [JInt us; JInt off]) => Some (DateTime us off)
      | _ => None
      end
  | _ => None
  end.

Definition strict_pydantic : Pydantic.
Proof.
  refine {|
    lit_one := λ j, match j with JInt 1 => true | _ => false end;
    as_str := λ j, match j with JStr s => Some s | _ => None end;
    as_int := λ j, match j with JInt z => Some z | _ => None end;
    as_decimal := λ j, match j with JInt z => Some (Dec z 0) | _ => None end;
    as_uuid := strict_uuid;
    as_datetime := strict_datetime;
    dump_datetime := λ d, dumps (JArr [JInt (dt_us d); JInt (dt_offset d)]);
    dump_float := λ f, match f with
                       | FFin m e =>
                           if (e <? 0)%Z
                           then JFloat (str_int (m * 5 ^ (- e)) +:+ "e" +:+ str_int e)
                           else JFloat (str_int (m * 2 ^ e) +:+ ".0")
                       | FInf _ | FNaN => JNull
                       end |}; try done.
  - intros u Hu. unfold strict_uuid. rewrite (unhex_uuid_str u Hu). by rewrite decide_True.
  - intros [m e| |]; [|done..]. by destruct (e <? 0)%Z.
  - intros [us off] _. unfold strict_datetime.
    rewrite (@loads_dumps_wf repr_text); [done|]. by repeat split.
Defined.
