(* ===== verification/Database.v ===== *)
(** * The Postgres schema (migrations/versions)

    The four tables at revision 0004 as finite maps from their primary key,
    with the CHECK constraints, the partial unique index, the foreign keys, the
    integer widths and the trigger the migrations create.  A statement that
    breaks one of them raises, as Postgres does, and changes nothing.  A jsonb
    column holds the document it was given; the order of the members of its
    objects, which jsonb does not keep, is not modelled. *)

From Stdlib Require Import Ascii.
From S2P Require Import Prelude PyStr Json Contracts.

Open Scope Z_scope.

(** ** Rows *)

Record EventRow := mkEventRow {
  er_source : string;
  er_fingerprint : option string;
  er_received_at : Z;
  er_dedupe_count : Z;
  er_quarantined : bool;
  er_quarantine_reason : option string;
  er_payload : option json;
  er_window_closed_at : option Z;
  er_queued_at : option Z;
  er_queue_message_id : option string;
}.

Record RunRow := mkRunRow {
  rn_fingerprint : string;
  rn_status : string;
  rn_started_at : Z;
  rn_audit_log_file : string;
  rn_audit_start_offset : Z;
  rn_audit_end_offset : option Z;
  rn_event_id : option uuid;
  rn_conclusion : option json;
  rn_finished_at : option Z;
}.

Record TicketRow := mkTicketRow {
  tk_fingerprint : string;
  tk_provider : string;
  tk_external_id : string;
  tk_url : option string;
  tk_created_at : Z;
  tk_closed_at : option Z;
  tk_update_count : Z;
}.

Record ActionRow := mkActionRow {
  ta_fingerprint : string;
  ta_ticket_id : uuid;
  ta_external_id : string;
  ta_created : bool;
  ta_update_count : Z;
  ta_applied_at : Z;
}.

Record DB := mkDB {
  events : gmap uuid EventRow;
  runs : gmap uuid RunRow;
  tickets : gmap uuid TicketRow;
  ticket_actions : gmap uuid ActionRow;
}.

Definition set_events (m : gmap uuid EventRow) (d : DB) : DB :=
  mkDB m (runs d) (tickets d) (ticket_actions d).
Definition set_runs (m : gmap uuid RunRow) (d : DB) : DB :=
  mkDB (events d) m (tickets d) (ticket_actions d).
Definition set_tickets (m : gmap uuid TicketRow) (d : DB) : DB :=
  mkDB (events d) (runs d) m (ticket_actions d).
Definition set_actions (m : gmap uuid ActionRow) (d : DB) : DB :=
  mkDB (events d) (runs d) (tickets d) m.

Definition empty_db : DB := mkDB ∅ ∅ ∅ ∅.

(** ** Constraints *)

(** What [CAST(... AS jsonb)] accepts: PostgreSQL has no text with the character
    U+0000, so a document with one in a string or a key is refused. *)
Definition no_nul (s : string) : bool := str_forallb (λ a, negb (Ascii.eqb a Ascii.zero)) s.

Fixpoint jsonb_ok (j : json) : bool :=
  match j with
  | JStr s => no_nul s
  | JArr l => forallb jsonb_ok l
  | JObj fields => forallb (λ kv, no_nul kv.1 && jsonb_ok kv.2) fields
  | _ => true
  end.

Definition jsonb_column (o : option json) : bool :=
  match o with None => true | Some j => jsonb_ok j end.

(** [sa.Integer] and [sa.BigInteger] *)
Definition int4 (z : Z) : bool := (-2147483648 <=? z) && (z <=? 2147483647).
Definition int8 (z : Z) : bool :=
  (-9223372036854775808 <=? z) && (z <=? 9223372036854775807).

Definition events_source_known (r : EventRow) : bool :=
  existsb (String.eqb (er_source r))
    ["grafana"; "alertmanager"; "datadog"; "pagerduty"; "generic"; "slack"; "scheduled"].

Definition events_quarantine_invariant (r : EventRow) : bool :=
  eqb (er_quarantined r) (is_none (er_payload r)) &&
  eqb (er_quarantined r) (is_none (er_fingerprint r)) &&
  eqb (er_quarantined r) (negb (is_none (er_quarantine_reason r))).

Definition events_queue_state_paired (r : EventRow) : bool :=
  eqb (is_none (er_queued_at r)) (is_none (er_queue_message_id r)).

Definition event_check (r : EventRow) : result exn () :=
  if negb (int4 (er_dedupe_count r)) then Raise (DataError "events.dedupe_count")
  else if negb (jsonb_column (er_payload r)) then Raise (DataError "events.payload")
  else if negb (events_source_known r) then Raise (IntegrityError "events_source_known")
  else if negb (events_quarantine_invariant r) then
    Raise (IntegrityError "events_quarantine_invariant")
  else if negb (events_queue_state_paired r) then
    Raise (IntegrityError "events_queue_state_paired")
  else Ok ().

Definition run_statuses : list string := ["running"; "concluded"; "needs_human"; "failed"].

Definition runs_status_known (r : RunRow) : bool :=
  existsb (String.eqb (rn_status r)) run_statuses.
Definition runs_concluded_has_conclusion (r : RunRow) : bool :=
  negb (String.eqb (rn_status r) "concluded") || negb (is_none (rn_conclusion r)).
Definition runs_audit_offsets_ordered (r : RunRow) : bool :=
  match rn_audit_end_offset r with
  | None => true
  | Some e => rn_audit_start_offset r <=? e
  end.

Definition run_check (r : RunRow) : result exn () :=
  if negb (int8 (rn_audit_start_offset r) && int8 (default 0 (rn_audit_end_offset r))) then
    Raise (DataError "runs.audit_offset")
  else if negb (jsonb_column (rn_conclusion r)) then Raise (DataError "runs.conclusion")
  else if negb (runs_status_known r) then Raise (IntegrityError "runs_status_known")
  else if negb (runs_concluded_has_conclusion r) then
    Raise (IntegrityError "runs_concluded_has_conclusion")
  else if negb (runs_audit_offsets_ordered r) then
    Raise (IntegrityError "runs_audit_offsets_ordered")
  else Ok ().

Definition ticket_check (r : TicketRow) : result exn () :=
  if int4 (tk_update_count r) then Ok () else Raise (DataError "tickets.update_count").

(** The rows of the partial unique index [uq_tickets_open_fingerprint]. *)
Definition open_ticket (fp : string) (r : TicketRow) : Prop :=
  tk_fingerprint r = fp ∧ tk_closed_at r = None.
#[export] Instance open_ticket_dec fp r : Decision (open_ticket fp r).
Proof. unfold open_ticket. apply _. Defined.

Definition open_tickets (fp : string) (m : gmap uuid TicketRow) : gmap uuid TicketRow :=
  filter (λ kv, open_ticket fp kv.2) m.

(** ** INSERT *)

Definition insert_event (id : uuid) (r : EventRow) (d : DB) : result exn DB :=
  match events d !! id with
  | Some _ => Raise (IntegrityError "events_pkey")
  | None => let? _ := event_check r in Ok (set_events (<[id := r]> (events d)) d)
  end.

(** [INSERT INTO runs ... ON CONFLICT (run_id) DO NOTHING] *)
Definition insert_run_on_conflict (id : uuid) (r : RunRow) (d : DB) : result exn DB :=
  match runs d !! id with
  | Some _ => Ok d
  | None => let? _ := run_check r in Ok (set_runs (<[id := r]> (runs d)) d)
  end.

(** [INSERT INTO tickets ... ON CONFLICT (fingerprint) WHERE closed_at IS NULL
    DO NOTHING]: whether the row was inserted.  A duplicate primary key is not
    the conflict the clause names, so it raises. *)
Definition insert_ticket_on_conflict (id : uuid) (r : TicketRow) (d : DB) :
    result exn (bool * DB) :=
  if decide (tk_closed_at r = None ∧ open_tickets (tk_fingerprint r) (tickets d) ≠ ∅)
  then Ok (false, d)
  else match tickets d !! id with
       | Some _ => Raise (IntegrityError "tickets_pkey")
       | None =>
           let? _ := ticket_check r in Ok (true, set_tickets (<[id := r]> (tickets d)) d)
       end.

Definition insert_action (run_id : uuid) (r : ActionRow) (d : DB) : result exn DB :=
  match ticket_actions d !! run_id, runs d !! run_id, tickets d !! ta_ticket_id r with
  | Some _, _, _ => Raise (IntegrityError "ticket_actions_pkey")
  | _, None, _ => Raise (IntegrityError "ticket_actions_run_id_fkey")
  | _, _, None => Raise (IntegrityError "ticket_actions_ticket_id_fkey")
  | None, Some _, Some _ =>
      if int4 (ta_update_count r)
      then Ok (set_actions (<[run_id := r]> (ticket_actions d)) d)
      else Raise (DataError "ticket_actions.update_count")
  end.

(** ** UPDATE of one row by primary key *)

Definition update_event (id : uuid) (f : EventRow → EventRow) (d : DB) : result exn DB :=
  match events d !! id with
  | None => Ok d
  | Some r => let? _ := event_check (f r) in Ok (set_events (<[id := f r]> (events d)) d)
  end.

Definition update_run (id : uuid) (f : RunRow → RunRow) (d : DB) : result exn DB :=
  match runs d !! id with
  | None => Ok d
  | Some r => let? _ := run_check (f r) in Ok (set_runs (<[id := f r]> (runs d)) d)
  end.

Definition update_ticket (id : uuid) (f : TicketRow → TicketRow) (d : DB) : result exn DB :=
  match tickets d !! id with
  | None => Ok d
  | Some r => let? _ := ticket_check (f r) in Ok (set_tickets (<[id := f r]> (tickets d)) d)
  end.

(** ** The recovery trigger *)

Definition close_ticket_row (t : Z) (r : TicketRow) : TicketRow :=
  mkTicketRow (tk_fingerprint r) (tk_provider r) (tk_external_id r) (tk_url r)
    (tk_created_at r) (Some t) (tk_update_count r).

(** [smokejumper_close_ticket_on_window]: for a row whose [window_closed_at]
    went from NULL to a time, close the open ticket of its fingerprint. *)
Definition close_ticket_on_window (old new : EventRow) (m : gmap uuid TicketRow) :
    gmap uuid TicketRow :=
  match er_window_closed_at old, er_window_closed_at new, er_fingerprint new with
  | None, Some t, Some fp =>
      (λ r, if decide (open_ticket fp r) then close_ticket_row t r else r) <$> m
  | _, _, _ => m
  end.

(** ** Well-formed databases *)

Definition one_open_ticket (m : gmap uuid TicketRow) : Prop :=
  ∀ i j r s, m !! i = Some r → m !! j = Some s →
    tk_closed_at r = None → tk_closed_at s = None →
    tk_fingerprint r = tk_fingerprint s → i = j.

(** What Postgres guarantees of the stored rows. *)
Record db_ok (d : DB) : Prop := {
  ok_events : ∀ i r, events d !! i = Some r → event_check r = Ok ();
  ok_runs : ∀ i r, runs d !! i = Some r → run_check r = Ok ();
  ok_tickets : ∀ i r, tickets d !! i = Some r → ticket_check r = Ok ();
  ok_actions : ∀ i r, ticket_actions d !! i = Some r → int4 (ta_update_count r) = true;
  ok_open : one_open_ticket (tickets d);
  ok_action_run : ∀ i r, ticket_actions d !! i = Some r → is_Some (runs d !! i);
  ok_action_ticket : ∀ i r, ticket_actions d !! i = Some r →
    is_Some (tickets d !! ta_ticket_id r);
}.

Lemma empty_db_ok : db_ok empty_db.
Proof. split; intros *; cbn; by rewrite ?lookup_empty. Qed.

Lemma open_tickets_empty fp m :
  open_tickets fp m = ∅ ↔ ∀ i r, m !! i = Some r → ¬ open_ticket fp r.
Proof.
  unfold open_tickets. rewrite map_empty_filter. unfold map_Forall. naive_solver.
Qed.

(** ** Every statement keeps a well-formed database well-formed *)

Lemma insert_event_ok id r d d' : insert_event id r d = Ok d' → db_ok d → db_ok d'.
Proof.
  unfold insert_event. case_match; [done|]. intros (? & Hc & [= <-])%rbind_Ok [].
  split; cbn; try done. intros i s [[<- <-]|[_ Hs]]%lookup_insert_Some; [|eauto].
  by destruct (event_check r) as [[]|].
Qed.

Lemma update_event_ok id f d d' : update_event id f d = Ok d' → db_ok d → db_ok d'.
Proof.
  unfold update_event. case_match; [|naive_solver]. intros (? & Hc & [= <-])%rbind_Ok [].
  split; cbn; try done. intros i s [[<- <-]|[_ Hs]]%lookup_insert_Some; [|eauto].
  by destruct (event_check (f _)) as [[]|].
Qed.

Lemma set_runs_ok id r d : run_check r = Ok () → db_ok d →
  db_ok (set_runs (<[id := r]> (runs d)) d).
Proof.
  intros Hc []. split; cbn; try done.
  - intros i s [[<- <-]|[_ Hs]]%lookup_insert_Some; eauto.
  - intros i s Hs. rewrite lookup_insert_is_Some'. eauto.
Qed.

Lemma insert_run_ok id r d d' : insert_run_on_conflict id r d = Ok d' → db_ok d → db_ok d'.
Proof.
  unfold insert_run_on_conflict. case_match; [naive_solver|].
  intros ([] & Hc & [= <-])%rbind_Ok. by apply set_runs_ok.
Qed.

Lemma update_run_ok id f d d' : update_run id f d = Ok d' → db_ok d → db_ok d'.
Proof.
  unfold update_run. case_match; [|naive_solver].
  intros ([] & Hc & [= <-])%rbind_Ok. by apply set_runs_ok.
Qed.

Lemma insert_ticket_ok id r d b d' :
  insert_ticket_on_conflict id r d = Ok (b, d') → db_ok d → db_ok d'.
Proof.
  unfold insert_ticket_on_conflict. case_decide as Hd; [naive_solver|].
  case_match eqn:Hid; [done|]. intros ([] & Hc & [= <- <-])%rbind_Ok [].
  assert (tk_closed_at r = None → ∀ i s, tickets d !! i = Some s →
    ¬ open_ticket (tk_fingerprint r) s) as Hnone.
  { intros Hopen. apply open_tickets_empty.
    destruct (decide (open_tickets (tk_fingerprint r) (tickets d) = ∅)); naive_solver. }
  split; cbn; try done.
  - intros i s [[<- <-]|[_ Hs]]%lookup_insert_Some; eauto.
  - intros i j s t [[<- <-]|[Hi Hs]]%lookup_insert_Some [[<- <-]|[Hj Ht]]%lookup_insert_Some
      Os Ot Hf; [done| | |by eapply ok_open0].
    + exfalso. by eapply (Hnone Os j t).
    + exfalso. by eapply (Hnone Ot i s).
  - intros i s Hs. rewrite lookup_insert_is_Some'. eauto.
Qed.

Lemma insert_action_ok id r d d' : insert_action id r d = Ok d' → db_ok d → db_ok d'.
Proof.
  unfold insert_action. repeat case_match; try done. intros [= <-] [].
  split; cbn; try done.
  - intros i s [[<- <-]|[_ Hs]]%lookup_insert_Some; eauto.
  - intros i s [[<- <-]|[_ Hs]]%lookup_insert_Some; eauto.
  - intros i s [[<- <-]|[_ Hs]]%lookup_insert_Some; eauto.
Qed.

(** An update that keeps fingerprint and closing time. *)
Lemma update_ticket_ok id f d d' :
  (∀ r, tk_fingerprint (f r) = tk_fingerprint r ∧ tk_closed_at (f r) = tk_closed_at r) →
  update_ticket id f d = Ok d' → db_ok d → db_ok d'.
Proof.
  intros Hf. unfold update_ticket. case_match eqn:Hid; [|naive_solver].
  intros ([] & Hc & [= <-])%rbind_Ok [].
  assert (∀ i r, <[id := f t]> (tickets d) !! i = Some r →
    ∃ s, tickets d !! i = Some s ∧ tk_fingerprint r = tk_fingerprint s ∧
         tk_closed_at r = tk_closed_at s) as Hback.
  { intros i r [[<- <-]|[_ Hs]]%lookup_insert_Some; [|eauto]. exists t. naive_solver. }
  split; cbn; try done.
  - intros i s [[<- <-]|[_ Hs]]%lookup_insert_Some; eauto.
  - intros i j r s (r' & Hr & ? & ?)%Hback (s' & Hs & ? & ?)%Hback ???.
    eapply (ok_open0 i j r' s'); congruence.
  - intros i s Hs. rewrite lookup_insert_is_Some'. eauto.
Qed.

Lemma close_ticket_on_window_ok old new d :
  db_ok d → db_ok (set_tickets (close_ticket_on_window old new (tickets d)) d).
Proof.
  intros []. unfold close_ticket_on_window.
  destruct (er_window_closed_at old) as [|]; [by split|].
  destruct (er_window_closed_at new) as [t|]; [|by split].
  destruct (er_fingerprint new) as [fp|]; [|by split].
  split; cbn; try done.
  - intros i r (s & <- & Hs)%lookup_fmap_Some. case_decide; eauto.
    unfold ticket_check. cbn. by apply ok_tickets0 in Hs.
  - intros i j r s (r' & <- & Hr)%lookup_fmap_Some (s' & <- & Hs)%lookup_fmap_Some Or Os Hf.
    repeat case_decide; try done. by eapply ok_open0.
  - intros i r Hr. rewrite lookup_fmap, fmap_is_Some. eauto.
Qed.

#[export] Hint Resolve insert_event_ok update_event_ok insert_run_ok update_run_ok
  insert_ticket_ok insert_action_ok close_ticket_on_window_ok empty_db_ok : smoke.
