(* ===== verification/Catalog.v ===== *)
(** * A relational catalog

    What the migrations build: tables with typed columns, CHECK constraints,
    foreign keys and rows, indexes, functions and triggers, with the DDL and the
    one UPDATE the migrations use.  A statement that Postgres refuses raises and
    changes nothing.  A row maps column names to values, NULL being the absent
    key; the primary key of a row is its key in the table. *)

From S2P Require Import Prelude PyStr Json Contracts Database.

Open Scope Z_scope.

(** ** Values and columns *)

Inductive ctype := Uuid | Text | Timestamptz | Integer | BigInteger | Boolean | Jsonb.

Inductive value :=
| VUuid (id : uuid)
| VText (s : string)
| VTime (us : Z)
| VInt (z : Z)
| VBool (b : bool)
| VJson (j : json).
#[export] Instance value_eq_dec : EqDecision value.
Proof. solve_decision. Defined.

Notation row := (gmap string value).

(** [sa.Column(name, type, primary_key, nullable, server_default)], and the
    table and column of its [sa.ForeignKey]. *)
Record Column := mkColumn {
  c_name : string;
  c_type : ctype;
  c_pk : bool;
  c_nullable : bool;
  c_default : option value;
  c_ref : option (string * string);
}.

Definition type_ok (t : ctype) (v : value) : bool :=
  match t, v with
  | Uuid, VUuid _ | Text, VText _ | Timestamptz, VTime _ | Boolean, VBool _ => true
  | Integer, VInt z => int4 z
  | BigInteger, VInt z => int8 z
  | Jsonb, VJson j => jsonb_ok j
  | _, _ => false
  end.

(** ** Expressions of CHECK constraints and index predicates *)

Inductive expr :=
| Col (name : string)
| Lit (s : string)
| BoolLit (b : bool)
| IsNull (e : expr)
| IsNotNull (e : expr)
| InList (e : expr) (l : list string)
| Eq (a b : expr)
| Ne (a b : expr)
| Ge (a b : expr)
| And (a b : expr)
| Or (a b : expr).

(** SQL's three truth values: an unknown result is NULL. *)
Definition truth (b : bool) : option value := Some (VBool b).

Definition value_eqb (a b : value) : bool :=
  match a, b with
  | VUuid x, VUuid y => N.eqb x y
  | VText x, VText y => String.eqb x y
  | VTime x, VTime y | VInt x, VInt y => Z.eqb x y
  | VBool x, VBool y => Bool.eqb x y
  | _, _ => false
  end.

Definition and3 (a b : option value) : option value :=
  match a, b with
  | Some (VBool false), _ | _, Some (VBool false) => truth false
  | Some (VBool true), Some (VBool true) => truth true
  | _, _ => None
  end.

Definition or3 (a b : option value) : option value :=
  match a, b with
  | Some (VBool true), _ | _, Some (VBool true) => truth true
  | Some (VBool false), Some (VBool false) => truth false
  | _, _ => None
  end.

Fixpoint eval (e : expr) (r : row) : option value :=
  match e with
  | Col name => r !! name
  | Lit s => Some (VText s)
  | BoolLit b => truth b
  | IsNull a => truth (is_none (eval a r))
  | IsNotNull a => truth (negb (is_none (eval a r)))
  | InList a l =>
      match eval a r with Some (VText s) => truth (existsb (String.eqb s) l) | _ => None end
  | Eq a b =>
      match eval a r, eval b r with Some x, Some y => truth (value_eqb x y) | _, _ => None end
  | Ne a b =>
      match eval a r, eval b r with Some x, Some y => truth (negb (value_eqb x y)) | _, _ => None end
  | Ge a b =>
      match eval a r, eval b r with Some (VInt x), Some (VInt y) => truth (y <=? x) | _, _ => None end
  | And a b => and3 (eval a r) (eval b r)
  | Or a b => or3 (eval a r) (eval b r)
  end.

(** A CHECK constraint is violated only by FALSE; a WHERE clause selects only
    by TRUE. *)
Definition passes (e : expr) (r : row) : bool :=
  match eval e r with Some (VBool false) => false | _ => true end.
Definition selects (e : expr) (r : row) : bool :=
  match eval e r with Some (VBool true) => true | _ => false end.

(** The columns an expression mentions. *)
Fixpoint mentions (e : expr) : list string :=
  match e with
  | Col name => [name]
  | Lit _ | BoolLit _ => []
  | IsNull a | IsNotNull a | InList a _ => mentions a
  | Eq a b | Ne a b | Ge a b | And a b | Or a b => mentions a ++ mentions b
  end.

(** The SQL text, as the migrations spell it. *)
Definition operand (text : expr → string) (e : expr) : string :=
  match e with IsNull _ | IsNotNull _ => "(" +:+ text e +:+ ")" | _ => text e end.

Fixpoint sql_text (e : expr) : string :=
  match e with
  | Col name => name
  | Lit s => "'" +:+ s +:+ "'"
  | BoolLit b => if b then "true" else "false"
  | IsNull a => sql_text a +:+ " IS NULL"
  | IsNotNull a => sql_text a +:+ " IS NOT NULL"
  | InList a l => sql_text a +:+ " IN (" +:+ join ", " ((λ s, "'" +:+ s +:+ "'") <$> l) +:+ ")"
  | Eq a b => operand sql_text a +:+ " = " +:+ operand sql_text b
  | Ne a b => operand sql_text a +:+ " <> " +:+ operand sql_text b
  | Ge a b => sql_text a +:+ " >= " +:+ sql_text b
  | And a b => sql_text a +:+ " AND " +:+ sql_text b
  | Or a b => sql_text a +:+ " OR " +:+ sql_text b
  end.

(** ** The catalog *)

Record Table := mkTable {
  t_columns : list Column;
  t_checks : list (string * expr);
  t_rows : gmap uuid row;
}.

Record Index := mkIndex {
  ix_table : string;
  ix_columns : list string;
  ix_unique : bool;
  ix_where : option expr;
}.

(** [AFTER UPDATE OF columns ON table FOR EACH ROW EXECUTE FUNCTION] *)
Record Trigger := mkTrigger {
  tg_columns : list string;
  tg_function : string;
}.

(** The bodies of trigger functions, and what each does to the tickets when an
    event row changes. *)
Inductive trigger_body := CloseTicketOnWindow.

Definition fire (b : trigger_body) : EventRow → EventRow → gmap uuid TicketRow → gmap uuid TicketRow :=
  match b with CloseTicketOnWindow => close_ticket_on_window end.

Record Catalog := mkCatalog {
  extensions : gset string;
  tables : gmap string Table;
  indexes : gmap string Index;
  functions : gmap string trigger_body;
  triggers : gmap (string * string) Trigger;   (* by table and name *)
}.

Definition empty_catalog : Catalog := mkCatalog ∅ ∅ ∅ ∅ ∅.

(** ** Rows that satisfy a table *)

Definition cell (k : uuid) (r : row) (col : Column) : option value :=
  if c_pk col then Some (VUuid k) else r !! c_name col.

Definition cell_ok (r : row) (col : Column) : bool :=
  c_pk col ||
  match r !! c_name col with None => c_nullable col | Some v => type_ok (c_type col) v end.

(** Types, NOT NULL and CHECK *)
Definition row_ok (tb : Table) (r : row) : bool :=
  forallb (cell_ok r) (t_columns tb) && forallb (λ ck, passes ck.2 r) (t_checks tb).

Definition rows_of (c : Catalog) (t : string) : gmap uuid row :=
  match tables c !! t with Some tb => t_rows tb | None => ∅ end.

Definition fk_ok (c : Catalog) (k : uuid) (r : row) (col : Column) : bool :=
  match c_ref col, cell k r col with
  | Some (t, _), Some (VUuid i) => bool_decide (is_Some (rows_of c t !! i))
  | Some _, Some _ => false
  | _, _ => true
  end.

(** The rows an index covers, and its key in a row when no part is NULL. *)
Definition indexed (ix : Index) (r : row) : bool :=
  match ix_where ix with Some e => selects e r | None => true end.
Definition index_key (ix : Index) (r : row) : option (list value) :=
  mapM (λ x, r !! x) (ix_columns ix).

Definition unique_in (ix : Index) (rows : gmap uuid row) : Prop :=
  map_Forall (λ i r, map_Forall (λ j s,
    indexed ix r = true → indexed ix s = true → is_Some (index_key ix r) →
    index_key ix r = index_key ix s → i = j) rows) rows.
#[export] Instance unique_in_dec ix rows : Decision (unique_in ix rows).
Proof. unfold unique_in. apply _. Defined.

(** What Postgres guarantees of the stored rows. *)
Record catalog_ok (c : Catalog) : Prop := {
  co_rows : ∀ t tb k r, tables c !! t = Some tb → t_rows tb !! k = Some r → row_ok tb r = true;
  co_refs : ∀ t tb k r col, tables c !! t = Some tb → t_rows tb !! k = Some r →
    col ∈ t_columns tb → fk_ok c k r col = true;
  co_unique : ∀ n ix, indexes c !! n = Some ix → ix_unique ix = true →
    unique_in ix (rows_of c (ix_table ix));
}.

(** ** Statements *)

Inductive op :=
| CreateExtension (name : string)                  (* IF NOT EXISTS *)
| DropExtension (name : string)                    (* IF EXISTS *)
| CreateTable (name : string) (columns : list Column) (checks : list (string * expr))
| DropTable (name : string)
| AddColumn (table : string) (col : Column)
| DropColumn (table col : string)
| CreateIndex (name : string) (ix : Index)
| DropIndex (name table : string)
| CreateCheck (name table : string) (e : expr)
| DropConstraint (name table : string)
| UpdateRows (table : string) (sets : list (string * expr)) (cond : expr)
| CreateFunction (name : string) (body : trigger_body)
| DropFunction (name : string)
| CreateTrigger (name table : string) (tg : Trigger)
| DropTrigger (name table : string).

Definition require (P : Prop) `{!Decision P} (e : exn) : result exn () :=
  if decide P then Ok () else Raise e.

Definition column_names (tb : Table) : list string := c_name <$> t_columns tb.

Definition refers_to (t : string) (tb : Table) : bool :=
  existsb (λ col, match c_ref col with Some (u, _) => String.eqb u t | None => false end)
    (t_columns tb).
Definition refers_to_column (t x : string) (tb : Table) : bool :=
  existsb (λ col, match c_ref col with
                  | Some (u, y) => String.eqb u t && String.eqb y x
                  | None => false
                  end) (t_columns tb).

Definition index_mentions (ix : Index) : list string :=
  ix_columns ix ++ match ix_where ix with Some e => mentions e | None => [] end.

Definition set_table (t : string) (tb : Table) (c : Catalog) : Catalog :=
  mkCatalog (extensions c) (<[t := tb]> (tables c)) (indexes c) (functions c) (triggers c).
Definition set_indexes (m : gmap string Index) (c : Catalog) : Catalog :=
  mkCatalog (extensions c) (tables c) m (functions c) (triggers c).

(** Tables and indexes share one name space. *)
Definition free_name (c : Catalog) (n : string) : Prop :=
  tables c !! n = None ∧ indexes c !! n = None.
#[export] Instance free_name_dec c n : Decision (free_name c n).
Proof. unfold free_name. apply _. Defined.

Definition get_table (c : Catalog) (t : string) : result exn Table :=
  match tables c !! t with
  | Some tb => Ok tb
  | None => Raise (ProgrammingError ("relation " +:+ t +:+ " does not exist"))
  end.

Definition duplicate (n : string) : exn := ProgrammingError (n +:+ " already exists").
Definition missing (n : string) : exn := ProgrammingError (n +:+ " does not exist").
Definition dependents (n : string) : exn := InternalError ("other objects depend on " +:+ n).

(** The referenced column exists in a table, or in the table being made. *)
Definition ref_exists (c : Catalog) (col : Column) : Prop :=
  match c_ref col with
  | None => True
  | Some (t, x) => match tables c !! t with Some tb => x ∈ column_names tb | None => False end
  end.
#[export] Instance ref_exists_dec c col : Decision (ref_exists c col).
Proof. unfold ref_exists. repeat case_match; apply _. Defined.

Definition with_default (col : Column) (r : row) : row :=
  match c_default col with Some v => <[c_name col := v]> r | None => r end.

(** [UPDATE table SET col = e, ... WHERE cond]: every expression reads the old
    row. *)
Definition assign (r : row) (s : string * expr) (acc : row) : row :=
  match eval s.2 r with Some v => <[s.1 := v]> acc | None => delete s.1 acc end.
Definition updated (sets : list (string * expr)) (cond : expr) (r : row) : row :=
  if selects cond r then foldr (assign r) r sets else r.

Definition add_column (col : Column) (tb : Table) : Table :=
  mkTable (t_columns tb ++ [col]) (t_checks tb) (with_default col <$> t_rows tb).

(** Constraints and indexes that involve the column go with it. *)
Definition drop_column (x : string) (tb : Table) : Table :=
  mkTable (filter (λ col, c_name col ≠ x) (t_columns tb))
    (filter (λ ck, x ∉ mentions ck.2) (t_checks tb)) (delete x <$> t_rows tb).

Definition drop_indexes (t x : string) (m : gmap string Index) : gmap string Index :=
  filter (λ kv, ¬ (ix_table kv.2 = t ∧ x ∈ index_mentions kv.2)) m.

Definition run_op (o : op) (c : Catalog) : result exn Catalog :=
  match o with
  | CreateExtension n =>
      Ok (mkCatalog ({[n]} ∪ extensions c) (tables c) (indexes c) (functions c) (triggers c))
  | DropExtension n =>
      Ok (mkCatalog (extensions c ∖ {[n]}) (tables c) (indexes c) (functions c) (triggers c))
  | CreateTable n cols checks =>
      let? _ := require (free_name c n) (duplicate n) in
      let? _ := require (Forall (ref_exists c) cols) (missing "referenced column") in
      let? _ := require (NoDup (c_name <$> cols)) (duplicate "column") in
      let? _ := require (Forall (λ ck, mentions ck.2 ⊆ c_name <$> cols) checks)
                  (missing "column") in
      Ok (set_table n (mkTable cols checks ∅) c)
  | DropTable n =>
      let? _ := get_table c n in
      let? _ := require (map_Forall (λ u tb, u = n ∨ refers_to n tb = false) (tables c))
                  (dependents n) in
      Ok (mkCatalog (extensions c) (delete n (tables c))
            (filter (λ kv, ix_table kv.2 ≠ n) (indexes c)) (functions c)
            (filter (λ kv, kv.1.1 ≠ n) (triggers c)))
  | AddColumn t col =>
      let? tb := get_table c t in
      let? _ := require (c_name col ∉ column_names tb) (duplicate (c_name col)) in
      let? _ := require (ref_exists c col) (missing "referenced column") in
      let tb' := add_column col tb in
      let? _ := require (map_Forall (λ k r, cell_ok r col = true ∧ fk_ok c k r col = true)
                           (t_rows tb')) (IntegrityError (c_name col)) in
      Ok (set_table t tb' c)
  | DropColumn t x =>
      let? tb := get_table c t in
      let? _ := require (x ∈ column_names tb) (missing x) in
      let? _ := require (map_Forall (λ kt tg, kt.1 = t → x ∉ tg_columns tg) (triggers c))
                  (dependents x) in
      let? _ := require (map_Forall (λ u tb, u = t ∨ refers_to_column t x tb = false) (tables c))
                  (dependents x) in
      Ok (set_indexes (drop_indexes t x (indexes c)) (set_table t (drop_column x tb) c))
  | CreateIndex n ix =>
      let? _ := require (free_name c n) (duplicate n) in
      let? tb := get_table c (ix_table ix) in
      let? _ := require (index_mentions ix ⊆ column_names tb) (missing "column") in
      let? _ := require (ix_unique ix = true → unique_in ix (t_rows tb)) (IntegrityError n) in
      Ok (set_indexes (<[n := ix]> (indexes c)) c)
  | DropIndex n _ =>
      let? _ := require (is_Some (indexes c !! n)) (missing n) in
      Ok (set_indexes (delete n (indexes c)) c)
  | CreateCheck n t e =>
      let? tb := get_table c t in
      let? _ := require (n ∉ (t_checks tb).*1) (duplicate n) in
      let? _ := require (mentions e ⊆ column_names tb) (missing "column") in
      let? _ := require (map_Forall (λ _ r, passes e r = true) (t_rows tb)) (IntegrityError n) in
      Ok (set_table t (mkTable (t_columns tb) (t_checks tb ++ [(n, e)]) (t_rows tb)) c)
  | DropConstraint n t =>
      let? tb := get_table c t in
      let? _ := require (n ∈ (t_checks tb).*1) (missing n) in
      Ok (set_table t (mkTable (t_columns tb) (filter (λ ck, ck.1 ≠ n) (t_checks tb)) (t_rows tb)) c)
  | UpdateRows t sets cond =>
      let? tb := get_table c t in
      let? _ := require (sets.*1 ⊆ column_names tb) (missing "column") in
      let tb' := mkTable (t_columns tb) (t_checks tb) (updated sets cond <$> t_rows tb) in
      let? _ := require (map_Forall (λ k r, row_ok tb' r = true ∧
                           Forall (λ col, fk_ok c k r col = true) (t_columns tb)) (t_rows tb'))
                  (IntegrityError t) in
      Ok (set_table t tb' c)
  | CreateFunction n body =>
      let? _ := require (functions c !! n = None) (duplicate n) in
      Ok (mkCatalog (extensions c) (tables c) (indexes c) (<[n := body]> (functions c)) (triggers c))
  | DropFunction n =>
      let? _ := require (is_Some (functions c !! n)) (missing n) in
      let? _ := require (map_Forall (λ _ tg, tg_function tg ≠ n) (triggers c)) (dependents n) in
      Ok (mkCatalog (extensions c) (tables c) (indexes c) (delete n (functions c)) (triggers c))
  | CreateTrigger n t tg =>
      let? tb := get_table c t in
      let? _ := require (triggers c !! (t, n) = None) (duplicate n) in
      let? _ := require (tg_columns tg ⊆ column_names tb) (missing "column") in
      let? _ := require (is_Some (functions c !! tg_function tg)) (missing (tg_function tg)) in
      Ok (mkCatalog (extensions c) (tables c) (indexes c) (functions c)
            (<[(t, n) := tg]> (triggers c)))
  | DropTrigger n t =>
      let? _ := require (is_Some (triggers c !! (t, n))) (missing n) in
      Ok (mkCatalog (extensions c) (tables c) (indexes c) (functions c)
            (delete (t, n) (triggers c)))
  end.

Fixpoint run_ops (l : list op) (c : Catalog) : result exn Catalog :=
  match l with
  | [] => Ok c
  | o :: l => let? c := run_op o c in run_ops l c
  end.

(** ** Undoing a statement *)

Lemma require_Ok (P : Prop) `{!Decision P} e u : require P e = Ok u ↔ P.
Proof. unfold require. destruct u. case_decide; naive_solver. Qed.

Lemma get_table_Ok c t tb : get_table c t = Ok tb ↔ tables c !! t = Some tb.
Proof. unfold get_table. case_match; naive_solver. Qed.

(** Nothing points at a name that does not exist. *)
Record wf (c : Catalog) : Prop := {
  wf_row : ∀ t tb k r x, tables c !! t = Some tb → t_rows tb !! k = Some r → is_Some (r !! x) →
    x ∈ column_names tb;
  wf_check : ∀ t tb ck, tables c !! t = Some tb → ck ∈ t_checks tb → mentions ck.2 ⊆ column_names tb;
  wf_ref : ∀ t tb col, tables c !! t = Some tb → col ∈ t_columns tb → ref_exists c col;
  wf_index : ∀ n ix, indexes c !! n = Some ix →
    ∃ tb, tables c !! ix_table ix = Some tb ∧ index_mentions ix ⊆ column_names tb;
  wf_trigger : ∀ kt tg, triggers c !! kt = Some tg → is_Some (functions c !! tg_function tg) ∧
    ∃ tb, tables c !! kt.1 = Some tb ∧ tg_columns tg ⊆ column_names tb;
}.

(** The statement a downgrade uses against one of an upgrade. *)
Definition undo (o : op) : option op :=
  match o with
  | CreateTable n _ _ => Some (DropTable n)
  | AddColumn t col => Some (DropColumn t (c_name col))
  | CreateIndex n ix => Some (DropIndex n (ix_table ix))
  | CreateCheck n t _ => Some (DropConstraint n t)
  | CreateFunction n _ => Some (DropFunction n)
  | CreateTrigger n t _ => Some (DropTrigger n t)
  | _ => None
  end.

(** Peels the checks of a statement that went through. *)
Ltac inv_op H :=
  repeat match type of H with
  | rbind (require _ _) _ = Ok _ =>
      let Hr := fresh "Hr" in
      apply rbind_Ok in H as ([] & Hr & H); rewrite require_Ok in Hr
  | rbind (get_table _ _) _ = Ok _ =>
      let tb := fresh "tb" in let Ht := fresh "Ht" in
      apply rbind_Ok in H as (tb & Ht & H); rewrite get_table_Ok in Ht
  end; injection H as <-.

Lemma rbind_require {A} (P : Prop) `{!Decision P} e (m : result exn A) :
  P → (let? _ := require P e in m) = m.
Proof. intros HP. unfold require. by rewrite decide_True. Qed.

Lemma rbind_get_table {A} c t tb (k : Table → result exn A) :
  tables c !! t = Some tb → (let? tb := get_table c t in k tb) = k tb.
Proof. intros Ht. unfold get_table. by rewrite Ht. Qed.

Lemma filter_all {A} (P : A → Prop) `{!∀ x, Decision (P x)} (l : list A) :
  (∀ x, x ∈ l → P x) → filter P l = l.
Proof.
  induction l as [|x l IH]; intros HP; [done|].
  rewrite filter_cons_True by (apply HP; left). rewrite IH; [done|]. intros y Hy. apply HP. by right.
Qed.

Lemma map_filter_all {K A} `{Countable K} (P : K * A → Prop) `{!∀ x, Decision (P x)} (m : gmap K A) :
  (∀ i x, m !! i = Some x → P (i, x)) → filter P m = m.
Proof. intros HP. by apply map_filter_id. Qed.

Lemma lookup_set_table t tb c u tb' :
  tables (set_table t tb c) !! u = Some tb' → (u = t ∧ tb' = tb) ∨ tables c !! u = Some tb'.
Proof. cbn. intros [[<- <-]|[_ Hu]]%lookup_insert_Some; auto. Qed.

Lemma refers_to_absent c t u tb :
  wf c → tables c !! t = None → tables c !! u = Some tb → refers_to t tb = false.
Proof.
  intros Hwf Ht Hu. apply not_true_is_false. intros (col & Hin & Hc)%existsb_exists.
  apply list_elem_of_In in Hin. pose proof (wf_ref c Hwf u tb col Hu Hin) as Hr.
  unfold ref_exists in Hr. destruct (c_ref col) as [[v x]|]; [|done].
  apply String.eqb_eq in Hc as ->. by rewrite Ht in Hr.
Qed.

Lemma refers_to_column_absent c t x u tb tb' :
  wf c → tables c !! t = Some tb → x ∉ column_names tb → tables c !! u = Some tb' →
  refers_to_column t x tb' = false.
Proof.
  intros Hwf Ht Hx Hu. apply not_true_is_false. intros (col & Hin & Hc)%existsb_exists.
  apply list_elem_of_In in Hin. pose proof (wf_ref c Hwf u tb' col Hu Hin) as Hr.
  unfold ref_exists in Hr. destruct (c_ref col) as [[v y]|]; [|done].
  apply andb_prop in Hc as [->%String.eqb_eq ->%String.eqb_eq]. by rewrite Ht in Hr.
Qed.

Lemma undo_create_table n cols checks c c' :
  wf c → run_op (CreateTable n cols checks) c = Ok c' → run_op (DropTable n) c' = Ok c.
Proof.
  intros Hwf H. cbn [run_op] in H. inv_op H. destruct Hr as [Hn Hi]. cbn [run_op].
  rewrite (rbind_get_table _ _ (mkTable cols checks ∅)) by apply lookup_insert_eq.
  rewrite rbind_require.
  2: { intros u tb Hu. apply lookup_set_table in Hu as [[-> ->]|Hu]; [by left|]. right.
       by eapply refers_to_absent. }
  cbn. rewrite delete_insert_id by done. rewrite !map_filter_all; [by destruct c|..].
  - intros [t m] tg Htg. cbn. intros ->. apply (wf_trigger c Hwf) in Htg as (_ & tb & Htb & _).
    cbn in Htb. congruence.
  - intros m ix Hix. cbn. intros He. apply (wf_index c Hwf) in Hix as (tb & Htb & _). congruence.
Qed.

Lemma undo_add_column t col c c' :
  wf c → run_op (AddColumn t col) c = Ok c' → run_op (DropColumn t (c_name col)) c' = Ok c.
Proof.
  intros Hwf H. cbn [run_op] in H. inv_op H. rename Hr into Hx, Hr0 into Href, Ht into Htb.
  cbn [run_op]. rewrite (rbind_get_table _ _ (add_column col tb)) by apply lookup_insert_eq.
  rewrite rbind_require.
  2: { unfold column_names, add_column. cbn. rewrite fmap_app, elem_of_app. right. by left. }
  rewrite rbind_require.
  2: { intros [u m] tg Htg. cbn. intros -> Hin.
       apply (wf_trigger c Hwf) in Htg as (_ & tb' & Htb' & Hsub). cbn in Htb'.
       assert (tb' = tb) as -> by congruence. by apply Hx, Hsub. }
  rewrite rbind_require.
  2: { intros u tb' Hu. apply lookup_set_table in Hu as [[-> ->]|Hu]; [by left|]. right.
       by eapply refers_to_column_absent. }
  f_equal. destruct c as [ex tbs ixs fns tgs]. unfold set_indexes, set_table. cbn in *. f_equal.
  - rewrite insert_insert_eq. apply insert_id. rewrite Htb. f_equal.
    unfold drop_column, add_column. destruct tb as [cols cks rows]. cbn in *. f_equal.
    + rewrite list.filter_app, filter_cons_False, app_nil_r by (by intros []).
      symmetry. apply filter_all. intros col' Hin He. apply Hx. unfold column_names. cbn.
      rewrite <-He. by apply list_elem_of_fmap_2.
    + symmetry. apply filter_all. intros ck Hck Hin. apply Hx.
      by apply (wf_check _ Hwf t _ ck Htb Hck).
    + rewrite <-map_fmap_compose. symmetry. etrans; [apply map_fmap_ext|apply map_fmap_id].
      intros k r Hkr. cbn. assert (r !! c_name col = None) as Hnone.
      { destruct (r !! c_name col) eqn:E; [|done]. exfalso. apply Hx.
        by apply (wf_row _ Hwf t _ k r (c_name col) Htb Hkr). }
      unfold with_default. destruct (c_default col); [by apply delete_insert_id|by apply delete_id].
  - apply map_filter_all. intros n ix Hix [He Hin]. cbn in *. apply Hx.
    apply (wf_index _ Hwf) in Hix as (tb' & Htb' & Hsub). cbn in Htb'.
    assert (tb' = tb) as -> by congruence. by apply Hsub.
Qed.

Lemma set_table_id c t tb : tables c !! t = Some tb → set_table t tb c = c.
Proof. intros Ht. destruct c. unfold set_table. cbn in *. f_equal. by apply insert_id. Qed.

Lemma undo_create_check n t e c c' :
  run_op (CreateCheck n t e) c = Ok c' → run_op (DropConstraint n t) c' = Ok c.
Proof.
  intros H. cbn [run_op] in H. inv_op H. rename Hr into Hn, Ht into Htb. cbn [run_op].
  erewrite rbind_get_table by apply lookup_insert_eq.
  rewrite rbind_require.
  2: { cbn. rewrite fmap_app, elem_of_app. right. by left. }
  f_equal. unfold set_table at 1. cbn. rewrite insert_insert_eq. etrans; [|by apply (set_table_id c t tb)].
  unfold set_table. do 2 f_equal. destruct tb as [cols cks rows]. cbn in *. f_equal.
  rewrite list.filter_app, filter_cons_False, app_nil_r by (cbn; by intros []).
  apply filter_all. intros ck Hck He. apply Hn. rewrite <-He. by apply list_elem_of_fmap_2.
Qed.

(** Each statement of a downgrade takes back its statement of the upgrade,
    whatever else the catalog holds. *)
Lemma run_undo o o' c c' :
  undo o = Some o' → wf c → run_op o c = Ok c' → run_op o' c' = Ok c.
Proof.
  intros Hu Hwf H. destruct o as [| |n cols checks| |t col| |n ix| |n t e| | |n body| |n t tg|];
    try done; injection Hu as <-.
  - by eapply undo_create_table.
  - by eapply undo_add_column.
  - cbn [run_op] in H. inv_op H. destruct Hr as [_ Hi]. cbn [run_op].
    rewrite rbind_require by (eexists; apply lookup_insert_eq).
    f_equal. unfold set_indexes. cbn. rewrite delete_insert_id by done. by destruct c.
  - by eapply undo_create_check.
  - cbn [run_op] in H. inv_op H. cbn [run_op].
    rewrite rbind_require by (eexists; apply lookup_insert_eq).
    rewrite rbind_require.
    2: { intros kt tg Htg He. apply (wf_trigger c Hwf) in Htg as ([b Hb] & _). congruence. }
    cbn. rewrite delete_insert_id by done. by destruct c.
  - cbn [run_op] in H. inv_op H. cbn [run_op].
    rewrite rbind_require by (eexists; apply lookup_insert_eq).
    cbn. rewrite delete_insert_id by done. by destruct c.
Qed.

(** *** The statements of an upgrade keep the catalog well-formed *)

Lemma ref_exists_grow c c' col :
  (∀ t tb, tables c !! t = Some tb →
     ∃ tb', tables c' !! t = Some tb' ∧ column_names tb ⊆ column_names tb') →
  ref_exists c col → ref_exists c' col.
Proof.
  intros Hg. unfold ref_exists. destruct (c_ref col) as [[t x]|]; [|done].
  destruct (tables c !! t) as [tb|] eqn:Ht; [|done]. destruct (Hg t tb Ht) as (tb' & -> & Hs).
  by apply Hs.
Qed.

Lemma wf_set_table t tb c :
  wf c → (∀ tb0, tables c !! t = Some tb0 → column_names tb0 ⊆ column_names tb) →
  (∀ k r x, t_rows tb !! k = Some r → is_Some (r !! x) → x ∈ column_names tb) →
  (∀ ck, ck ∈ t_checks tb → mentions ck.2 ⊆ column_names tb) →
  (∀ col, col ∈ t_columns tb → ref_exists c col) →
  wf (set_table t tb c).
Proof.
  intros Hwf Hold Hrows Hchecks Hrefs.
  assert (Hgrow : ∀ u tb0, tables c !! u = Some tb0 →
    ∃ tb', tables (set_table t tb c) !! u = Some tb' ∧ column_names tb0 ⊆ column_names tb').
  { intros u tb0 Hu. cbn. destruct (decide (u = t)) as [->|Hne].
    - exists tb. rewrite lookup_insert_eq. split; [done|by apply Hold].
    - exists tb0. by rewrite lookup_insert_ne. }
  constructor.
  - intros u tb' k r x Hu Hk Hx. apply lookup_set_table in Hu as [[-> ->]|Hu]; [by eapply Hrows|].
    by eapply (wf_row c Hwf).
  - intros u tb' ck Hu Hck. apply lookup_set_table in Hu as [[-> ->]|Hu]; [by apply Hchecks|].
    by eapply (wf_check c Hwf).
  - intros u tb' col Hu Hcol. apply ref_exists_grow with c; [done|].
    apply lookup_set_table in Hu as [[-> ->]|Hu]; [by apply Hrefs|]. by eapply (wf_ref c Hwf).
  - intros n ix Hix. apply (wf_index c Hwf) in Hix as (tb0 & Hu & Hs).
    destruct (Hgrow _ _ Hu) as (tb' & Hu' & Hs'). exists tb'. split; [done|]. by etrans.
  - intros kt tg Htg. apply (wf_trigger c Hwf) in Htg as (Hf & tb0 & Hu & Hs). split; [done|].
    destruct (Hgrow _ _ Hu) as (tb' & Hu' & Hs'). exists tb'. split; [done|]. by etrans.
Qed.

Lemma updated_keys sets cond r x :
  is_Some (updated sets cond r !! x) → is_Some (r !! x) ∨ x ∈ sets.*1.
Proof.
  unfold updated. destruct (selects cond r); [|by left].
  induction sets as [|[y e] sets IH]; cbn; [by left|]. unfold assign. cbn.
  destruct (decide (x = y)) as [->|Hne]; [right; by left|].
  destruct (eval e r); rewrite ?lookup_insert_ne, ?lookup_delete_ne by done;
    intros [?|?]%IH; auto; right; by right.
Qed.

(** The statements an upgrade is made of. *)
Definition forward (o : op) : bool :=
  match o with
  | DropExtension _ | DropTable _ | DropColumn _ _ | DropIndex _ _ | DropConstraint _ _
  | DropFunction _ | DropTrigger _ _ => false
  | _ => true
  end.

Lemma run_op_wf o c c' : forward o = true → wf c → run_op o c = Ok c' → wf c'.
Proof.
  intros Hfw Hwf H. destruct o as [n| |n cols checks| |t col| |n ix| |n t e| |t sets cond|n body| |n t tg|];
    try discriminate Hfw; cbn [run_op] in H; inv_op H.
  - by destruct Hwf.
  - apply wf_set_table; [done|..]; cbn.
    + intros tb0 Ht. destruct Hr. congruence.
    + intros k r x Hk. by rewrite lookup_empty in Hk.
    + intros ck Hck. unfold column_names. cbn. rewrite list.Forall_forall in Hr2. by apply Hr2.
    + intros col Hcol. rewrite list.Forall_forall in Hr0. by apply Hr0.
  - assert (column_names tb ⊆ column_names (add_column col tb)) as Hsub.
    { unfold column_names. cbn. rewrite fmap_app. set_solver. }
    assert (c_name col ∈ column_names (add_column col tb)) as Hcol.
    { unfold column_names. cbn. rewrite fmap_app, elem_of_app. right. by left. }
    apply wf_set_table; [done|..]; cbn.
    + intros tb0 Ht'. assert (tb0 = tb) as -> by congruence. done.
    + intros k r x (r0 & <- & Hk)%lookup_fmap_Some Hx. unfold with_default in Hx.
      assert (is_Some (r0 !! x) ∨ x = c_name col) as [Hs| ->]; [|by apply Hsub; eapply (wf_row c Hwf)|done].
      destruct (c_default col); [|by left].
      apply lookup_insert_is_Some in Hx as [?|[_ ?]]; auto.
    + intros ck Hck. etrans; [by eapply (wf_check c Hwf)|done].
    + intros col' [Hin| ->%list_elem_of_singleton]%elem_of_app; [by eapply (wf_ref c Hwf)|done].
  - destruct Hwf as [? ? ? Hi ?]. constructor; try done. cbn.
    intros m jx [[<- <-]|[_ Hjx]]%lookup_insert_Some; [by exists tb|by eapply Hi].
  - apply wf_set_table; [done|..]; cbn.
    + intros tb0 Ht'. assert (tb0 = tb) as -> by congruence. done.
    + intros k r x Hk Hx. by eapply (wf_row c Hwf t tb).
    + intros ck [Hin| ->%list_elem_of_singleton]%elem_of_app; [by eapply (wf_check c Hwf t tb)|done].
    + intros col Hin. by eapply (wf_ref c Hwf).
  - apply wf_set_table; [done|..]; cbn.
    + intros tb0 Ht'. assert (tb0 = tb) as -> by congruence. done.
    + intros k r x (r0 & <- & Hk)%lookup_fmap_Some [Hx|Hx]%updated_keys;
        [by eapply (wf_row c Hwf t tb)|by apply Hr].
    + intros ck Hin. by eapply (wf_check c Hwf t tb).
    + intros col Hin. by eapply (wf_ref c Hwf).
  - destruct Hwf as [? ? ? ? Htr]. constructor; try done. cbn.
    intros kt tg Htg. destruct (Htr kt tg Htg) as (Hf & ?). split; [|done].
    rewrite lookup_insert_is_Some'. by right.
  - destruct Hwf as [? ? ? ? Htr]. constructor; try done. cbn.
    intros kt tg' [[<- <-]|[_ Htg]]%lookup_insert_Some; [|by apply Htr].
    split; [done|]. by exists tb.
Qed.

Lemma run_ops_app l l' c : run_ops (l ++ l') c = (let? c' := run_ops l c in run_ops l' c').
Proof. revert c. induction l as [|o l IH]; intros c; cbn; [done|]. destruct (run_op o c); [apply IH|done]. Qed.

Lemma run_ops_wf l c c' : forallb forward l = true → wf c → run_ops l c = Ok c' → wf c'.
Proof.
  revert c. induction l as [|o l IH]; cbn; intros c Hf Hwf; [by intros [= <-]|].
  apply andb_prop in Hf as [Ho Hl]. intros (c1 & H1 & H2)%rbind_Ok.
  eapply IH; [done| |done]. by eapply run_op_wf.
Qed.

Lemma undo_forward o o' : undo o = Some o' → forward o = true.
Proof. by destruct o. Qed.

(** A list of statements is taken back by their opposites in reverse. *)
Lemma run_ops_undo l l' c c' :
  mapM undo l = Some l' → wf c → run_ops l c = Ok c' → run_ops (reverse l') c' = Ok c.
Proof.
  revert l' c. induction l as [|o l IH]; intros l' c Hu Hwf H.
  - injection Hu as <-. by injection H as <-.
  - cbn in Hu. destruct (undo o) as [o'|] eqn:Ho; [|done]. cbn in Hu.
    destruct (mapM undo l) as [us|] eqn:Hus; [|done]. injection Hu as <-. cbn in H.
    apply rbind_Ok in H as (c1 & H1 & H2). rewrite reverse_cons, run_ops_app.
    rewrite (IH us c1 eq_refl (run_op_wf _ _ _ (undo_forward _ _ Ho) Hwf H1) H2).
    cbn. by rewrite (run_undo o o' c c1).
Qed.

(** Only two statements touch the extensions. *)
Definition keeps_extensions (o : op) : bool :=
  match o with CreateExtension _ | DropExtension _ => false | _ => true end.

Lemma run_ops_extensions l c c' :
  forallb keeps_extensions l = true → run_ops l c = Ok c' → extensions c' = extensions c.
Proof.
  revert c. induction l as [|o l IH]; cbn; intros c Hk; [by intros [= <-]|].
  apply andb_prop in Hk as [Ho Hl]. intros (c1 & H1 & H2)%rbind_Ok. rewrite (IH c1) by done.
  clear -Ho H1. destruct o; try discriminate Ho; cbn [run_op] in H1; by inv_op H1.
Qed.

(** *** Rows and the columns that go *)

Definition set_rows (t : string) (rows : gmap uuid row) (c : Catalog) : Catalog :=
  match tables c !! t with
  | Some tb => set_table t (mkTable (t_columns tb) (t_checks tb) rows) c
  | None => c
  end.

Definition without (xs : list string) (r : row) : row := foldl (λ r x, delete x r) r xs.

Lemma lookup_without xs r y : without xs r !! y = if decide (y ∈ xs) then None else r !! y.
Proof.
  unfold without. revert r. induction xs as [|x xs IH]; intros r; cbn.
  { by rewrite decide_False by apply not_elem_of_nil. }
  rewrite IH. destruct (decide (y ∈ xs)) as [Hy|Hy].
  { by rewrite decide_True by by right. }
  destruct (decide (y = x)) as [->|Hne].
  - rewrite decide_True by left. apply lookup_delete_eq.
  - rewrite lookup_delete_ne by done. by rewrite decide_False by (by rewrite elem_of_cons; intros [|]).
Qed.

Lemma without_updated sets cond xs r : sets.*1 ⊆ xs → without xs (updated sets cond r) = without xs r.
Proof.
  intros Hsub. apply map_eq. intros y. rewrite !lookup_without. case_decide as Hy; [done|].
  unfold updated. destruct (selects cond r); [|done].
  induction sets as [|[x e] sets IH]; cbn in *; [done|].
  assert (y ≠ x) by (intros ->; apply Hy, Hsub; left). unfold assign. cbn.
  destruct (eval e r); rewrite ?lookup_insert_ne, ?lookup_delete_ne by done;
    apply IH; set_solver.
Qed.

Lemma set_rows_id t c : set_rows t (rows_of c t) c = c.
Proof.
  unfold set_rows, rows_of. destruct (tables c !! t) as [[cols cks rows]|] eqn:Ht; [|done].
  by apply set_table_id.
Qed.

Lemma set_rows_again t rows rows' c : set_rows t rows' (set_rows t rows c) = set_rows t rows' c.
Proof.
  unfold set_rows at 2 3. destruct (tables c !! t) as [tb|] eqn:Ht.
  - unfold set_rows, set_table. cbn. rewrite lookup_insert_eq. cbn. by rewrite insert_insert_eq.
  - unfold set_rows. by rewrite Ht.
Qed.

(** Whether a column can go does not depend on the rows. *)
Lemma drop_column_rows t x rows c c' :
  run_op (DropColumn t x) c = Ok c' →
  run_op (DropColumn t x) (set_rows t rows c) = Ok (set_rows t (delete x <$> rows) c') ∧
  rows_of c' t = delete x <$> rows_of c t.
Proof.
  intros H. cbn [run_op] in H. inv_op H. rename Ht into Htb. split.
  - unfold set_rows at 1. rewrite Htb. cbn [run_op].
    erewrite rbind_get_table by apply lookup_insert_eq.
    rewrite rbind_require by exact Hr. rewrite rbind_require by exact Hr0.
    rewrite rbind_require.
    2: { intros u tb' Hu. apply lookup_set_table in Hu as [[-> ->]|Hu]; [by left|by apply (Hr1 u)]. }
    unfold set_rows. cbn. rewrite lookup_insert_eq. unfold set_indexes, set_table. cbn.
    by rewrite !insert_insert_eq.
  - unfold rows_of. cbn. by rewrite lookup_insert_eq, Htb.
Qed.

Lemma drop_columns_rows t xs rows c c' :
  run_ops (DropColumn t <$> xs) c = Ok c' →
  run_ops (DropColumn t <$> xs) (set_rows t rows c) = Ok (set_rows t (without xs <$> rows) c') ∧
  rows_of c' t = without xs <$> rows_of c t.
Proof.
  revert rows c. induction xs as [|x xs IH]; intros rows c;
    rewrite ?fmap_nil, ?fmap_cons; cbn [run_ops].
  - intros [= <-]. change (without []) with (λ r : row, r). by rewrite !map_fmap_id.
  - intros (c1 & H1 & H2)%rbind_Ok. destruct (drop_column_rows t x rows c c1 H1) as [-> Hr1].
    cbn [rbind]. destruct (IH (delete x <$> rows) c1 H2) as [-> Hr2]. rewrite Hr2, Hr1.
    by rewrite <-!map_fmap_compose.
Qed.

(** An UPDATE of columns that then go leaves no trace. *)
Lemma drop_after_update t sets cond xs c c' c0 :
  sets.*1 ⊆ xs → run_op (UpdateRows t sets cond) c = Ok c' →
  run_ops (DropColumn t <$> xs) c = Ok c0 → run_ops (DropColumn t <$> xs) c' = Ok c0.
Proof.
  intros Hsub H Hdrop. cbn [run_op] in H. inv_op H. rename Ht into Htb.
  destruct (drop_columns_rows t xs (updated sets cond <$> t_rows tb) c c0 Hdrop) as [Hd Hrows].
  unfold set_rows at 1 in Hd. rewrite Htb in Hd. rewrite Hd. f_equal.
  rewrite <-(set_rows_id t c0) at 2. f_equal. rewrite Hrows. unfold rows_of. rewrite Htb.
  rewrite <-map_fmap_compose. apply map_fmap_ext. intros k r _. by apply without_updated.
Qed.
