(* ===== verification/World.v ===== *)
(** * The process and its surroundings

    The application runs against Postgres, a Redis stream, the audit directory,
    a clock and a source of UUIDs.  [World] is their state.  Code with effects
    is a function [M A]: it takes a world and gives a value or an exception,
    and the world it leaves behind.

    Any call out of the process can fail.  [env_fault] says, for the n-th call,
    whether it succeeds, fails before it had an effect, fails after it had one
    (the reply is lost), or is cut short because the task is cancelled or the
    process dies.  Theorems hold for every such schedule. *)

From Stdlib Require Import Ascii.
From S2P Require Import Prelude PyStr Json PyTime Contracts Database.

Open Scope Z_scope.

(** ** Faults *)

Inductive fault :=
| FOk
| FErr                 (** raises, no effect *)
| FLost                (** the effect happened, then it raises *)
| FTorn (n : nat)      (** a write that stopped after [n] bytes, then raises *)
| FCancel              (** cancelled before the effect *)
| FLostCancel.         (** cancelled after the effect *)

(** Whether the effect of a faulty call happens. *)
Definition takes_effect (f : fault) : bool :=
  match f with FOk | FLost | FLostCancel => true | _ => false end.

(** What the caller sees, [e] being the ordinary failure of the service. *)
Definition raised (e : exn) (f : fault) : option exn :=
  match f with
  | FOk => None
  | FErr | FLost | FTorn _ => Some e
  | FCancel | FLostCancel => Some CancelledError
  end.

Class Env := {
  env_fault : nat → fault;
  env_now : nat → Z;
  env_uuid : nat → uuid;
}.

(** The other tasks of the process.  The HTTP handlers, the outbox loop and the
    worker share Postgres and Redis and run in turns: whenever one of them waits
    for a transaction to begin or for a Redis reply outside one, the others may
    have moved the shared state.  [others n] is what they did before the n-th
    call.  Theorems about one task say what they rely on. *)
Class Others (R : Type) := { others : nat → DB → R → DB * R }.

(** ** The Redis stream [agentevents] and its consumer group

    What the program uses of Redis Streams, with the documented behaviour of
    the commands as laws.  [entries] is the retained stream, [unread] the part of
    it not yet delivered to the group, [pending] the ids delivered and not
    acknowledged, and [history] every entry ever added, trimmed ones included. *)

Definition stream_fields := list (string * string).

(** producer.py: [MAX_STREAM_LENGTH] *)
Definition MAX_STREAM_LENGTH : Z := 100000.

Class RedisStreams (R : Type) := {
  xadd : string → R → string * R;
  xgroup_create : R → result exn R;
  xreadgroup : nat → R → list (string * stream_fields) * R;
  xack : string → R → R;
  entries : R → list (string * stream_fields);
  unread : R → list (string * stream_fields);
  pending : R → list string;
  history : R → list (string * stream_fields);
  group_exists : R → bool;
  (** XADD appends an entry under a new id, greater than every id before; below
      MAXLEN nothing is trimmed. *)
  xadd_fresh : ∀ v r, (xadd v r).1 ∉ (entries r).*1;
  xadd_new : ∀ v r, (xadd v r).1 ∉ (history r).*1;
  xadd_history : ∀ v r, history (xadd v r).2 = history r ++ [((xadd v r).1, [("event", v)])];
  xadd_entries : ∀ v r, Z.of_nat (length (entries r)) < MAX_STREAM_LENGTH →
    entries (xadd v r).2 = entries r ++ [((xadd v r).1, [("event", v)])];
  xadd_unread : ∀ v r, Z.of_nat (length (entries r)) < MAX_STREAM_LENGTH →
    unread (xadd v r).2 = unread r ++ [((xadd v r).1, [("event", v)])];
  (** From MAXLEN on it may trim the oldest entries, down to MAXLEN and not
      below, whether or not they were read; a trimmed entry is not delivered. *)
  xadd_trims : ∀ v r, MAX_STREAM_LENGTH ≤ Z.of_nat (length (entries r)) →
    MAX_STREAM_LENGTH ≤ Z.of_nat (length (entries (xadd v r).2)) ∧
    (∃ k, entries (xadd v r).2 = drop k (entries r ++ [((xadd v r).1, [("event", v)])])) ∧
    ∀ x, x ∈ unread (xadd v r).2 ↔
      x ∈ unread r ++ [((xadd v r).1, [("event", v)])] ∧ x ∈ entries (xadd v r).2;
  xadd_pending : ∀ v r, pending (xadd v r).2 = pending r;
  (** XREADGROUP with [>] delivers the oldest unread entries and leaves their
      ids pending. *)
  xreadgroup_batch : ∀ n r, (xreadgroup n r).1 = take n (unread r);
  xreadgroup_unread : ∀ n r, unread (xreadgroup n r).2 = drop n (unread r);
  xreadgroup_pending : ∀ n r,
    pending (xreadgroup n r).2 = pending r ++ (take n (unread r)).*1;
  xreadgroup_entries : ∀ n r, entries (xreadgroup n r).2 = entries r;
  xreadgroup_history : ∀ n r, history (xreadgroup n r).2 = history r;
  (** XACK removes one id from the pending list and nothing else. *)
  xack_pending : ∀ i r, pending (xack i r) = filter (λ j, j ≠ i) (pending r);
  xack_unread : ∀ i r, unread (xack i r) = unread r;
  xack_entries : ∀ i r, entries (xack i r) = entries r;
  xack_history : ∀ i r, history (xack i r) = history r;
  (** XGROUP CREATE from id 0 keeps the entries; it answers BUSYGROUP when the
      group exists. *)
  xgroup_create_busy : ∀ r, group_exists r = true →
    xgroup_create r = Raise (ResponseError "BUSYGROUP Consumer Group name already exists");
  xgroup_create_new : ∀ r, group_exists r = false →
    ∃ r', xgroup_create r = Ok r' ∧ group_exists r' = true ∧ entries r' = entries r ∧
          unread r' = unread r ∧ pending r' = pending r ∧ history r' = history r;
}.

(** *** What XADD does, trimming or not *)

Section xadd.
Context {R : Type} `{!RedisStreams R}.
Implicit Types r : R.

Definition new_entry (v : string) r : string * stream_fields := ((xadd v r).1, [("event", v)]).

Definition full r : Prop := MAX_STREAM_LENGTH ≤ Z.of_nat (length (entries r)).

Lemma xadd_entries_drop v r :
  ∃ k, entries (xadd v r).2 = drop k (entries r ++ [new_entry v r]) ∧ (k = 0%nat ∨ full (xadd v r).2).
Proof.
  destruct (decide (full r)) as [Hf|Hf].
  - destruct (xadd_trims v r Hf) as (Hl & [k Hk] & _). exists k. by auto.
  - exists 0%nat. unfold full in Hf. rewrite xadd_entries by lia. by auto.
Qed.

Lemma xadd_entries_sub v r x : x ∈ entries (xadd v r).2 → x ∈ entries r ++ [new_entry v r].
Proof.
  destruct (xadd_entries_drop v r) as (k & -> & _). intros Hx.
  rewrite <-(take_drop k (entries r ++ [new_entry v r])). apply elem_of_app. by right.
Qed.

(** The new entry itself is not trimmed. *)
Lemma xadd_entries_last v r : new_entry v r ∈ entries (xadd v r).2.
Proof.
  destruct (xadd_entries_drop v r) as (k & Hk & Ho). rewrite Hk.
  assert (k ≤ length (entries r))%nat as Hle.
  { destruct Ho as [->|Hf]; [lia|]. unfold full in Hf. rewrite Hk, length_drop, length_app in Hf.
    cbn in Hf. unfold MAX_STREAM_LENGTH in Hf. lia. }
  rewrite drop_app_le by done. apply elem_of_app. right. by left.
Qed.

Lemma xadd_full v r : full r → full (xadd v r).2.
Proof. intros Hf. by destruct (xadd_trims v r Hf). Qed.

Lemma xadd_unread_sub v r x : x ∈ unread (xadd v r).2 → x ∈ unread r ++ [new_entry v r].
Proof.
  destruct (decide (full r)) as [Hf|Hf].
  - destruct (xadd_trims v r Hf) as (_ & _ & Hu). intros [Hx _]%Hu. done.
  - unfold full in Hf. by rewrite xadd_unread by lia.
Qed.

Lemma xadd_unread_kept v r x :
  x ∈ unread r ++ [new_entry v r] → x ∈ entries (xadd v r).2 → x ∈ unread (xadd v r).2.
Proof.
  intros Hx He. destruct (decide (full r)) as [Hf|Hf].
  - destruct (xadd_trims v r Hf) as (_ & _ & Hu). by apply Hu.
  - unfold full in Hf. by rewrite xadd_unread by lia.
Qed.

Lemma xadd_unread_held v r x :
  (∀ x, x ∈ unread r → x ∈ entries r) → x ∈ unread (xadd v r).2 → x ∈ entries (xadd v r).2.
Proof.
  intros Hu. destruct (decide (full r)) as [Hf|Hf].
  - destruct (xadd_trims v r Hf) as (_ & _ & Hi). by intros [_ ?]%Hi.
  - unfold full in Hf. rewrite xadd_unread, xadd_entries by lia. rewrite !elem_of_app.
    naive_solver.
Qed.
End xadd.

(** ** State *)

(** recorder/writer.py: [Recorder] *)
Record Recorder := mkRecorder {
  rec_path : string;
  rec_seq : gmap string Z;
  rec_failures : Z;
}.

Record World (R : Type) := mkWorld {
  w_db : DB;
  w_redis : R;
  w_files : gmap string string;
  w_rec : Recorder;
  w_tick : nat;
}.
Arguments mkWorld {R}.
Arguments w_db {R}.
Arguments w_redis {R}.
Arguments w_files {R}.
Arguments w_rec {R}.
Arguments w_tick {R}.

Section world.
Context {R : Type}.
Implicit Types w : World R.

Definition put_db (d : DB) w := mkWorld d (w_redis w) (w_files w) (w_rec w) (w_tick w).
Definition put_redis (r : R) w := mkWorld (w_db w) r (w_files w) (w_rec w) (w_tick w).
Definition put_files (f : gmap string string) w :=
  mkWorld (w_db w) (w_redis w) f (w_rec w) (w_tick w).
Definition put_rec (r : Recorder) w := mkWorld (w_db w) (w_redis w) (w_files w) r (w_tick w).
Definition next_tick w :=
  mkWorld (w_db w) (w_redis w) (w_files w) (w_rec w) (S (w_tick w)).
End world.

(** ** The monad *)

Definition M (R A : Type) : Type := World R → result exn A * World R.

Section monad.
Context {R : Type}.

Definition mret' {A} (a : A) : M R A := λ w, (Ok a, w).
Definition mraise {A} (e : exn) : M R A := λ w, (Raise e, w).
Definition mbind' {A B} (m : M R A) (k : A → M R B) : M R B := λ w,
  match m w with
  | (Ok a, w') => k a w'
  | (Raise e, w') => (Raise e, w')
  end.

(** [try: m  except <p>: h] *)
Definition mtry {A} (p : exn → bool) (m : M R A) (h : exn → M R A) : M R A := λ w,
  match m w with
  | (Ok a, w') => (Ok a, w')
  | (Raise e, w') => if p e then h e w' else (Raise e, w')
  end.

(** Pure code that may raise. *)
Definition lift {A} (r : result exn A) : M R A := λ w, (r, w).

(** [for x in l: body(x)] *)
Fixpoint mfor {A B} (l : list A) (body : A → M R B) : M R (list B) :=
  match l with
  | [] => mret' []
  | x :: l => mbind' (body x) (λ y, mbind' (mfor l body) (λ ys, mret' (y :: ys)))
  end.
End monad.

Notation "'do!' x ':=' m 'in' k" := (mbind' m (λ x, k))
  (at level 10, x pattern, m at level 100, k at level 200) : smoke_scope.

(** ** Calls out of the process *)

Section effects.
Context {R : Type} `{!Env, !Others R}.

(** [datetime.now(tz=UTC)] *)
Definition now : M R datetime := λ w, (Ok (utc (env_now (w_tick w))), next_tick w).

(** [uuid4()] *)
Definition uuid4 : M R uuid := λ w, (Ok (env_uuid (w_tick w)), next_tick w).

(** One SQL statement on the open transaction.  A fault raises; the enclosing
    transaction undoes what the statement did. *)
Definition sql {A} (stmt : DB → result exn (A * DB)) : M R A := λ w,
  let w1 := next_tick w in
  match raised (ServiceError "postgres") (env_fault (w_tick w)) with
  | Some e => (Raise e, w1)
  | None =>
      match stmt (w_db w) with
      | Ok (a, d) => (Ok a, put_db d w1)
      | Raise e => (Raise e, w1)
      end
  end.

(** The turns of the other tasks. *)
Definition interleave : M R () := λ w,
  let '(d, r) := others (w_tick w) (w_db w) (w_redis w) in
  (Ok (), put_redis r (put_db d w)).

(** A body that commits at its end and is rolled back when it raises.  The
    commit is itself a call that can fail, before or after it took effect. *)
Definition atomically {A} (body : M R A) : M R A := λ w,
  match body w with
  | (Raise e, w1) => (Raise e, put_db (w_db w) w1)
  | (Ok a, w1) =>
      let f := env_fault (w_tick w1) in
      let w2 := next_tick w1 in
      let w3 := if takes_effect f then w2 else put_db (w_db w) w2 in
      match raised (ServiceError "postgres") f with
      | Some e => (Raise e, w3)
      | None => (Ok a, w3)
      end
  end.

(** [async with engine.begin() as connection: body]: transactions on the rows
    of one event, run or fingerprint follow each other, held apart by row
    locks and the advisory lock. *)
Definition transaction {A} (body : M R A) : M R A := do! _ := interleave in atomically body.

(** A Redis command. *)
Definition redis_call {A} (cmd : R → result exn (A * R)) : M R A := λ w,
  let w1 := next_tick w in
  let f := env_fault (w_tick w) in
  if takes_effect f then
    match cmd (w_redis w) with
    | Raise e => (Raise e, w1)
    | Ok (a, r) =>
        match raised (ServiceError "redis") f with
        | Some e => (Raise e, put_redis r w1)
        | None => (Ok a, put_redis r w1)
        end
    end
  else (Raise (default CancelledError (raised (ServiceError "redis") f)), w1).

(** A Redis command outside a transaction. *)
Definition redis_await {A} (cmd : R → result exn (A * R)) : M R A :=
  do! _ := interleave in redis_call cmd.
End effects.

(** ** Reasoning *)

Section reasoning.
Context {R : Type} `{!Env, !Others R}.
Implicit Types w : World R.

Lemma mbind_Ok {A B} (m : M R A) (k : A → M R B) w b w' :
  mbind' m k w = (Ok b, w') ↔ ∃ a w1, m w = (Ok a, w1) ∧ k a w1 = (Ok b, w').
Proof. unfold mbind'. destruct (m w) as [[a|e] w1]; naive_solver. Qed.

Lemma mbind_inv {A B} (m : M R A) (k : A → M R B) w o w' :
  mbind' m k w = (o, w') →
  (∃ a w1, m w = (Ok a, w1) ∧ k a w1 = (o, w')) ∨
  (∃ e, m w = (Raise e, w') ∧ o = Raise e).
Proof. unfold mbind'. destruct (m w) as [[a|e] w1]; naive_solver. Qed.

(** A property of worlds that [m] keeps, whatever the outcome. *)
Definition keeps (P : World R → Prop) {A} (m : M R A) : Prop :=
  ∀ w o w', m w = (o, w') → P w → P w'.

Lemma keeps_bind P {A B} (m : M R A) (k : A → M R B) :
  keeps P m → (∀ a, keeps P (k a)) → keeps P (mbind' m k).
Proof.
  intros Hm Hk w o w' [(a & w1 & H1 & H2)|(e & H1 & _)]%mbind_inv HP; [|by eapply Hm].
  eapply Hk; [done|]. by eapply Hm.
Qed.

Lemma keeps_ret P {A} (a : A) : keeps P (mret' a).
Proof. intros w o w' [= <- <-]. done. Qed.
Lemma keeps_raise P {A} e : keeps P (@mraise R A e).
Proof. intros w o w' [= <- <-]. done. Qed.
Lemma keeps_lift P {A} (r : result exn A) : keeps P (lift r).
Proof. intros w o w' [= <- <-]. done. Qed.

Lemma keeps_try P {A} p (m : M R A) h :
  keeps P m → (∀ e, keeps P (h e)) → keeps P (mtry p m h).
Proof.
  intros Hm Hh w o w'. unfold mtry. destruct (m w) as [[a|e] w1] eqn:E.
  - intros [= <- <-]. by eapply Hm.
  - destruct (p e).
    + intros Hw HP. eapply Hh; [done|]. by eapply Hm.
    + intros [= <- <-]. by eapply Hm.
Qed.

Lemma keeps_for P {A B} (l : list A) (body : A → M R B) :
  (∀ x, x ∈ l → keeps P (body x)) → keeps P (mfor l body).
Proof.
  induction l as [|x l IH]; intros Hb; [apply keeps_ret|]. cbn.
  apply keeps_bind; [apply Hb; by left|intros y].
  apply keeps_bind; [apply IH; intros z Hz; apply Hb; by right|intros ys].
  apply keeps_ret.
Qed.

(** *** Inversion of the calls *)

Lemma sql_inv {A} (s : DB → result exn (A * DB)) w o w' :
  sql s w = (o, w') →
  (∃ a d, o = Ok a ∧ s (w_db w) = Ok (a, d) ∧ w' = put_db d (next_tick w)) ∨
  (∃ e, o = Raise e ∧ w' = next_tick w).
Proof.
  unfold sql. destruct (raised _ _); [naive_solver|].
  destruct (s (w_db w)) as [[a d]|e] eqn:E; naive_solver.
Qed.

(** A statement that succeeds, on a call without fault. *)
Lemma sql_Ok {A} (s : DB → result exn (A * DB)) w a d :
  env_fault (w_tick w) = FOk → s (w_db w) = Ok (a, d) →
  sql s w = (Ok a, put_db d (next_tick w)).
Proof. intros Hf Hs. unfold sql. by rewrite Hf, Hs. Qed.

(** The world once the others have had their turn. *)
Definition after_others w : World R :=
  put_redis (others (w_tick w) (w_db w) (w_redis w)).2
    (put_db (others (w_tick w) (w_db w) (w_redis w)).1 w).

Lemma interleave_eq w : interleave w = (Ok (), after_others w).
Proof. unfold interleave, after_others. by destruct (others _ _ _). Qed.

(** After a transaction the database is the one the others left or the one
    its body left; a success means the commit took effect. *)
Lemma atomically_inv {A} (m : M R A) w o w' :
  atomically m w = (o, w') →
  (∃ a w1, m w = (Ok a, w1) ∧ w' = next_tick w1 ∧
     (o = Ok a ∨ ∃ e, o = Raise e)) ∨
  (∃ e o1 w1, o = Raise e ∧ m w = (o1, w1) ∧
     (w' = put_db (w_db w) w1 ∨ w' = put_db (w_db w) (next_tick w1))).
Proof.
  unfold atomically. destruct (m w) as [[a|e] w1] eqn:E; [|naive_solver].
  destruct (env_fault (w_tick w1)); cbn; intros [= <- <-]; naive_solver.
Qed.

Lemma transaction_eq {A} (m : M R A) w :
  transaction m w = atomically m (after_others w).
Proof. unfold transaction, mbind'. by rewrite interleave_eq. Qed.

Lemma transaction_inv {A} (m : M R A) w o w' :
  transaction m w = (o, w') →
  (∃ a w1, m (after_others w) = (Ok a, w1) ∧ w' = next_tick w1 ∧
     (o = Ok a ∨ ∃ e, o = Raise e)) ∨
  (∃ e o1 w1, o = Raise e ∧ m (after_others w) = (o1, w1) ∧
     (w' = put_db (w_db (after_others w)) w1 ∨
      w' = put_db (w_db (after_others w)) (next_tick w1))).
Proof. rewrite transaction_eq. apply atomically_inv. Qed.

Lemma transaction_Ok {A} (m : M R A) w a w1 :
  m (after_others w) = (Ok a, w1) → env_fault (w_tick w1) = FOk →
  transaction m w = (Ok a, next_tick w1).
Proof. intros Hm Hf. rewrite transaction_eq. unfold atomically. by rewrite Hm, Hf. Qed.

Lemma redis_call_Ok {A} (c : R → result exn (A * R)) w a r :
  env_fault (w_tick w) = FOk → c (w_redis w) = Ok (a, r) →
  redis_call c w = (Ok a, put_redis r (next_tick w)).
Proof. intros Hf Hc. unfold redis_call. by rewrite Hf, Hc. Qed.

Lemma redis_call_inv {A} (c : R → result exn (A * R)) w o w' :
  redis_call c w = (o, w') →
  (∃ a r, c (w_redis w) = Ok (a, r) ∧ w' = put_redis r (next_tick w) ∧
     (o = Ok a ∨ ∃ e, o = Raise e)) ∨
  (∃ e, o = Raise e ∧ w' = next_tick w).
Proof.
  unfold redis_call. destruct (env_fault (w_tick w)); cbn; [|naive_solver| |naive_solver..|];
    destruct (c (w_redis w)) as [[a r]|e] eqn:E; naive_solver.
Qed.

(** *** Properties of the database alone *)

Definition stmt_keeps (P : DB → Prop) {A} (s : DB → result exn (A * DB)) : Prop :=
  ∀ d a d', s d = Ok (a, d') → P d → P d'.

Notation on_db P := (λ w : World R, P (w_db w)).

Lemma keeps_now P : keeps (on_db P) now.
Proof. intros w o w' [= <- <-]. done. Qed.
Lemma keeps_uuid4 P : keeps (on_db P) uuid4.
Proof. intros w o w' [= <- <-]. done. Qed.

Lemma keeps_sql P {A} (s : DB → result exn (A * DB)) :
  stmt_keeps P s → keeps (on_db P) (sql s).
Proof.
  intros Hs w o w'. unfold sql. destruct (raised _ _); [by intros [= <- <-]|].
  destruct (s (w_db w)) as [[a d]|e] eqn:E; intros [= <- <-]; [|done]. by eapply Hs.
Qed.

(** What a property of the database needs of the other tasks. *)
Definition others_keep (P : DB → Prop) : Prop := ∀ n d r, P d → P (others n d r).1.

Lemma keeps_interleave P : others_keep P → keeps (on_db P) interleave.
Proof. intros Ho w o w' Hw HP. rewrite interleave_eq in Hw. injection Hw as <- <-. by apply Ho. Qed.

Lemma keeps_atomically P {A} (m : M R A) :
  keeps (on_db P) m → keeps (on_db P) (atomically m).
Proof.
  intros Hm w o w'. unfold atomically. destruct (m w) as [[a|e] w1] eqn:E.
  - intros Hw HP. pose proof (Hm _ _ _ E HP) as H1.
    by destruct (env_fault (w_tick w1)); injection Hw as <- <-.
  - by intros [= <- <-].
Qed.

Lemma keeps_transaction P {A} (m : M R A) :
  others_keep P → keeps (on_db P) m → keeps (on_db P) (transaction m).
Proof.
  intros Ho Hm. apply keeps_bind; [by apply keeps_interleave|]. intros _.
  by apply keeps_atomically.
Qed.

Lemma redis_call_db {A} (c : R → result exn (A * R)) w o w' :
  redis_call c w = (o, w') → w_db w' = w_db w.
Proof.
  unfold redis_call. destruct (env_fault (w_tick w)); cbn;
    try (destruct (c (w_redis w)) as [[a r]|e]); cbn; by intros [= <- <-].
Qed.

Lemma keeps_redis P {A} (c : R → result exn (A * R)) : keeps (on_db P) (redis_call c).
Proof. intros w o w' H1 HP. cbn in *. by rewrite (redis_call_db _ _ _ _ H1). Qed.

Lemma keeps_redis_await P {A} (c : R → result exn (A * R)) :
  others_keep P → keeps (on_db P) (redis_await c).
Proof. intros Ho. apply keeps_bind; [by apply keeps_interleave|]. intros _. apply keeps_redis. Qed.

(** *** Properties that do not look at the database *)

Record ignores_db (P : World R → Prop) : Prop := {
  ign_db : ∀ d w, P w → P (put_db d w);
  ign_tick : ∀ w, P w → P (next_tick w);
}.

Section ignoring.
Context (P : World R → Prop) (HP : ignores_db P).

Lemma keep_now : keeps P now.
Proof. intros w o w' [= <- <-]. by apply ign_tick. Qed.
Lemma keep_uuid4 : keeps P uuid4.
Proof. intros w o w' [= <- <-]. by apply ign_tick. Qed.

Lemma keep_sql {A} (s : DB → result exn (A * DB)) : keeps P (sql s).
Proof.
  intros w o w' [(a & d & _ & _ & ->)|(e & _ & ->)]%sql_inv Hw.
  - by apply ign_db, ign_tick.
  - by apply ign_tick.
Qed.

Lemma keep_atomically {A} (m : M R A) : keeps P m → keeps P (atomically m).
Proof.
  intros Hm w o w' [(a & w1 & H1 & -> & _)|(e & o1 & w1 & _ & H1 & Hw)]%atomically_inv HPw;
    apply Hm in H1; try done.
  - by apply ign_tick, H1.
  - destruct Hw as [-> | ->]; [|apply ign_db; [done|]; apply ign_tick; [done|]; by apply H1].
    apply ign_db; [done|]. by apply H1.
Qed.

Lemma keep_transaction {A} (m : M R A) :
  (∀ w, P w → P (after_others w)) → keeps P m → keeps P (transaction m).
Proof.
  intros Ho Hm w o w' Ht HPw. rewrite transaction_eq in Ht.
  by eapply (keep_atomically m Hm); [|apply Ho].
Qed.
End ignoring.

Definition redis_is (r : R) w : Prop := w_redis w = r.
Lemma redis_ignores r : ignores_db (redis_is r).
Proof. by split. Qed.

(** A transaction whose body leaves Redis alone. *)
Lemma transaction_world {A} (m : M R A) w o w' :
  (∀ r, keeps (redis_is r) m) → transaction m w = (o, w') →
  w_redis w' = w_redis (after_others w) ∧
  ((∃ a w1, m (after_others w) = (Ok a, w1) ∧ w_db w' = w_db w1 ∧
      (o = Ok a ∨ ∃ e, o = Raise e)) ∨
   (w_db w' = w_db (after_others w) ∧ ∃ e, o = Raise e)).
Proof.
  intros Hm Ht. rewrite transaction_eq in Ht. split.
  - by apply (keep_atomically _ (redis_ignores (w_redis (after_others w))) m (Hm _) _ _ _ Ht).
  - apply atomically_inv in Ht as [(a & w1 & H1 & -> & Ho)|(e & o1 & w1 & -> & _ & [-> | ->])].
    + left. by exists a, w1.
    + right. by eauto.
    + right. by eauto.
Qed.

(** The audit file and the recorder belong to one task. *)
Definition local_is (f : gmap string string) (r : Recorder) w : Prop := w_files w = f ∧ w_rec w = r.

Lemma local_ignores f r : ignores_db (local_is f r).
Proof. by split. Qed.
Lemma local_others f r w : local_is f r w → local_is f r (after_others w).
Proof. done. Qed.

(** At least [n] calls were made. *)
Definition past (n : nat) w : Prop := (n ≤ w_tick w)%nat.

Lemma past_ignores n : ignores_db (past n).
Proof. split; [done|]. intros w. unfold past. cbn. lia. Qed.
Lemma past_others n w : past n w → past n (after_others w).
Proof. done. Qed.
End reasoning.

#[export] Hint Resolve keeps_bind keeps_ret keeps_raise keeps_lift keeps_try keeps_for : smoke.
#[export] Hint Resolve keeps_now keeps_uuid4 keeps_sql keeps_transaction keeps_atomically
  keeps_interleave keeps_redis keeps_redis_await : smoke.

(** Walks through a program whose parts all keep the property. *)
Ltac keep_steps :=
  repeat match goal with
  | |- keeps _ (mbind' _ _) => apply keeps_bind; [|intros ?]
  | |- keeps _ (mret' _) => apply keeps_ret
  | |- keeps _ (mraise _) => apply keeps_raise
  | |- keeps _ (lift _) => apply keeps_lift
  | |- keeps _ now => apply keep_now
  | |- keeps _ uuid4 => apply keep_uuid4
  | |- keeps _ (sql _) => apply keep_sql
  | |- keeps _ (match ?x with _ => _ end) => destruct x
  end; try assumption.
