(* ===== verification/Samples.v ===== *)
(** * Concrete surroundings

    A Redis stream kept as a list, a process without faults or other tasks, and
    sample events.  They show that the interfaces can be met, and the theorems
    are instantiated with them. *)

From Stdlib Require Import Ascii.
From S2P Require Import Prelude PyStr Json Fingerprint PyTime Contracts Wire Database World.

Open Scope Z_scope.

(** ** A stream as a list

    [ls_log] is every entry ever added; the last 100000 are retained. *)

Record ListStream := mkListStream {
  ls_log : list (string * stream_fields);
  ls_read : nat;
  ls_pending : list string;
  ls_group : bool;
}.

Definition empty_stream : ListStream := mkListStream [] 0 [] false.

(** An id longer than every id in use. *)
Definition longest (l : list (string * stream_fields)) : nat :=
  foldr (λ e n, Nat.max (String.length e.1) n) 0%nat l.
Definition next_id (l : list (string * stream_fields)) : string :=
  Nat.iter (S (longest l)) (String "1"%char) EmptyString.

Lemma length_unary n : String.length (Nat.iter n (String "1"%char) EmptyString) = n.
Proof.
  induction n as [|n IH]; [done|].
  change (S (String.length (Nat.iter n (String "1"%char) EmptyString)) = S n). by rewrite IH.
Qed.

Lemma length_longest l e : e ∈ l → (String.length e.1 ≤ longest l)%nat.
Proof.
  induction l as [|x l IH]; [by intros ?%not_elem_of_nil|].
  intros [->|He%IH]%elem_of_cons; cbn [longest foldr]; unfold longest in *; lia.
Qed.

Lemma next_id_fresh l : next_id l ∉ l.*1.
Proof.
  intros (e & He & Hin)%list_elem_of_fmap. apply length_longest in Hin.
  rewrite <-He in Hin. unfold next_id in Hin. rewrite length_unary in Hin. lia.
Qed.

(** How many of the entries MAXLEN has trimmed, and where reading goes on. *)
Definition trimmed_count (l : list (string * stream_fields)) : nat :=
  Z.to_nat (Z.of_nat (length l) - MAX_STREAM_LENGTH).
Definition ls_start (r : ListStream) : nat := Nat.max (ls_read r) (trimmed_count (ls_log r)).

Ltac trim_lia := unfold trimmed_count, MAX_STREAM_LENGTH in *; rewrite ?length_drop in *; lia.

Lemma elem_of_drop_sub {A} n (l : list A) x : x ∈ drop n l → x ∈ l.
Proof. intros Hx. rewrite <-(take_drop n l). apply elem_of_app. by right. Qed.

Lemma elem_of_drop_le {A} n m (l : list A) x : (n ≤ m)%nat → x ∈ drop m l → x ∈ drop n l.
Proof.
  intros Hle Hx. replace m with (n + (m - n))%nat in Hx by lia.
  rewrite <-drop_drop in Hx. by eapply elem_of_drop_sub.
Qed.

Lemma elem_of_drop_max {A} n m (l : list A) x :
  x ∈ drop (Nat.max n m) l ↔ x ∈ drop n l ∧ x ∈ drop m l.
Proof.
  split; [intros Hx; split; (eapply elem_of_drop_le; [|exact Hx]); lia|].
  intros [Hn Hm]. by destruct (Nat.max_spec n m) as [[_ ->]|[_ ->]].
Qed.

Lemma drop_min_app {A} n (l : list A) e : drop (Nat.min n (length l)) (l ++ [e]) = drop n l ++ [e].
Proof.
  rewrite drop_app_le by lia. f_equal.
  destruct (Nat.min_spec n (length l)) as [[_ ->]|[Hle ->]]; [done|]. by rewrite !drop_ge by lia.
Qed.

Lemma trimmed_none l : Z.of_nat (length l) ≤ MAX_STREAM_LENGTH → trimmed_count l = 0%nat.
Proof. trim_lia. Qed.

#[export] Instance list_streams : RedisStreams ListStream.
Proof.
  refine {|
    xadd v r := (next_id (ls_log r),
      mkListStream (ls_log r ++ [(next_id (ls_log r), [("event", v)])])
        (Nat.min (ls_read r) (length (ls_log r))) (ls_pending r) (ls_group r));
    xgroup_create r :=
      if ls_group r
      then Raise (ResponseError "BUSYGROUP Consumer Group name already exists")
      else Ok (mkListStream (ls_log r) (ls_read r) (ls_pending r) true);
    xreadgroup n r :=
      (take n (drop (ls_start r) (ls_log r)),
       mkListStream (ls_log r) (ls_start r + n)
         (ls_pending r ++ (take n (drop (ls_start r) (ls_log r))).*1) (ls_group r));
    xack i r := mkListStream (ls_log r) (ls_read r)
                  (filter (λ j, j ≠ i) (ls_pending r)) (ls_group r);
    entries r := drop (trimmed_count (ls_log r)) (ls_log r);
    unread r := drop (ls_start r) (ls_log r);
    pending := ls_pending;
    history := ls_log;
    group_exists := ls_group |}; cbn -[next_id trimmed_count MAX_STREAM_LENGTH]; try done.
  - intros v r Hin. apply (next_id_fresh (ls_log r)).
    apply list_elem_of_fmap in Hin as (x & -> & Hx). apply list_elem_of_fmap. exists x.
    split; [done|]. by eapply elem_of_drop_sub.
  - intros v r. apply next_id_fresh.
  - intros v r Hlen. rewrite !trimmed_none by (rewrite ?length_app; cbn; trim_lia). done.
  - intros v r Hlen. unfold ls_start.
    cbn -[next_id trimmed_count MAX_STREAM_LENGTH].
    rewrite !trimmed_none by (rewrite ?length_app; cbn; trim_lia). rewrite !Nat.max_0_r.
    apply drop_min_app.
  - intros v r Hlen. set (e := (next_id (ls_log r), [("event", v)])).
    assert (trimmed_count (ls_log r ++ [e]) = S (trimmed_count (ls_log r))) as Ht
      by (revert Hlen; rewrite length_drop; unfold trimmed_count; rewrite length_app; cbn;
          trim_lia).
    assert (S (trimmed_count (ls_log r)) ≤ length (ls_log r))%nat as Hle by (revert Hlen; trim_lia).
    rewrite Ht. split; [rewrite length_drop, length_app; cbn; revert Hlen; trim_lia|]. split.
    { exists 1%nat.
      assert (drop (trimmed_count (ls_log r)) (ls_log r) ++ [e] =
              drop (trimmed_count (ls_log r)) (ls_log r ++ [e])) as ->
        by by rewrite drop_app_le by lia.
      rewrite drop_drop. f_equal. lia. }
    intros x. unfold ls_start. cbn -[next_id trimmed_count MAX_STREAM_LENGTH].
    rewrite <-(drop_min_app (Nat.max (ls_read r) _)), <-elem_of_drop_max.
    match goal with |- _ ∈ drop ?n _ ↔ _ ∈ drop ?m _ => replace m with n by lia end. done.
  - intros n r. unfold ls_start. cbn. rewrite drop_drop. f_equal. lia.
  - by intros r ->.
  - intros r ->. by eexists.
Defined.

(** ** A quiet process *)

(** No faults; the clock moves one second a call; fresh ids. *)
Definition quiet : Env := {|
  env_fault _ := FOk;
  env_now n := 1785090600000000 + 1000000 * Z.of_nat n;
  env_uuid n := (1000 + N.of_nat n)%N;
|}.

(** A process whose [n]-th call meets the given fault. *)
Definition faulty (n : nat) (f : fault) : Env := {|
  env_fault k := if (k =? n)%nat then f else FOk;
  env_now k := 1785090600000000 + 1000000 * Z.of_nat k;
  env_uuid k := (1000 + N.of_nat k)%N;
|}.

Definition solo {R} : Others R := {| others _ d r := (d, r) |}.

Definition boot_world : World ListStream :=
  mkWorld empty_db empty_stream {[ "audit.jsonl" := EmptyString ]}
    (mkRecorder "audit.jsonl" ∅ 0) 0.

(** ** Events *)

Definition sample_event_at (id : uuid) (us : Z) (body : string) : AgentEvent :=
  let es := [mkEntity 1 "service" "checkout"; mkEntity 1 "host" "web-1"] in
  mkAgentEvent 1 id DATADOG KALERT "monitor-42"
    (event_fingerprint "datadog" "monitor-42" (entity_pairs es)) HIGH
    "checkout latency" body es (utc us) (utc us) 1 [("monitor", JInt 42)].

Definition sample_event : AgentEvent := sample_event_at 7%N 1785090600000000 "p99 above 2s".

Example sample_event_valid : valid sample_event = true.
Proof. vm_compute. reflexivity. Qed.

Definition sample_conclusion (run : uuid) : Conclusion :=
  mkConclusion 1 run (ae_fingerprint sample_event) NEEDS_HUMAN f0_9 "summary" [] [] [] 0 1.
