(* ===== verification/Repository.v ===== *)
(** * Reads and writes of the [events] table (receiver/repository.py)

    Every SQL statement is a function on the database; the Python functions run
    them in order in the transaction their caller opened.  Identifiers that the
    source turns into text and Postgres casts back are kept as UUIDs.  Where a
    query orders by [received_at], rows with equal times come in the order of
    the map, which Postgres leaves open. *)

From Stdlib Require Import Ascii.
From S2P Require Import Prelude PyStr Json PyTime Contracts Wire Database World Samples.

Open Scope Z_scope.

(** [DEDUPE_WINDOW = timedelta(minutes=15)] *)
Definition DEDUPE_WINDOW : Z := minutes 15.

Record Admission := mkAdmission {
  ad_event_id : uuid;
  ad_fingerprint : string;
  ad_dedupe_count : Z;
  ad_is_duplicate : bool;
}.

(** ** Queries *)

(** [WHERE fingerprint = :fingerprint AND quarantined = false AND
    window_closed_at IS NULL] *)
Definition window_open (fp : string) (r : EventRow) : Prop :=
  er_fingerprint r = Some fp ∧ er_quarantined r = false ∧ er_window_closed_at r = None.
#[export] Instance window_open_dec fp r : Decision (window_open fp r).
Proof. unfold window_open. apply _. Defined.

(** ... [AND received_at > :cutoff] *)
Definition dedupe_candidate (fp : string) (cutoff : Z) (r : EventRow) : Prop :=
  window_open fp r ∧ cutoff < er_received_at r.
#[export] Instance dedupe_candidate_dec fp c r : Decision (dedupe_candidate fp c r).
Proof. unfold dedupe_candidate. apply _. Defined.

(** [WHERE quarantined = false AND queued_at IS NULL] *)
Definition awaiting_queue (r : EventRow) : Prop :=
  er_quarantined r = false ∧ er_queued_at r = None.
#[export] Instance awaiting_queue_dec r : Decision (awaiting_queue r).
Proof. unfold awaiting_queue. apply _. Defined.

(** [ORDER BY received_at] *)
Definition received_le (p q : uuid * EventRow) : Prop :=
  er_received_at p.2 ≤ er_received_at q.2.
#[export] Instance received_le_dec : RelDecision received_le.
Proof. intros p q. unfold received_le. apply _. Defined.
#[export] Instance received_le_total : Total received_le.
Proof. intros p q. unfold received_le. lia. Qed.
#[export] Instance received_le_trans : Transitive received_le.
Proof. intros p q r. unfold received_le. lia. Qed.

Definition order_by_received (m : gmap uuid EventRow) : list (uuid * EventRow) :=
  merge_sort received_le (map_to_list m).

(** ** Statements *)

Definition bump_dedupe (r : EventRow) : EventRow :=
  mkEventRow (er_source r) (er_fingerprint r) (er_received_at r) (er_dedupe_count r + 1)
    (er_quarantined r) (er_quarantine_reason r) (er_payload r) (er_window_closed_at r)
    (er_queued_at r) (er_queue_message_id r).

(** [UPDATE events SET dedupe_count = dedupe_count + 1 WHERE id = (SELECT ...
    ORDER BY received_at LIMIT 1) RETURNING id, dedupe_count] *)
Definition count_duplicate (fp : string) (cutoff : Z) (d : DB) :
    result exn (option (uuid * Z) * DB) :=
  match head (order_by_received (filter (λ kv, dedupe_candidate fp cutoff kv.2) (events d))) with
  | None => Ok (None, d)
  | Some (id, r) =>
      let? d' := update_event id bump_dedupe d in
      Ok (Some (id, er_dedupe_count (bump_dedupe r)), d')
  end.

Definition with_receipt (message_id : string) (queued_at : Z) (r : EventRow) : EventRow :=
  mkEventRow (er_source r) (er_fingerprint r) (er_received_at r) (er_dedupe_count r)
    (er_quarantined r) (er_quarantine_reason r) (er_payload r) (er_window_closed_at r)
    (Some queued_at) (Some message_id).

(** [UPDATE events SET queued_at, queue_message_id WHERE id = :event_id AND
    queue_message_id IS NULL] *)
Definition set_receipt (id : uuid) (message_id : string) (queued_at : Z) (d : DB) :
    result exn (() * DB) :=
  match events d !! id with
  | Some r =>
      if decide (er_queue_message_id r = None)
      then let? d' := update_event id (with_receipt message_id queued_at) d in Ok ((), d')
      else Ok ((), d)
  | None => Ok ((), d)
  end.

Definition with_window_closed (t : Z) (r : EventRow) : EventRow :=
  mkEventRow (er_source r) (er_fingerprint r) (er_received_at r) (er_dedupe_count r)
    (er_quarantined r) (er_quarantine_reason r) (er_payload r) (Some t)
    (er_queued_at r) (er_queue_message_id r).

(** [UPDATE events SET window_closed_at = :closed_at WHERE ...]: each updated
    row fires the trigger; the number of rows is returned. *)
Definition close_open_windows (fp : string) (closed_at : Z) (d : DB) : Z * DB :=
  let hit := filter (λ kv, window_open fp kv.2) (events d) in
  let evs := (λ r, if decide (window_open fp r) then with_window_closed closed_at r else r)
               <$> events d in
  let tks := foldr (λ kv m, close_ticket_on_window kv.2 (with_window_closed closed_at kv.2) m)
               (tickets d) (map_to_list hit) in
  (Z.of_nat (size hit), set_tickets tks (set_events evs d)).

Section repository.
Context {R : Type} `{!Env, !Pydantic}.

(** The row [admit_event] inserts. *)
Definition admitted_row (event : AgentEvent) : EventRow :=
  mkEventRow (source_value (ae_source event)) (Some (ae_fingerprint event))
    (dt_us (ae_received_at event)) 1 false None (Some (event_json event)) None None None.

Definition admit_event (event : AgentEvent) (window : Z) : M R Admission :=
  let cutoff := dt_us (ae_received_at event) - window in
  (* SELECT pg_advisory_xact_lock(hashtext(:fingerprint)) *)
  do! _ := sql (λ d, Ok ((), d)) in
  do! updated := sql (count_duplicate (ae_fingerprint event) cutoff) in
  match updated with
  | Some (id, count) => mret' (mkAdmission id (ae_fingerprint event) count true)
  | None =>
      do! _ := sql (λ d, let? d' := insert_event (ae_id event) (admitted_row event) d in
                         Ok ((), d')) in
      mret' (mkAdmission (ae_id event) (ae_fingerprint event) 1 false)
  end.

Definition quarantined_row (source : string) (received_at : Z) (reason : string) : EventRow :=
  mkEventRow source None received_at 1 true (Some reason) None None None None.

Definition quarantine (event_id : uuid) (source : string) (received_at : Z)
    (reason : string) : M R () :=
  sql (λ d, let? d' := insert_event event_id (quarantined_row source received_at reason) d in
            Ok ((), d')).

(** The payload, validated, and the delivery receipt of one admitted event. *)
Definition event_for_queue (event_id : uuid) : M R (option (AgentEvent * option string)) :=
  do! row := sql (λ d,
    Ok (match events d !! event_id with
        | Some r => if er_quarantined r then None else Some r
        | None => None
        end, d)) in
  match row with
  | None => mret' None
  | Some r =>
      do! event := lift (model_validate_event (default JNull (er_payload r))) in
      mret' (Some (event, er_queue_message_id r))
  end.

Definition mark_queued (event_id : uuid) (message_id : string) (queued_at : datetime) :
    M R () :=
  sql (set_receipt event_id message_id (dt_us queued_at)).

Definition pending_queue_event_ids (limit : nat) : M R (list uuid) :=
  sql (λ d, Ok ((take limit (order_by_received
                   (filter (λ kv, awaiting_queue kv.2) (events d)))).*1, d)).

Definition pending_queue_count : M R Z :=
  sql (λ d, Ok (Z.of_nat (size (filter (λ kv, awaiting_queue kv.2) (events d))), d)).

Definition close_window (fingerprint : string) (closed_at : datetime) : M R Z :=
  sql (λ d, Ok (close_open_windows fingerprint (dt_us closed_at) d)).
End repository.

(** ** Lemmas on the queries *)

Lemma elem_of_order_by_received (m : gmap uuid EventRow) i r :
  (i, r) ∈ order_by_received m ↔ m !! i = Some r.
Proof. unfold order_by_received. rewrite merge_sort_Permutation. apply elem_of_map_to_list. Qed.

Lemma length_order_by_received (m : gmap uuid EventRow) :
  length (order_by_received m) = size m.
Proof. unfold order_by_received. rewrite merge_sort_Permutation. apply length_map_to_list. Qed.

Lemma order_by_received_sorted (m : gmap uuid EventRow) :
  StronglySorted received_le (order_by_received m).
Proof. apply (StronglySorted_merge_sort _). Qed.

Lemma order_by_received_nil (m : gmap uuid EventRow) :
  order_by_received m = [] ↔ m = ∅.
Proof.
  split; [|by intros ->]. intros Hn. apply map_size_empty_iff.
  by rewrite <-length_order_by_received, Hn.
Qed.

(** The head of the ordered rows is an oldest row. *)
Lemma head_order_by_received (m : gmap uuid EventRow) i r :
  head (order_by_received m) = Some (i, r) →
  m !! i = Some r ∧ ∀ j s, m !! j = Some s → er_received_at r ≤ er_received_at s.
Proof.
  intros Hh. pose proof (order_by_received_sorted m) as Hs.
  destruct (order_by_received m) as [|p l] eqn:E; [done|]. injection Hh as ->. split.
  - apply elem_of_order_by_received. rewrite E. by left.
  - intros j s Hj%elem_of_order_by_received. rewrite E in Hj.
    apply elem_of_cons in Hj as [[= -> ->]|Hj]; [done|].
    apply StronglySorted_inv in Hs as [_ Hs]. rewrite list.Forall_forall in Hs.
    exact (Hs _ Hj).
Qed.

(** What [count_duplicate] did: nothing when no row qualifies, otherwise one
    more on an oldest qualifying row. *)
Lemma count_duplicate_inv fp cutoff d o d' :
  count_duplicate fp cutoff d = Ok (o, d') →
  (o = None ∧ d' = d ∧ ∀ i r, events d !! i = Some r → ¬ dedupe_candidate fp cutoff r) ∨
  (∃ id r, o = Some (id, er_dedupe_count r + 1) ∧ events d !! id = Some r ∧
     dedupe_candidate fp cutoff r ∧
     (∀ j s, events d !! j = Some s → dedupe_candidate fp cutoff s →
        er_received_at r ≤ er_received_at s) ∧
     d' = set_events (<[id := bump_dedupe r]> (events d)) d ∧
     event_check (bump_dedupe r) = Ok ()).
Proof.
  unfold count_duplicate. destruct (head _) as [[id r]|] eqn:E.
  - apply head_order_by_received in E as [[Hi Hc]%map_lookup_filter_Some Hmin].
    unfold update_event. rewrite Hi. cbn [rbind]. intros Hw. right. exists id, r.
    destruct (event_check (bump_dedupe r)) as [[]|] eqn:Ec; [|done]. injection Hw as <- <-.
    do 3 (split; [done|]). split; [|done].
    intros j s Hj Hs. apply (Hmin j). by apply map_lookup_filter_Some.
  - intros [= <- <-]. left. split; [done|]. split; [done|]. intros i r Hi Hc.
    assert (filter (λ kv, dedupe_candidate fp cutoff kv.2) (events d) = ∅) as He.
    { apply order_by_received_nil. by destruct (order_by_received _). }
    assert (filter (λ kv, dedupe_candidate fp cutoff kv.2) (events d) !! i = Some r) as Hf
      by by apply map_lookup_filter_Some.
    by rewrite He, lookup_empty in Hf.
Qed.

(** ** What admission promises *)

(** The decision about one delivery, as a relation between databases: join the
    oldest open event of the same fingerprint inside the window, or open a new
    one when there is none. *)
Inductive admits (event : AgentEvent) (window : Z) (row : EventRow) (d : DB) :
    Admission → DB → Prop :=
| admits_duplicate id r :
    events d !! id = Some r →
    dedupe_candidate (ae_fingerprint event) (dt_us (ae_received_at event) - window) r →
    (∀ j s, events d !! j = Some s →
       dedupe_candidate (ae_fingerprint event) (dt_us (ae_received_at event) - window) s →
       er_received_at r ≤ er_received_at s) →
    event_check (bump_dedupe r) = Ok () →
    admits event window row d
      (mkAdmission id (ae_fingerprint event) (er_dedupe_count r + 1) true)
      (set_events (<[id := bump_dedupe r]> (events d)) d)
| admits_new :
    (∀ i r, events d !! i = Some r →
       ¬ dedupe_candidate (ae_fingerprint event) (dt_us (ae_received_at event) - window) r) →
    events d !! ae_id event = None →
    event_check row = Ok () →
    admits event window row d
      (mkAdmission (ae_id event) (ae_fingerprint event) 1 false)
      (set_events (<[ae_id event := row]> (events d)) d).

(** Two admitted events of one fingerprint whose windows are open were received
    at least a window apart. *)
Definition dedupe_spaced (d : DB) : Prop :=
  ∀ fp i j r s, events d !! i = Some r → events d !! j = Some s → i ≠ j →
    window_open fp r → window_open fp s →
    DEDUPE_WINDOW ≤ Z.abs (er_received_at r - er_received_at s).

(** Deliveries counted for a fingerprint. *)
Definition deliveries (fp : string) (d : DB) : Z :=
  msum (λ r, if decide (er_fingerprint r = Some fp) then er_dedupe_count r else 0) (events d).

Section admission.
Context {R : Type} `{!Env, !Pydantic}.

Lemma admit_inv event window w a w' :
  @admit_event R _ _ event window w = (Ok a, w') →
  admits event window (admitted_row event) (w_db w) a (w_db w') ∧
  w_redis w' = w_redis w ∧ w_files w' = w_files w ∧ w_rec w' = w_rec w.
Proof.
  intros (u & w1 & H1 & H2)%mbind_Ok.
  apply sql_inv in H1 as [(? & ? & _ & [= <- <-] & ->)|(? & [=] & _)].
  apply mbind_Ok in H2 as (o & w2 & H2 & H3). cbn in H2.
  apply sql_inv in H2 as [(? & d & [= <-] & Hd & ->)|(? & [=] & _)].
  apply count_duplicate_inv in Hd as
    [(-> & -> & Hno)|(id & r & -> & Hi & Hc & Hmin & -> & Hck)].
  - apply mbind_Ok in H3 as (? & w3 & H3 & [= <- <-]).
    apply sql_inv in H3 as [(? & d & [= <-] & Hd & ->)|(? & [=] & _)].
    apply rbind_Ok in Hd as (d' & Hd & [= <- <-]). split; [|done].
    unfold insert_event in Hd. cbn in Hd.
    destruct (events (w_db w) !! ae_id event) eqn:Hn; [done|].
    apply rbind_Ok in Hd as ([] & Hck & [= <-]). cbn. by constructor.
  - injection H3 as <- <-. split; [|done]. cbn. by eapply admits_duplicate.
Qed.

Lemma admits_ok event window row d a d' :
  admits event window row d a d' → db_ok d → db_ok d'.
Proof.
  intros [id r Hi _ _ Hck|_ Hn Hck] Hok.
  - eapply (update_event_ok id bump_dedupe); [|done]. unfold update_event. by rewrite Hi, Hck.
  - eapply (insert_event_ok (ae_id event) row); [|done]. unfold insert_event.
    by rewrite Hn, Hck.
Qed.

Lemma admits_spaced event row d a d' :
  er_received_at row = dt_us (ae_received_at event) →
  er_fingerprint row = Some (ae_fingerprint event) →
  admits event DEDUPE_WINDOW row d a d' → dedupe_spaced d → dedupe_spaced d'.
Proof.
  intros Hrcv Hfp [id r Hi _ _ _|Hno Hn _] Hsp fp i j x y; cbn.
  - assert (∀ k z, <[id := bump_dedupe r]> (events d) !! k = Some z →
      ∃ z', events d !! k = Some z' ∧ er_received_at z' = er_received_at z ∧
            (window_open fp z → window_open fp z')) as Hback.
    { intros k z [[<- <-]|[_ Hz]]%lookup_insert_Some; [by exists r|by exists z]. }
    intros (x' & Hx & <- & Wx)%Hback (y' & Hy & <- & Wy)%Hback Hij ??.
    by eapply (Hsp fp i j); auto.
  - assert (∀ k z, events d !! k = Some z → window_open fp z → window_open fp row →
      DEDUPE_WINDOW ≤ er_received_at row - er_received_at z) as Hfar.
    { intros k z Hz Wz Wr. specialize (Hno k z Hz). rewrite Hrcv.
      destruct (decide (DEDUPE_WINDOW ≤ dt_us (ae_received_at event) - er_received_at z));
        [done|]. exfalso. apply Hno. split; [|lia]. destruct Wr as [Wr _]. naive_solver. }
    intros [[<- <-]|[_ Hx]]%lookup_insert_Some [[<- <-]|[_ Hy]]%lookup_insert_Some Hij Wx Wy.
    + done.
    + specialize (Hfar j y Hy Wy Wx). lia.
    + specialize (Hfar i x Hx Wx Wy). lia.
    + by eapply (Hsp fp i j).
Qed.

Lemma admits_deliveries event window row d a d' fp :
  er_fingerprint row = Some (ae_fingerprint event) → er_dedupe_count row = 1 →
  admits event window row d a d' →
  deliveries fp d' = deliveries fp d + (if decide (fp = ae_fingerprint event) then 1 else 0).
Proof.
  unfold deliveries. intros Hfp Hone [id r Hi [[Hr _] _] _ _|_ Hn _]; cbn.
  - rewrite (msum_insert_old _ _ _ _ _ Hi). cbn. rewrite Hr.
    repeat case_decide; simplify_eq; lia.
  - rewrite (msum_insert_new _ _ _ _ Hn), Hfp, Hone.
    repeat case_decide; simplify_eq; lia.
Qed.
End admission.

(** ** Claims *)

Section claims.
Context {R : Type} `{!Env, !Others R, !Pydantic}.
Implicit Types w : World R.

Lemma atomically_admit_inv event window w o w' :
  atomically (admit_event event window) w = (o, w') →
  (∃ a, admits event window (admitted_row event) (w_db w) a (w_db w') ∧
     (o = Ok a ∨ ∃ e, o = Raise e)) ∨
  (∃ e, o = Raise e ∧ w_db w' = w_db w).
Proof.
  intros [(a & w1 & H1 & -> & Ho)|(e & o1 & w1 & -> & H1 & Hw)]%atomically_inv.
  - left. exists a. split; [|done]. by apply admit_inv in H1 as [? _].
  - right. exists e. split; [done|]. by destruct Hw as [-> | ->].
Qed.

(** C6. Admission refines its specification under every fault schedule.  The
    transaction of [admit_event] either reports an admission, and then the database
    moved exactly as [admits] says (one more on the oldest open event inside
    the window, or one new row when there is none), or raises, and then the
    database moved that way (the commit landed, its reply was lost) or not at
    all.  No partial admission is ever visible. *)
Theorem admit_refines event w o w' :
  atomically (admit_event event DEDUPE_WINDOW) w = (o, w') →
  match o with
  | Ok a => admits event DEDUPE_WINDOW (admitted_row event) (w_db w) a (w_db w')
  | Raise _ =>
      w_db w' = w_db w ∨
      ∃ a, admits event DEDUPE_WINDOW (admitted_row event) (w_db w) a (w_db w')
  end.
Proof.
  intros [(a & Ha & [->|[e ->]])|(e & -> & Hw)]%atomically_admit_inv; eauto.
Qed.

(** What the stored rows must satisfy for one more delivery to be countable. *)
Definition countable_rows (d : DB) : Prop :=
  ∀ i r, events d !! i = Some r → er_dedupe_count r < 2147483647.

Lemma event_check_Ok r :
  event_check r = Ok () ↔
  int4 (er_dedupe_count r) = true ∧ jsonb_column (er_payload r) = true ∧
  events_source_known r = true ∧ events_quarantine_invariant r = true ∧
  events_queue_state_paired r = true.
Proof.
  unfold event_check.
  destruct (int4 _), (jsonb_column _), (events_source_known r),
    (events_quarantine_invariant r), (events_queue_state_paired r); cbn; naive_solver.
Qed.

Lemma bump_dedupe_check r :
  event_check r = Ok () → er_dedupe_count r < 2147483647 →
  event_check (bump_dedupe r) = Ok ().
Proof.
  rewrite !event_check_Ok. unfold int4. intros ([? ?]%andb_prop & ? & ? & ? & ?) Hc.
  split; [|done]. cbn [bump_dedupe er_dedupe_count]. lia.
Qed.

Lemma admitted_row_check event :
  jsonb_ok (event_json event) = true → event_check (admitted_row event) = Ok ().
Proof.
  intros Hj. apply event_check_Ok. split; [done|]. split; [done|].
  unfold events_source_known. cbn -[String.eqb]. by destruct (ae_source event).
Qed.

Lemma count_duplicate_total fp cutoff d :
  db_ok d → countable_rows d → ∃ o d', count_duplicate fp cutoff d = Ok (o, d').
Proof.
  intros Hok Hc. unfold count_duplicate. destruct (head _) as [[id r]|] eqn:E; [|by eauto].
  apply head_order_by_received in E as [[Hi _]%map_lookup_filter_Some _].
  unfold update_event. rewrite Hi, bump_dedupe_check; [by eauto|by eapply ok_events|by eauto].
Qed.

Lemma admit_total event window w :
  (∀ n, env_fault n = FOk) → db_ok (w_db w) → countable_rows (w_db w) →
  events (w_db w) !! ae_id event = None → jsonb_ok (event_json event) = true →
  ∃ a w', @admit_event R _ _ event window w = (Ok a, w').
Proof.
  intros Hq Hok Hc Hid Hj.
  destruct (count_duplicate_total (ae_fingerprint event)
    (dt_us (ae_received_at event) - window) (w_db w) Hok Hc) as (o & d' & Hd).
  unfold admit_event, mbind'. rewrite (sql_Ok _ _ () (w_db w)) by done.
  rewrite (sql_Ok _ _ o d') by done.
  destruct (count_duplicate_inv _ _ _ _ _ Hd) as [(-> & -> & _)|(i & r & -> & _)];
    [|by eauto].
  erewrite sql_Ok; [by eauto|done|]. cbn. unfold insert_event. rewrite Hid.
  by rewrite admitted_row_check.
Qed.

(** Without faults admission always succeeds: on a well-formed database
    whose counters are below the column's maximum, an event with a new id and
    a payload jsonb accepts is admitted and committed. *)
Theorem admit_succeeds event w :
  (∀ n, env_fault n = FOk) → db_ok (w_db w) → countable_rows (w_db w) →
  events (w_db w) !! ae_id event = None → jsonb_ok (event_json event) = true →
  ∃ a w', atomically (admit_event event DEDUPE_WINDOW) w = (Ok a, w') ∧
    admits event DEDUPE_WINDOW (admitted_row event) (w_db w) a (w_db w') ∧ db_ok (w_db w').
Proof.
  intros Hq Hok Hc Hid Hj. destruct (admit_total event DEDUPE_WINDOW w) as (a & w' & Ha);
    [done..|]. exists a, (next_tick w').
  pose proof (admit_inv _ _ _ _ _ Ha) as [Hr _]. split; [|split; [done|]].
  - unfold atomically. by rewrite Ha, Hq.
  - by eapply admits_ok.
Qed.

(** C19. The counter has 32 bits: a duplicate of an event whose [dedupe_count]
    is 2147483647 is refused, and the database is unchanged. *)
Theorem admit_counter_full event w o w' id r :
  events (w_db w) !! id = Some r →
  dedupe_candidate (ae_fingerprint event)
    (dt_us (ae_received_at event) - DEDUPE_WINDOW) r →
  (∀ j s, events (w_db w) !! j = Some s →
     dedupe_candidate (ae_fingerprint event)
       (dt_us (ae_received_at event) - DEDUPE_WINDOW) s → j = id) →
  er_dedupe_count r = 2147483647 →
  atomically (admit_event event DEDUPE_WINDOW) w = (o, w') →
  (∃ e, o = Raise e) ∧ w_db w' = w_db w.
Proof.
  intros Hi Hc Hu Hfull [(a & Ha & Ho)|(e & -> & Hw)]%atomically_admit_inv; [|by eauto].
  exfalso. destruct Ha as [i' r' Hi' Hc' _ Hck|Hno _ _]; [|by eapply Hno].
  rewrite (Hu _ _ Hi' Hc') in Hi'. rewrite Hi in Hi'. injection Hi' as <-.
  apply event_check_Ok in Hck as (Hck & _). cbn in Hck. rewrite Hfull in Hck. done.
Qed.

(** A document PostgreSQL cannot hold is never admitted: when the payload
    has the character U+0000 and no open event absorbs the delivery, [admit_event]
    raises and the database is unchanged. *)
Theorem admit_refuses_nul event w o w' :
  jsonb_ok (event_json event) = false →
  (∀ j s, events (w_db w) !! j = Some s →
     ¬ dedupe_candidate (ae_fingerprint event)
         (dt_us (ae_received_at event) - DEDUPE_WINDOW) s) →
  atomically (admit_event event DEDUPE_WINDOW) w = (o, w') →
  (∃ e, o = Raise e) ∧ w_db w' = w_db w.
Proof.
  intros Hj Hno [(a & Ha & Ho)|(e & -> & Hw)]%atomically_admit_inv; [|by eauto].
  exfalso. destruct Ha as [i' r' Hi' Hc' _ _|_ _ Hck]; [by eapply Hno|].
  apply event_check_Ok in Hck as (_ & Hck & _). cbn -[jsonb_ok event_json] in Hck. congruence.
Qed.

(** *** Closing a window *)

(** Every open ticket of a fingerprint closed at [t]. *)
Definition tickets_closed (fp : string) (t : Z) (m : gmap uuid TicketRow) :
    gmap uuid TicketRow :=
  (λ r, if decide (open_ticket fp r) then close_ticket_row t r else r) <$> m.

Lemma tickets_closed_idem fp t u m :
  tickets_closed fp t (tickets_closed fp u m) = tickets_closed fp u m.
Proof.
  unfold tickets_closed. rewrite <-map_fmap_compose. apply map_fmap_ext. intros i r _. cbn.
  destruct (decide (open_ticket fp r)) as [Ho|Ho]; [|by rewrite decide_False].
  rewrite decide_False; [done|]. intros [_ ?]. done.
Qed.

Lemma window_trigger fp t r m :
  window_open fp r →
  close_ticket_on_window r (with_window_closed t r) m = tickets_closed fp t m.
Proof. intros (Hf & _ & Hc). unfold close_ticket_on_window. cbn. by rewrite Hc, Hf. Qed.

Lemma triggers_fold fp t (l : list (uuid * EventRow)) m :
  Forall (λ kv, window_open fp kv.2) l →
  foldr (λ kv m, close_ticket_on_window kv.2 (with_window_closed t kv.2) m) m l =
  match l with [] => m | _ => tickets_closed fp t m end.
Proof.
  induction 1 as [|[i r] l Hr Hl IH]; [done|]. cbn. rewrite IH, (window_trigger fp) by done.
  destruct l; [done|]. apply tickets_closed_idem.
Qed.

Lemma close_open_windows_eq fp t d :
  close_open_windows fp t d =
  let hit := filter (λ kv, window_open fp kv.2) (events d) in
  (Z.of_nat (size hit),
   set_tickets (if decide (hit = ∅) then tickets d else tickets_closed fp t (tickets d))
     (set_events ((λ r, if decide (window_open fp r) then with_window_closed t r else r)
                    <$> events d) d)).
Proof.
  unfold close_open_windows. cbn zeta. f_equal. f_equal. rewrite (triggers_fold fp).
  - destruct (map_to_list _) as [|kv l] eqn:E.
    + apply map_to_list_empty_iff in E. by rewrite decide_True.
    + rewrite decide_False; [done|]. intros He. by rewrite He, map_to_list_empty in E.
  - apply list.Forall_forall. intros [i r] Hin%elem_of_map_to_list.
    by apply map_lookup_filter_Some in Hin as [_ ?].
Qed.

Lemma no_open_windows fp d :
  filter (λ kv, window_open fp kv.2) (events d) = ∅ ↔
  ∀ i r, events d !! i = Some r → ¬ window_open fp r.
Proof. rewrite map_empty_filter. unfold map_Forall. naive_solver. Qed.

Lemma close_none fp t d :
  (∀ i r, events d !! i = Some r → ¬ window_open fp r) →
  close_open_windows fp t d = (0, d).
Proof.
  intros Hno. rewrite close_open_windows_eq. cbn zeta.
  rewrite (proj2 (no_open_windows fp d) Hno), map_size_empty, decide_True by done.
  f_equal. destruct d as [ev rn tk ac]. unfold set_tickets, set_events. cbn in *. f_equal.
  rewrite <-(map_fmap_id ev) at 2. apply map_fmap_ext. intros i r Hi. cbn.
  rewrite decide_False; [done|by eapply Hno].
Qed.

Lemma close_leaves_none fp t d i r :
  events (close_open_windows fp t d).2 !! i = Some r → ¬ window_open fp r.
Proof.
  rewrite close_open_windows_eq. cbn. intros (s & <- & Hs)%lookup_fmap_Some. cbn.
  case_decide; [|done]. by intros (_ & _ & ?).
Qed.

Lemma close_open_windows_ok fp t d : db_ok d → db_ok (close_open_windows fp t d).2.
Proof.
  intros Hok. unfold close_open_windows. cbn [snd].
  set (evs := fmap _ (events d)). set (l := map_to_list _).
  assert (db_ok (set_events evs d)) as Hev.
  { destruct Hok as [He Hr Ht Ho Ha Hb]. split; cbn; try done. intros i r (s & <- & Hs)%lookup_fmap_Some. cbn.
    case_decide; [|by eauto]. apply He in Hs. by rewrite event_check_Ok in *. }
  clear Hok. induction l as [|kv l IH]; [by destruct Hev; split|]. cbn.
  by apply (close_ticket_on_window_ok kv.2 (with_window_closed t kv.2)) in IH.
Qed.

Lemma close_window_inv fp t w o w' :
  close_window (R := R) fp t w = (o, w') →
  (o = Ok (close_open_windows fp (dt_us t) (w_db w)).1 ∧
   w' = put_db (close_open_windows fp (dt_us t) (w_db w)).2 (next_tick w)) ∨
  (∃ e, o = Raise e ∧ w' = next_tick w).
Proof.
  intros [(n & d & -> & Hc & ->)|Hr]%sql_inv; [|by right]. left.
  assert (close_open_windows fp (dt_us t) (w_db w) = (n, d)) as -> by congruence. done.
Qed.

(** Recovery closes the incident: when [close_window] commits it has
    counted the open windows of the fingerprint, left none open, and, if there
    was one, the trigger closed every open ticket of that fingerprint; tickets
    of other fingerprints, runs and the action ledger are untouched. *)
Theorem close_window_recovers fp t w n w' :
  atomically (close_window fp t) w = (Ok n, w') →
  n = Z.of_nat (size (filter (λ kv, window_open fp kv.2) (events (w_db w)))) ∧
  (∀ i r, events (w_db w') !! i = Some r → ¬ window_open fp r) ∧
  (0 < n → ∀ i r, tickets (w_db w') !! i = Some r → ¬ open_ticket fp r) ∧
  (∀ i r, tickets (w_db w) !! i = Some r → tk_fingerprint r ≠ fp →
     tickets (w_db w') !! i = Some r) ∧
  runs (w_db w') = runs (w_db w) ∧ ticket_actions (w_db w') = ticket_actions (w_db w).
Proof.
  intros [(a & w1 & H1 & -> & [[= <-]|[e [=]]])|(e & o1 & w1 & [=] & _)]%atomically_inv.
  apply close_window_inv in H1 as [[[= ->] ->]|(e & [=] & _)].
  split; [done|]. split; [intros i r; apply close_leaves_none|].
  rewrite !close_open_windows_eq. cbn. split; [|split; [|done]].
  - intros Hn. rewrite decide_False.
    + intros i r (s & <- & Hs)%lookup_fmap_Some. cbn. case_decide; [by intros [_ ?]|done].
    + intros He. rewrite He, map_size_empty in Hn. lia.
  - intros i r Hi Hf. case_decide; [done|]. unfold tickets_closed.
    rewrite lookup_fmap, Hi. cbn. rewrite decide_False; [done|by intros [? _]].
Qed.

(** Closing a window is idempotent: a second recovery of the same
    fingerprint, at any later time, affects no row and changes nothing. *)
Theorem close_window_idempotent fp t u w n w1 m w2 :
  atomically (close_window fp t) w = (Ok n, w1) →
  atomically (close_window fp u) w1 = (Ok m, w2) →
  m = 0 ∧ w_db w2 = w_db w1.
Proof.
  intros [(a & w3 & H1 & -> & [[= <-]|[e [=]]])|(e & o1 & w3 & [=] & _)]%atomically_inv.
  apply close_window_inv in H1 as [[_ ->]|(e & [=] & _)].
  intros [(a' & w3 & H2 & -> & [[= <-]|[e [=]]])|(e & o1 & w3 & [=] & _)]%atomically_inv.
  apply close_window_inv in H2 as [[[= ->] ->]|(e & [=] & _)].
  pose proof (close_none fp (dt_us u) _ (close_leaves_none fp (dt_us t) (w_db w))) as E.
  split; [exact (f_equal fst E)|exact (f_equal snd E)].
Qed.

(** *** The outbox queries *)

Lemma pending_ids_facts limit w ids w' :
  pending_queue_event_ids limit w = (Ok ids, w') →
  let rows := filter (λ kv, awaiting_queue kv.2) (events (w_db w)) in
  NoDup ids ∧ length ids = Nat.min limit (size rows) ∧
  (∀ i, i ∈ ids → is_Some (rows !! i)).
Proof.
  intros [(a & d & [= <-] & [= <- <-] & ->)|(e & [=] & _)]%sql_inv. cbn zeta.
  set (rows := filter _ (events (w_db w))).
  assert (NoDup (order_by_received rows).*1) as Hnd.
  { unfold order_by_received. rewrite merge_sort_Permutation. apply NoDup_fst_map_to_list. }
  split; [|split].
  - rewrite <-(take_drop limit (order_by_received rows)), fmap_app in Hnd.
    by apply list.NoDup_app in Hnd as [? _].
  - by rewrite length_fmap, length_take, length_order_by_received.
  - intros i ([k r] & -> & Hin)%list_elem_of_fmap.
    apply elem_of_take in Hin as (n & Hin%list_elem_of_lookup_2 & _).
    apply elem_of_order_by_received in Hin. by eauto.
Qed.

(** The backlog the dispatcher reads: the listed ids are distinct, each
    names an admitted event without a delivery receipt, they come oldest
    first, there are at most [limit] of them, and none is left out unless the
    limit is reached and every listed event is at least as old. *)
Theorem pending_ids_spec limit w ids w' :
  pending_queue_event_ids limit w = (Ok ids, w') →
  let rows := filter (λ kv, awaiting_queue kv.2) (events (w_db w)) in
  NoDup ids ∧ length ids = Nat.min limit (size rows) ∧
  (∀ i, i ∈ ids → is_Some (rows !! i)) ∧
  (∀ i j r s, i ∈ ids → j ∉ ids → rows !! i = Some r → rows !! j = Some s →
     er_received_at r ≤ er_received_at s) ∧ w_db w' = w_db w.
Proof.
  intros Hq. pose proof (pending_ids_facts _ _ _ _ Hq) as (Hnd & Hlen & Hin). revert Hq.
  cbn zeta in *. set (rows := filter _ (events (w_db w))) in *.
  intros [(a & d & [= <-] & [= <- <-] & ->)|(e & [=] & _)]%sql_inv.
  split; [done|]. split; [done|]. split; [done|]. split; [|done]. clear Hnd Hlen Hin.
  pose proof (order_by_received_sorted rows) as Hs.
  rewrite <-(take_drop limit (order_by_received rows)) in Hs.
  intros i j r s ([k r'] & -> & Hin)%list_elem_of_fmap Hj Hr Hsj.
  assert ((j, s) ∈ drop limit (order_by_received rows)) as Hdrop.
  { apply elem_of_order_by_received in Hsj.
    rewrite <-(take_drop limit (order_by_received rows)) in Hsj.
    apply elem_of_app in Hsj as [Hsj|Hsj]; [|done]. exfalso. apply Hj.
    apply list_elem_of_fmap. by exists (j, s). }
  pose proof (StronglySorted_app_1_elem_of _ _ _ _ _ Hs Hin Hdrop) as Hle.
  apply elem_of_take in Hin as (n & Hin%list_elem_of_lookup_2 & _).
  apply elem_of_order_by_received in Hin.
  assert (Some r' = Some r) as [= <-] by (rewrite <-Hr; symmetry; exact Hin). exact Hle.
Qed.
End claims.

(** ** Witnesses *)

Section witnesses.
#[local] Existing Instance quiet.
#[local] Existing Instance solo.
#[local] Existing Instance strict_pydantic.

Definition one_event_db : DB :=
  set_events {[ 7%N := admitted_row sample_event ]} empty_db.
Definition with_db (d : DB) : World ListStream := put_db d boot_world.
Definition now0 : datetime := utc 1785090660000000.

Lemma admit_refines_witness :
  let p := atomically (admit_event sample_event DEDUPE_WINDOW) boot_world in
  match p.1 with
  | Ok a => admits sample_event DEDUPE_WINDOW (admitted_row sample_event)
              (w_db boot_world) a (w_db p.2)
  | Raise _ =>
      w_db p.2 = w_db boot_world ∨
      ∃ a, admits sample_event DEDUPE_WINDOW (admitted_row sample_event)
             (w_db boot_world) a (w_db p.2)
  end.
Proof.
  intros p. exact (admit_refines sample_event boot_world p.1 p.2 (surjective_pairing p)).
Defined.

Lemma admit_succeeds_witness :
  ∃ a w', atomically (admit_event sample_event DEDUPE_WINDOW) boot_world = (Ok a, w') ∧
    admits sample_event DEDUPE_WINDOW (admitted_row sample_event)
      (w_db boot_world) a (w_db w') ∧ db_ok (w_db w').
Proof.
  apply (admit_succeeds sample_event boot_world).
  - done.
  - apply empty_db_ok.
  - intros i r Hi. cbn in Hi. by rewrite lookup_empty in Hi.
  - apply lookup_empty.
  - vm_compute. reflexivity.
Defined.

Definition full_row : EventRow :=
  mkEventRow "datadog" (Some (ae_fingerprint sample_event)) 1785090600000000 2147483647 false
    None (Some (event_json sample_event)) None None None.

Lemma admit_counter_full_witness :
  let p := atomically (admit_event (sample_event_at 8%N 1785090660000000 "") DEDUPE_WINDOW)
             (with_db (set_events {[ 7%N := full_row ]} empty_db)) in
  (∃ e, p.1 = Raise e) ∧ w_db p.2 = set_events {[ 7%N := full_row ]} empty_db.
Proof.
  intros p. eapply (admit_counter_full (sample_event_at 8%N 1785090660000000 "")
    (with_db (set_events {[ 7%N := full_row ]} empty_db)) p.1 p.2 7%N full_row).
  - apply lookup_singleton_eq.
  - split; [split; [reflexivity|by split]|]. cbn. unfold DEDUPE_WINDOW, minutes. lia.
  - intros j s Hj _.
    change (({[ 7%N := full_row ]} : gmap uuid EventRow) !! j = Some s) in Hj.
    by apply lookup_singleton_Some in Hj as [<- _].
  - reflexivity.
  - apply surjective_pairing.
Defined.

Definition nul_event : AgentEvent :=
  sample_event_at 7%N 1785090600000000 (String zero EmptyString).

Lemma admit_refuses_nul_witness :
  let p := atomically (admit_event nul_event DEDUPE_WINDOW) boot_world in
  (∃ e, p.1 = Raise e) ∧ w_db p.2 = empty_db.
Proof.
  intros p. eapply (admit_refuses_nul nul_event boot_world p.1 p.2).
  - vm_compute. reflexivity.
  - intros j s Hj. cbn in Hj. by rewrite lookup_empty in Hj.
  - apply surjective_pairing.
Defined.

Lemma close_window_recovers_witness :
  let w := with_db one_event_db in
  let p := atomically (close_window (ae_fingerprint sample_event) now0) w in
  p.1 = Ok 1 ∧
  ∀ i r, events (w_db p.2) !! i = Some r → ¬ window_open (ae_fingerprint sample_event) r.
Proof.
  intros w p. assert (p.1 = Ok 1) as Hp by (vm_compute; reflexivity). split; [exact Hp|].
  destruct (close_window_recovers (ae_fingerprint sample_event) now0 w 1 p.2
              (run_pair p _ Hp)) as (_ & Hno & _).
  exact Hno.
Defined.

Lemma close_window_idempotent_witness :
  let w := with_db one_event_db in
  let p := atomically (close_window (ae_fingerprint sample_event) now0) w in
  let q := atomically (close_window (ae_fingerprint sample_event) now0) p.2 in
  w_db q.2 = w_db p.2.
Proof.
  intros w p q.
  assert (p.1 = Ok 1) as Hp by (vm_compute; reflexivity).
  assert (q.1 = Ok 0) as Hq by (vm_compute; reflexivity).
  destruct (close_window_idempotent (ae_fingerprint sample_event) now0 now0 w 1 p.2 0 q.2
              (run_pair p _ Hp) (run_pair q _ Hq)) as [_ He].
  exact He.
Defined.

Lemma pending_ids_spec_witness :
  let w := with_db one_event_db in
  let p := pending_queue_event_ids 100 w in
  p.1 = Ok [7%N] ∧ NoDup [7%N] ∧ w_db p.2 = w_db w.
Proof.
  intros w p. assert (p.1 = Ok [7%N]) as Hp by (vm_compute; reflexivity).
  destruct (pending_ids_spec 100 w [7%N] p.2 (run_pair p _ Hp)) as (Hn & _ & _ & _ & Hd).
  split; [exact Hp|]. split; [exact Hn|exact Hd].
Defined.
End witnesses.
