(* ===== verification/Recorder.v ===== *)
(** * The flight recorder (recorder/writer.py)

    One append-only JSONL file per process.  A write can stop part-way: the
    bytes that landed stay in the file. *)

From Stdlib Require Import Ascii.
From S2P Require Import Prelude PyStr Json JsonParse PyTime Contracts Wire Database World.
From S2P Require Import Samples.

Open Scope Z_scope.

Definition newline : string := String (ascii_of_N 10) EmptyString.

(** [len(text.encode("utf-8"))] *)
Definition blen (s : string) : Z := Z.of_nat (String.length s).

(** The first [n] bytes. *)
Fixpoint take_bytes (n : nat) (s : string) : string :=
  match n, s with
  | S n, String a r => String a (take_bytes n r)
  | _, _ => EmptyString
  end.

(** [datetime.strftime("%Y-%m-%dT%H%M%S-%f")] of a UTC time *)
Definition stamp (t : datetime) : string :=
  let us := dt_us t mod 86400000000 in
  let secs := us / 1000000 in
  let '(y, m, d) := civil_of_days (dt_us t / 86400000000) in
  zpad 4 y +:+ "-" +:+ zpad 2 m +:+ "-" +:+ zpad 2 d +:+ "T" +:+ zpad 2 (secs / 3600) +:+
  zpad 2 (secs / 60 mod 60) +:+ zpad 2 (secs mod 60) +:+ "-" +:+ zpad 6 (us mod 1000000).

(** [event.model_copy(update={"seq": seq})] *)
Definition with_seq (seq : Z) (a : AuditEvent) : AuditEvent :=
  mkAuditEvent (au_version a) (au_run_id a) seq (au_ts a) (au_actor a) (au_kind a)
    (au_payload a).

Section recorder.
Context {R : Type} `{!Env, !Pydantic}.

(** [Recorder(log_dir)] in a process with the given id: a new file name, empty
    counters, and the file created. *)
Definition Recorder_init (pid : Z) : M R () := λ w,
  let path := "audit-" +:+ stamp (utc (env_now (w_tick w))) +:+ "-" +:+ str_int pid +:+
              ".jsonl" in
  let files := match w_files w !! path with
               | Some _ => w_files w
               | None => <[path := EmptyString]> (w_files w)
               end in
  (Ok (), put_files files (put_rec (mkRecorder path ∅ 0) (next_tick w))).

Definition audit_line (a : AuditEvent) : string := dumps (audit_json a) +:+ newline.

(** The bytes of a faulty write that reach the file. *)
Definition landed (f : fault) (line : string) : string :=
  match f with
  | FTorn n => take_bytes n line
  | _ => if takes_effect f then line else EmptyString
  end.

Definition append (event : AuditEvent) : M R (Z * Z) := λ w,
  let r := w_rec w in
  let run := uuid_str (au_run_id event) in
  let seq := default 0 (rec_seq r !! run) + 1 in
  let line := audit_line (with_seq seq event) in
  let f := env_fault (w_tick w) in
  let text := default EmptyString (w_files w !! rec_path r) +:+ landed f line in
  let counted := mkRecorder (rec_path r) (<[run := seq]> (rec_seq r)) in
  let w1 := put_files (<[rec_path r := text]> (w_files w)) (next_tick w) in
  match raised OSError f with
  | None => (Ok (seq, blen text), put_rec (counted (rec_failures r)) w1)
  | Some OSError => (Raise OSError, put_rec (counted (rec_failures r + 1)) w1)
  | Some e => (Raise e, put_rec (counted (rec_failures r)) w1)
  end.

(** [self.path.stat().st_size] *)
Definition start_offset : M R Z := λ w,
  match raised OSError (env_fault (w_tick w)), w_files w !! rec_path (w_rec w) with
  | Some e, _ => (Raise e, next_tick w)
  | None, None => (Raise OSError, next_tick w)
  | None, Some text => (Ok (blen text), next_tick w)
  end.

Definition record (run_id : uuid) (actor : string) (kind : AuditKind)
    (payload : list (string * json)) : M R (Z * Z) :=
  do! ts := now in
  do! event := lift (construct (mkAuditEvent 1 run_id 1 ts actor kind payload)) in
  append event.
End recorder.

(** The lines of a text file, each without its line end. *)
Fixpoint lines_go (cur : string) (s : string) : list string :=
  match s with
  | EmptyString => if nonempty cur then [String.rev cur] else []
  | String a r =>
      if decide (a = ascii_of_N 10) then String.rev cur :: lines_go EmptyString r
      else lines_go (String a cur) r
  end.
Definition lines (s : string) : list string := lines_go EmptyString s.

Section read_run.
Context `{!FloatText}.

(** [record.get("run_id") == wanted] *)
Definition line_of_run (wanted : string) (record : json) : result exn bool :=
  match record with
  | JObj d => Ok (bool_decide (dget "run_id" d = Some (JStr wanted)))
  | _ => Raise (AttributeError "get")
  end.

Fixpoint read_lines (wanted : string) (ls : list string) : result exn (list json) :=
  match ls with
  | [] => Ok []
  | l :: ls =>
      if nonempty (strip l) then
        match loads l with
        | None => Raise JSONDecodeError
        | Some record =>
            let? mine := line_of_run wanted record in
            let? out := read_lines wanted ls in
            Ok (if (mine : bool) then record :: out else out)
        end
      else read_lines wanted ls
  end.

(** [recorder.read_run(run_id)] on the text of the file *)
Definition read_run (run_id : uuid) (text : string) : result exn (list json) :=
  read_lines (uuid_str run_id) (lines text).
End read_run.


(** ** Properties of the file *)

(** [audit_line] on the events of a file, one after the other. *)
Section text.
Context `{!Pydantic, !FloatText}.

Definition log_text (evs : list AuditEvent) : string :=
  foldr (λ a s, audit_line a +:+ s) EmptyString evs.

(** The events of one run. *)
Definition of_run (run : string) (a : AuditEvent) : Prop := uuid_str (au_run_id a) = run.
#[export] Instance of_run_dec run a : Decision (of_run run a).
Proof. unfold of_run. apply _. Defined.

Lemma lines_go_line cur s r :
  str_forallb visible s = true →
  lines_go cur (s +:+ String (ascii_of_N 10) r) = (String.rev cur +:+ s) :: lines r.
Proof.
  revert cur. induction s as [|a s IH]; intros cur Hv.
  - rewrite app_nil_str, app_str_nil. cbn [lines_go]. by rewrite decide_True.
  - rewrite app_cons_str. cbn [lines_go]. apply andb_prop in Hv as [Ha Hv].
    rewrite decide_False by (by intros ->). rewrite IH by done.
    by rewrite rev_cons_str, app_str_assoc.
Qed.

Lemma lines_log evs :
  Forall (λ a, json_wf (audit_json a)) evs →
  lines (log_text evs) = (λ a, dumps (audit_json a)) <$> evs.
Proof.
  induction 1 as [|a evs Ha Hevs IH]; [done|]. cbn [fmap list_fmap].
  change (log_text (a :: evs)) with (audit_line a +:+ log_text evs).
  unfold audit_line, newline. unfold lines at 1.
  rewrite app_str_assoc, app_cons_str, app_nil_str.
  rewrite lines_go_line by (by apply visible_dumps). by rewrite IH.
Qed.

(** A text that begins and ends with a brace is not blank. *)
Lemma strip_braces s : nonempty (strip ("{" +:+ s +:+ "}")) = true.
Proof.
  unfold strip.
  assert (lstrip ("{" +:+ s +:+ "}") = "{" +:+ s +:+ "}") as ->.
  { rewrite app_cons_str, app_nil_str. unfold lstrip.
    by destruct (s +:+ "}") as [|b [|c r]]. }
  unfold rstrip. rewrite <-app_str_assoc, rev_str_app.
  assert (∀ t, drop_ws (λ a b, ws2 b a) (λ a b c, ws3 c b a) (String "}" t) = String "}" t)
    as Hd.
  { intros t. assert (∀ b, ws2 b "}" = false) as H2
      by (by intros [[] [] [] [] [] [] [] []]).
    assert (∀ b c, ws3 c b "}" = false) as H3.
    { intros b c. unfold ws3. change (byte_val "}") with 125%N.
      by rewrite !andb_false_r. }
    destruct t as [|b [|c r]]; cbn -[ws2 ws3]; rewrite ?H2, ?H3; done. }
  change (String.rev "}") with (String "}" EmptyString). rewrite app_cons_str, Hd.
  rewrite rev_cons_str. by destruct (String.rev _).
Qed.

Lemma read_log run evs :
  Forall (λ a, json_wf (audit_json a)) evs →
  read_lines run ((λ a, dumps (audit_json a)) <$> evs) =
  Ok (audit_json <$> filter (of_run run) evs).
Proof.
  induction 1 as [|a evs Ha Hevs IH]; [done|]. cbn [fmap list_fmap read_lines].
  change (dumps (audit_json a)) with
    ("{" +:+ join "," ((λ kv, dumps_str kv.1 +:+ ":" +:+ dumps kv.2) <$>
       [("schema_version", JInt (au_version a)); ("run_id", JStr (uuid_str (au_run_id a)));
        ("seq", JInt (au_seq a)); ("ts", JStr (dump_datetime (au_ts a)));
        ("actor", JStr (au_actor a)); ("kind", JStr (audit_kind_value (au_kind a)));
        ("payload", JObj (au_payload a))]) +:+ "}") at 1.
  rewrite strip_braces, loads_dumps_wf by done. unfold line_of_run, audit_json at 1. cbn [rbind].
  cbn [dget String.eqb Ascii.eqb Bool.eqb]. rewrite IH. cbn [rbind].
  rewrite filter_cons. f_equal.
  destruct (decide (of_run run a)) as [Hr|Hn]; unfold of_run in *.
  - by rewrite bool_decide_true by congruence.
  - by rewrite bool_decide_false by congruence.
Qed.

Lemma read_run_log run evs :
  Forall (λ a, json_wf (audit_json a)) evs →
  read_run run (log_text evs) = Ok (audit_json <$> filter (of_run (uuid_str run)) evs).
Proof. intros Hwf. unfold read_run. by rewrite lines_log, read_log. Qed.

(** The events as [append] numbers them, from the given counters. *)
Fixpoint stamped (m : gmap string Z) (evs : list AuditEvent) : list AuditEvent :=
  match evs with
  | [] => []
  | a :: evs =>
      let run := uuid_str (au_run_id a) in
      let seq := default 0 (m !! run) + 1 in
      with_seq seq a :: stamped (<[run := seq]> m) evs
  end.

Fixpoint numbered (n : Z) (evs : list AuditEvent) : list AuditEvent :=
  match evs with [] => [] | a :: evs => with_seq n a :: numbered (n + 1) evs end.

Lemma filter_stamped run m evs :
  filter (of_run run) (stamped m evs) =
  numbered (default 0 (m !! run) + 1) (filter (of_run run) evs).
Proof.
  revert m. induction evs as [|a evs IH]; intros m; [done|]. cbn [stamped].
  rewrite !filter_cons, IH. change (of_run run (with_seq _ a)) with (of_run run a).
  destruct (decide (of_run run a)) as [Ha|Ha]; unfold of_run in Ha.
  - rewrite Ha, lookup_insert_eq. done.
  - by rewrite lookup_insert_ne.
Qed.
End text.

(** ** Claims *)

Section claims.
Context {R : Type} `{!Env, !Pydantic, !FloatText}.
Implicit Types w : World R.

Definition file_text w : string := default EmptyString (w_files w !! rec_path (w_rec w)).
Definition next_seq w (run : string) : Z := default 0 (rec_seq (w_rec w) !! run) + 1.

(** What one append leaves behind: the bytes [b] at the end of the file, the
    counter of the run one higher, everything else as it was. *)
Definition appended (a : AuditEvent) (b : string) (failed : Z) w w' : Prop :=
  let run := uuid_str (au_run_id a) in
  w_db w' = w_db w ∧ w_redis w' = w_redis w ∧ w_tick w' = S (w_tick w) ∧
  w_files w' = <[rec_path (w_rec w) := file_text w +:+ b]> (w_files w) ∧
  w_rec w' = mkRecorder (rec_path (w_rec w)) (<[run := next_seq w run]> (rec_seq (w_rec w)))
               (rec_failures (w_rec w) + failed).

Lemma append_inv a w o w' :
  append a w = (o, w') →
  let line := audit_line (with_seq (next_seq w (uuid_str (au_run_id a))) a) in
  (o = Ok (next_seq w (uuid_str (au_run_id a)), blen (file_text w +:+ line)) ∧
   appended a line 0 w w') ∨
  (∃ b, (o = Raise OSError ∧ appended a b 1 w w' ∨ o = Raise CancelledError ∧ appended a b 0 w w')
     ∧ ∃ rest, line = b +:+ rest).
Proof.
  unfold append. cbn zeta. intros Ha.
  assert (∀ n s, ∃ rest, s = take_bytes n s +:+ rest) as Htake.
  { induction n as [|n IH]; intros s; [by exists s; destruct s|].
    destruct s as [|c s]; [by exists EmptyString|]. destruct (IH s) as [rest Hr].
    exists rest. cbn [take_bytes]. rewrite app_cons_str. by rewrite <-Hr. }
  destruct (env_fault (w_tick w)); cbn in Ha; injection Ha as <- <-.
  1: left. 2-6: right.
  - split; [done|]. unfold appended. cbn. by rewrite Z.add_0_r.
  - exists EmptyString. split; [by left|]. by eexists.
  - eexists. split; [by left|]. exists EmptyString. by rewrite app_str_nil.
  - eexists. split; [by left|]. apply Htake.
  - exists EmptyString. split; [|by eexists]. right. split; [done|]. unfold appended. cbn.
    by rewrite Z.add_0_r.
  - eexists. split; [|exists EmptyString; by rewrite app_str_nil]. right.
    split; [done|]. unfold appended. cbn. by rewrite Z.add_0_r.
Qed.

Lemma appended_text a b k w w' : appended a b k w w' → file_text w' = file_text w +:+ b.
Proof.
  intros (_ & _ & _ & Hf & Hr). unfold file_text at 1. rewrite Hr, Hf. cbn.
  by rewrite lookup_insert_eq.
Qed.

Lemma appended_path a b k w w' : appended a b k w w' → rec_path (w_rec w') = rec_path (w_rec w).
Proof. by intros (_ & _ & _ & _ & ->). Qed.

(** C22. The log is append-only, and an append that returns is whole: under
    every fault schedule the file keeps all it had and gains at most the one
    line, every other file is untouched; on success exactly the line was
    added, it carries the run's next sequence number, and the returned offset
    is the new size of the file; an OSError is counted and raised. *)
Theorem append_only a w o w' :
  append a w = (o, w') →
  (∃ b, file_text w' = file_text w +:+ b) ∧
  (∀ p, p ≠ rec_path (w_rec w) → w_files w' !! p = w_files w !! p) ∧
  (∀ seq off, o = Ok (seq, off) →
     seq = next_seq w (uuid_str (au_run_id a)) ∧
     file_text w' = file_text w +:+ audit_line (with_seq seq a) ∧ off = blen (file_text w')) ∧
  (o = Raise OSError → rec_failures (w_rec w') = rec_failures (w_rec w) + 1).
Proof.
  intros [[-> Ha]|(b & Hb & _)]%append_inv.
  - pose proof (appended_text _ _ _ _ _ Ha) as Ht. destruct Ha as (_ & _ & _ & Hf & Hr).
    split; [by eauto|]. split; [|split; [|done]].
    + intros p Hp. by rewrite Hf, lookup_insert_ne.
    + intros seq off [= <- <-]. by rewrite Ht.
  - assert (∃ k, appended a b k w w') as [k Ha] by (destruct Hb as [[_ ?]|[_ ?]]; eauto).
    split; [exists b; by eapply appended_text|].
    split; [|split; [by destruct Hb as [[-> _]|[-> _]]|]].
    + intros p Hp. destruct Ha as (_ & _ & _ & -> & _). by rewrite lookup_insert_ne.
    + intros ->. destruct Hb as [[_ (_ & _ & _ & _ & ->)]|[[=] _]]. done.
Qed.

Lemma append_Ok a w :
  env_fault (w_tick w) = FOk →
  let seq := next_seq w (uuid_str (au_run_id a)) in
  ∃ w', append a w = (Ok (seq, blen (file_text w +:+ audit_line (with_seq seq a))), w') ∧
    appended a (audit_line (with_seq seq a)) 0 w w'.
Proof.
  intros Hf. cbn zeta. destruct (append a w) as [o w'] eqn:E. exists w'.
  pose proof E as E'. apply append_inv in E as [[-> Ha]|(b & Hb & _)]; [done|].
  exfalso. revert E'. unfold append. rewrite Hf. cbn. intros [= <- _].
  by destruct Hb as [[[=] _]|[[=] _]].
Qed.

(** The audit event [record] appends. *)
Definition audit_of w (run : uuid) (actor : string) (kind : AuditKind)
    (payload : list (string * json)) : AuditEvent :=
  mkAuditEvent 1 run (next_seq w (uuid_str run)) (utc (env_now (w_tick w))) actor kind payload.

(** One more line on the file, nothing shared touched. *)
Record recorded (a : AuditEvent) w w' : Prop := {
  re_db : w_db w' = w_db w;
  re_redis : w_redis w' = w_redis w;
  re_path : rec_path (w_rec w') = rec_path (w_rec w);
  re_text : file_text w' = file_text w +:+ audit_line a;
  re_tick : (w_tick w ≤ w_tick w')%nat;
}.

Lemma record_db run actor kind payload w o w' :
  record run actor kind payload w = (o, w') → w_db w' = w_db w ∧ w_redis w' = w_redis w.
Proof.
  intros [(t & w1 & [= <- <-] & H2)|(e & [=] & _)]%mbind_inv.
  apply mbind_inv in H2 as [(a & w2 & [= Ha <-] & H3)|(e & [= _ <-] & _)]; [|done].
  apply append_inv in H3 as [[_ (-> & -> & _)]|(b & [[_ (-> & -> & _)]|[_ (-> & -> & _)]] & _)];
    done.
Qed.

(** A property of worlds that [append] keeps whatever landed of the line. *)
Lemma keep_record (P : World R → Prop) run actor kind payload :
  ignores_db P → (∀ a b k w w', appended a b k w w' → P w → P w') →
  keeps P (record run actor kind payload).
Proof.
  intros Hi Ha. apply keeps_bind; [by apply keep_now|intros t].
  apply keeps_bind; [apply keeps_lift|intros a].
  intros w o w' [[_ Hw]|(b & [[_ Hw]|[_ Hw]] & _)]%append_inv; by eapply Ha.
Qed.

Lemma keep_record_past n run actor kind payload :
  keeps (R := R) (past n) (record run actor kind payload).
Proof.
  apply keep_record; [apply past_ignores|].
  intros a b k w w' (_ & _ & Ht & _). unfold past. lia.
Qed.

(** The audit file is there; it holds more than [n] bytes. *)
Definition has_log w : Prop := is_Some (w_files w !! rec_path (w_rec w)).
Definition log_over (n : Z) w : Prop := n < blen (file_text w).

Lemma has_log_ignores : ignores_db has_log.
Proof. by split. Qed.
Lemma log_over_ignores n : ignores_db (log_over n).
Proof. by split. Qed.

Lemma keep_record_log run actor kind payload : keeps has_log (record run actor kind payload).
Proof.
  apply keep_record; [apply has_log_ignores|].
  intros a b k w w' (_ & _ & _ & Hf & Hr) _. unfold has_log. rewrite Hf, Hr. cbn.
  rewrite lookup_insert_eq. by eauto.
Qed.

Lemma keep_record_over n run actor kind payload :
  keeps (log_over n) (record run actor kind payload).
Proof.
  apply keep_record; [apply log_over_ignores|].
  intros a b k w w' Ha%appended_text. unfold log_over. rewrite Ha. unfold blen.
  rewrite length_app_str. lia.
Qed.

Lemma record_inv run actor kind payload w seq off w' :
  record run actor kind payload w = (Ok (seq, off), w') →
  recorded (audit_of w run actor kind payload) w w' ∧ off = blen (file_text w').
Proof.
  intros Hr. pose proof (record_db _ _ _ _ _ _ _ Hr) as [Hd Hs].
  pose proof (keep_record_past (w_tick w) _ _ _ _ _ _ _ Hr (le_n _)) as Ht. revert Hr.
  intros (t & w1 & [= <- <-] & (a & w2 & [= Ha <-] & H3)%mbind_Ok)%mbind_Ok.
  apply construct_Ok in Ha as [<- _].
  apply append_inv in H3 as [[[= _ ->] Ha]|(b & [[[=] _]|[[=] _]] & _)].
  pose proof (appended_text _ _ _ _ _ Ha) as Hx. pose proof (appended_path _ _ _ _ _ Ha) as Hp.
  split; [by split|]. by rewrite Hx.
Qed.

(** Every line but an llm_call one is a valid audit event. *)
Lemma record_Ok run actor kind payload w :
  nonempty actor = true → kind ≠ ALLM_CALL → (∀ n, env_fault n = FOk) →
  ∃ seq off w', record run actor kind payload w = (Ok (seq, off), w').
Proof.
  intros Ha Hk Hq. unfold record, mbind', now, lift. rewrite construct_valid.
  - destruct (append_Ok (mkAuditEvent 1 run 1 (utc (env_now (w_tick w))) actor kind payload)
      (next_tick w) (Hq _)) as (w' & Hw & _). by eauto.
  - unfold valid. cbn -[nonempty]. unfold min_length_1, llm_calls_are_attributable. cbn.
    rewrite Ha. by destruct kind.
Qed.

Lemma append_all evs w :
  (∀ n, env_fault n = FOk) →
  ∃ outs w', mfor evs append w = (Ok outs, w') ∧
    file_text w' = file_text w +:+ log_text (stamped (rec_seq (w_rec w)) evs).
Proof.
  intros Hq. revert w. induction evs as [|a evs IH]; intros w.
  { exists [], w. by rewrite app_str_nil. }
  destruct (append_Ok a w (Hq _)) as (w1 & Ha & Happ).
  destruct (IH w1) as (outs & w' & Hf & Ht).
  eexists (_ :: outs), w'. cbn [mfor]. unfold mbind'. rewrite Ha, Hf. split; [done|].
  rewrite Ht, (appended_text _ _ _ _ _ Happ). destruct Happ as (_ & _ & _ & _ & ->).
  by rewrite app_str_assoc.
Qed.

(** C21. What was recorded can be read back: after any sequence of appends to a
    fresh log, without faults, [read_run] gives for every run exactly its
    events, in the order they were recorded, numbered 1, 2, 3 and so on,
    however the runs interleave. *)
Theorem recorded_runs_read_back evs w :
  (∀ n, env_fault n = FOk) → file_text w = EmptyString → rec_seq (w_rec w) = ∅ →
  Forall (λ a, json_wf (audit_json a)) (stamped ∅ evs) →
  ∃ outs w', mfor evs append w = (Ok outs, w') ∧
    ∀ run, read_run run (file_text w') =
      Ok (audit_json <$> numbered 1 (filter (of_run (uuid_str run)) evs)).
Proof.
  intros Hq Hempty Hseq Hwf. destruct (append_all evs w Hq) as (outs & w' & Hf & Ht).
  exists outs, w'. split; [done|]. intros run. rewrite Ht, Hempty, Hseq, app_nil_str.
  rewrite read_run_log by done. by rewrite filter_stamped, lookup_empty.
Qed.
End claims.

(** ** Witnesses and a torn write *)

Definition sample_audit (run : uuid) (actor : string) : AuditEvent :=
  mkAuditEvent 1 run 1 (utc 1785090600000000) actor AGATE [("n", JInt 1)].

Lemma append_only_witness :
  let p := @append ListStream quiet strict_pydantic (sample_audit 7%N "worker") boot_world in
  is_ok p.1 = true ∧ ∃ b, file_text p.2 = file_text boot_world +:+ b.
Proof.
  intros p. split; [vm_compute; reflexivity|].
  destruct (@append_only ListStream quiet strict_pydantic (sample_audit 7%N "worker")
    boot_world p.1 p.2 (surjective_pairing p)) as [Hb _].
  exact Hb.
Defined.

Definition sample_log : list AuditEvent :=
  [sample_audit 7%N "worker"; sample_audit 8%N "worker"; sample_audit 7%N "triage"].

Lemma recorded_runs_read_back_witness :
  ∃ outs w', mfor sample_log (@append ListStream quiet strict_pydantic) boot_world = (Ok outs, w') ∧
    @read_run repr_text 7%N (file_text w') =
      Ok (@audit_json strict_pydantic <$> numbered 1 [sample_audit 7%N "worker"; sample_audit 7%N "triage"]).
Proof.
  destruct (@recorded_runs_read_back ListStream quiet strict_pydantic repr_text sample_log
    boot_world) as (outs & w' & Hf & Hr).
  - done.
  - reflexivity.
  - reflexivity.
  - repeat constructor; set_solver.
  - exists outs, w'. split; [exact Hf|]. rewrite Hr. vm_compute. reflexivity.
Defined.

(** A torn write poisons the log: when a write stops part-way (the disk is
    full, say) and a later append succeeds, the later line continues the torn
    one, and reading back any run fails with JSONDecodeError, although the later
    append reported success. *)
Theorem torn_write_poisons_log :
  let step a := @append ListStream (faulty 0 (FTorn 12)) strict_pydantic a in
  let w1 := (step (sample_audit 7%N "worker") boot_world).2 in
  let p := step (sample_audit 8%N "worker") w1 in
  is_ok p.1 = true ∧ @read_run repr_text 8%N (file_text p.2) = Raise JSONDecodeError.
Proof. vm_compute. done. Qed.
