(* ===== verification/Delivery.v ===== *)
(** * The durable outbox (queue/producer.py, receiver/delivery.py) *)

From S2P Require Import Prelude PyStr Json PyTime Contracts Wire Database World Samples.
From S2P Require Import Repository.

Open Scope Z_scope.

(** ** Background tasks *)

(** What [asyncio.Task] says of a task: running, cancelled, ended by an
    exception of the given class, or returned. *)
Inductive task_state :=
| TaskRunning
| TaskCancelled
| TaskFailed (class_name : string)
| TaskReturned.

(** [OutboxHandle.status] *)
Definition outbox_status (t : task_state) : string :=
  match t with
  | TaskRunning => "ok"
  | TaskCancelled => "dead: cancelled"
  | TaskReturned => "dead: exited"
  | TaskFailed name => "dead: " +:+ name
  end.

(** How long the dispatcher pauses before its next round, in milliseconds. *)
Definition IDLE_MS : Z := 250.
Definition RETRY_MS : Z := 1000.

Section delivery.
Context {R : Type} `{!Env, !Others R, !Pydantic, !RedisStreams R}.

(** [producer.publish]: XADD of the event's JSON under the one field
    [event]. *)
Definition publish (event : AgentEvent) : M R string :=
  redis_call (λ r, Ok (xadd (dumps (event_json event)) r)).

Definition dispatch_event (event_id : uuid) : M R (option string) :=
  transaction (
    do! candidate := event_for_queue event_id in
    match candidate with
    | None => mret' None
    | Some (event, Some existing) => mret' (Some existing)
    | Some (event, None) =>
        do! message_id := publish event in
        do! queued_at := now in
        do! _ := mark_queued event_id message_id queued_at in
        mret' (Some message_id)
    end).

Definition dispatch_pending (limit : nat) : M R Z :=
  do! event_ids := pending_queue_event_ids limit in
  do! _ := mfor event_ids dispatch_event in
  mret' (Z.of_nat (length event_ids)).

Definition pending_count : M R Z := pending_queue_count.

(** One round of [_run]: the pause that follows it. *)
Definition outbox_round : M R Z :=
  mtry is_Exception
    (do! visited := dispatch_pending 100 in
     mret' (if visited =? 0 then IDLE_MS else 0))
    (λ _, mret' RETRY_MS).

(** The first [n] rounds of [_run]. *)
Fixpoint outbox_rounds (n : nat) : M R () :=
  match n with
  | O => mret' ()
  | S n => do! _ := outbox_round in outbox_rounds n
  end.
End delivery.

(** ** What one dispatch does *)

(** The row [dispatch_event] locks. *)
Definition deliverable (d : DB) (id : uuid) (r : EventRow) : Prop :=
  events d !! id = Some r ∧ er_quarantined r = false.

Section dispatch.
Context {R : Type} `{!Env, !Others R, !Pydantic, !RedisStreams R}.
Implicit Types w : World R.

(** One dispatch as a relation on database and stream: nothing to deliver, a
    receipt found, one entry appended and its id stored, or a failure, which
    leaves the row as it was whether or not the entry was appended. *)
Inductive dispatches (id : uuid) (d : DB) (r : R) : result exn (option string) → DB → R → Prop :=
| dispatches_absent :
    (∀ row, ¬ deliverable d id row) → dispatches id d r (Ok None) d r
| dispatches_receipt row event m :
    deliverable d id row → er_queue_message_id row = Some m →
    model_validate_event (default JNull (er_payload row)) = Ok event →
    dispatches id d r (Ok (Some m)) d r
| dispatches_published row event t o :
    deliverable d id row → er_queue_message_id row = None →
    model_validate_event (default JNull (er_payload row)) = Ok event →
    let m := (xadd (dumps (event_json event)) r).1 in
    event_check (with_receipt m t row) = Ok () →
    o = Ok (Some m) ∨ (∃ e, o = Raise e) →
    dispatches id d r o
      (set_events (<[id := with_receipt m t row]> (events d)) d)
      (xadd (dumps (event_json event)) r).2
| dispatches_undone row event e :
    deliverable d id row → er_queue_message_id row = None →
    model_validate_event (default JNull (er_payload row)) = Ok event →
    dispatches id d r (Raise e) d (xadd (dumps (event_json event)) r).2
| dispatches_failed e : dispatches id d r (Raise e) d r.

(** The two database states a transaction of [dispatch_event] can leave. *)
Definition dispatch_body (id : uuid) : M R (option string) :=
  do! candidate := event_for_queue id in
  match candidate with
  | None => mret' None
  | Some (event, Some existing) => mret' (Some existing)
  | Some (event, None) =>
      do! message_id := publish event in
      do! queued_at := now in
      do! _ := mark_queued id message_id queued_at in
      mret' (Some message_id)
  end.

Lemma event_for_queue_inv id w o w' :
  event_for_queue id w = (o, w') →
  w' = next_tick w ∧
  ((∃ e, o = Raise e) ∨
   (o = Ok None ∧ ∀ row, ¬ deliverable (w_db w) id row) ∨
   (∃ row event, deliverable (w_db w) id row ∧
      model_validate_event (default JNull (er_payload row)) = Ok event ∧
      o = Ok (Some (event, er_queue_message_id row)))).
Proof.
  intros [(row & w1 & H1 & H2)|(e & H1 & ->)]%mbind_inv.
  - apply sql_inv in H1 as [(? & d & [= <-] & [= <- <-] & ->)|(e & [=] & _)].
    unfold deliverable. destruct (events (w_db w) !! id) as [r|] eqn:Hr; cbn in H2.
    + destruct (er_quarantined r) eqn:Hq; cbn in H2.
      * injection H2 as <- <-. split; [done|]. right; left.
        split; [done|]. intros row [[= ?] ?]. congruence.
      * unfold mbind', lift in H2.
        destruct (model_validate_event _) as [event|e] eqn:He; injection H2 as <- <-;
          (split; [done|]); [|by eauto]. right; right. by exists r, event.
    + injection H2 as <- <-. split; [done|]. right; left. split; [done|]. by intros row [[=] _].
  - apply sql_inv in H1 as [(? & d & [=] & _)|(e' & [= <-] & ->)]. by eauto.
Qed.

Lemma mark_queued_inv id m t w o w' row :
  events (w_db w) !! id = Some row → er_queue_message_id row = None →
  @mark_queued R _ id m t w = (o, w') →
  (o = Ok () ∧ event_check (with_receipt m (dt_us t) row) = Ok () ∧
   w' = put_db (set_events (<[id := with_receipt m (dt_us t) row]> (events (w_db w))) (w_db w))
          (next_tick w)) ∨
  (∃ e, o = Raise e ∧ w' = next_tick w).
Proof.
  intros Hr Hm [([] & d & -> & Hd & ->)|Hf]%sql_inv; [left|by right].
  unfold set_receipt in Hd. rewrite Hr, decide_True in Hd by done.
  apply rbind_Ok in Hd as (d' & Hd & [= <-]). unfold update_event in Hd.
  rewrite Hr in Hd. apply rbind_Ok in Hd as ([] & Hc & [= <-]). done.
Qed.

Lemma publish_inv event w o w' :
  publish event w = (o, w') →
  (w' = put_redis (xadd (dumps (event_json event)) (w_redis w)).2 (next_tick w) ∧
   (o = Ok (xadd (dumps (event_json event)) (w_redis w)).1 ∨ ∃ e, o = Raise e)) ∨
  (∃ e, o = Raise e ∧ w' = next_tick w).
Proof.
  intros [(m & r & Hx & -> & Ho)|Hr]%redis_call_inv; [left|by right].
  assert (xadd (dumps (event_json event)) (w_redis w) = (m, r)) as -> by congruence. done.
Qed.

Lemma dispatch_body_inv id w o w' :
  dispatch_body id w = (o, w') →
  (∃ e, o = Raise e ∧ (w_redis w' = w_redis w ∨
     ∃ row event, deliverable (w_db w) id row ∧ er_queue_message_id row = None ∧
       model_validate_event (default JNull (er_payload row)) = Ok event ∧
       w_redis w' = (xadd (dumps (event_json event)) (w_redis w)).2)) ∨
  (∃ x, o = Ok x ∧ dispatches id (w_db w) (w_redis w) o (w_db w') (w_redis w')).
Proof.
  intros [(c & w1 & H1 & H2)|(e & H1 & ->)]%mbind_inv; apply event_for_queue_inv in H1 as [-> H1].
  2: { left. by eauto. }
  destruct H1 as [[e [=]]|[[[= ->] Hno]|(row & event & Hd & Hv & [= ->])]].
  { injection H2 as <- <-. right. eexists. split; [done|]. by constructor. }
  destruct (er_queue_message_id row) as [m|] eqn:Hm.
  { injection H2 as <- <-. right. eexists. split; [done|]. by econstructor. }
  apply mbind_inv in H2 as [(m & w2 & H2 & H3)|(e & H2 & ->)].
  2: { left. exists e. split; [done|]. apply publish_inv in H2 as [[-> _]|(? & _ & ->)];
         [right; by exists row, event|by left]. }
  apply publish_inv in H2 as [[-> [[= ->]|[e [=]]]]|(? & [=] & _)].
  apply mbind_inv in H3 as [(t & w3 & [= <- <-] & H3)|(e & [=] & _)].
  destruct Hd as [Hrow Hq].
  apply mbind_inv in H3 as [([] & w4 & H3 & [= <- <-])|(e & H3 & ->)];
    apply (mark_queued_inv _ _ _ _ _ _ row) in H3; try done.
  - destruct H3 as [(_ & Hc & ->)|(e & [=] & _)]. right. eexists. split; [done|].
    eapply (dispatches_published id _ _ row event); eauto. by split.
  - left. exists e. split; [done|]. right. exists row, event.
    by destruct H3 as [([=] & _)|(e' & _ & ->)].
Qed.

Lemma atomically_dispatch_inv id w o w' :
  atomically (dispatch_body id) w = (o, w') →
  dispatches id (w_db w) (w_redis w) o (w_db w') (w_redis w').
Proof.
  intros [(a & w1 & H1 & -> & Ho)|(e & o1 & w1 & -> & H1 & Hw)]%atomically_inv;
    apply dispatch_body_inv in H1.
  - destruct H1 as [(e & [=] & _)|(x & [= <-] & Hd)].
    destruct Ho as [->|[e ->]]; [done|]. cbn.
    inversion Hd as [| |row event t o' ???? Ho| |]; subst; try by constructor.
    eapply dispatches_published; eauto.
  - assert (w_db w' = w_db w ∧ w_redis w' = w_redis w1) as [-> ->]
      by by destruct Hw as [-> | ->].
    destruct H1 as [(e' & -> & [->|(row & event & ? & ? & ? & ->)])|(x & -> & Hd)].
    + constructor.
    + by eapply dispatches_undone.
    + inversion Hd; subst; try by constructor. by eapply dispatches_undone.
Qed.

Lemma dispatch_event_inv id w o w' :
  dispatch_event id w = (o, w') →
  dispatches id (w_db (after_others w)) (w_redis (after_others w)) o (w_db w') (w_redis w').
Proof.
  unfold dispatch_event. rewrite transaction_eq. fold (dispatch_body id).
  apply atomically_dispatch_inv.
Qed.

(** *** Properties of the database a dispatch keeps *)

Definition receipt_keeps (P : DB → Prop) : Prop :=
  ∀ i m t r d, deliverable d i r → er_queue_message_id r = None →
    event_check (with_receipt m t r) = Ok () → P d →
    P (set_events (<[i := with_receipt m t r]> (events d)) d).

Lemma keeps_dispatch_event P id :
  others_keep P → receipt_keeps P → keeps (λ w, P (w_db w)) (dispatch_event id).
Proof.
  intros Ho Hr w o w' Hd%dispatch_event_inv HP. apply (Ho (w_tick w) _ (w_redis w)) in HP.
  inversion Hd as [| |row ? t ? Hrow Hm Hv ? Hc _| |]; subst; try done.
  cbn. by apply Hr.
Qed.

Lemma keeps_dispatch_pending P limit :
  others_keep P → receipt_keeps P → keeps (λ w, P (w_db w)) (dispatch_pending limit).
Proof.
  intros Ho Hr. apply keeps_bind.
  - apply keeps_sql. intros d ids d' [= _ <-]. done.
  - intros ids. apply keeps_bind; [|intros; apply keeps_ret].
    apply keeps_for. intros i _. by apply keeps_dispatch_event.
Qed.

Lemma keeps_outbox_round P :
  others_keep P → receipt_keeps P → keeps (λ w, P (w_db w)) outbox_round.
Proof.
  intros Ho Hr. apply keeps_try; [|intros; apply keeps_ret].
  apply keeps_bind; [by apply keeps_dispatch_pending|intros; apply keeps_ret].
Qed.

Lemma receipt_keeps_db_ok : receipt_keeps db_ok.
Proof.
  intros i m t r d [Hi _] _ Hc. eapply update_event_ok. unfold update_event. by rewrite Hi, Hc.
Qed.

(** *** Delivery without faults *)

Definition awaiting (d : DB) : gmap uuid EventRow :=
  filter (λ kv, awaiting_queue kv.2) (events d).

(** Every deliverable row holds a valid event. *)
Definition payloads_valid (d : DB) : Prop :=
  ∀ i r, deliverable d i r →
    ∃ event, model_validate_event (default JNull (er_payload r)) = Ok event.

Definition outbox_ready (d : DB) : Prop := db_ok d ∧ payloads_valid d.

Lemma awaiting_lookup d i r :
  awaiting d !! i = Some r ↔ deliverable d i r ∧ er_queued_at r = None.
Proof.
  unfold awaiting, deliverable, awaiting_queue. rewrite map_lookup_filter_Some. cbn. tauto.
Qed.

Lemma receipt_check m t r : event_check r = Ok () → event_check (with_receipt m t r) = Ok ().
Proof. rewrite !event_check_Ok. by intros (? & ? & ? & ? & _). Qed.

Lemma awaiting_no_receipt d i r :
  db_ok d → awaiting d !! i = Some r → er_queue_message_id r = None.
Proof.
  intros Hok [[Hi _] Hn]%awaiting_lookup. apply (ok_events d Hok) in Hi.
  apply event_check_Ok in Hi as (_ & _ & _ & _ & Hp). unfold events_queue_state_paired in Hp.
  rewrite Hn in Hp. by destruct (er_queue_message_id r).
Qed.

Lemma ready_receipt d i r m t :
  outbox_ready d → deliverable d i r →
  outbox_ready (set_events (<[i := with_receipt m t r]> (events d)) d).
Proof.
  intros [Hok Hp] Hd. split.
  - eapply (update_event_ok i (with_receipt m t)); [|done]. unfold update_event.
    destruct Hd as [Hi _]. rewrite Hi, receipt_check; [done|by eapply ok_events].
  - intros j s [Hj Hq]. cbn in Hj.
    apply lookup_insert_Some in Hj as [[<- <-]|[_ Hj]]; [exact (Hp i r Hd)|by apply (Hp j)].
Qed.

Lemma awaiting_receipt d i r m t :
  awaiting (set_events (<[i := with_receipt m t r]> (events d)) d) = delete i (awaiting d).
Proof.
  unfold awaiting. cbn. rewrite map_filter_insert_False by (by intros [_ ?]).
  by rewrite map_filter_delete.
Qed.

Context (Hquiet : ∀ n, env_fault n = FOk) (Halone : ∀ n d r, others n d r = (d, r)).

Lemma after_others_alone w : after_others w = w.
Proof. unfold after_others. rewrite Halone. by destruct w. Qed.

Lemma event_for_queue_Ok id w row event :
  deliverable (w_db w) id row →
  model_validate_event (default JNull (er_payload row)) = Ok event →
  event_for_queue id w = (Ok (Some (event, er_queue_message_id row)), next_tick w).
Proof.
  intros [Hr Hq] Hv. unfold event_for_queue, mbind'.
  erewrite sql_Ok; [|done|reflexivity]. rewrite Hr, Hq. unfold lift. rewrite Hv.
  by destruct w.
Qed.

(** One pending event is published and receipted. *)
Lemma dispatch_publishes id w row event :
  db_ok (w_db w) → awaiting (w_db w) !! id = Some row →
  model_validate_event (default JNull (er_payload row)) = Ok event →
  let m := (xadd (dumps (event_json event)) (w_redis w)).1 in
  ∃ w' t, dispatch_event id w = (Ok (Some m), w') ∧
    w_db w' = set_events (<[id := with_receipt m t row]> (events (w_db w))) (w_db w) ∧
    w_redis w' = (xadd (dumps (event_json event)) (w_redis w)).2.
Proof.
  intros Hok Ha Hv m. pose proof (awaiting_no_receipt _ _ _ Hok Ha) as Hm.
  apply awaiting_lookup in Ha as [Hd _].
  unfold dispatch_event. rewrite transaction_eq, after_others_alone. fold (dispatch_body id).
  assert (∃ t w', dispatch_body id w = (Ok (Some m), w') ∧
    w_db w' = set_events (<[id := with_receipt m t row]> (events (w_db w))) (w_db w) ∧
    w_redis w' = (xadd (dumps (event_json event)) (w_redis w)).2)
    as (t & w' & Hb & Hdb & Hr).
  { unfold dispatch_body, mbind'. rewrite (event_for_queue_Ok _ _ _ _ Hd Hv), Hm.
    unfold publish. erewrite redis_call_Ok; [|done|].
    2: { cbn. f_equal. apply surjective_pairing. }
    unfold now, mark_queued. erewrite sql_Ok; [|done|].
    2: { unfold set_receipt, update_event. cbn. destruct Hd as [Hi _]. rewrite Hi.
         rewrite decide_True, receipt_check by (by eauto using ok_events). reflexivity. }
    do 2 eexists. split; [reflexivity|]. done. }
  exists (next_tick w'), t. split; [|by split].
  unfold atomically. by rewrite Hb, Hquiet.
Qed.

Lemma dispatch_delivers id w row :
  outbox_ready (w_db w) → awaiting (w_db w) !! id = Some row →
  ∃ w' m t v, dispatch_event id w = (Ok (Some m), w') ∧
    w_db w' = set_events (<[id := with_receipt m t row]> (events (w_db w))) (w_db w) ∧
    w_redis w' = (xadd v (w_redis w)).2.
Proof.
  intros [Hok Hp] Ha. pose proof Ha as [Hd _]%awaiting_lookup.
  destruct (Hp _ _ Hd) as [event Hv].
  destruct (dispatch_publishes id w row event Hok Ha Hv) as (w' & t & H1 & H2 & H3).
  by exists w', (xadd (dumps (event_json event)) (w_redis w)).1, t, (dumps (event_json event)).
Qed.

Definition backlog w : nat := size (awaiting (w_db w)).
Definition stream_length w : nat := length (entries (w_redis w)).

(** Publishing [n] more entries: the unread part grows by as many. *)
Lemma xadd_lengths v (r : R) :
  Z.of_nat (length (entries r)) < MAX_STREAM_LENGTH →
  length (entries (xadd v r).2) = S (length (entries r)) ∧
  length (unread (xadd v r).2) = S (length (unread r)).
Proof.
  intros Hc. rewrite xadd_entries, xadd_unread, !length_app by done. cbn. lia.
Qed.

(** A property of worlds that each dispatch keeps while the stream has room. *)
Definition dispatch_closed (P : World R → Prop) : Prop :=
  (∀ w, P w → P (next_tick w)) ∧
  (∀ i w o w', Z.of_nat (stream_length w) < MAX_STREAM_LENGTH →
     dispatch_event i w = (o, w') → P w → P w').

Lemma dispatch_all P ids w :
  dispatch_closed P → P w → outbox_ready (w_db w) → NoDup ids → (∀ i, i ∈ ids → is_Some (awaiting (w_db w) !! i)) →
  Z.of_nat (stream_length w + length ids) <= MAX_STREAM_LENGTH →
  ∃ ms w', mfor ids dispatch_event w = (Ok ms, w') ∧ P w' ∧ outbox_ready (w_db w') ∧
    (backlog w' + length ids = backlog w)%nat ∧
    (stream_length w' = stream_length w + length ids)%nat ∧
    length (unread (w_redis w')) = (length (unread (w_redis w)) + length ids)%nat.
Proof.
  intros [HPt HP]. revert w.
  induction ids as [|i ids IH]; intros w Hw Hrdy Hnd Hin Hcap; cbn [length] in *.
  { exists [], w. cbn. repeat split; try apply Hrdy; try done; lia. }
  apply list.NoDup_cons in Hnd as [Hi Hnd].
  destruct (Hin i) as [row Hrow]; [by left|].
  destruct (dispatch_delivers i w row Hrdy Hrow) as (w1 & m & t & v & Hd & Hdb & Hr).
  destruct (xadd_lengths v (w_redis w)) as [He Hu]; [unfold stream_length in Hcap; lia|].
  assert (awaiting (w_db w1) = delete i (awaiting (w_db w))) as Haw
    by by rewrite Hdb, awaiting_receipt.
  destruct (IH w1) as (ms & w' & Hf & HP' & Hrdy' & Hb & Hs & Hl).
  - eapply HP; [|exact Hd|done]. lia.
  - rewrite Hdb. apply ready_receipt; [done|]. by apply awaiting_lookup in Hrow as [? _].
  - done.
  - intros j Hj. rewrite Haw, lookup_delete_ne; [apply Hin; by right|]. by intros ->.
  - unfold stream_length in *. rewrite Hr, He. lia.
  - exists (Some m :: ms), w'. cbn. unfold mbind'. rewrite Hd, Hf. split; [done|].
    do 2 (split; [done|]). unfold backlog, stream_length in *. rewrite Haw in Hb.
    assert (size (awaiting (w_db w)) ≠ 0%nat) as Hne.
    { intros He0. apply map_size_empty_iff in He0. by rewrite He0, lookup_empty in Hrow. }
    rewrite map_size_delete_Some in Hb by eauto. rewrite Hs, Hl, Hr, He, Hu. lia.
Qed.

Lemma dispatch_pending_quiet P limit w :
  dispatch_closed P → P w → outbox_ready (w_db w) →
  Z.of_nat (stream_length w + Nat.min limit (backlog w)) <= MAX_STREAM_LENGTH →
  ∃ w', dispatch_pending limit w = (Ok (Z.of_nat (Nat.min limit (backlog w))), w') ∧
    P w' ∧ outbox_ready (w_db w') ∧ backlog w' = (backlog w - limit)%nat ∧
    stream_length w' = (stream_length w + Nat.min limit (backlog w))%nat ∧
    length (unread (w_redis w')) =
      (length (unread (w_redis w)) + Nat.min limit (backlog w))%nat.
Proof.
  intros HP Hw Hrdy Hcap. unfold dispatch_pending, mbind'.
  destruct (pending_queue_event_ids limit w) as [[ids|e] w1] eqn:Hq.
  2: { exfalso. revert Hq. unfold pending_queue_event_ids, sql. by rewrite Hquiet. }
  assert (w1 = next_tick w) as ->.
  { apply sql_inv in Hq as [(? & ? & _ & [= _ <-] & ->)|(? & [=] & _)]. by destruct w. }
  destruct (pending_ids_facts limit w ids _ Hq) as (Hnd & Hlen & Hin).
  change (filter _ (events (w_db w))) with (awaiting (w_db w)) in *.
  fold (backlog w) in Hlen.
  destruct (dispatch_all P ids (next_tick w)) as (ms & w' & Hf & HP' & Hrdy' & Hb & Hs & Hl);
    try done.
  { by apply HP. }
  { rewrite Hlen. exact Hcap. }
  exists w'. rewrite Hf, Hlen. do 3 (split; [done|]).
  change (backlog (next_tick w)) with (backlog w) in Hb.
  change (stream_length (next_tick w)) with (stream_length w) in Hs.
  change (w_redis (next_tick w)) with (w_redis w) in Hl. rewrite Hlen in *. lia.
Qed.

Lemma outbox_rounds_quiet P k w :
  dispatch_closed P → P w → outbox_ready (w_db w) → (backlog w ≤ 100 * k)%nat →
  Z.of_nat (stream_length w + backlog w) <= MAX_STREAM_LENGTH →
  ∃ w', outbox_rounds k w = (Ok (), w') ∧ P w' ∧ backlog w' = 0%nat ∧
    length (unread (w_redis w')) = (length (unread (w_redis w)) + backlog w)%nat.
Proof.
  intros HP. revert w. induction k as [|k IH]; intros w Hw Hrdy Hk Hcap; cbn [outbox_rounds].
  { exists w. split; [done|]. split; [done|]. lia. }
  destruct (dispatch_pending_quiet P 100 w HP Hw Hrdy) as (w1 & Hd & Hw1 & Hrdy1 & Hb & Hs & Hl);
    [lia|].
  destruct (IH w1) as (w' & Hr & HP' & Hb' & Hl'); [done|done|lia..|].
  exists w'. unfold mbind' at 1, outbox_round, mtry, mbind'. rewrite Hd.
  unfold mret' at 1. rewrite Hr.
  do 3 (split; [done|]). lia.
Qed.
End dispatch.

(** ** Claims *)

Section claims.
Context {R : Type} `{!Env, !Others R, !Pydantic, !RedisStreams R}.
Implicit Types w : World R.

(** C7. A dispatch refines its specification under every fault schedule and
    whatever the other tasks did before its transaction: a receipt is stored
    only together with the entry it names, a row with a receipt is not
    published again, and a failure leaves the row pending.  The one case in
    which the entry and the receipt part is the last but one of [dispatches]:
    XADD took effect and the transaction did not commit, so the event will be
    published again. *)
Theorem dispatch_refines id w o w' :
  dispatch_event id w = (o, w') →
  dispatches id (w_db (after_others w)) (w_redis (after_others w)) o (w_db w') (w_redis w').
Proof. apply dispatch_event_inv. Qed.

(** Once an event has its receipt, dispatching it again publishes nothing:
    whatever the faults, the stream and the database stay as they are, and a
    dispatch that returns gives the recorded message id. *)
Theorem dispatch_receipt_final id w o w' row m :
  deliverable (w_db (after_others w)) id row → er_queue_message_id row = Some m →
  dispatch_event id w = (o, w') →
  w_db w' = w_db (after_others w) ∧ w_redis w' = w_redis (after_others w) ∧
  (o = Ok (Some m) ∨ ∃ e, o = Raise e).
Proof.
  intros [Hi Hq] Hm Hd%dispatch_event_inv.
  assert (∀ row', deliverable (w_db (after_others w)) id row' → row' = row) as Hu.
  { intros row' [Hi' _]. congruence. }
  inversion Hd as [Hno|row' ? m' Hd' Hm'|row' ? ? ? Hd' Hm'|row' ? ? Hd' Hm'|e]; subst;
    try (apply Hu in Hd' as ->); try congruence; [by destruct (Hno row)| |by eauto].
  split; [done|]. split; [done|]. left. congruence.
Qed.

(** C18. The outbox drains: without faults, with the process to itself and with
    room in the stream for the backlog, a backlog of at most 100 events a round is gone after that many rounds, and
    the stream grew by exactly one entry for each event of the backlog. *)
Theorem outbox_drains k w :
  (∀ n, env_fault n = FOk) → (∀ n d r, others n d r = (d, r)) →
  db_ok (w_db w) → payloads_valid (w_db w) →
  (backlog w ≤ 100 * k)%nat →
  Z.of_nat (stream_length w + backlog w) <= MAX_STREAM_LENGTH →
  ∃ w', outbox_rounds k w = (Ok (), w') ∧ backlog w' = 0%nat ∧
    length (unread (w_redis w')) = (length (unread (w_redis w)) + backlog w)%nat.
Proof.
  intros Hq Ha Hok Hp Hk Hcap.
  destruct (outbox_rounds_quiet Hq Ha (λ _, True) k w) as (w' & Hr & _ & Hw'); [done..|].
  by exists w'.
Qed.

(** A round never ends the dispatcher: whatever the faults, short of
    cancellation it returns a pause (none after work, 250 ms when idle, 1 s
    after a failure), and the schema's invariants hold if the other tasks
    keep them. *)
Theorem outbox_round_survives w o w' :
  others_keep db_ok → db_ok (w_db w) → outbox_round w = (o, w') →
  db_ok (w_db w') ∧ (o = Raise CancelledError ∨ ∃ ms, o = Ok ms ∧ ms ∈ [0; IDLE_MS; RETRY_MS]).
Proof.
  intros Ho Hok Hr. split.
  - by eapply (keeps_outbox_round db_ok Ho receipt_keeps_db_ok).
  - revert Hr. unfold outbox_round, mtry, mbind'. destruct (dispatch_pending 100 w) as [[n|e] w1].
    + intros [= <- <-]. right. eexists. split; [done|]. destruct (n =? 0); set_solver.
    + destruct (is_Exception e) eqn:He; intros [= <- <-]; [right|left; by destruct e].
      eexists. split; [done|]. set_solver.
Qed.
End claims.

(** ** Witnesses *)

Section witnesses.
#[local] Existing Instance quiet.
#[local] Existing Instance solo.
#[local] Existing Instance strict_pydantic.

Lemma dispatch_refines_witness :
  let w := with_db one_event_db in
  let p := dispatch_event 7%N w in
  p.1 = Ok (Some "1") ∧
  dispatches 7%N (w_db (after_others w)) (w_redis (after_others w)) p.1 (w_db p.2) (w_redis p.2).
Proof.
  intros w p. split; [vm_compute; reflexivity|].
  exact (dispatch_refines 7%N w p.1 p.2 (surjective_pairing p)).
Defined.

Definition receipted_row : EventRow := with_receipt "1" 1785090600000000 (admitted_row sample_event).
Definition receipted_db : DB := set_events {[ 7%N := receipted_row ]} empty_db.

Lemma dispatch_receipt_final_witness :
  let w := with_db receipted_db in
  let p := dispatch_event 7%N w in
  w_redis p.2 = empty_stream ∧ (p.1 = Ok (Some "1") ∨ ∃ e, p.1 = Raise e).
Proof.
  intros w p.
  destruct (dispatch_receipt_final 7%N w p.1 p.2 receipted_row "1") as (_ & Hr & Ho).
  - split; [|reflexivity].
    change (({[ 7%N := receipted_row ]} : gmap uuid EventRow) !! 7%N = Some receipted_row).
    apply lookup_singleton_eq.
  - reflexivity.
  - apply surjective_pairing.
  - split; [exact Hr|exact Ho].
Defined.

Lemma one_event_payloads : payloads_valid one_event_db.
Proof.
  intros i r [Hi _]. change (({[ 7%N := admitted_row sample_event ]} : gmap uuid EventRow) !! i
    = Some r) in Hi.
  apply lookup_singleton_Some in Hi as [_ <-]. exists sample_event. vm_compute. reflexivity.
Qed.

Lemma one_event_db_ok : db_ok one_event_db.
Proof.
  eapply (insert_event_ok 7%N (admitted_row sample_event) empty_db); [|apply empty_db_ok].
  vm_compute. reflexivity.
Qed.

Lemma outbox_drains_witness :
  ∃ w', outbox_rounds 1 (with_db one_event_db) = (Ok (), w') ∧ backlog w' = 0%nat ∧
    length (unread (w_redis w')) = 1%nat.
Proof.
  destruct (outbox_drains 1 (with_db one_event_db)) as (w' & Hr & Hb & Hl).
  - done.
  - done.
  - exact one_event_db_ok.
  - exact one_event_payloads.
  - vm_compute. lia.
  - vm_compute. discriminate.
  - exists w'. split; [exact Hr|]. split; [exact Hb|]. rewrite Hl. vm_compute. reflexivity.
Defined.
End witnesses.

Lemma outbox_round_survives_witness :
  let p := @outbox_round ListStream (faulty 2 FErr) solo strict_pydantic list_streams
             (with_db one_event_db) in
  p.1 = Ok RETRY_MS ∧ db_ok (w_db p.2).
Proof.
  intros p. split; [vm_compute; reflexivity|].
  destruct (@outbox_round_survives ListStream (faulty 2 FErr) solo strict_pydantic list_streams
    (with_db one_event_db) p.1 p.2) as [Hok _].
  - intros n d r Hd. exact Hd.
  - exact one_event_db_ok.
  - apply surjective_pairing.
  - exact Hok.
Defined.
