(* ===== verification/Actions.v ===== *)
(** * Deterministic actions (actions/service.py) *)

From S2P Require Import Prelude PyStr Json PyTime Contracts Wire Database World Samples.
From S2P Require Import Repository.

Open Scope Z_scope.

Record TicketOutcome := mkTicketOutcome {
  to_ticket_id : uuid;
  to_external_id : string;
  to_created : bool;
  to_update_count : Z;
  to_replayed : bool;
}.

Record RunClaim := mkRunClaim {
  rc_status : string;
  rc_conclusion_status : option string;
}.

(** ** Statements *)

(** [SELECT run_id FROM runs WHERE run_id = :run_id FOR UPDATE] *)
Definition lock_run (run_id : uuid) (d : DB) : result exn (option uuid * DB) :=
  Ok ((λ _, run_id) <$> runs d !! run_id, d).

Definition select_action (run_id : uuid) (d : DB) : result exn (option ActionRow * DB) :=
  Ok (ticket_actions d !! run_id, d).

Definition bump_update (r : TicketRow) : TicketRow :=
  mkTicketRow (tk_fingerprint r) (tk_provider r) (tk_external_id r) (tk_url r)
    (tk_created_at r) (tk_closed_at r) (tk_update_count r + 1).

(** [UPDATE tickets SET update_count = update_count + 1 WHERE fingerprint =
    :fingerprint AND closed_at IS NULL RETURNING ...]: the partial unique index
    leaves at most one such row, and the first returned row is read. *)
Definition comment_open_ticket (fp : string) (d : DB) :
    result exn (option (uuid * TicketRow) * DB) :=
  match map_to_list (open_tickets fp (tickets d)) with
  | [] => Ok (None, d)
  | (id, r) :: _ =>
      let? d' := update_ticket id bump_update d in Ok (Some (id, bump_update r), d')
  end.

Definition opened_ticket (fp external_id : string) (t : Z) : TicketRow :=
  mkTicketRow fp "fixture" external_id None t None 0.

(** The three statements of [open_run] and the one of [close_run]. *)
Definition running_row (event_id : uuid) (fp file : string) (offset started_at : Z) : RunRow :=
  mkRunRow fp "running" started_at file offset None (Some event_id) None None.

Definition repoint (file : string) (offset started_at : Z) (r : RunRow) : RunRow :=
  mkRunRow (rn_fingerprint r) (rn_status r) started_at file offset (rn_audit_end_offset r)
    (rn_event_id r) (rn_conclusion r) (rn_finished_at r).

(** [UPDATE runs SET audit_log_file, audit_start_offset, started_at WHERE
    run_id = :run_id AND status = 'running'] *)
Definition repoint_running (run_id : uuid) (file : string) (offset started_at : Z) (d : DB) :
    result exn DB :=
  match runs d !! run_id with
  | Some r =>
      if decide (rn_status r = "running") then update_run run_id (repoint file offset started_at) d
      else Ok d
  | None => Ok d
  end.

(** [conclusion ->> 'status'] *)
Definition conclusion_status (o : option json) : option string :=
  match o with
  | Some (JObj fields) =>
      match dget "status" fields with
      | Some (JStr s) => Some s
      | _ => None
      end
  | _ => None
  end.

Definition finished (status : string) (conclusion : option json) (finished_at end_offset : Z)
    (r : RunRow) : RunRow :=
  mkRunRow (rn_fingerprint r) status (rn_started_at r) (rn_audit_log_file r)
    (rn_audit_start_offset r) (Some end_offset) (rn_event_id r) conclusion (Some finished_at).

(** [f"SMOKE-{fingerprint[:8].upper()}"] *)
Definition external_id_of (fp : string) : string := "SMOKE-" +:+ upper (take_chars 8 fp).

Section actions.
Context {R : Type} `{!Env, !Pydantic}.

(** The ticket write of [apply]: create, or comment on the open one. *)
Definition write_ticket (fp : string) (moment : Z) : M R TicketOutcome :=
  do! ticket_id := uuid4 in
  let external_id := external_id_of fp in
  do! inserted := sql (insert_ticket_on_conflict ticket_id
                         (opened_ticket fp external_id moment)) in
  if (inserted : bool) then mret' (mkTicketOutcome ticket_id external_id true 0 false)
  else
    do! updated := sql (comment_open_ticket fp) in
    match updated with
    | None =>
        mraise (RuntimeError ("no open ticket for " +:+ fp +:+ " after a conflicting insert"))
    | Some (id, r) =>
        mret' (mkTicketOutcome id (tk_external_id r) false (tk_update_count r) false)
    end.

(** [apply(connection, conclusion)] *)
Definition apply_conclusion (conclusion : Conclusion) : M R TicketOutcome :=
  let run_id := co_run_id conclusion in
  let fp := co_fingerprint conclusion in
  do! moment := now in
  do! locked := sql (lock_run run_id) in
  match locked with
  | None => mraise (RuntimeError ("run " +:+ uuid_str run_id +:+ " must exist before Actions"))
  | Some _ =>
      do! prior := sql (select_action run_id) in
      match prior with
      | Some p =>
          mret' (mkTicketOutcome (ta_ticket_id p) (ta_external_id p) (ta_created p)
                   (ta_update_count p) true)
      | None =>
          do! outcome := write_ticket fp (dt_us moment) in
          do! _ := sql (λ d, let? d' := insert_action run_id
              (mkActionRow fp (to_ticket_id outcome) (to_external_id outcome)
                 (to_created outcome) (to_update_count outcome) (dt_us moment)) d in
            Ok ((), d')) in
          mret' outcome
      end
  end.

Definition open_run (run_id event_id : uuid) (fp file : string) (offset : Z)
    (started_at : datetime) : M R RunClaim :=
  let t := dt_us started_at in
  do! _ := sql (λ d, let? d' := insert_run_on_conflict run_id
                       (running_row event_id fp file offset t) d in Ok ((), d')) in
  do! _ := sql (λ d, let? d' := repoint_running run_id file offset t d in Ok ((), d')) in
  do! row := sql (λ d, Ok (runs d !! run_id, d)) in
  match row with
  | None => mraise (LookupError "no row was found when one was required")
  | Some r => mret' (mkRunClaim (rn_status r) (conclusion_status (rn_conclusion r)))
  end.

Definition close_run (run_id : uuid) (status : string) (conclusion : option Conclusion)
    (audit_end_offset : Z) : M R () :=
  do! finished_at := now in
  sql (λ d, let? d' := update_run run_id
              (finished status (conclusion_json <$> conclusion) (dt_us finished_at)
                 audit_end_offset) d in Ok ((), d')).
End actions.

(** ** What an action promises

    One conclusion against the ledger and the tickets: the recorded outcome
    again, a new ticket when the fingerprint has none open, or one more update
    on the open one. *)

Definition with_action (c : Conclusion) (t : Z) (o : TicketOutcome) (d : DB) : DB :=
  set_actions (<[co_run_id c := mkActionRow (co_fingerprint c) (to_ticket_id o)
    (to_external_id o) (to_created o) (to_update_count o) t]> (ticket_actions d)) d.

Inductive applies (c : Conclusion) (t : Z) (d : DB) : TicketOutcome → DB → Prop :=
| applies_replay p :
    is_Some (runs d !! co_run_id c) → ticket_actions d !! co_run_id c = Some p →
    applies c t d (mkTicketOutcome (ta_ticket_id p) (ta_external_id p) (ta_created p)
                     (ta_update_count p) true) d
| applies_open tid :
    is_Some (runs d !! co_run_id c) → ticket_actions d !! co_run_id c = None →
    open_tickets (co_fingerprint c) (tickets d) = ∅ → tickets d !! tid = None →
    let ext := external_id_of (co_fingerprint c) in
    let o := mkTicketOutcome tid ext true 0 false in
    applies c t d o
      (with_action c t o
         (set_tickets (<[tid := opened_ticket (co_fingerprint c) ext t]> (tickets d)) d))
| applies_comment tid r :
    is_Some (runs d !! co_run_id c) → ticket_actions d !! co_run_id c = None →
    tickets d !! tid = Some r → open_ticket (co_fingerprint c) r →
    ticket_check (bump_update r) = Ok () →
    let o := mkTicketOutcome tid (tk_external_id r) false (tk_update_count r + 1) false in
    applies c t d o (with_action c t o (set_tickets (<[tid := bump_update r]> (tickets d)) d)).

Section apply.
Context {R : Type} `{!Env, !Others R, !Pydantic}.
Implicit Types w : World R.

(** The ticket a new action leaves behind. *)
Lemma write_ticket_inv fp t w o w' :
  @write_ticket R _ fp t w = (Ok o, w') →
  (w_tick w < w_tick w')%nat ∧
  ((let tid := env_uuid (w_tick w) in
     o = mkTicketOutcome tid (external_id_of fp) true 0 false ∧
     open_tickets fp (tickets (w_db w)) = ∅ ∧ tickets (w_db w) !! tid = None ∧
     w_db w' = set_tickets (<[tid := opened_ticket fp (external_id_of fp) t]>
                 (tickets (w_db w))) (w_db w)) ∨
  (∃ tid r, o = mkTicketOutcome tid (tk_external_id r) false (tk_update_count r + 1) false ∧
     tickets (w_db w) !! tid = Some r ∧ open_ticket fp r ∧
     ticket_check (bump_update r) = Ok () ∧
     w_db w' = set_tickets (<[tid := bump_update r]> (tickets (w_db w))) (w_db w))).
Proof.
  intros (tid & w1 & [= <- <-] & (b & w2 & H1 & H2)%mbind_Ok)%mbind_Ok.
  apply sql_inv in H1 as [(? & d & [= <-] & Hd & ->)|(e & [=] & _)].
  unfold insert_ticket_on_conflict in Hd. cbn [w_db next_tick] in Hd. case_decide as Hopen.
  - injection Hd as <- <-.
    apply mbind_Ok in H2 as (u & w3 & H2 & H3).
    apply sql_inv in H2 as [(? & d & [= <-] & Hd & ->)|(e & [=] & _)].
    unfold comment_open_ticket in Hd. cbn in Hd.
    destruct (map_to_list _) as [|[id r] l] eqn:El; [by injection Hd as <- <-|].
    assert (open_tickets fp (tickets (w_db w)) !! id = Some r) as Hr.
    { apply elem_of_map_to_list. rewrite El. by left. }
    apply map_lookup_filter_Some in Hr as [Hr Ho]. unfold update_ticket in Hd.
    rewrite Hr in Hd. apply rbind_Ok in Hd as (d' & Hd & [= <- <-]).
    apply rbind_Ok in Hd as ([] & Hc & [= <-]). injection H3 as <- <-.
    split; [cbn; lia|]. right. exists id, r. done.
  - destruct (tickets (w_db w) !! _) eqn:Ht; [done|].
    apply rbind_Ok in Hd as ([] & Hc & [= <- <-]). injection H2 as <- <-.
    split; [cbn; lia|]. left. split; [done|]. split; [|done].
    destruct (decide (open_tickets fp (tickets (w_db w)) = ∅)); [done|]. by destruct Hopen.
Qed.

(** What a step of the process did to the tickets: nothing, one more under an
    id drawn in between, or one more update of one of them. *)
Definition ticket_step w w' : Prop :=
  (w_tick w ≤ w_tick w')%nat ∧
  (tickets (w_db w') = tickets (w_db w) ∨
   (∃ n fp ext t, (w_tick w ≤ n < w_tick w')%nat ∧
      tickets (w_db w') = <[env_uuid n := opened_ticket fp ext t]> (tickets (w_db w))) ∨
   (∃ tid r, tickets (w_db w) !! tid = Some r ∧ int4 (tk_update_count r + 1) = true ∧
      tickets (w_db w') = <[tid := bump_update r]> (tickets (w_db w)))).

Lemma apply_inv_step c w o w' :
  @apply_conclusion R _ c w = (Ok o, w') →
  (∃ t, applies c t (w_db w) o (w_db w')) ∧ ticket_step w w'.
Proof.
  intros (m & w1 & [= <- <-] & (l & w2 & H1 & H2)%mbind_Ok)%mbind_Ok.
  set (t := env_now (w_tick w)) in *.
  apply sql_inv in H1 as [(? & d & [= <-] & [= <- <-] & ->)|(e & [=] & _)].
  cbn in H2. destruct (runs (w_db w) !! co_run_id c) eqn:Hrun; [|done].
  apply mbind_Ok in H2 as (p & w3 & H2 & H3).
  apply sql_inv in H2 as [(? & d & [= <-] & [= <- <-] & ->)|(e & [=] & _)]. cbn in H3.
  destruct (ticket_actions (w_db w) !! co_run_id c) as [p|] eqn:Hp.
  { injection H3 as <- <-. split; [exists t; by constructor|]. split; [cbn; lia|by left]. }
  apply mbind_Ok in H3 as (out & w4 & H3 & (u & w5 & H4 & [= <- <-])%mbind_Ok).
  apply sql_inv in H4 as [(? & d & [= <-] & Hd & ->)|(e & [=] & _)].
  apply rbind_Ok in Hd as (d' & Hd & [= <- <-]).
  assert (d' = with_action c t out (w_db w4)) as ->.
  { unfold insert_action in Hd. repeat case_match; try done. by injection Hd as <-. }
  cbn [w_db put_db]. clear Hd. apply write_ticket_inv in H3 as
    [Htick [(-> & Hn & Ht & Hd4)|(tid & tr & -> & Hr & Ho & Hc & Hd4)]]; cbn in Htick.
  - split; [exists t; rewrite Hd4; by apply applies_open|]. split; [cbn; lia|]. right; left.
    eexists _, _, _, _. cbn. rewrite Hd4. split; [|reflexivity]. cbn. lia.
  - split; [exists t; rewrite Hd4; by apply applies_comment|]. split; [cbn; lia|]. right; right.
    exists tid, tr. cbn. rewrite Hd4. split; [done|]. split; [|done]. unfold ticket_check in Hc.
    cbn in Hc. by destruct (int4 (tk_update_count tr + 1)).
Qed.

Lemma apply_inv c w o w' :
  @apply_conclusion R _ c w = (Ok o, w') → ∃ t, applies c t (w_db w) o (w_db w').
Proof. by intros [Ha _]%apply_inv_step. Qed.


Lemma transaction_apply_inv c w o w' :
  atomically (apply_conclusion c) w = (o, w') →
  (∃ out t, applies c t (w_db w) out (w_db w') ∧ (o = Ok out ∨ ∃ e, o = Raise e)) ∨
  (∃ e, o = Raise e ∧ w_db w' = w_db w).
Proof.
  intros [(a & w1 & H1 & -> & Ho)|(e & o1 & w1 & -> & H1 & Hw)]%atomically_inv.
  - left. apply apply_inv in H1 as [t Ht]. by exists a, t.
  - right. exists e. split; [done|]. by destruct Hw as [-> | ->].
Qed.
End apply.

(** ** The ledger

    [ticket_actions] accounts for the tickets: each ticket was opened by one
    recorded action, and its counter is the number of actions that updated it. *)

Definition acount (tid : uuid) (cr : bool) (m : gmap uuid ActionRow) : Z :=
  msum (λ a, if decide (ta_ticket_id a = tid ∧ ta_created a = cr) then 1 else 0) m.

Record ledger (d : DB) : Prop := {
  led_counts : ∀ tid r, tickets d !! tid = Some r →
    tk_update_count r = acount tid false (ticket_actions d) ∧
    acount tid true (ticket_actions d) = 1;
  led_names : ∀ run a, ticket_actions d !! run = Some a →
    ∃ r, tickets d !! ta_ticket_id a = Some r ∧ tk_fingerprint r = ta_fingerprint a ∧
         tk_external_id r = ta_external_id a;
}.

Lemma acount_insert tid cr m run a :
  m !! run = None →
  acount tid cr (<[run := a]> m) =
  (if decide (ta_ticket_id a = tid ∧ ta_created a = cr) then 1 else 0) + acount tid cr m.
Proof. intros Hn. unfold acount. by rewrite msum_insert_new. Qed.

Lemma acount_absent d tid cr :
  db_ok d → tickets d !! tid = None → acount tid cr (ticket_actions d) = 0.
Proof.
  intros Hok Hn. unfold acount. rewrite (msum_ext _ (λ _, 0)).
  - induction (ticket_actions d) as [|i x m Hi IH] using map_ind; [by rewrite msum_empty|].
    by rewrite msum_insert_new, IH.
  - intros i a Ha. rewrite decide_False; [done|]. intros [Ht _].
    apply (ok_action_ticket d Hok) in Ha as [r Hr]. congruence.
Qed.

Lemma empty_ledger : ledger empty_db.
Proof. split; intros *; cbn; by rewrite lookup_empty. Qed.

Lemma with_action_ok c t o d :
  is_Some (runs d !! co_run_id c) → ticket_actions d !! co_run_id c = None →
  is_Some (tickets d !! to_ticket_id o) → int4 (to_update_count o) = true →
  db_ok d → db_ok (with_action c t o d).
Proof.
  intros [r Hr] Ha [k Hk] Hc. apply (insert_action_ok (co_run_id c)
    (mkActionRow (co_fingerprint c) (to_ticket_id o) (to_external_id o) (to_created o)
       (to_update_count o) t)).
  unfold insert_action. cbn. by rewrite Ha, Hr, Hk, Hc.
Qed.

Lemma applies_ok c t d o d' : applies c t d o d' → db_ok d → db_ok d'.
Proof.
  intros [p _ _|tid Hrun Ha Hno Ht|tid r Hrun Ha Hr Ho Hc] Hok; [done|..].
  - apply with_action_ok; [done|done|cbn; rewrite lookup_insert_eq; by eauto|done|].
    apply (insert_ticket_ok tid (opened_ticket (co_fingerprint c) ext t) d true); [|done].
    unfold insert_ticket_on_conflict. rewrite decide_False by (cbn; naive_solver).
    by rewrite Ht.
  - apply with_action_ok; [done|done|cbn; rewrite lookup_insert_eq; by eauto| |].
    + unfold ticket_check in Hc. cbn in *. by destruct (int4 (tk_update_count r + 1)).
    + apply (update_ticket_ok tid bump_update d); [done| |done].
      unfold update_ticket. by rewrite Hr, Hc.
Qed.

Lemma applies_ledger c t d o d' : applies c t d o d' → db_ok d → ledger d → ledger d'.
Proof.
  intros Happ Hok [Hct Hnm]. destruct Happ as [p _ _|tid Hrun Ha Hno Ht|tid r Hrun Ha Hr Ho Hc];
    [done|..]; unfold with_action.
  - split; cbn.
    + intros i s [[<- <-]|[Hi Hs]]%lookup_insert_Some; rewrite !acount_insert by done; cbn.
      * rewrite decide_False by naive_solver. rewrite decide_True by done.
        by rewrite !(acount_absent d) by done.
      * rewrite !decide_False by naive_solver. by apply Hct.
    + intros run a [[<- <-]|[_ Hx]]%lookup_insert_Some.
      * cbn. rewrite lookup_insert_eq. by eexists.
      * destruct (Hnm run a Hx) as (s & Hs & ?). exists s.
        rewrite lookup_insert_ne; [done|congruence].
  - split; cbn.
    + intros i s [[<- <-]|[Hi Hs]]%lookup_insert_Some; rewrite !acount_insert by done; cbn.
      * rewrite decide_True by done. rewrite decide_False by naive_solver.
        destruct (Hct tid r Hr). lia.
      * rewrite !decide_False by naive_solver. by apply Hct.
    + intros run a [[<- <-]|[_ Hx]]%lookup_insert_Some.
      * cbn. rewrite lookup_insert_eq. eexists. split; [done|]. cbn. by destruct Ho.
      * destruct (Hnm run a Hx) as (s & Hs & Hn).
        destruct (decide (ta_ticket_id a = tid)) as [He|Hne].
        -- rewrite He, lookup_insert_eq. exists (bump_update r). split; [done|].
           assert (s = r) as -> by congruence. done.
        -- rewrite lookup_insert_ne by congruence. by exists s.
Qed.

(** Closing tickets keeps the accounts. *)
Lemma ledger_closed fp t d : ledger d → ledger (set_tickets (tickets_closed fp t (tickets d)) d).
Proof.
  intros [Hc Hn]. split; cbn.
  - intros tid r (s & <- & Hs)%lookup_fmap_Some. cbn. destruct (Hc tid s Hs).
    by case_decide.
  - intros run a Ha. destruct (Hn run a Ha) as (r & Hr & Hf & He). unfold tickets_closed.
    rewrite lookup_fmap, Hr. eexists. split; [done|]. cbn. by case_decide.
Qed.

(** ** Runs *)

(** The row [open_run] leaves for a run. *)
Definition claimed_row (event_id : uuid) (fp file : string) (offset t : Z) (old : option RunRow) :
    RunRow :=
  match old with
  | None => running_row event_id fp file offset t
  | Some r => if decide (rn_status r = "running") then repoint file offset t r else r
  end.

Section runs.
Context {R : Type} `{!Env, !Others R, !Pydantic}.
Implicit Types w : World R.

Lemma open_run_inv run event fp file offset t w c w' :
  @open_run R _ run event fp file offset t w = (Ok c, w') →
  let row := claimed_row event fp file offset (dt_us t) (runs (w_db w) !! run) in
  c = mkRunClaim (rn_status row) (conclusion_status (rn_conclusion row)) ∧
  w_db w' = set_runs (<[run := row]> (runs (w_db w))) (w_db w) ∧
  (db_ok (w_db w) → db_ok (w_db w')).
Proof.
  intros (u1 & w1 & H1 & (u2 & w2 & H2 & (row & w3 & H3 & H4)%mbind_Ok)%mbind_Ok)%mbind_Ok.
  apply sql_inv in H1 as [(? & ? & _ & (d1 & Hd1 & [= <- <-])%rbind_Ok & ->)|(e & [=] & _)].
  apply sql_inv in H2 as [(? & ? & _ & (d2 & Hd2 & [= <- <-])%rbind_Ok & ->)|(e & [=] & _)].
  apply sql_inv in H3 as [(? & ? & [= <-] & [= <- <-] & ->)|(e & [=] & _)].
  cbn in *. destruct (runs d2 !! run) as [r|] eqn:Hr; [|done]. injection H4 as <- <-. cbn.
  assert (db_ok (w_db w) → db_ok d2) as Hok.
  { intros Hok. apply insert_run_ok in Hd1; [|done]. revert Hd2. unfold repoint_running.
    case_match; [|naive_solver]. case_decide; [|naive_solver].
    intros Hu%update_run_ok; eauto. }
  assert (r = claimed_row event fp file offset (dt_us t) (runs (w_db w) !! run) ∧
    d2 = set_runs (<[run := r]> (runs (w_db w))) (w_db w)) as [<- ->]; [|done].
  clear Hok. unfold insert_run_on_conflict in Hd1. unfold repoint_running in Hd2.
  destruct (runs (w_db w) !! run) as [old|] eqn:Ho; cbn [claimed_row].
  - injection Hd1 as <-. rewrite Ho in Hd2. case_decide.
    + unfold update_run in Hd2. rewrite Ho in Hd2.
      apply rbind_Ok in Hd2 as ([] & _ & [= <-]). cbn in Hr. rewrite lookup_insert_eq in Hr.
      by injection Hr as <-.
    + injection Hd2 as <-. rewrite Ho in Hr. injection Hr as <-. split; [done|].
      destruct (w_db w). unfold set_runs. cbn in *. by rewrite insert_id.
  - apply rbind_Ok in Hd1 as ([] & _ & [= <-]). cbn in Hd2.
    rewrite lookup_insert_eq, decide_True in Hd2 by done. unfold update_run in Hd2. cbn in Hd2.
    rewrite lookup_insert_eq in Hd2. apply rbind_Ok in Hd2 as ([] & _ & [= <-]). cbn in *.
    rewrite lookup_insert_eq in Hr. injection Hr as <-. unfold set_runs. cbn.
    by rewrite insert_insert_eq.
Qed.

Lemma close_run_inv run status c endo w u w' :
  @close_run R _ _ run status c endo w = (Ok u, w') →
  (runs (w_db w) !! run = None ∧ w_db w' = w_db w) ∨
  (∃ r t, runs (w_db w) !! run = Some r ∧
     let row := finished status (conclusion_json <$> c) t endo r in
     run_check row = Ok () ∧
     w_db w' = set_runs (<[run := row]> (runs (w_db w))) (w_db w)).
Proof.
  intros (t & w1 & [= <- <-] & H1)%mbind_Ok.
  apply sql_inv in H1 as [(? & ? & _ & (d1 & Hd1 & [= <- <-])%rbind_Ok & ->)|(e & [=] & _)].
  unfold update_run in Hd1. cbn in *. destruct (runs (w_db w) !! run) as [r|] eqn:Hr.
  - apply rbind_Ok in Hd1 as ([] & Hc & [= <-]). right. exists r. by eexists.
  - injection Hd1 as <-. by left.
Qed.
End runs.

(** ** What actions leave alone *)

Section frame.
Context {R : Type} `{!Env, !Others R, !Pydantic} (P : World R → Prop) (HP : ignores_db P).

Lemma keep_apply c : keeps P (apply_conclusion c).
Proof. unfold apply_conclusion, write_ticket. keep_steps. Qed.
Lemma keep_open_run run event fp file off t : keeps P (open_run run event fp file off t).
Proof. unfold open_run. keep_steps. Qed.
Lemma keep_close_run run status c off : keeps P (close_run run status c off).
Proof. unfold close_run. keep_steps. Qed.
End frame.

(** ** Actions without faults *)

Section quiet.
Context {R : Type} `{!Env, !Others R, !Pydantic} (Hquiet : ∀ n, env_fault n = FOk).
Implicit Types w : World R.

(** What the tables must offer for [k] actions to go through from the [n]-th
    call on: counters, those of new tickets included, at least [k] below the
    column's maximum, and ids still to be drawn that are new. *)
Record action_room (n : nat) (k : Z) (d : DB) : Prop := {
  room_new : k ≤ 2147483647;
  room_counts : ∀ i r, tickets d !! i = Some r → tk_update_count r + k ≤ 2147483647;
  room_ids : ∀ m, (n ≤ m)%nat → tickets d !! env_uuid m = None;
}.

Lemma action_room_mono n n' k k' d d' :
  (n ≤ n')%nat → k' ≤ k → tickets d' = tickets d → action_room n k d → action_room n' k' d'.
Proof.
  intros Hn Hk Ht [Hz Hc Hi]. split; rewrite ?Ht.
  - lia.
  - intros i r Hr. specialize (Hc i r Hr). lia.
  - intros m Hm. apply Hi. lia.
Qed.

Lemma write_ticket_quiet fp t w :
  db_ok (w_db w) → action_room (w_tick w) 1 (w_db w) →
  ∃ out w', @write_ticket R _ fp t w = (Ok out, w').
Proof.
  intros Hok [_ Hc Hid]. unfold write_ticket, mbind', uuid4.
  destruct (decide (open_tickets fp (tickets (w_db w)) = ∅)) as [He|Hne].
  - erewrite sql_Ok; [|done|].
    2: { unfold insert_ticket_on_conflict. cbn. rewrite decide_False by naive_solver.
         rewrite (Hid (w_tick w)) by lia. reflexivity. }
    by eauto.
  - erewrite sql_Ok; [|done|].
    2: { unfold insert_ticket_on_conflict. cbn. rewrite decide_True by done. reflexivity. }
    cbn. apply map_choose in Hne as (i & r & Hi).
    assert (∃ o d, comment_open_ticket fp (w_db w) = Ok (Some o, d)) as ([j s] & d & Hd).
    { unfold comment_open_ticket. destruct (map_to_list _) as [|[j s] l] eqn:El.
      { apply map_to_list_empty_iff in El. by rewrite El, lookup_empty in Hi. }
      assert (open_tickets fp (tickets (w_db w)) !! j = Some s) as Hs.
      { apply elem_of_map_to_list. rewrite El. by left. }
      apply map_lookup_filter_Some in Hs as [Hs _]. unfold update_ticket. rewrite Hs.
      pose proof (ok_tickets _ Hok _ _ Hs) as Hck. specialize (Hc _ _ Hs).
      unfold ticket_check, int4 in *. cbn.
      destruct (_ && _) eqn:E1 in Hck; [|done]. apply andb_prop in E1 as [E1 E2].
      assert ((-2147483648 <=? tk_update_count s + 1) && (tk_update_count s + 1 <=? 2147483647)
        = true) as -> by lia. by eauto. }
    erewrite sql_Ok; [|done|exact Hd]. by eauto.
Qed.

Lemma apply_quiet c w :
  db_ok (w_db w) → action_room (w_tick w) 1 (w_db w) → is_Some (runs (w_db w) !! co_run_id c) →
  ∃ out w', @apply_conclusion R _ c w = (Ok out, w').
Proof.
  intros Hok Hroom [r Hr]. unfold apply_conclusion, mbind', now.
  rewrite (sql_Ok _ _ (Some (co_run_id c)) (w_db w)); [|done|].
  2: { unfold lock_run. cbn. by rewrite Hr. }
  rewrite (sql_Ok _ _ (ticket_actions (w_db w) !! co_run_id c) (w_db w)) by done.
  destruct (ticket_actions (w_db w) !! co_run_id c) as [p|] eqn:Hp; [by eauto|].
  match goal with |- context [write_ticket ?fp ?t ?x] => set (w1 := x); set (t1 := t) end.
  destruct (write_ticket_quiet (co_fingerprint c) t1 w1 Hok) as (out & w2 & Hw).
  { eapply action_room_mono; [|done..]. cbn. lia. }
  rewrite Hw.
  assert (∃ d, insert_action (co_run_id c) (mkActionRow (co_fingerprint c) (to_ticket_id out)
    (to_external_id out) (to_created out) (to_update_count out) t1) (w_db w2) = Ok d) as [d Hd].
  { apply write_ticket_inv in Hw as
      [_ [(-> & _ & _ & ->)|(tid & k & -> & Hk & _ & Hck & ->)]];
      unfold insert_action; cbn; rewrite Hp, Hr, lookup_insert_eq; [by eauto|].
    unfold ticket_check in Hck. cbn in Hck. destruct (int4 (tk_update_count k + 1)); [by eauto|done]. }
  erewrite sql_Ok; [by eauto|done|]. by rewrite Hd.
Qed.

(** Rows the program writes: running without an end, or concluded. *)
Definition run_shape (r : RunRow) : Prop :=
  (rn_status r = "running" ∧ rn_audit_end_offset r = None ∧ rn_conclusion r = None) ∨
  rn_status r = "concluded".
Definition runs_shaped (d : DB) : Prop := ∀ i r, runs d !! i = Some r → run_shape r.

Lemma running_check event fp file off t :
  int8 off = true → run_check (running_row event fp file off t) = Ok ().
Proof. intros Ho. unfold run_check. cbn. by rewrite Ho. Qed.

Lemma repoint_check file off t r :
  run_shape r → rn_status r = "running" → int8 off = true → run_check (repoint file off t r) = Ok ().
Proof.
  intros [(_ & He & Hc)|Hs] Hr Ho; [|congruence]. unfold run_check. cbn.
  rewrite He, Hc, Ho. unfold runs_status_known, runs_concluded_has_conclusion,
    runs_audit_offsets_ordered. cbn. rewrite He, Hr. done.
Qed.

Lemma open_run_quiet run event fp file off t w :
  runs_shaped (w_db w) → int8 off = true →
  ∃ c w', @open_run R _ run event fp file off t w = (Ok c, w').
Proof.
  intros Hs Ho. unfold open_run, mbind'. unfold runs_shaped in Hs.
  destruct (runs (w_db w) !! run) as [r|] eqn:Hr.
  - erewrite sql_Ok; [|done|].
    2: { unfold insert_run_on_conflict. rewrite Hr. reflexivity. }
    destruct (decide (rn_status r = "running")) as [Hst|Hst].
    + erewrite sql_Ok; [|done|].
      2: { unfold repoint_running, update_run. cbn. rewrite Hr, decide_True by done.
           rewrite repoint_check; [reflexivity|by eapply Hs|done|done]. }
      erewrite sql_Ok; [|done|reflexivity]. cbn. rewrite lookup_insert_eq. by eauto.
    + erewrite sql_Ok; [|done|].
      2: { unfold repoint_running. cbn. by rewrite Hr, decide_False. }
      erewrite sql_Ok; [|done|reflexivity]. cbn. rewrite Hr. by eauto.
  - erewrite sql_Ok; [|done|].
    2: { unfold insert_run_on_conflict. rewrite Hr, running_check by done. reflexivity. }
    erewrite sql_Ok; [|done|].
    2: { unfold repoint_running, update_run. cbn. rewrite lookup_insert_eq, decide_True by done.
         rewrite repoint_check; [reflexivity|by left|done|done]. }
    erewrite sql_Ok; [|done|reflexivity]. cbn. rewrite lookup_insert_eq. by eauto.
Qed.
End quiet.

(** ** Claims *)

Section claims.
Context {R : Type} `{!Env, !Others R, !Pydantic}.
Implicit Types w : World R.

(** C8. Actions refine their specification under every fault schedule: the
    transaction of [apply] reports an outcome only when the database moved as
    [applies] says, and when it raises the database moved that way or not at
    all.  In particular a ticket write and its ledger row are never apart. *)
Theorem apply_refines c w o w' :
  atomically (apply_conclusion c) w = (o, w') →
  match o with
  | Ok out => ∃ t, applies c t (w_db w) out (w_db w')
  | Raise _ => w_db w' = w_db w ∨ ∃ out t, applies c t (w_db w) out (w_db w')
  end.
Proof.
  intros [(out & t & Ha & [->|[e ->]])|(e & -> & Hd)]%transaction_apply_inv; eauto.
Qed.

(** One ticket per incident: on a well-formed database an action that was
    not a replay leaves exactly one open ticket for its fingerprint, the one
    it reports, and touches no ticket of another fingerprint. *)
Theorem apply_one_open_ticket c w out w' :
  db_ok (w_db w) → atomically (apply_conclusion c) w = (Ok out, w') → to_replayed out = false →
  (∀ tid r, tickets (w_db w') !! tid = Some r → open_ticket (co_fingerprint c) r →
     tid = to_ticket_id out) ∧
  (∃ r, tickets (w_db w') !! to_ticket_id out = Some r ∧ open_ticket (co_fingerprint c) r ∧
     tk_update_count r = to_update_count out ∧ tk_external_id r = to_external_id out) ∧
  (∀ tid r, tk_fingerprint r ≠ co_fingerprint c →
     tickets (w_db w') !! tid = Some r ↔ tickets (w_db w) !! tid = Some r).
Proof.
  intros Hok [(out' & t & Ha & [[= <-]|[e [=]]])|(e & [=] & _)]%transaction_apply_inv Hrep.
  pose proof (applies_ok _ _ _ _ _ Ha Hok) as Hok'.
  assert (∃ r, tickets (w_db w') !! to_ticket_id out = Some r ∧
    open_ticket (co_fingerprint c) r ∧ tk_update_count r = to_update_count out ∧
    tk_external_id r = to_external_id out) as (r & Hr & Ho & Hc & He).
  { destruct Ha as [| |tid r ? ? ? [? ?] ?]; [done|..]; cbn; rewrite lookup_insert_eq;
      by eexists. }
  split; [|split; [by eauto|]].
  - intros tid s Hs [? ?]. destruct Ho. eapply (ok_open _ Hok'); eauto. congruence.
  - intros tid s Hf. destruct Ha as [|tid' ? ? ? Hn|tid' r' ? ? Hr' [Hf' _]]; [done|..]; cbn;
      rewrite lookup_insert_Some; (split; [by intros [[<- <-]|[_ ?]]|]);
      intros Hs; right; (split; [|done]); intros <-; congruence.
Qed.

(** Replays are idempotent: once a run has its ledger row, applying a
    conclusion of that run again, whatever it says and whatever happened to
    the tickets meanwhile, reports the recorded ticket as a replay and leaves
    the database as it is. *)
Theorem apply_replay_idempotent c w o w' p :
  ticket_actions (w_db w) !! co_run_id c = Some p →
  atomically (apply_conclusion c) w = (o, w') →
  w_db w' = w_db w ∧
  (∀ out, o = Ok out → out = mkTicketOutcome (ta_ticket_id p) (ta_external_id p)
     (ta_created p) (ta_update_count p) true).
Proof.
  intros Hp [(out & t & Ha & Ho)|(e & -> & Hd)]%transaction_apply_inv; [|naive_solver].
  destruct Ha as [p' _ Hp'|tid _ Hn _ _|tid r _ Hn _ _ _]; [|congruence..].
  split; [done|]. intros out' ->. destruct Ho as [[= ->]|[e [=]]]. congruence.
Qed.

(** The ledger accounts for the tickets: if every ticket was opened by
    exactly one recorded action and its counter is the number of recorded
    updates, the same holds after an action, under every fault schedule. *)
Theorem apply_keeps_ledger c w o w' :
  db_ok (w_db w) → ledger (w_db w) → atomically (apply_conclusion c) w = (o, w') →
  db_ok (w_db w') ∧ ledger (w_db w').
Proof.
  intros Hok Hl [(out & t & Ha & _)|(e & _ & ->)]%transaction_apply_inv; [|done].
  split; [by eapply applies_ok|by eapply applies_ledger].
Qed.
End claims.

(** ** Witnesses *)

Section witnesses.
#[local] Existing Instance quiet.
#[local] Existing Instance solo.
#[local] Existing Instance strict_pydantic.

Definition claimed_db : DB :=
  set_runs {[ 7%N := running_row 7%N (ae_fingerprint sample_event) "audit.jsonl" 0 0 ]} empty_db.
Definition claimed_world : World ListStream := put_db claimed_db boot_world.

Lemma claimed_db_ok : db_ok claimed_db.
Proof.
  eapply (insert_run_ok 7%N _ empty_db); [|apply empty_db_ok].
  unfold insert_run_on_conflict. cbn [runs empty_db]. rewrite lookup_empty.
  instantiate (1 := running_row 7%N (ae_fingerprint sample_event) "audit.jsonl" 0 0).
  reflexivity.
Qed.

Lemma claimed_ledger : ledger claimed_db.
Proof. split; intros *; cbn; by rewrite lookup_empty. Qed.

Lemma apply_refines_witness :
  let p := atomically (apply_conclusion (sample_conclusion 7%N)) claimed_world in
  is_ok p.1 = true ∧
  match p.1 with
  | Ok out => ∃ t, applies (sample_conclusion 7%N) t (w_db claimed_world) out (w_db p.2)
  | Raise _ => w_db p.2 = w_db claimed_world ∨
      ∃ out t, applies (sample_conclusion 7%N) t (w_db claimed_world) out (w_db p.2)
  end.
Proof.
  intros p. split; [vm_compute; reflexivity|].
  exact (apply_refines (sample_conclusion 7%N) claimed_world p.1 p.2 (surjective_pairing p)).
Defined.

Definition first_outcome : TicketOutcome :=
  mkTicketOutcome 1003%N (external_id_of (ae_fingerprint sample_event)) true 0 false.

Lemma apply_one_open_ticket_witness :
  let p := atomically (apply_conclusion (sample_conclusion 7%N)) claimed_world in
  p.1 = Ok first_outcome ∧
  ∃ r, tickets (w_db p.2) !! 1003%N = Some r ∧ open_ticket (ae_fingerprint sample_event) r.
Proof.
  intros p. assert (p.1 = Ok first_outcome) as Hp by (vm_compute; reflexivity).
  split; [exact Hp|].
  destruct (apply_one_open_ticket (sample_conclusion 7%N) claimed_world first_outcome p.2)
    as (_ & (r & Hr & Ho & _) & _).
  - exact claimed_db_ok.
  - exact (run_pair p _ Hp).
  - reflexivity.
  - exists r. split; [exact Hr|exact Ho].
Defined.

Definition action_row : ActionRow :=
  mkActionRow (ae_fingerprint sample_event) 9%N "SMOKE-1" true 0 0.

Lemma apply_replay_idempotent_witness :
  let w := put_db (set_actions {[ 7%N := action_row ]} claimed_db) claimed_world in
  let p := atomically (apply_conclusion (sample_conclusion 7%N)) w in
  p.1 = Ok (mkTicketOutcome 9%N "SMOKE-1" true 0 true) ∧ w_db p.2 = w_db w.
Proof.
  intros w p. split; [vm_compute; reflexivity|].
  destruct (apply_replay_idempotent (sample_conclusion 7%N) w p.1 p.2 action_row) as [Hd _].
  - change (({[ 7%N := action_row ]} : gmap uuid ActionRow) !! 7%N = Some action_row).
    apply lookup_singleton_eq.
  - apply surjective_pairing.
  - exact Hd.
Defined.

Lemma apply_keeps_ledger_witness :
  let p := atomically (apply_conclusion (sample_conclusion 7%N)) claimed_world in
  ledger (w_db p.2).
Proof.
  intros p. destruct (apply_keeps_ledger (sample_conclusion 7%N) claimed_world p.1 p.2) as [_ Hl].
  - exact claimed_db_ok.
  - exact claimed_ledger.
  - apply surjective_pairing.
  - exact Hl.
Defined.
End witnesses.
