(* ===== verification/Triage.v ===== *)
(** * Deterministic triage (intelligence/triage.py) *)

From Stdlib Require Import Ascii.
From S2P Require Import Prelude PyStr Sha256 Json JsonParse PyTime Contracts Wire Database Samples.

Open Scope Z_scope.

(** [ESCALATING] *)
Definition escalating (s : Severity) : bool :=
  match s with CRITICAL | HIGH => true | _ => false end.

Definition NO_SPEND : Budget := mkBudget 1 0 0.

Definition entity_summary (event : AgentEvent) : string :=
  match ae_entities event with
  | [] => "no entities were tagged on this alert"
  | es => join ", " ((λ e, en_type e +:+ "=" +:+ en_id e) <$> es)
  end.

(** [[f"event:{event.id}", f"fingerprint:{event.fingerprint}"]] *)
Definition event_refs (event : AgentEvent) : list string :=
  ["event:" +:+ uuid_str (ae_id event); "fingerprint:" +:+ ae_fingerprint event].

Definition firing_finding (event : AgentEvent) : Finding :=
  mkFinding 1 "receiver"
    (source_value (ae_source event) +:+ " monitor " +:+ ae_source_event_key event +:+
     " is firing at " +:+ severity_value (ae_severity event) +:+ " severity")
    (event_refs event) f1_0 NO_SPEND.

Definition subject_finding (event : AgentEvent) : Finding :=
  mkFinding 1 "receiver" ("affected subject: " +:+ entity_summary event)
    ((λ e, "entity:" +:+ en_type e +:+ ":" +:+ en_id e) <$> ae_entities event) f1_0 NO_SPEND.

Definition no_root_cause_finding : Finding :=
  mkFinding 1 "triage"
    "no root cause determined: this build has no metric history, deploy timeline, or log correlation to reason over"
    ["capability:read-tier-tools-absent"] f1_0 NO_SPEND.

Definition findings (event : AgentEvent) : list Finding :=
  [firing_finding event] ++
  match ae_entities event with [] => [] | _ => [subject_finding event] end ++
  [no_root_cause_finding].

Definition newline_str : string := String (ascii_of_N 10) EmptyString.

Definition summary (event : AgentEvent) (status : ConclusionStatus) : string :=
  let lines :=
    ["**" +:+ ae_title event +:+ "**";
     "";
     "- source: `" +:+ source_value (ae_source event) +:+ "` monitor `" +:+
       ae_source_event_key event +:+ "`";
     "- severity: `" +:+ severity_value (ae_severity event) +:+ "`";
     "- subject: " +:+ entity_summary event;
     "- first seen: " +:+ isoformat (ae_occurred_at event);
     "";
     "Triage reached `" +:+ status_value status +:+ "`."] in
  join newline_str
    (if nonempty (ae_body event)
     then lines ++ [""; "Alert detail:"; ""; "```"; strip (ae_body event); "```"]
     else lines).

Definition triage_status (event : AgentEvent) : ConclusionStatus :=
  if escalating (ae_severity event) then NEEDS_HUMAN else INCONCLUSIVE.

Definition proposed_actions (event : AgentEvent) : list string :=
  match ae_entities event with
  | [] => ["identify the affected subject: this alert carried no entity tags"]
  | es => (λ e, "inspect " +:+ en_type e +:+ " " +:+ en_id e) <$> es
  end.

(** [triage(event, run_id=run_id)] with the two clock readings it takes. *)
Definition triage (event : AgentEvent) (run_id : option uuid) (started ended : datetime) :
    result exn Conclusion :=
  construct (mkConclusion 1 (default (ae_id event) run_id) (ae_fingerprint event)
    (triage_status event)
    (match ae_entities event with [] => f0_6 | _ => f0_9 end)
    (summary event (triage_status event))
    (findings event)
    (event_refs event)
    (proposed_actions event)
    0
    (Z.max 1 (elapsed_ms (dt_us ended - dt_us started)))).

(** ** Properties *)

Lemma findings_valid event : forallb valid (findings event) = true.
Proof. unfold findings. by destruct (ae_entities event). Qed.

Lemma valid_Sha256Hex (event : AgentEvent) :
  valid event = true → Sha256Hex (ae_fingerprint event) = true.
Proof.
  intros [_ Hf]%andb_prop. cbn -[Sha256Hex] in Hf.
  by repeat (apply andb_prop in Hf as [Hf ?]).
Qed.

Lemma triage_total event run_id t1 t2 :
  valid event = true →
  ∃ c, triage event run_id t1 t2 = Ok c ∧ valid c = true ∧
    co_run_id c = default (ae_id event) run_id ∧ co_fingerprint c = ae_fingerprint event ∧
    co_status c = triage_status event.
Proof.
  intros Hv. unfold triage. set (c := mkConclusion _ _ _ _ _ _ _ _ _ _ _).
  assert (valid c = true) as Hc.
  { unfold valid. apply andb_true_intro. split; [done|].
    change (fields_ok c) with (Sha256Hex (ae_fingerprint event) &&
      unit_interval (co_confidence c) && forallb valid (findings event) && true &&
      (0 <=? co_wall_ms c)).
    rewrite (valid_Sha256Hex _ Hv), findings_valid.
    assert (unit_interval (co_confidence c) = true) as ->
      by (unfold c; cbn [co_confidence]; by destruct (ae_entities event)).
    assert (0 <=? co_wall_ms c = true) as -> by (unfold c; cbn [co_wall_ms]; lia). done. }
  exists c. rewrite construct_valid by done. done.
Qed.

(** ** A conclusion can be stored

    PostgreSQL refuses the character U+0000.  Triage copies text of the event
    and adds its own, so what it concludes about an event that is stored can be
    stored too. *)

Lemma no_nul_app s t : no_nul (s +:+ t) = no_nul s && no_nul t.
Proof. apply str_forallb_app. Qed.

Lemma no_nul_cons a s : no_nul (String a s) = negb (Ascii.eqb a zero) && no_nul s.
Proof. done. Qed.

Lemma str_forallb_impl (p q : ascii → bool) s :
  (∀ a, p a = true → q a = true) → str_forallb p s = true → str_forallb q s = true.
Proof.
  intros Hpq. induction s as [|a s IH]; [done|]. cbn. intros [Ha Hs]%andb_prop.
  by rewrite (Hpq a Ha), IH.
Qed.

Lemma visible_no_nul s : str_forallb visible s = true → no_nul s = true.
Proof. apply str_forallb_impl. by intros [[] [] [] [] [] [] [] []]. Qed.

Lemma no_nul_str_int z : no_nul (str_int z) = true.
Proof. apply visible_no_nul, (@visible_str_int repr_text). Qed.

Lemma no_nul_rev s : no_nul (String.rev s) = no_nul s.
Proof.
  induction s as [|a s IH]; [done|]. rewrite rev_cons_str, no_nul_app, IH. cbn.
  by rewrite andb_true_r, andb_comm.
Qed.

Lemma no_nul_drop_ws w2 w3 s : no_nul s = true → no_nul (drop_ws w2 w3 s) = true.
Proof.
  assert (∀ n s, (String.length s <= n)%nat → no_nul s = true → no_nul (drop_ws w2 w3 s) = true)
    as Hn; [|by apply (Hn (String.length s))].
  clear s. induction n as [|n IH]; intros [|a s] Hl Hs; cbn in Hl; try done; [lia|].
  cbn [drop_ws]. assert (no_nul s = true) as Hs1 by (cbn in Hs; by apply andb_prop in Hs as [_ ?]).
  destruct (ws1 a); [apply IH; [lia|done]|].
  destruct s as [|b s]; [done|]. cbn in Hl.
  assert (no_nul s = true) as Hs2 by (cbn in Hs1; by apply andb_prop in Hs1 as [_ ?]).
  destruct (w2 a b); [apply IH; [lia|done]|].
  destruct s as [|c s]; [done|]. cbn in Hl.
  assert (no_nul s = true) as Hs3 by (cbn in Hs2; by apply andb_prop in Hs2 as [_ ?]).
  destruct (w3 a b c); [apply IH; [lia|done]|done].
Qed.

Lemma no_nul_strip s : no_nul s = true → no_nul (strip s) = true.
Proof.
  intros Hs. unfold strip, rstrip, lstrip. rewrite no_nul_rev. apply no_nul_drop_ws.
  rewrite no_nul_rev. by apply no_nul_drop_ws.
Qed.

Lemma no_nul_join sep l :
  no_nul sep = true → forallb no_nul l = true → no_nul (join sep l) = true.
Proof.
  intros Hsep. induction l as [|x l IH]; [done|]. intros [Hx Hl]%andb_prop.
  rewrite join_cons, no_nul_app, Hx. unfold join_tl. destruct l; [done|].
  by rewrite no_nul_app, Hsep, IH.
Qed.

Lemma hex_not_nul a : is_hex a = true → negb (Ascii.eqb a zero) = true.
Proof. destruct a as [[] [] [] [] [] [] [] []]; vm_compute; congruence. Qed.

Lemma no_nul_hex k n : no_nul (hex k n) = true.
Proof.
  apply (str_forallb_impl is_hex); [apply hex_not_nul|apply hex_is_hex].
Qed.

Lemma no_nul_uuid u : no_nul (uuid_str u) = true.
Proof.
  unfold uuid_str.
  repeat rewrite ?no_nul_app, ?no_nul_cons, ?no_nul_hex. reflexivity.
Qed.

Lemma no_nul_Sha256Hex s : Sha256Hex s = true → no_nul s = true.
Proof.
  unfold Sha256Hex. intros Hs. apply (str_forallb_impl is_hex); [apply hex_not_nul|]. by apply andb_prop in Hs as [? ?].
Qed.

Lemma no_nul_zpad w z : no_nul (zpad w z) = true.
Proof.
  unfold zpad. rewrite no_nul_app, no_nul_str_int, andb_true_r.
  induction (_ - _)%nat as [|n IH]; [done|]. exact IH.
Qed.

Lemma no_nul_isoformat d : no_nul (isoformat d) = true.
Proof.
  unfold isoformat, iso_offset. destruct (civil_of_days _) as [[y m] dd].
  repeat rewrite ?no_nul_app, ?no_nul_cons, ?no_nul_zpad.
  repeat case_match; repeat rewrite ?no_nul_app, ?no_nul_cons, ?no_nul_zpad; reflexivity.
Qed.

(** The texts of an event that reach its conclusion. *)
Record event_storable (event : AgentEvent) : Prop := {
  es_key : no_nul (ae_source_event_key event) = true;
  es_title : no_nul (ae_title event) = true;
  es_body : no_nul (ae_body event) = true;
  es_entities : forallb (λ e, no_nul (en_type e) && no_nul (en_id e)) (ae_entities event) = true;
}.

Section storable.
Context `{!Pydantic}.

Lemma jsonb_ok_fields l :
  jsonb_ok (JObj l) = true → ∀ k v, (k, v) ∈ l → jsonb_ok v = true.
Proof.
  cbn. intros Hl k v Hin. rewrite List.forallb_forall in Hl.
  apply list_elem_of_In, Hl in Hin. by apply andb_prop in Hin as [_ ?].
Qed.

Lemma stored_event_storable event :
  jsonb_ok (event_json event) = true → event_storable event.
Proof.
  intros Hj. pose proof (jsonb_ok_fields _ Hj) as Hf. split.
  - exact (Hf "source_event_key" _ ltac:(apply list_elem_of_In; cbn; auto 20)).
  - exact (Hf "title" _ ltac:(apply list_elem_of_In; cbn; auto 20)).
  - exact (Hf "body" _ ltac:(apply list_elem_of_In; cbn; auto 20)).
  - specialize (Hf "entities" (JArr (entity_json <$> ae_entities event)) ltac:(apply list_elem_of_In; cbn; auto 20)).
    cbn in Hf. revert Hf. induction (ae_entities event) as [|e es IH]; [done|]. cbn.
    intros [He Hes]%andb_prop. rewrite (IH Hes), andb_true_r.
    apply andb_prop in He as [Ht [Hi _]%andb_prop]. by rewrite Ht, Hi.
Qed.

Lemma no_nul_source s : no_nul (source_value s) = true.
Proof. by destruct s. Qed.
Lemma no_nul_severity s : no_nul (severity_value s) = true.
Proof. by destruct s. Qed.
Lemma no_nul_status s : no_nul (status_value s) = true.
Proof. by destruct s. Qed.

Ltac nul_simpl :=
  repeat (rewrite ?no_nul_app, ?no_nul_cons, ?no_nul_source, ?no_nul_severity, ?no_nul_status,
            ?no_nul_uuid, ?no_nul_isoformat).

Lemma forallb_entities (f : Entity → string) es :
  (∀ e, no_nul (en_type e) = true → no_nul (en_id e) = true → no_nul (f e) = true) →
  forallb (λ e, no_nul (en_type e) && no_nul (en_id e)) es = true →
  forallb no_nul (f <$> es) = true.
Proof.
  intros Hf. induction es as [|e es IH]; [done|]. cbn. intros [[Ht Hi]%andb_prop Hes]%andb_prop.
  by rewrite (Hf e Ht Hi), IH.
Qed.

Lemma no_nul_entity_summary event :
  event_storable event → no_nul (entity_summary event) = true.
Proof.
  intros [_ _ _ He]. unfold entity_summary. destruct (ae_entities event) as [|e es]; [done|].
  apply no_nul_join; [done|]. apply forallb_entities; [|done].
  intros x Ht Hi. nul_simpl. by rewrite Ht, Hi.
Qed.

Lemma no_nul_summary event st : event_storable event → no_nul (summary event st) = true.
Proof.
  intros Hs. pose proof (no_nul_entity_summary event Hs) as He. destruct Hs as [Hk Ht Hb _].
  unfold summary. apply no_nul_join; [done|].
  destruct (nonempty (ae_body event)); cbn [app forallb]; nul_simpl;
    rewrite ?Hk, ?Ht, ?He, ?(no_nul_strip _ Hb); reflexivity.
Qed.

Lemma jsonb_ok_strings l : forallb no_nul l = true → jsonb_ok (JArr (JStr <$> l)) = true.
Proof.
  induction l as [|s l IH]; [done|]. intros [Hs Hl]%andb_prop.
  change (no_nul s && jsonb_ok (JArr (JStr <$> l)) = true). by rewrite Hs, IH.
Qed.

Lemma jsonb_ok_float f : jsonb_ok (dump_float f) = true.
Proof. pose proof (dump_float_scalar f) as Hf. by destruct (dump_float f). Qed.

Lemma jsonb_ok_finding f :
  no_nul (fi_agent f) = true → no_nul (fi_hypothesis f) = true →
  forallb no_nul (fi_evidence f) = true → jsonb_ok (finding_json f) = true.
Proof.
  intros Ha Hh He. apply jsonb_ok_strings in He. unfold finding_json.
  cbn -[jsonb_ok dump_float budget_json fmap]. cbn [jsonb_ok forallb fst snd].
  cbn [jsonb_ok] in He. rewrite Ha, Hh, He, jsonb_ok_float. reflexivity.
Qed.

Lemma event_refs_no_nul event :
  valid event = true → forallb no_nul (event_refs event) = true.
Proof.
  intros Hv%valid_Sha256Hex%no_nul_Sha256Hex. unfold event_refs. cbn [forallb]. nul_simpl.
  by rewrite Hv.
Qed.

Lemma jsonb_ok_findings event :
  valid event = true → event_storable event →
  jsonb_ok (JArr (finding_json <$> findings event)) = true.
Proof.
  intros Hv Hs. pose proof (no_nul_entity_summary event Hs) as Hsum.
  assert (jsonb_ok (finding_json (firing_finding event)) = true) as H1.
  { apply jsonb_ok_finding; [done| |by apply event_refs_no_nul].
    cbn [fi_hypothesis firing_finding]. nul_simpl. by rewrite (es_key _ Hs). }
  assert (jsonb_ok (finding_json (subject_finding event)) = true) as H2.
  { apply jsonb_ok_finding; [done| |].
    - cbn [fi_hypothesis subject_finding]. nul_simpl. by rewrite Hsum.
    - cbn [fi_evidence subject_finding]. apply forallb_entities; [|apply Hs].
      intros x Ht Hi. nul_simpl. by rewrite Ht, Hi. }
  assert (jsonb_ok (finding_json no_root_cause_finding) = true) as H3
    by by apply jsonb_ok_finding.
  unfold findings. destruct (ae_entities event); cbn [app fmap list_fmap jsonb_ok forallb];
    by rewrite H1, ?H2, H3.
Qed.

Lemma triage_storable event run t1 t2 c :
  valid event = true → jsonb_ok (event_json event) = true →
  triage event run t1 t2 = Ok c → jsonb_ok (conclusion_json c) = true.
Proof.
  intros Hv Hj%stored_event_storable [<- _]%construct_Ok.
  pose proof (jsonb_ok_findings event Hv Hj) as Hf.
  pose proof (jsonb_ok_strings _ (event_refs_no_nul event Hv)) as Hr.
  assert (forallb no_nul (proposed_actions event) = true) as Hp%jsonb_ok_strings.
  { unfold proposed_actions. pose proof (es_entities _ Hj) as He.
    destruct (ae_entities event); [done|].
    apply forallb_entities; [|done]. intros x Ht Hi. nul_simpl. by rewrite Ht, Hi. }
  unfold conclusion_json. cbn [jsonb_ok] in Hf, Hr, Hp |- *.
  cbn [forallb fst snd jsonb_ok co_version co_run_id co_fingerprint co_status co_confidence
       co_summary_md co_findings co_evidence_refs co_proposed_actions co_tokens_spent co_wall_ms].
  rewrite Hf, Hr, Hp, (no_nul_summary _ _ Hj), jsonb_ok_float, no_nul_uuid, no_nul_status.
  rewrite (no_nul_Sha256Hex _ (valid_Sha256Hex _ Hv)). reflexivity.
Qed.
End storable.

(** ** Claims *)

(** C23. Triage always concludes, and never claims a cause: for every valid event
    it returns a valid Conclusion for the run and the event's fingerprint that
    spent no tokens, is needs_human exactly for critical and high severity and
    inconclusive otherwise, proposes at least one action, and whose every
    finding cites evidence and spent nothing. *)
Theorem triage_concludes event run_id t1 t2 :
  valid event = true →
  ∃ c, triage event run_id t1 t2 = Ok c ∧ valid c = true ∧
    co_run_id c = default (ae_id event) run_id ∧ co_fingerprint c = ae_fingerprint event ∧
    (co_status c = NEEDS_HUMAN ↔ ae_severity event = CRITICAL ∨ ae_severity event = HIGH) ∧
    (co_status c = NEEDS_HUMAN ∨ co_status c = INCONCLUSIVE) ∧
    co_tokens_spent c = 0 ∧ 1 ≤ co_wall_ms c ∧ co_proposed_actions c ≠ [] ∧
    Forall (λ f, fi_evidence f ≠ [] ∧ fi_budget_spent f = NO_SPEND) (co_findings c).
Proof.
  intros Hv. destruct (triage_total event run_id t1 t2 Hv) as (c & Ht & Hc & Hr & Hf & _).
  exists c. do 4 (split; [done|]). unfold triage in Ht. apply construct_Ok in Ht as [<- _].
  cbn [co_status co_tokens_spent co_wall_ms co_proposed_actions co_findings].
  unfold triage_status, proposed_actions, findings.
  split; [by destruct (ae_severity event); cbn; naive_solver|].
  split; [destruct (escalating _); [by left|by right]|]. split; [done|]. split; [lia|].
  destruct (ae_entities event) as [|e es] eqn:He; cbn; (split; [done|]);
    repeat (apply list.Forall_cons; split); try done; try apply list.Forall_nil; try done.
  cbn. by rewrite He.
Qed.

(** Triage is deterministic: two runs of one event differ in the wall time
    they report and in nothing else. *)
Theorem triage_deterministic event run_id t1 t2 u1 u2 c c' :
  triage event run_id t1 t2 = Ok c → triage event run_id u1 u2 = Ok c' →
  c' = mkConclusion (co_version c) (co_run_id c) (co_fingerprint c) (co_status c)
         (co_confidence c) (co_summary_md c) (co_findings c) (co_evidence_refs c)
         (co_proposed_actions c) (co_tokens_spent c) (co_wall_ms c').
Proof. by intros [<- _]%construct_Ok [<- _]%construct_Ok. Qed.

Lemma triage_concludes_witness :
  ∃ c, triage sample_event None (utc 0) (utc 1500000) = Ok c ∧ co_status c = NEEDS_HUMAN.
Proof.
  destruct (triage_concludes sample_event None (utc 0) (utc 1500000)) as
    (c & Hc & _ & _ & _ & [_ Hs] & _).
  - vm_compute. reflexivity.
  - exists c. split; [exact Hc|]. apply Hs. right. reflexivity.
Defined.

Lemma triage_deterministic_witness :
  ∃ c c', triage sample_event None (utc 0) (utc 0) = Ok c ∧
    triage sample_event None (utc 0) (utc 5000000) = Ok c' ∧ co_summary_md c' = co_summary_md c.
Proof.
  destruct (triage_total sample_event None (utc 0) (utc 0)) as (c & Hc & _);
    [vm_compute; reflexivity|].
  destruct (triage_total sample_event None (utc 0) (utc 5000000)) as (c' & Hc' & _);
    [vm_compute; reflexivity|].
  exists c, c'. split; [exact Hc|]. split; [exact Hc'|].
  rewrite (triage_deterministic sample_event None _ _ _ _ c c' Hc Hc'). reflexivity.
Defined.
