(* ===== verification/Worker.v ===== *)
(** * The consumer loop (worker.py)

    Queue to triage to ticket to audit.  [handle] runs one event, [process] one
    message, [worker_round] one turn of [run_worker]. *)

From Stdlib Require Import Ascii.
From S2P Require Import Prelude PyStr Json JsonParse PyTime Contracts Wire Database World.
From S2P Require Import Samples Repository Recorder Delivery Actions Triage.

Open Scope Z_scope.

(** [count=10] *)
Definition READ_COUNT : nat := 10.

(** [WorkerHandle.status] *)
Definition worker_status (t : task_state) : string :=
  match t with
  | TaskRunning => "ok"
  | TaskCancelled => "dead: cancelled"
  | TaskFailed name => "dead: " +:+ name
  | TaskReturned => "dead: exited"
  end.

(** [fields.get(b"event") or fields.get("event")]: the client leaves replies as
    bytes, and an empty value is falsy. *)
Fixpoint event_field (fields : stream_fields) : option string :=
  match fields with
  | [] => None
  | (k, v) :: fields =>
      if String.eqb k "event" then (if nonempty v then Some v else None) else event_field fields
  end.

(** The payloads of the three audit lines of a run. *)
Section payloads.
Context `{!Pydantic}.

Definition event_payload (event : AgentEvent) : list (string * json) :=
  [("event", event_json event)].

Definition transition_payload (c : Conclusion) : list (string * json) :=
  [("status", JStr (status_value (co_status c)));
   ("confidence", dump_float (co_confidence c));
   ("findings", JInt (Z.of_nat (length (co_findings c))))].

Definition action_payload (o : TicketOutcome) : list (string * json) :=
  [("ticket", JStr (to_external_id o)); ("created", JBool (to_created o));
   ("update_count", JInt (to_update_count o)); ("replayed", JBool (to_replayed o))].
End payloads.

Section worker.
Context {R : Type} `{!Env, !Others R, !Pydantic, !FloatText, !RedisStreams R}.

Definition ensure_group : M R () :=
  mtry (λ e, match e with ResponseError _ => true | _ => false end)
    (redis_await (λ r, let? r' := xgroup_create r in Ok ((), r')))
    (λ e, match e with
          | ResponseError msg => if contains "BUSYGROUP" msg then mret' () else mraise e
          | _ => mraise e
          end).

(** From the first audit line to the end of the run. *)
Definition run_body (event : AgentEvent) : M R string :=
  let run_id := ae_id event in
  do! _ := record run_id "worker" AEVENT (event_payload event) in
  do! started := now in
  do! ended := now in
  do! conclusion := lift (triage event (Some run_id) started ended) in
  do! _ := record run_id "triage" ATRANSITION (transition_payload conclusion) in
  do! outcome := transaction (apply_conclusion conclusion) in
  do! line := record run_id "actions" AACTION (action_payload outcome) in
  do! _ := transaction (close_run run_id "concluded" (Some conclusion) (snd line)) in
  mret' (status_value (co_status conclusion)).

Definition handle (event : AgentEvent) : M R string :=
  let run_id := ae_id event in
  do! started := now in
  do! offset := start_offset in
  do! file := (λ w, (Ok (rec_path (w_rec w)), w)) in
  do! claim := transaction
    (open_run run_id (ae_id event) (ae_fingerprint event) file offset started) in
  if decide (rc_status claim = "concluded")
  then mret' (match rc_conclusion_status claim with
              | Some s => str_or s "concluded"
              | None => "concluded"
              end)
  else run_body event.

Definition ack (message_id : string) : M R () :=
  redis_await (λ r, Ok ((), xack message_id r)).

(** [AgentEvent.model_validate(json.loads(raw))] *)
Definition read_message (raw : string) : result exn AgentEvent :=
  match loads raw with
  | None => Raise JSONDecodeError
  | Some payload => model_validate_event payload
  end.

Definition process (message_id : string) (fields : stream_fields) : M R () :=
  match event_field fields with
  | None => ack message_id
  | Some raw =>
      match read_message raw with
      | Raise _ => ack message_id
      | Ok event =>
          do! finished := mtry is_Exception
            (do! _ := handle event in mret' true) (λ _, mret' false) in
          if (finished : bool) then ack message_id else mret' ()
      end
  end.

(** One turn of the loop: read up to ten new messages and process each. *)
Definition worker_round : M R () :=
  do! batch := mtry is_Exception
    (redis_await (λ r, Ok (xreadgroup READ_COUNT r))) (λ _, mret' []) in
  do! _ := mfor batch (λ m, process m.1 m.2) in
  mret' ().

(** [run_worker], stopped after [n] turns. *)
Fixpoint worker_rounds (n : nat) : M R () :=
  match n with
  | O => mret' ()
  | S n => do! _ := worker_round in worker_rounds n
  end.
Definition run_worker (n : nat) : M R () := do! _ := ensure_group in worker_rounds n.
End worker.

(** ** Queue depth

    The reply of XINFO GROUPS as redis-py gives it: one mapping a group, its
    keys and names text or bytes. *)

Inductive rtext := RStr (s : string) | RBytes (s : string).
#[export] Instance rtext_eq_dec : EqDecision rtext.
Proof. solve_decision. Defined.
Inductive rvalue := RNil | RInt (z : Z) | RText (t : rtext).

Definition group_info := list (rtext * rvalue).

Fixpoint rget (k : rtext) (g : group_info) : option rvalue :=
  match g with
  | [] => None
  | (k', v) :: g => if decide (k = k') then Some v else rget k g
  end.

(** [group.get(key, group.get(key.encode()))] *)
Definition group_field (g : group_info) (key : string) : rvalue :=
  match rget (RStr key) g with
  | Some v => v
  | None => default RNil (rget (RBytes key) g)
  end.

(** [int(v or 0)]; of the spellings of a number in text, the decimal digits. *)
Definition int_or_0 (v : rvalue) : option Z :=
  match v with
  | RNil => Some 0
  | RInt z => Some z
  | RText (RStr s) | RText (RBytes s) =>
      if nonempty s then
        match scan_int s with
        | Some (neg, digits, EmptyString) =>
            Some ((if (neg : bool) then -1 else 1) * Z.of_N (digits_val 0 digits))
        | _ => None
        end
      else Some 0
  end.

Definition named_group (v : rvalue) (name : string) : bool :=
  match v with
  | RText (RStr s) | RText (RBytes s) => String.eqb s name
  | _ => false
  end.

Record depth := mkDepth { dp_lag : Z; dp_pending : Z }.

(** [queue_depth] on the reply of XINFO GROUPS. *)
Fixpoint group_depth (groups : list group_info) : option depth :=
  match groups with
  | [] => Some (mkDepth 0 0)
  | g :: groups =>
      if named_group (group_field g "name") "intelligence" then
        l ← int_or_0 (group_field g "lag");
        p ← int_or_0 (group_field g "pending");
        Some (mkDepth l p)
      else group_depth groups
  end.
Definition queue_depth (reply : result exn (list group_info)) : result exn depth :=
  match reply with
  | Ok groups =>
      match group_depth groups with
      | Some d => Ok d
      | None => Raise (RuntimeError "invalid literal for int()")
      end
  | Raise (ResponseError _) => Ok (mkDepth 0 0)
  | Raise e => Raise e
  end.

(** ** What the worker relies on

    The other tasks are the HTTP handlers and the outbox loop.  They admit,
    quarantine, close windows and publish; they write no run and no ledger row,
    and acknowledge no message. *)

Definition concluded (d : DB) (run : uuid) : Prop :=
  ∃ r, runs d !! run = Some r ∧ rn_status r = "concluded".

Section rely.
Context {R : Type} `{!Env, !Others R, !RedisStreams R}.

Record front_rely : Prop := {
  fr_runs : ∀ n d r, runs (others n d r).1 = runs d;
  fr_actions : ∀ n d r, ticket_actions (others n d r).1 = ticket_actions d;
  fr_pending : ∀ n d r, pending (others n d r).2 = pending r;
}.
End rely.
Arguments front_rely R {_ _}.

Section handle.
Context {R : Type} `{!Env, !Others R, !Pydantic, !FloatText, !RedisStreams R}.
Context (Hrely : front_rely R).
Implicit Types w : World R.

(** What a task keeps of the shared state between its own transactions. *)
Lemma others_runs w : runs (w_db (after_others w)) = runs (w_db w).
Proof. apply fr_runs, Hrely. Qed.
Lemma others_actions w : ticket_actions (w_db (after_others w)) = ticket_actions (w_db w).
Proof. apply fr_actions, Hrely. Qed.

Lemma applies_runs c t d o d' : applies c t d o d' → runs d' = runs d.
Proof. by intros []. Qed.

Lemma applies_action c t d o d' :
  applies c t d o d' → is_Some (ticket_actions d' !! co_run_id c).
Proof. intros [p _ Hp| |]; [by eauto|..]; cbn; rewrite lookup_insert_eq; by eauto. Qed.

Lemma applies_actions_grow c t d o d' run a :
  applies c t d o d' → ticket_actions d !! run = Some a → ticket_actions d' !! run = Some a.
Proof.
  intros [p _ Hp|tid _ Hn _ _|tid r _ Hn _ _ _] Ha; [done|..]; cbn;
    rewrite lookup_insert_ne; [done|congruence|done|congruence].
Qed.

(** A transaction of an action that returned. *)
Lemma transaction_apply_Ok c w out w' :
  transaction (apply_conclusion c) w = (Ok out, w') →
  (∃ t, applies c t (w_db (after_others w)) out (w_db w')) ∧
  local_is (w_files w) (w_rec w) w'.
Proof.
  intros Ht. split.
  - rewrite transaction_eq in Ht.
    by apply transaction_apply_inv in Ht as [(o & t & Ha & [[= <-]|[e [=]]])|(e & [=] & _)]; eauto.
  - by eapply (keep_transaction (local_is (w_files w) (w_rec w)));
      [apply local_ignores|apply local_others|apply keep_apply, local_ignores|exact Ht|].
Qed.

Lemma transaction_open_run_Ok run event fp file off t w c w' :
  transaction (open_run run event fp file off t) w = (Ok c, w') →
  let row := claimed_row event fp file off (dt_us t) (runs (w_db w) !! run) in
  c = mkRunClaim (rn_status row) (conclusion_status (rn_conclusion row)) ∧
  w_db w' = set_runs (<[run := row]> (runs (w_db w))) (w_db (after_others w)) ∧
  local_is (w_files w) (w_rec w) w'.
Proof.
  intros Ht. pose proof Ht as Ht'.
  apply transaction_inv in Ht as [(a & w1 & X1 & -> & [[= <-]|[e [=]]])|(e & o1 & w1 & [=] & _)].
  apply open_run_inv in X1 as (Hc & Hd & _). rewrite others_runs in Hc, Hd.
  split; [done|]. split; [done|].
  by eapply (keep_transaction (local_is (w_files w) (w_rec w)));
    [apply local_ignores|apply local_others|apply keep_open_run, local_ignores|exact Ht'|].
Qed.

Lemma transaction_close_run_Ok run status c off w u w' r :
  runs (w_db w) !! run = Some r →
  transaction (close_run run status c off) w = (Ok u, w') →
  (∃ t, let row := finished status (conclusion_json <$> c) t off r in
     run_check row = Ok () ∧
     w_db w' = set_runs (<[run := row]> (runs (w_db w))) (w_db (after_others w))) ∧
  local_is (w_files w) (w_rec w) w'.
Proof.
  intros Hr Ht. pose proof Ht as Ht'.
  apply transaction_inv in Ht as [(a & w1 & X1 & -> & [[= <-]|[e [=]]])|(e & o1 & w1 & [=] & _)].
  split.
  - apply close_run_inv in X1 as [[Hn _]|(r' & t & Hr' & Hd)]; rewrite others_runs in *.
    + congruence.
    + assert (r' = r) as -> by congruence. by exists t.
  - by eapply (keep_transaction (local_is (w_files w) (w_rec w)));
      [apply local_ignores|apply local_others|apply keep_close_run, local_ignores|exact Ht'|].
Qed.

Lemma local_text f r w w' :
  local_is f r w' → f = w_files w → r = w_rec w →
  file_text w' = file_text w ∧ rec_path (w_rec w') = rec_path (w_rec w).
Proof. intros [Hf Hr] -> ->. unfold file_text. by rewrite Hf, Hr. Qed.

(** The three lines of a run, by what they say. *)
Definition run_lines (event : AgentEvent) (c : Conclusion) (out : TicketOutcome)
    (ls : list AuditEvent) : Prop :=
  (λ a, (au_run_id a, au_actor a, au_kind a, au_payload a)) <$> ls =
  [(ae_id event, "worker", AEVENT, event_payload event);
   (ae_id event, "triage", ATRANSITION, transition_payload c);
   (ae_id event, "actions", AACTION, action_payload out)].

(** A run that completed in world [w'], having begun with row [r] in [w]. *)
Record completed (event : AgentEvent) (r : RunRow) w (s : string) w' : Prop := {
  cp_conclusion : ∃ c out ls t t1 t2,
    triage event (Some (ae_id event)) t1 t2 = Ok c ∧ s = status_value (co_status c) ∧
    run_lines event c out ls ∧ file_text w' = file_text w +:+ log_text ls ∧
    runs (w_db w') !! ae_id event =
      Some (finished "concluded" (Some (conclusion_json c)) t (blen (file_text w')) r);
  cp_path : rec_path (w_rec w') = rec_path (w_rec w);
  cp_action : is_Some (ticket_actions (w_db w') !! ae_id event);
}.

Lemma triage_run_id event t1 t2 c :
  triage event (Some (ae_id event)) t1 t2 = Ok c → co_run_id c = ae_id event.
Proof. unfold triage. by intros [<- _]%construct_Ok. Qed.

Lemma run_body_inv event w s w' r :
  runs (w_db w) !! ae_id event = Some r →
  run_body event w = (Ok s, w') → completed event r w s w'.
Proof.
  intros Hr ([q1 f1] & w1 & R1 & (t1 & w2 & [= <- <-] & (t2 & w3 & [= <- <-] & Hb)%mbind_Ok)%mbind_Ok)%mbind_Ok.
  apply mbind_Ok in Hb as (c & w4 & [= Hc <-] & ([q2 f2] & w5 & R2 & Hb)%mbind_Ok).
  apply mbind_Ok in Hb as (out & w6 & Ha & ([q3 f3] & w7 & R3 & (u & w8 & Hcl & [= <- <-])%mbind_Ok)%mbind_Ok).
  apply record_inv in R1 as [R1 _]. apply record_inv in R2 as [R2 _].
  apply record_inv in R3 as [R3 ->].
  apply transaction_apply_Ok in Ha as [[t Ha] La].
  destruct (local_text _ _ _ _ La eq_refl eq_refl) as [Ta Pa].
  assert (runs (w_db w7) !! ae_id event = Some r) as Hr7.
  { rewrite (re_db _ _ _ R3), (applies_runs _ _ _ _ _ Ha), others_runs, (re_db _ _ _ R2).
    cbn. by rewrite (re_db _ _ _ R1). }
  apply (transaction_close_run_Ok _ _ _ _ _ _ _ r Hr7) in Hcl as [(tf & _ & Hd) Lc].
  destruct (local_text _ _ _ _ Lc eq_refl eq_refl) as [Tc Pc].
  pose proof (re_text _ _ _ R1) as T1. pose proof (re_text _ _ _ R2) as T2.
  pose proof (re_text _ _ _ R3) as T3. cbn [snd] in *.
  split.
  - eexists c, out, [_; _; _], tf, _, _. split; [exact Hc|]. split; [done|].
    split; [|split].
    2: { rewrite Tc, T3, Ta, T2.
         change (file_text (next_tick (next_tick w1))) with (file_text w1).
         rewrite T1. cbn [log_text foldr]. by rewrite !app_str_assoc, app_str_nil. }
    + reflexivity.
    + rewrite Hd. cbn. rewrite lookup_insert_eq, Tc. done.
  - rewrite Pc, (re_path _ _ _ R3), Pa, (re_path _ _ _ R2). cbn. apply (re_path _ _ _ R1).
  - rewrite Hd. cbn [set_runs ticket_actions]. rewrite others_actions, (re_db _ _ _ R3).
    rewrite <-(triage_run_id _ _ _ _ Hc). by eapply applies_action.
Qed.

Lemma start_offset_inv w o w' :
  start_offset w = (o, w') →
  w' = next_tick w ∧ (∀ off, o = Ok off → off = blen (file_text w)).
Proof.
  unfold start_offset, file_text. destruct (raised _ _), (w_files w !! _); intros [= <- <-];
    naive_solver.
Qed.

(** What [handle] did when it returned: nothing but claim the run when it was
    already concluded, otherwise the whole run. *)
Lemma handle_inv event w s w' :
  handle event w = (Ok s, w') →
  let old := runs (w_db w) !! ae_id event in
  (∃ r, old = Some r ∧ rn_status r = "concluded" ∧
     s = match conclusion_status (rn_conclusion r) with
         | Some x => str_or x "concluded" | None => "concluded" end ∧
     runs (w_db w') = runs (w_db w) ∧ ticket_actions (w_db w') = ticket_actions (w_db w) ∧
     w_db w' = w_db (after_others (next_tick (next_tick w))) ∧
     w_redis w' = w_redis (after_others (next_tick (next_tick w))) ∧
     local_is (w_files w) (w_rec w) w') ∨
  (¬ concluded (w_db w) (ae_id event) ∧ ∃ w1 t,
     file_text w1 = file_text w ∧ rec_path (w_rec w1) = rec_path (w_rec w) ∧
     completed event (claimed_row (ae_id event) (ae_fingerprint event) (rec_path (w_rec w))
       (blen (file_text w)) t old) w1 s w').
Proof.
  intros (t0 & w1 & [= <- <-] & (off & w2 & Hoff & (file & w3 & [= <- <-] & Hb)%mbind_Ok)%mbind_Ok)%mbind_Ok.
  apply start_offset_inv in Hoff as [-> Hoff]. specialize (Hoff off eq_refl). subst off.
  apply mbind_Ok in Hb as (claim & w4 & Ht & Hb).
  assert (w_redis w4 = w_redis (after_others (next_tick (next_tick w)))) as Hred.
  { apply transaction_world in Ht as [Hred _]; [|intros r; apply keep_open_run, redis_ignores].
    exact Hred. }
  apply transaction_open_run_Ok in Ht as (-> & Hd & Hl). cbn -[file_text after_others] in *.
  change (file_text (next_tick w)) with (file_text w) in *.
  destruct (local_text _ _ w _ Hl eq_refl eq_refl) as [Tl Pl].
  set (row := claimed_row _ _ _ _ _ _) in *.
  case_decide as Hs.
  - left. injection Hb as <- <-. unfold row, claimed_row in *.
    destruct (runs (w_db w) !! ae_id event) as [r|] eqn:Hr; [|done].
    case_decide as Hrun; [cbn in Hs; congruence|].
    exists r. split; [done|]. split; [done|]. split; [done|]. rewrite Hd. cbn.
    rewrite insert_id by done. split; [done|]. split; [apply fr_actions, Hrely|].
    split; [|split; [exact Hred|done]].
    pose proof (others_runs (next_tick (next_tick w))) as Ho. cbn in Ho. rewrite <-Ho.
    by destruct (others _ _ _).1.
  - right. split.
    + intros (r & Hr & Hc). apply Hs. unfold row, claimed_row. rewrite Hr.
      rewrite decide_False; [done|]. by rewrite Hc.
    + exists w4, (env_now (w_tick w)). split; [done|]. split; [done|].
      apply run_body_inv; [|done]. rewrite Hd. cbn. apply lookup_insert_eq.
Qed.

Lemma completed_concluded event r w s w' :
  completed event r w s w' → concluded (w_db w') (ae_id event).
Proof. intros [(c & out & ls & t & t1 & t2 & _ & _ & _ & _ & Hr) _ _]. by eexists. Qed.

Lemma handle_concludes event w s w' :
  handle event w = (Ok s, w') → concluded (w_db w') (ae_id event).
Proof.
  intros [(r & Hr & Hs & _ & Hd & _)|(_ & w1 & t & _ & _ & Hc)]%handle_inv.
  - exists r. by rewrite Hd.
  - by eapply completed_concluded.
Qed.

(** *** The pending list *)

Definition pending_is (l : list string) w : Prop := pending (w_redis w) = l.

Lemma pending_others l w : pending_is l w → pending_is l (after_others w).
Proof. unfold pending_is. intros <-. apply fr_pending, Hrely. Qed.

(** A property that does not look at the database, kept by the other tasks and
    by the recorder, is kept by a run. *)
Lemma keep_handle (P : World R → Prop) event :
  ignores_db P → (∀ w, P w → P (after_others w)) →
  (∀ run actor kind payload, keeps P (record run actor kind payload)) →
  keeps P (handle event).
Proof.
  intros Hi Ho Hrec. unfold handle, run_body. keep_steps; try apply Hrec; try done.
  - intros w o w' [-> _]%start_offset_inv. by apply ign_tick.
  - by intros w o w' [= _ <-].
  - apply keep_transaction; [done|done|by apply keep_open_run].
  - apply keep_transaction; [done|done|by apply keep_apply].
  - apply keep_transaction; [done|done|by apply keep_close_run].
Qed.

(** A property of the stream that the other tasks keep. *)
Lemma keep_handle_redis (Q : R → Prop) event :
  (∀ w, Q (w_redis w) → Q (w_redis (after_others w))) →
  keeps (λ w, Q (w_redis w)) (handle event).
Proof.
  intros Ho. apply keep_handle; [by split|done|].
  intros * w o w' [_ Hr]%record_db. by rewrite Hr.
Qed.

Lemma keep_pending_handle l event : keeps (pending_is l) (handle event).
Proof. apply (keep_handle_redis (λ r, pending r = l)), pending_others. Qed.

(** What [process] did with a message that holds an event. *)
Lemma process_inv mid fields raw event w o w' :
  event_field fields = Some raw → read_message raw = Ok event →
  process mid fields w = (o, w') →
  ∃ o1 w1, handle event w = (o1, w1) ∧
    match o1 with
    | Ok _ => ack mid w1 = (o, w')
    | Raise e => w' = w1 ∧ o = if is_Exception e then Ok () else Raise e
    end.
Proof.
  intros Hf Hm. unfold process. rewrite Hf, Hm. unfold mbind' at 1, mtry, mbind'.
  destruct (handle event w) as [[s|e] w1]; intros Hp.
  - by exists (Ok s), w1.
  - exists (Raise e), w1. split; [done|]. by destruct (is_Exception e); injection Hp as <- <-.
Qed.

Lemma ack_db mid w o w' :
  ack mid w = (o, w') → runs (w_db w') = runs (w_db w) ∧
    ticket_actions (w_db w') = ticket_actions (w_db w).
Proof.
  intros [(u & w1 & Hi & Hc)|(e & Hi & _)]%mbind_inv; rewrite interleave_eq in Hi; [|done].
  injection Hi as _ <-. apply redis_call_db in Hc. rewrite Hc.
  split; [apply others_runs|apply others_actions].
Qed.
End handle.

(** ** A run without faults *)

Section quiet.
Context {R : Type} `{!Env, !Others R, !Pydantic, !FloatText, !RedisStreams R}.
Context (Hquiet : ∀ n, env_fault n = FOk) (Halone : ∀ n d r, others n d r = (d, r)).
Implicit Types w : World R.

Lemma alone_rely : front_rely R.
Proof. split; intros; by rewrite Halone. Qed.

Lemma transaction_quiet {A} (m : M R A) w a w1 :
  m w = (Ok a, w1) → transaction m w = (Ok a, next_tick w1).
Proof.
  intros Hm. apply transaction_Ok; [|apply Hquiet]. by rewrite after_others_alone.
Qed.

Lemma start_offset_quiet w :
  is_Some (w_files w !! rec_path (w_rec w)) →
  start_offset w = (Ok (blen (file_text w)), next_tick w).
Proof. intros [t Ht]. unfold start_offset, file_text. by rewrite Hquiet, Ht. Qed.

(** What a run needs of the world besides working services. *)
Record run_room w : Prop := {
  rr_ok : db_ok (w_db w);
  rr_shape : runs_shaped (w_db w);
  rr_room : action_room (w_tick w) 1 (w_db w);
  rr_file : is_Some (w_files w !! rec_path (w_rec w));
  rr_size : blen (file_text w) ≤ 9223372036854775807;
}.

Lemma blen_nonneg s : 0 ≤ blen s.
Proof. unfold blen. lia. Qed.

Lemma int8_blen s : blen s ≤ 9223372036854775807 → int8 (blen s) = true.
Proof. pose proof (blen_nonneg s). unfold int8. lia. Qed.

Lemma blen_app s t : blen (s +:+ t) = blen s + blen t.
Proof. unfold blen. rewrite length_app_str. lia. Qed.

(** The end of a run: the row is closed, or the log outgrew its column. *)
Lemma close_run_quiet run c off r w :
  runs (w_db w) !! run = Some r → jsonb_ok (conclusion_json c) = true →
  int8 (rn_audit_start_offset r) = true → rn_audit_start_offset r ≤ off → int8 off = true →
  ∃ w', @close_run R _ _ run "concluded" (Some c) off w = (Ok (), w').
Proof.
  intros Hr Hj Hs Hle Ho. unfold close_run, mbind', now.
  erewrite sql_Ok; [by eauto|done|]. unfold update_run. cbn -[run_check finished].
  rewrite Hr. assert (∀ t, run_check (finished "concluded" (Some (conclusion_json c)) t off r) = Ok ())
    as ->; [|reflexivity].
  intros t. unfold run_check, finished, runs_status_known, runs_concluded_has_conclusion,
    runs_audit_offsets_ordered. cbn -[jsonb_ok conclusion_json int8 Z.leb].
  rewrite Hs, Ho, Hj. cbn -[Z.leb]. by assert (rn_audit_start_offset r <=? off = true) as -> by lia.
Qed.

Lemma close_run_or_big run c r w :
  runs (w_db w) !! run = Some r → jsonb_ok (conclusion_json c) = true →
  int8 (rn_audit_start_offset r) = true → rn_audit_start_offset r ≤ blen (file_text w) →
  ∃ o w', transaction (@close_run R _ _ run "concluded" (Some c) (blen (file_text w))) w = (o, w') ∧
    ((∃ a, o = Ok a) ∨ 9223372036854775807 < blen (file_text w')).
Proof.
  intros Hr Hj Hs Hle.
  destruct (decide (blen (file_text w) ≤ 9223372036854775807)) as [Hfit|Hbig].
  - destruct (close_run_quiet run c (blen (file_text w)) r w) as [w' E];
      [done..|by apply int8_blen|].
    eexists _, _. split; [exact (transaction_quiet _ _ _ _ E)|]. left. by eauto.
  - destruct (transaction _ w) as [o w'] eqn:E. eexists _, _. split; [reflexivity|].
    assert (local_is (w_files w) (w_rec w) w') as Hl.
    { by eapply (keep_transaction (local_is (w_files w) (w_rec w)));
        [apply local_ignores|apply local_others|apply keep_close_run, local_ignores|exact E|]. }
    destruct (local_text _ _ _ _ Hl eq_refl eq_refl) as [Ht _]. right. rewrite Ht. lia.
Qed.

Lemma run_body_quiet event w r :
  valid event = true → jsonb_ok (event_json event) = true →
  db_ok (w_db w) → action_room (w_tick w) 1 (w_db w) →
  runs (w_db w) !! ae_id event = Some r →
  int8 (rn_audit_start_offset r) = true → rn_audit_start_offset r ≤ blen (file_text w) →
  ∃ o w', run_body event w = (o, w') ∧
    ((∃ s, o = Ok s) ∨ 9223372036854775807 < blen (file_text w')).
Proof.
  intros Hv Hj Hok Hroom Hr Hs Hle. unfold run_body.
  destruct (record_Ok (ae_id event) "worker" AEVENT (event_payload event) w)
    as (q1 & f1 & w1 & E1); [done..|].
  pose proof (record_inv _ _ _ _ _ _ _ _ E1) as [R1 _].
  unfold mbind' at 1. rewrite E1. unfold mbind' at 1, now at 1. unfold mbind' at 1, now at 1.
  match goal with |- context [triage event _ ?a ?b] =>
    destruct (triage_total event (Some (ae_id event)) a b Hv) as (c & Hc & _ & Hid & _) end.
  cbn in Hid. pose proof (triage_storable _ _ _ _ _ Hv Hj Hc) as Hcj.
  unfold mbind' at 1, lift. rewrite Hc.
  set (w2 := next_tick (next_tick w1)).
  destruct (record_Ok (ae_id event) "triage" ATRANSITION (transition_payload c) w2)
    as (q2 & f2 & w3 & E2); [done..|].
  pose proof (record_inv _ _ _ _ _ _ _ _ E2) as [R2 _].
  unfold mbind' at 1. rewrite E2.
  assert (w_db w3 = w_db w) as D3 by (rewrite (re_db _ _ _ R2); apply (re_db _ _ _ R1)).
  assert (action_room (w_tick w3) 1 (w_db w3)) as Hroom3.
  { eapply action_room_mono; [|done|by rewrite D3|exact Hroom].
    pose proof (re_tick _ _ _ R1). pose proof (re_tick _ _ _ R2). cbn in *. lia. }
  destruct (apply_quiet Hquiet c w3) as (out & w4 & E3);
    [by rewrite D3|done|rewrite D3, Hid; by eauto|].
  apply transaction_quiet in E3. pose proof E3 as E3'.
  apply transaction_apply_Ok in E3' as [[t Ha] La].
  destruct (local_text _ _ _ _ La eq_refl eq_refl) as [T4 _].
  unfold mbind' at 1. rewrite E3.
  destruct (record_Ok (ae_id event) "actions" AACTION (action_payload out) (next_tick w4))
    as (q3 & f3 & w5 & E4); [done..|].
  pose proof (record_inv _ _ _ _ _ _ _ _ E4) as [R4 ->].
  unfold mbind' at 1. rewrite E4. cbn [snd].
  assert (runs (w_db w5) !! ae_id event = Some r) as Hr5.
  { rewrite (re_db _ _ _ R4), (applies_runs _ _ _ _ _ Ha), (others_runs alone_rely). by rewrite D3. }
  assert (blen (file_text w) ≤ blen (file_text w5)) as Hgrow.
  { rewrite (re_text _ _ _ R4), T4, (re_text _ _ _ R2).
    change (file_text w2) with (file_text w1). rewrite (re_text _ _ _ R1).
    rewrite !blen_app. pose proof blen_nonneg.
    repeat match goal with |- context [blen (audit_line ?a)] =>
      pose proof (blen_nonneg (audit_line a)); generalize dependent (blen (audit_line a)) end.
    intros. lia. }
  destruct (close_run_or_big (ae_id event) c r w5) as (o & w6 & E5 & Hend); [done..|lia|].
  unfold mbind' at 1. rewrite E5.
  destruct o; eexists _, _; (split; [reflexivity|]); [left; by eauto|right].
  by destruct Hend as [[a [=]]|Hbig].
Qed.

Lemma handle_quiet event w :
  valid event = true → jsonb_ok (event_json event) = true → run_room w →
  ∃ o w', handle event w = (o, w') ∧
    ((∃ s, o = Ok s) ∨ 9223372036854775807 < blen (file_text w')).
Proof.
  intros Hv Hj [Hok Hsh Hroom Hfile Hsize]. unfold handle. unfold mbind' at 1, now.
  unfold mbind' at 1. rewrite start_offset_quiet by done.
  unfold mbind' at 1. cbn [w_rec next_tick].
  change (file_text (next_tick w)) with (file_text w).
  destruct (open_run_quiet Hquiet (ae_id event) (ae_id event) (ae_fingerprint event)
    (rec_path (w_rec w)) (blen (file_text w)) (utc (env_now (w_tick w)))
    (next_tick (next_tick w))) as (c & w1 & E1); [done|by apply int8_blen|].
  pose proof (open_run_inv _ _ _ _ _ _ _ _ _ E1) as (Hc & Hd & Hok1).
  pose proof (keep_open_run _ (past_ignores (w_tick w)) _ _ _ _ _ _ _ _ _ E1
    (le_S _ _ (le_S _ _ (le_n _)))) as Hpast.
  specialize (Hok1 Hok). apply transaction_quiet in E1. pose proof E1 as E1'.
  apply (transaction_open_run_Ok alone_rely) in E1' as (_ & _ & L1).
  destruct (local_text _ _ w _ L1 eq_refl eq_refl) as [T1 _].
  unfold mbind' at 1. rewrite E1. cbn [w_db next_tick] in Hd.
  set (row := claimed_row _ _ _ _ _ _) in *.
  case_decide as Hst; [eexists _, _; split; [reflexivity|]; left; by eauto|].
  assert (int8 (rn_audit_start_offset row) = true ∧
          rn_audit_start_offset row ≤ blen (file_text w)) as [Hi Hle].
  { pose proof (int8_blen _ Hsize). unfold row, claimed_row. cbn [w_db next_tick].
    destruct (runs (w_db w) !! ae_id event) as [r|] eqn:Hr; [|done].
    case_decide as Hrun; [done|]. exfalso. apply Hst. rewrite Hc. cbn [rc_status].
    unfold row, claimed_row. cbn [w_db next_tick]. rewrite Hr, decide_False by done.
    by destruct (Hsh _ _ Hr) as [[? _]|?]. }
  destruct (run_body_quiet event (next_tick w1) row) as (o & w' & E2 & Ho); try done.
  - eapply action_room_mono; [|done| |exact Hroom]; [|by cbn [w_db next_tick]; rewrite Hd].
    unfold past in Hpast. cbn. lia.
  - cbn [w_db next_tick]. rewrite Hd. apply lookup_insert_eq.
  - by rewrite T1.
  - by eauto.
Qed.

Lemma ack_quiet mid w : ack mid w = (Ok (), put_redis (xack mid (w_redis w)) (next_tick w)).
Proof.
  unfold ack, redis_await, mbind'. rewrite interleave_eq, after_others_alone by done.
  by erewrite redis_call_Ok; [|apply Hquiet|reflexivity].
Qed.

(** A message that holds a storable event: the run goes through and the
    message is acknowledged, or the log outgrew its column. *)
Lemma process_quiet mid fields raw event w :
  run_room w → event_field fields = Some raw → read_message raw = Ok event →
  jsonb_ok (event_json event) = true →
  ∃ o1 w1, handle event w = (o1, w1) ∧
    ((∃ s, o1 = Ok s ∧ process mid fields w =
        (Ok (), put_redis (xack mid (w_redis w1)) (next_tick w1))) ∨
     (log_over 9223372036854775807 w1 ∧ (process mid fields w).2 = w1)).
Proof.
  intros Hroom Hf Hm Hj.
  assert (valid event = true) as Hv.
  { revert Hm. unfold read_message, model_validate_event. destruct (loads raw); [|done].
    destruct (event_of_json _) eqn:He; [|done]. intros [= ->]. by eapply event_of_json_valid. }
  destruct (handle_quiet event w Hv Hj Hroom) as (o1 & w1 & Hh & Ho). exists o1, w1.
  split; [done|]. destruct (process mid fields w) as [o w'] eqn:Hp.
  destruct (process_inv _ _ _ _ _ _ _ Hf Hm Hp) as (o2 & w2 & Hh' & Hack).
  rewrite Hh in Hh'. injection Hh' as <- <-. destruct o1 as [s|e].
  - left. exists s. split; [done|]. by rewrite ack_quiet in Hack.
  - right. destruct Hack as [-> _]. destruct Ho as [[s [=]]|Ho]. done.
Qed.
End quiet.

(** ** Claims *)

Section claims.
Context {R : Type} `{!Env, !Others R, !Pydantic, !FloatText, !RedisStreams R}.
Implicit Types w : World R.

(** C5. No incident is acknowledged before it is concluded: whatever the
    faults and the other tasks do, a message that holds an event leaves the
    pending list only if, by then, the run of that event is committed as
    concluded. *)
Theorem ack_only_after_conclusion mid fields raw event w o w' :
  front_rely R →
  event_field fields = Some raw → read_message raw = Ok event →
  process mid fields w = (o, w') →
  mid ∈ pending (w_redis w) → mid ∉ pending (w_redis w') →
  concluded (w_db w') (ae_id event).
Proof.
  intros Hrely Hf Hm Hp Hin Hout.
  destruct (process_inv _ _ _ _ _ _ _ Hf Hm Hp) as ([s|e] & w1 & Hh & Ho).
  - apply (handle_concludes Hrely) in Hh as (r & Hr & Hs).
    apply (ack_db Hrely) in Ho as [Hd _]. exists r. by rewrite Hd.
  - exfalso. destruct Ho as [-> _]. apply Hout.
    by rewrite (keep_pending_handle Hrely (pending (w_redis w)) event w _ _ Hh eq_refl).
Qed.

(** C17. The audit record of a run is complete and found where the run row
    says: when [handle] returns for an event that was not concluded before,
    the file holds what it held plus exactly three lines, for the event, the
    transition and the action; the row is concluded with the conclusion of
    triage, names this file, and its two offsets delimit those lines. *)
Theorem handle_audit_range event w s w' :
  front_rely R → handle event w = (Ok s, w') → ¬ concluded (w_db w) (ae_id event) →
  ∃ c out ls row t1 t2,
    triage event (Some (ae_id event)) t1 t2 = Ok c ∧ s = status_value (co_status c) ∧
    run_lines event c out ls ∧ file_text w' = file_text w +:+ log_text ls ∧
    runs (w_db w') !! ae_id event = Some row ∧
    rn_status row = "concluded" ∧ rn_conclusion row = Some (conclusion_json c) ∧
    rn_audit_end_offset row = Some (blen (file_text w')) ∧
    is_Some (ticket_actions (w_db w') !! ae_id event) ∧
    ((∀ r, runs (w_db w) !! ae_id event = Some r → rn_status r = "running") →
     rn_audit_log_file row = rec_path (w_rec w') ∧
     rn_audit_start_offset row = blen (file_text w)).
Proof.
  intros Hrely [(r & Hr & Hs & _)|(_ & w1 & t & Ht & Hp & Hc)]%(handle_inv Hrely) Hn.
  { exfalso. apply Hn. by exists r. }
  destruct Hc as [(c & out & ls & tf & t1 & t2 & H1' & H2' & H3 & H4 & H5) H6 H7].
  eexists c, out, ls, _, t1, t2. split; [done|]. split; [done|]. split; [done|].
  split; [by rewrite H4, Ht|]. split; [exact H5|]. do 3 (split; [done|]). split; [done|].
  intros Hrun. cbn. rewrite H6, Hp. unfold claimed_row.
  destruct (runs (w_db w) !! ae_id event) as [r|]; [|done].
  by rewrite decide_True by (by apply Hrun).
Qed.

(** C16. A redelivered message repeats nothing: when the run is already
    concluded, [handle] returns its recorded status and writes no audit line,
    and the whole database, tickets, ledger and runs, and the stream are what
    the other tasks left when its one transaction began. *)
Theorem redelivery_suppressed event w s w' :
  front_rely R → concluded (w_db w) (ae_id event) → handle event w = (Ok s, w') →
  w_files w' = w_files w ∧ w_rec w' = w_rec w ∧ runs (w_db w') = runs (w_db w) ∧
  ticket_actions (w_db w') = ticket_actions (w_db w) ∧
  (let v := after_others (next_tick (next_tick w)) in
   w_db w' = w_db v ∧ tickets (w_db w') = tickets (w_db v) ∧ w_redis w' = w_redis v) ∧
  ∃ r, runs (w_db w) !! ae_id event = Some r ∧
    s = match conclusion_status (rn_conclusion r) with
        | Some x => str_or x "concluded" | None => "concluded" end.
Proof.
  intros Hrely Hc [(r & Hr & Hs & He & Hd & Ha & Hb & Hx & Hf & Hw)|(Hn & _)]%(handle_inv Hrely);
    [|done].
  do 4 (split; [done|]). split; [by rewrite Hb|]. by exists r.
Qed.

(** A message that can never succeed does not wedge the queue: without an
    event field, or with a text that is not a valid event, it is acknowledged
    and nothing else happens; a lost acknowledgement is the only failure. *)
Theorem unprocessable_is_acked mid fields w o w' :
  (event_field fields = None ∨
   ∃ raw e, event_field fields = Some raw ∧ read_message raw = Raise e) →
  process mid fields w = (o, w') →
  w_db w' = w_db (after_others w) ∧ w_files w' = w_files w ∧ w_rec w' = w_rec w ∧
  (o = Ok () → w_redis w' = xack mid (w_redis (after_others w))).
Proof.
  intros Hbad Hp. assert (ack mid w = (o, w')) as Ha.
  { destruct Hbad as [Hf|(raw & e & Hf & Hm)]; revert Hp; unfold process; rewrite Hf; [done|].
    by rewrite Hm. }
  unfold ack, redis_await, mbind' in Ha. rewrite interleave_eq in Ha.
  apply redis_call_inv in Ha as [(a & r & [= <- <-] & -> & Ho)|(e & -> & ->)]; [|done].
  done.
Qed.

(** Work gets done: without faults and with the process to itself, a
    message that holds a storable event is processed to the end.  Its run is
    concluded and the message is acknowledged, unless the audit file has
    outgrown the 64-bit offset column. *)
Theorem process_completes mid fields raw event w :
  (∀ n, env_fault n = FOk) → (∀ n d r, others n d r = (d, r)) → run_room w →
  event_field fields = Some raw → read_message raw = Ok event →
  jsonb_ok (event_json event) = true →
  ∃ o w', process mid fields w = (o, w') ∧
    ((o = Ok () ∧ concluded (w_db w') (ae_id event) ∧ mid ∉ pending (w_redis w')) ∨
     9223372036854775807 < blen (file_text w')).
Proof.
  intros Hq Ha Hroom Hf Hm Hj.
  destruct (process_quiet Hq Ha mid fields raw event w Hroom Hf Hm Hj)
    as (o1 & w1 & Hh & [(s & -> & Hp)|[Hbig Hp]]).
  - eexists _, _. split; [exact Hp|]. left. split; [done|].
    split; [exact (handle_concludes (alone_rely Ha) _ _ _ _ Hh)|]. cbn. rewrite xack_pending.
    by intros [? _]%list_elem_of_filter.
  - eexists _, _. split; [apply surjective_pairing|]. right. by rewrite Hp.
Qed.
End claims.

(** ** Witnesses *)

Section witnesses.
#[local] Existing Instance quiet.
#[local] Existing Instance solo.
#[local] Existing Instance strict_pydantic.
#[local] Existing Instance repr_text.

Definition sample_fields : stream_fields := [("event", dumps (event_json sample_event))].
Definition message_world : World ListStream :=
  put_redis (mkListStream [("1", sample_fields)] 1 ["1"] true) boot_world.

Lemma solo_rely : front_rely ListStream.
Proof. by split. Qed.

Lemma ack_only_after_conclusion_witness :
  let p := process "1" sample_fields message_world in
  concluded (w_db p.2) (ae_id sample_event).
Proof.
  intros p. apply (ack_only_after_conclusion "1" sample_fields
    (dumps (event_json sample_event)) sample_event message_world p.1 p.2).
  - exact solo_rely.
  - vm_compute. reflexivity.
  - vm_compute. reflexivity.
  - apply surjective_pairing.
  - vm_compute. left.
  - vm_compute. by intros ?%not_elem_of_nil.
Defined.

Lemma handle_audit_range_witness :
  let p := handle sample_event message_world in
  p.1 = Ok "needs_human" ∧
  ∃ row, runs (w_db p.2) !! ae_id sample_event = Some row ∧ rn_status row = "concluded" ∧
    rn_audit_end_offset row = Some (blen (file_text p.2)).
Proof.
  intros p. assert (p.1 = Ok "needs_human") as Hp by (vm_compute; reflexivity).
  split; [exact Hp|].
  destruct (handle_audit_range sample_event message_world "needs_human" p.2)
    as (c & out & ls & row & t1 & t2 & _ & _ & _ & _ & Hr & Hs & _ & He & _).
  - exact solo_rely.
  - exact (run_pair p _ Hp).
  - intros (r & Hr & _). cbn in Hr. by rewrite lookup_empty in Hr.
  - exists row. split; [exact Hr|]. split; [exact Hs|exact He].
Defined.

Lemma redelivery_suppressed_witness :
  let p := handle sample_event message_world in
  let q := handle sample_event p.2 in
  q.1 = Ok "needs_human" ∧ w_files q.2 = w_files p.2.
Proof.
  intros p q. assert (p.1 = Ok "needs_human") as Hp by (vm_compute; reflexivity).
  assert (q.1 = Ok "needs_human") as Hq by (vm_compute; reflexivity).
  split; [exact Hq|].
  destruct (redelivery_suppressed sample_event p.2 "needs_human" q.2) as (Hf & _).
  - exact solo_rely.
  - exact (handle_concludes solo_rely _ _ _ _ (run_pair p _ Hp)).
  - exact (run_pair q _ Hq).
  - exact Hf.
Defined.

Lemma unprocessable_is_acked_witness :
  let p := process "1" [("event", "{")] message_world in
  p.1 = Ok () ∧ w_db p.2 = empty_db.
Proof.
  intros p. split; [vm_compute; reflexivity|].
  destruct (unprocessable_is_acked "1" [("event", "{")] message_world p.1 p.2) as (Hd & _).
  - right. exists "{", JSONDecodeError. split; vm_compute; reflexivity.
  - apply surjective_pairing.
  - exact Hd.
Defined.

Lemma message_world_room : run_room message_world.
Proof.
  split.
  - apply empty_db_ok.
  - intros i r Hi. cbn in Hi. by rewrite lookup_empty in Hi.
  - split; [done|intros i r Hi; cbn in Hi; by rewrite lookup_empty in Hi|intros n _; apply lookup_empty].
  - exists EmptyString. apply lookup_singleton_eq.
  - vm_compute. discriminate.
Qed.

Lemma process_completes_witness :
  ∃ o w', process "1" sample_fields message_world = (o, w') ∧
    ((o = Ok () ∧ concluded (w_db w') (ae_id sample_event) ∧ "1" ∉ pending (w_redis w')) ∨
     9223372036854775807 < blen (file_text w')).
Proof.
  apply (process_completes "1" sample_fields (dumps (event_json sample_event)) sample_event
           message_world).
  - done.
  - done.
  - exact message_world_room.
  - vm_compute. reflexivity.
  - vm_compute. reflexivity.
  - vm_compute. reflexivity.
Defined.
End witnesses.
