(* ===== verification/System.v ===== *)
(** * The whole service

    The HTTP side (admission, quarantine, recovery, dispatch) and the worker on
    one shared state.  Each atomic action of the HTTP side and of the outbox
    loop is a [front_step]; the worker runs its turns with any number of front
    steps between its own transactions; the process may restart at any time.
    Every step may meet any fault.  The invariants hold in every reachable
    state. *)

From Stdlib Require Import Ascii.
From S2P Require Import Prelude PyStr Json JsonParse PyTime Contracts Wire Database World.
From S2P Require Import Samples Repository Recorder Delivery Actions Triage Worker.
From stdpp Require Import relations.

Open Scope Z_scope.

(** ** Invariants of the database *)

Record db_inv (d : DB) : Prop := {
  di_ok : db_ok d;
  di_spaced : dedupe_spaced d;
  di_ledger : ledger d;
  di_shaped : runs_shaped d;
  di_action : ∀ run, concluded d run → is_Some (ticket_actions d !! run);
}.

Lemma db_inv_empty : db_inv empty_db.
Proof.
  split.
  - apply empty_db_ok.
  - intros fp i j r s Hi. cbn in Hi. by rewrite lookup_empty in Hi.
  - apply empty_ledger.
  - intros i r Hi. cbn in Hi. by rewrite lookup_empty in Hi.
  - intros run (r & Hr & _). cbn in Hr. by rewrite lookup_empty in Hr.
Qed.

(** Steps that leave runs, tickets and the ledger alone. *)
Lemma db_inv_events (d : DB) (ev : gmap uuid EventRow) :
  db_inv d → db_ok (set_events ev d) → dedupe_spaced (set_events ev d) → db_inv (set_events ev d).
Proof. intros [_ _ [Hc Hn] Hsh Ha] Hok Hsp. by split; [done|done|split|..]. Qed.

Lemma db_inv_applies c t d o d' : applies c t d o d' → db_inv d → db_inv d'.
Proof.
  intros Hap [Hok Hsp Hl Hsh Ha]. split.
  - by eapply applies_ok.
  - by destruct Hap.
  - by eapply applies_ledger.
  - unfold runs_shaped. by rewrite (applies_runs _ _ _ _ _ Hap).
  - intros run (r & Hr & Hs). rewrite (applies_runs _ _ _ _ _ Hap) in Hr.
    destruct (Ha run) as [a Hra]; [by exists r|]. exists a. by eapply applies_actions_grow.
Qed.

(** A run row that is running, or concluded with its action in the ledger. *)
Lemma db_inv_run d run row :
  db_inv d → db_ok (set_runs (<[run := row]> (runs d)) d) → run_shape row →
  (rn_status row = "concluded" → is_Some (ticket_actions d !! run)) →
  db_inv (set_runs (<[run := row]> (runs d)) d).
Proof.
  intros [_ Hsp [Hc Hn] Hsh Ha] Hok Hrow Hact. split; [done|done|by split|..].
  - intros i r Hi. cbn in Hi. apply lookup_insert_Some in Hi as [[<- <-]|[_ Hr]];
      [done|by eapply Hsh].
  - intros i (r & Hi & Hs). cbn in Hi. apply lookup_insert_Some in Hi as [[<- <-]|[_ Hr]];
      [by apply Hact|]. apply Ha. by exists r.
Qed.

Lemma db_inv_close fp t d : db_inv d → db_inv (close_open_windows fp t d).2.
Proof.
  intros [Hok Hsp Hl Hsh Ha]. pose proof (close_open_windows_ok fp t d Hok) as Hok'.
  rewrite close_open_windows_eq in *. cbn [snd] in *. split; [exact Hok'| |..].
  - intros fp' i j r s. cbn. intros (r' & <- & Hr)%lookup_fmap_Some (s' & <- & Hs)%lookup_fmap_Some
      Hij Hwr Hws. cbn in *.
    assert (∀ x, window_open fp' (if decide (window_open fp x) then with_window_closed t x else x) →
      window_open fp' x ∧ (if decide (window_open fp x) then with_window_closed t x else x) = x) as Hx.
    { intros x. destruct (decide (window_open fp x)); [by intros (_ & _ & ?)|done]. }
    destruct (Hx _ Hwr) as [? ->]. destruct (Hx _ Hws) as [? ->]. by eapply (Hsp fp' i j).
  - assert (ledger (set_tickets (tickets_closed fp t (tickets d)) d)) as [Hc Hn]
      by by apply ledger_closed.
    case_decide; [by destruct Hl; split|by split].
  - done.
  - done.
Qed.

(** ** Invariants of the stream *)

Section system.
Context {R : Type} `{!Pydantic, !FloatText, !RedisStreams R}.
Implicit Types w : World R.

(** Events whose text can be read back. *)
Definition good_event (e : AgentEvent) : Prop :=
  valid e = true ∧ event_ok e ∧ json_wf (event_json e).

(** Events whose text Postgres accepts as jsonb. *)
Definition storable (e : AgentEvent) : Prop := jsonb_ok (event_json e) = true.

Lemma good_event_read e : good_event e → read_message (dumps (event_json e)) = Ok e.
Proof.
  intros (Hv & Hok & Hwf). unfold read_message. rewrite loads_dumps_wf by done.
  unfold model_validate_event. by rewrite event_of_json_event_json.
Qed.

Lemma good_event_validate e : good_event e → model_validate_event (event_json e) = Ok e.
Proof.
  intros (Hv & Hok & _). unfold model_validate_event. by rewrite event_of_json_event_json.
Qed.

Definition entry_of (m : string) (e : AgentEvent) : string * stream_fields :=
  (m, [("event", dumps (event_json e))]).

(** A message that is no longer on the stream because MAXLEN trimmed it. *)
Definition trimmed (m : string) (r : R) : Prop := full r ∧ m ∉ (entries r).*1.

(** A delivered event was added to the stream, and is unread, pending or
    concluded, or was trimmed. *)
Definition accounted (d : DB) (r : R) (i : uuid) (m : string) : Prop :=
  (∃ e, good_event e ∧ ae_id e = i ∧ entry_of m e ∈ history r) ∧
  (m ∈ (unread r).*1 ∨ m ∈ pending r ∨ concluded d i ∨ trimmed m r).

Record stream_inv (d : DB) (r : R) : Prop := {
  si_payload : ∀ i row, deliverable d i row →
    ∃ e, good_event e ∧ ae_id e = i ∧ er_payload row = Some (event_json e);
  si_history : ∀ x, x ∈ history r →
    ∃ m e, good_event e ∧ storable e ∧ x = entry_of m e;
  si_entries : ∀ x, x ∈ entries r → x ∈ history r;
  si_unread : ∀ x, x ∈ unread r → x ∈ entries r;
  si_pending : ∀ m, m ∈ pending r → m ∈ (history r).*1;
  si_ids : NoDup (history r).*1;
  si_receipts : ∀ i row m, deliverable d i row → er_queue_message_id row = Some m →
    accounted d r i m;
}.

Definition sys_inv (d : DB) (r : R) : Prop := db_inv d ∧ stream_inv d r.

Lemma entry_event (r : R) m e e' :
  NoDup (history r).*1 → good_event e → good_event e' →
  entry_of m e ∈ history r → entry_of m e' ∈ history r → e = e'.
Proof.
  intros Hnd He He' Hi Hi'. pose proof (NoDup_keys_unique _ _ _ _ Hnd Hi Hi') as Heq.
  assert (Hd : read_message (dumps (event_json e)) = read_message (dumps (event_json e')))
    by (f_equal; congruence).
  rewrite !good_event_read in Hd by done. congruence.
Qed.

(** *** Steps of the HTTP side and the outbox *)

Inductive front_step : DB * R → DB * R → Prop :=
| fs_admit (E : Env) e w o w' :
    good_event e → atomically (admit_event e DEDUPE_WINDOW) w = (o, w') →
    front_step (w_db w, w_redis w) (w_db w', w_redis w')
| fs_quarantine (E : Env) id source t reason w o w' :
    atomically (quarantine id source t reason) w = (o, w') →
    front_step (w_db w, w_redis w) (w_db w', w_redis w')
| fs_close (E : Env) fp t w o w' :
    atomically (close_window fp t) w = (o, w') →
    front_step (w_db w, w_redis w) (w_db w', w_redis w')
| fs_dispatch (E : Env) id w o w' :
    atomically (dispatch_body id) w = (o, w') →
    front_step (w_db w, w_redis w) (w_db w', w_redis w').

Lemma stream_inv_events (d : DB) (r : R) ev :
  stream_inv d r →
  (∀ i row, ev !! i = Some row → er_quarantined row = false →
     (∃ row', deliverable d i row' ∧ er_payload row = er_payload row' ∧
        er_queue_message_id row = er_queue_message_id row') ∨
     (er_queue_message_id row = None ∧
      ∃ e, good_event e ∧ ae_id e = i ∧ er_payload row = Some (event_json e))) →
  ∀ tk, stream_inv (set_tickets tk (set_events ev d)) r.
Proof.
  intros [Hp He Hh Hu Hpe Hi Hr] Hev tk. split; try done.
  - intros i row [Hrow Hq]. cbn in Hrow.
    destruct (Hev i row Hrow Hq) as [(row' & Hd & -> & _)|(_ & Hnew)]; [by apply (Hp i)|done].
  - intros i row m [Hrow Hq] Hm. cbn in Hrow.
    destruct (Hev i row Hrow Hq) as [(row' & Hd & _ & Hm')|(Hn & _)]; [|congruence].
    apply (Hr i row' m Hd). congruence.
Qed.

Lemma set_tickets_id d ev : set_tickets (tickets d) (set_events ev d) = set_events ev d.
Proof. done. Qed.

Lemma keep_admit `{Env} (r : R) e : keeps (redis_is r) (admit_event e DEDUPE_WINDOW).
Proof. pose proof (redis_ignores r). unfold admit_event. keep_steps. Qed.

Lemma keep_quarantine `{Env} (r : R) id source t reason :
  keeps (redis_is r) (quarantine id source t reason).
Proof. pose proof (redis_ignores r). unfold quarantine. keep_steps. Qed.
Lemma keep_close_window `{Env} (r : R) fp t : keeps (redis_is r) (close_window fp t).
Proof. pose proof (redis_ignores r). unfold close_window. keep_steps. Qed.

Lemma front_admit `{Env} e w o w' :
  good_event e → atomically (admit_event e DEDUPE_WINDOW) w = (o, w') →
  sys_inv (w_db w) (w_redis w) → sys_inv (w_db w') (w_redis w').
Proof.
  intros He Ha [Hdb Hs].
  rewrite (keep_atomically _ (redis_ignores (w_redis w)) _ (keep_admit _ e) _ _ _ Ha eq_refl).
  apply atomically_admit_inv in Ha as [(a & Ha & _)|(x & _ & ->)]; [|done].
  assert (db_ok (w_db w')) as Hok by (eapply admits_ok; [done|apply Hdb]).
  assert (dedupe_spaced (w_db w')) as Hsp
    by (eapply (admits_spaced e (admitted_row e)); [done|done|exact Ha|apply Hdb]).
  destruct Ha as [id r Hi Hc _ _|_ Hn _]; (split; [by apply db_inv_events|]);
    rewrite <-set_tickets_id; apply stream_inv_events; try done.
  - intros i row [[<- <-]|[_ Hrow]]%lookup_insert_Some Hq; left; [by exists r|by exists row].
  - intros i row [[<- <-]|[_ Hrow]]%lookup_insert_Some Hq; [right|left; by exists row].
    split; [done|]. by exists e.
Qed.

Lemma front_quarantine `{Env} id source t reason w o w' :
  atomically (quarantine id source t reason) w = (o, w') →
  sys_inv (w_db w) (w_redis w) → sys_inv (w_db w') (w_redis w').
Proof.
  intros Ha [Hdb Hs].
  pose proof (keep_quarantine (w_redis w) id source t reason) as Hk.
  rewrite (keep_atomically _ (redis_ignores (w_redis w)) _ Hk _ _ _ Ha eq_refl).
  apply atomically_inv in Ha as [(a & w1 & Hq & -> & _)|(e & o1 & w1 & _ & _ & [-> | ->])];
    [|done..].
  apply sql_inv in Hq as [(? & d & _ & (d' & Hi & [= <- <-])%rbind_Ok & ->)|(e & [=] & _)].
  pose proof (insert_event_ok _ _ _ _ Hi (di_ok _ Hdb)) as Hok.
  unfold insert_event in Hi. cbn in *. case_match eqn:Hn; [done|].
  apply rbind_Ok in Hi as ([] & _ & [= <-]). split.
  - apply db_inv_events; [done|done|]. intros fp i j r s. cbn.
    intros [[<- <-]|[_ Hr]]%lookup_insert_Some [[<- <-]|[_ Hs']]%lookup_insert_Some Hij Wr Ws;
      [done|by destruct Wr as (? & ? & _)|by destruct Ws as (? & ? & _)|].
    by eapply (di_spaced _ Hdb fp i j).
  - rewrite <-set_tickets_id. apply stream_inv_events; [done|].
    intros i row [[<- <-]|[_ Hrow]]%lookup_insert_Some Hq; [done|left; by exists row].
Qed.

Lemma front_close `{Env} fp t w o w' :
  atomically (close_window fp t) w = (o, w') →
  sys_inv (w_db w) (w_redis w) → sys_inv (w_db w') (w_redis w').
Proof.
  intros Ha [Hdb Hs].
  pose proof (keep_close_window (w_redis w) fp t) as Hk.
  rewrite (keep_atomically _ (redis_ignores (w_redis w)) _ Hk _ _ _ Ha eq_refl).
  apply atomically_inv in Ha as [(a & w1 & Hq & -> & _)|(e & o1 & w1 & _ & _ & [-> | ->])];
    [|done..].
  apply close_window_inv in Hq as [[_ ->]|(e & [=] & _)]. cbn [w_db put_db next_tick].
  split; [by apply db_inv_close|]. rewrite close_open_windows_eq. cbn [snd].
  apply stream_inv_events; [done|].
  intros i row (s & <- & Hs')%lookup_fmap_Some Hq. left. exists s. cbn in *.
  destruct (decide (window_open fp s)); by split.
Qed.

(** An unread message stays unread, or is trimmed. *)
Lemma xadd_unread_or v (r : R) m :
  NoDup (history (xadd v r).2).*1 → (∀ x, x ∈ entries r → x ∈ history r) →
  (∀ x, x ∈ unread r → x ∈ entries r) → m ∈ (unread r).*1 →
  m ∈ (unread (xadd v r).2).*1 ∨ trimmed m (xadd v r).2.
Proof.
  intros Hnd Hh Hu ([m' fs] & -> & Hx)%list_elem_of_fmap.
  destruct (decide ((m', fs) ∈ entries (xadd v r).2)) as [Hin|Hout].
  { left. apply list_elem_of_fmap. exists (m', fs). split; [done|].
    apply xadd_unread_kept; [|done]. apply elem_of_app. by left. }
  right. destruct (xadd_entries_drop v r) as (k & Hk & [->|Hf]).
  { exfalso. apply Hout. rewrite Hk. apply elem_of_app. left. by apply Hu. }
  split; [done|]. cbn. intros ([m'' fs'] & Heq & Hy)%list_elem_of_fmap. cbn in Heq. subst m''.
  assert (∀ y, y ∈ entries r ++ [new_entry v r] → y ∈ history (xadd v r).2) as Hsub.
  { intros y. rewrite xadd_history, !elem_of_app. intros [?|?]; [left; by apply Hh|by right]. }
  assert (fs = fs') as ->; [|done].
  apply (NoDup_keys_unique _ m' _ _ Hnd); apply Hsub.
  - apply elem_of_app. left. by apply Hu.
  - by apply xadd_entries_sub.
Qed.

(** What was trimmed does not come back. *)
Lemma trimmed_xadd v (r : R) m :
  m ∈ (history r).*1 → trimmed m r → trimmed m (xadd v r).2.
Proof.
  intros Hm [Hf Hn]. split; [by apply xadd_full|].
  intros (x & -> & [Hx|Hx]%xadd_entries_sub%elem_of_app)%list_elem_of_fmap.
  - apply Hn. by apply list_elem_of_fmap_2.
  - apply list_elem_of_singleton in Hx as ->. by apply (xadd_new v r).
Qed.

(** One more entry, under a new id. *)
Lemma stream_inv_xadd d (r : R) e :
  good_event e → storable e → stream_inv d r →
  stream_inv d (xadd (dumps (event_json e)) r).2.
Proof.
  intros He Hj [Hp Hen Hh Hu Hpe Hi Hr]. set (v := dumps (event_json e)).
  assert (∀ x, x ∈ history r → x ∈ history (xadd v r).2) as Hgrow.
  { intros x Hx. rewrite xadd_history. apply elem_of_app. by left. }
  assert (NoDup (history (xadd v r).2).*1) as Hnd.
  { rewrite xadd_history, fmap_app. apply list.NoDup_app. split; [done|].
    split; [|apply list.NoDup_singleton]. intros m Hm ->%list_elem_of_singleton.
    by apply (xadd_new v r). }
  split; try done.
  - intros x. rewrite xadd_history. intros [Hx|Hx]%elem_of_app; [by apply Hen|].
    apply list_elem_of_singleton in Hx as ->. by eexists _, e.
  - intros x Hx%xadd_entries_sub. rewrite xadd_history.
    apply elem_of_app in Hx as [Hx|Hx]; apply elem_of_app; [left; by apply Hh|by right].
  - intros x. by apply xadd_unread_held.
  - intros m. rewrite xadd_history, xadd_pending, fmap_app, elem_of_app. intros Hm.
    left. by apply Hpe.
  - intros i row m Hd Hm. destruct (Hr i row m Hd Hm) as [(e' & He' & Hid & Hin) Hst].
    split; [by exists e'; auto|]. rewrite xadd_pending.
    destruct Hst as [Hst|[Hst|[Hst|Hst]]]; [|by auto|by auto|].
    + apply (xadd_unread_or v) in Hst; [|done..]. tauto.
    + do 3 right. apply trimmed_xadd; [|done]. exact (list_elem_of_fmap_2 fst _ _ Hin).
Qed.

Lemma front_dispatch `{Env} id w o w' :
  atomically (dispatch_body id) w = (o, w') →
  sys_inv (w_db w) (w_redis w) → sys_inv (w_db w') (w_redis w').
Proof.
  intros Hd%atomically_dispatch_inv [Hdb Hs].
  assert (∀ row event, deliverable (w_db w) id row →
    model_validate_event (default JNull (er_payload row)) = Ok event →
    good_event event ∧ ae_id event = id ∧ storable event) as Hgood.
  { intros row event Hrow Hv. destruct (si_payload _ _ Hs _ _ Hrow) as (e & He & Hid & Hpay).
    assert (storable e) as Hj.
    { destruct Hrow as [Hrow _]. apply (ok_events _ (di_ok _ Hdb)), event_check_Ok in Hrow as (_ & Hj & _).
      rewrite Hpay in Hj. exact Hj. }
    rewrite Hpay in Hv. cbn in Hv. rewrite good_event_validate in Hv by done.
    by injection Hv as <-. }
  inversion Hd as [|row event m Hrow|row event t o' Hrow Hm Hv m Hc Ho|row event e Hrow Hm Hv|];
    subst; try done.
  - destruct (Hgood _ _ Hrow Hv) as (He & Hid & Hj).
    pose proof (stream_inv_xadd _ _ _ He Hj Hs) as Hs'. split.
    + apply db_inv_events; [done| |].
      * apply receipt_keeps_db_ok; [done|done|done|apply Hdb].
      * intros fp i j r s. cbn. destruct Hrow as [Hrow _].
        assert (∀ k z, <[id := with_receipt m t row]> (events (w_db w)) !! k = Some z →
          ∃ z', events (w_db w) !! k = Some z' ∧ er_received_at z' = er_received_at z ∧
                (window_open fp z → window_open fp z')) as Hback.
        { intros k z [[<- <-]|[_ Hz]]%lookup_insert_Some; [by exists row|by exists z]. }
        intros (x & Hx & <- & Wx)%Hback (y & Hy & <- & Wy)%Hback Hij ??.
        by eapply (di_spaced _ Hdb fp i j); auto.
    + destruct Hs' as [Hp' Hen' Hh' Hu' Hpe' Hi' Hr']. split; try done.
      * intros i row' [Hr'' Hq]. cbn in Hr''.
        apply lookup_insert_Some in Hr'' as [[<- <-]|[_ Hx]]; [by apply (Hp' id row)|].
        by apply (Hp' i row').
      * intros i row' m' [Hr'' Hq] Hm'. cbn in Hr''.
        apply lookup_insert_Some in Hr'' as [[<- <-]|[_ Hx]]; [|by apply (Hr' i row')].
        cbn in Hm'. injection Hm' as <-. split.
        -- exists event. split; [done|]. split; [done|]. rewrite xadd_history.
           apply elem_of_app. right. by apply list_elem_of_singleton.
        -- left. apply list_elem_of_fmap. exists (new_entry (dumps (event_json event)) (w_redis w)).
           split; [done|]. apply xadd_unread_kept; [|apply xadd_entries_last].
           apply elem_of_app. right. by apply list_elem_of_singleton.
  - destruct (Hgood _ _ Hrow Hv) as (He & Hid & Hj). split; [done|]. by apply stream_inv_xadd.
Qed.

Lemma front_step_inv x y : front_step x y → sys_inv x.1 x.2 → sys_inv y.1 y.2.
Proof.
  intros [E e w o w' He Ha|E id source t reason w o w' Ha|E fp t w o w' Ha|E id w o w' Ha];
    eauto using front_admit, front_quarantine, front_close, front_dispatch.
Qed.

Lemma front_steps_inv x y : rtc front_step x y → sys_inv x.1 x.2 → sys_inv y.1 y.2.
Proof. induction 1; eauto using front_step_inv. Qed.

(** *** What the worker may rely on holds of the front steps *)

Record front_frame (x y : DB * R) : Prop := {
  ff_runs : runs y.1 = runs x.1;
  ff_actions : ticket_actions y.1 = ticket_actions x.1;
  ff_pending : pending y.2 = pending x.2;
  ff_history : ∀ z, z ∈ history x.2 → z ∈ history y.2;
}.

Lemma front_step_frame x y : front_step x y → front_frame x y.
Proof.
  intros [E e w o w' He Ha|E id source t reason w o w' Ha|E fp t w o w' Ha|E id w o w' Ha].
  - pose proof (keep_atomically _ (redis_ignores (w_redis w)) _ (keep_admit _ e) _ _ _ Ha eq_refl)
      as Hr. apply atomically_admit_inv in Ha as [(a & Ha & _)|(e' & _ & Hd)];
      [destruct Ha|]; split; cbn; rewrite ?Hr, ?Hd; done.
  - pose proof (keep_quarantine (w_redis w) id source t reason) as Hk.
    pose proof (keep_atomically _ (redis_ignores (w_redis w)) _ Hk _ _ _ Ha eq_refl) as Hr.
    apply atomically_inv in Ha as [(a & w1 & Hq & -> & _)|(e & o1 & w1 & _ & _ & [-> | ->])];
      unfold redis_is in Hr; cbn in Hr; try (by split; cbn; rewrite ?Hr).
    apply sql_inv in Hq as [(? & d & _ & (d' & Hi & [= <- <-])%rbind_Ok & ->)|(e & [=] & _)].
    unfold insert_event in Hi. case_match; [done|]. apply rbind_Ok in Hi as ([] & _ & [= <-]). by split.
  - pose proof (keep_close_window (w_redis w) fp t) as Hk.
    pose proof (keep_atomically _ (redis_ignores (w_redis w)) _ Hk _ _ _ Ha eq_refl) as Hr.
    apply atomically_inv in Ha as [(a & w1 & Hq & -> & _)|(e & o1 & w1 & _ & _ & [-> | ->])];
      unfold redis_is in Hr; cbn in Hr; try (by split; cbn; rewrite ?Hr).
    apply close_window_inv in Hq as [[_ ->]|(e & [=] & _)]. by split.
  - apply atomically_dispatch_inv in Ha.
    assert (∀ v z, z ∈ history (w_redis w) → z ∈ history (xadd v (w_redis w)).2) as Hx.
    { intros v z Hx. rewrite xadd_history. apply elem_of_app. by left. }
    inversion Ha; subst; split; cbn; rewrite ?xadd_pending; try done; apply Hx.
Qed.

Lemma front_steps_frame x y : rtc front_step x y → front_frame x y.
Proof.
  induction 1 as [x|x y z Hs _ IH]; [by split|]. apply front_step_frame in Hs.
  destruct Hs as [H1 H2 H3 H4], IH as [K1 K2 K3 K4].
  split; [by rewrite K1|by rewrite K2|by rewrite K3|by auto].
Qed.

(** *** The worker among them *)

Definition world_inv w : Prop := sys_inv (w_db w) (w_redis w).

Lemma world_inv_eq w w' :
  w_db w' = w_db w → w_redis w' = w_redis w → world_inv w → world_inv w'.
Proof. unfold world_inv. by intros -> ->. Qed.

Lemma stream_inv_mono d d' (r : R) :
  events d' = events d → (∀ i, concluded d i → concluded d' i) →
  stream_inv d r → stream_inv d' r.
Proof.
  intros He Hc [Hp Hen Hh Hu Hpe Hi Hr].
  assert (∀ i row, deliverable d' i row → deliverable d i row) as Hd.
  { intros i row [Hx Hq]. split; [|done]. by rewrite <-He. }
  split; try done.
  - intros i row Hrow%Hd. by apply (Hp i).
  - intros i row m Hrow%Hd Hm. destruct (Hr i row m Hrow Hm) as [Hin Hst].
    split; [done|]. naive_solver.
Qed.

Context `{!Env, !Others R}.
Context (Hothers : ∀ n d r, rtc front_step (d, r) (others n d r)).

Lemma others_rely : front_rely R.
Proof.
  split; intros n d r; pose proof (front_steps_frame _ _ (Hothers n d r)) as Hf;
    [apply Hf|apply Hf|apply Hf].
Qed.

Lemma others_inv w : world_inv w → world_inv (after_others w).
Proof.
  intros Hw. exact (front_steps_inv _ _ (Hothers (w_tick w) (w_db w) (w_redis w)) Hw).
Qed.

Lemma others_history w x : x ∈ history (w_redis w) → x ∈ history (w_redis (after_others w)).
Proof. apply (ff_history _ _ (front_steps_frame _ _ (Hothers (w_tick w) (w_db w) (w_redis w)))). Qed.

Lemma inv_open_run run event fp file off t w o w' :
  transaction (open_run run event fp file off t) w = (o, w') → world_inv w → world_inv w'.
Proof.
  intros Ht Hw%others_inv. apply transaction_world in Ht as [Hr Hd];
    [|intros r; apply keep_open_run, redis_ignores].
  destruct Hd as [(a & w1 & X1 & Hd & _)|[Hd _]]; [|by eapply world_inv_eq].
  unfold world_inv, sys_inv. rewrite Hr, Hd. destruct Hw as [Hdb Hs].
  apply open_run_inv in X1 as (_ & -> & Hok).
  set (row := claimed_row _ _ _ _ _ _).
  assert (∀ r, runs (w_db (after_others w)) !! run = Some r → rn_status r = "concluded" → row = r)
    as Hrow.
  { intros r Hx Hc. unfold row, claimed_row. rewrite Hx, decide_False; [done|]. by rewrite Hc. }
  split.
  - specialize (Hok (di_ok _ Hdb)). cbn zeta in Hok.
    apply db_inv_run; [done|by apply Hok| |].
    + unfold row, claimed_row.
      destruct (runs (w_db (after_others w)) !! run) as [r|] eqn:Hx; [|by left].
      destruct (di_shaped _ Hdb _ _ Hx) as [(Hst & He & Hc)|Hst].
      * rewrite decide_True by done. left. done.
      * rewrite decide_False by (by rewrite Hst). by right.
    + intros Hc. apply (di_action _ Hdb). unfold row, claimed_row in Hc.
      destruct (runs (w_db (after_others w)) !! run) as [r|] eqn:Hx; [|done].
      exists r. split; [done|]. case_decide; [cbn in Hc; congruence|done].
  - apply (stream_inv_mono (w_db (after_others w))); [done| |done]. intros i (r & Hx & Hc).
    destruct (decide (i = run)) as [->|Hne].
    + exists row. split; [apply lookup_insert_eq|]. by rewrite (Hrow r).
    + exists r. split; [|done]. cbn. by rewrite lookup_insert_ne.
Qed.

Lemma inv_apply c w o w' :
  transaction (apply_conclusion c) w = (o, w') → world_inv w →
  world_inv w' ∧ (is_ok o = true → is_Some (ticket_actions (w_db w') !! co_run_id c)).
Proof.
  intros Ht Hw%others_inv. apply transaction_world in Ht as [Hr Hd];
    [|intros r; apply keep_apply, redis_ignores].
  destruct Hd as [(a & w1 & X1 & Hd & _)|[Hd [e ->]]]; [|split; [by eapply world_inv_eq|done]].
  apply apply_inv in X1 as [t Ha]. rewrite <-Hd in Ha.
  split; [|intros _; by eapply applies_action].
  unfold world_inv, sys_inv. rewrite Hr. destruct Hw as [Hdb Hs]. split.
  - by eapply db_inv_applies.
  - apply (stream_inv_mono (w_db (after_others w))); [by destruct Ha| |done]. intros i (r & Hx & Hc). exists r.
    by rewrite (applies_runs _ _ _ _ _ Ha).
Qed.

Lemma inv_close_run run c off w o w' :
  is_Some (ticket_actions (w_db w) !! run) →
  transaction (close_run run "concluded" c off) w = (o, w') → world_inv w → world_inv w'.
Proof.
  intros Hact Ht Hw%others_inv. apply transaction_world in Ht as [Hr Hd];
    [|intros r; apply keep_close_run, redis_ignores].
  destruct Hd as [(a & w1 & X1 & Hd & _)|[Hd _]]; [|by eapply world_inv_eq].
  apply close_run_inv in X1 as [[_ Hsame]|(row & t & Hrow & Hck & Hset)].
  { eapply world_inv_eq; [|exact Hr|exact Hw]. by rewrite Hd. }
  unfold world_inv, sys_inv. rewrite Hr, Hd, Hset. destruct Hw as [Hdb Hs]. split.
  - apply db_inv_run; [done| |by right|].
    + apply set_runs_ok; [done|apply Hdb].
    + intros _. by rewrite (others_actions others_rely).
  - apply (stream_inv_mono (w_db (after_others w))); [done| |done]. intros i (r & Hx & Hc).
    destruct (decide (i = run)) as [->|Hne].
    + eexists. split; [apply lookup_insert_eq|done].
    + exists r. split; [|done]. cbn. by rewrite lookup_insert_ne.
Qed.

Lemma inv_record run actor kind payload : keeps world_inv (record run actor kind payload).
Proof. intros w o w' [Hd Hr]%record_db. by apply world_inv_eq. Qed.

Lemma inv_run_body event : keeps world_inv (run_body event).
Proof.
  intros w o w' Hb Hw. unfold run_body in Hb.
  apply mbind_inv in Hb as [(l1 & w1 & R1 & Hb)|(e & R1 & _)]; apply inv_record in R1; [|by auto].
  apply mbind_inv in Hb as [(t1 & w2 & [= <- <-] & Hb)|(e & [=] & _)].
  apply mbind_inv in Hb as [(t2 & w3 & [= <- <-] & Hb)|(e & [=] & _)].
  apply mbind_inv in Hb as [(c & w4 & [= Hc <-] & Hb)|(e & [= _ <-] & _)]; [|by apply R1].
  apply mbind_inv in Hb as [(l2 & w5 & R2 & Hb)|(e & R2 & _)]; apply inv_record in R2;
    [|by apply R2, R1].
  specialize (R2 (R1 Hw)).
  apply mbind_inv in Hb as [(out & w6 & Ha & Hb)|(e & Ha & _)];
    apply inv_apply in Ha as [Hw6 Hact]; try done.
  specialize (Hact eq_refl). rewrite (triage_run_id _ _ _ _ Hc) in Hact.
  apply mbind_inv in Hb as [(l3 & w7 & R3 & Hb)|(e & R3 & _)]; [|by apply inv_record in R3; auto].
  pose proof (record_db _ _ _ _ _ _ _ R3) as [Hd7 _]. apply inv_record in R3.
  specialize (R3 Hw6). rewrite <-Hd7 in Hact.
  apply mbind_inv in Hb as [(u & w8 & Hcl & [= <- <-])|(e & Hcl & _)];
    by eapply inv_close_run.
Qed.

Lemma inv_handle event : keeps world_inv (handle event).
Proof.
  unfold handle. apply keeps_bind; [by intros w o w' [= <- <-]|intros t].
  apply keeps_bind; [by intros w o w' [-> _]%start_offset_inv|intros off].
  apply keeps_bind; [by intros w o w' [= _ <-]|intros file].
  apply keeps_bind; [intros w o w'; apply inv_open_run|intros claim].
  case_decide; [apply keeps_ret|apply inv_run_body].
Qed.

Lemma inv_redis_await {A} (c : R → result exn (A * R)) w o w' :
  redis_await c w = (o, w') → world_inv w →
  (∀ a r, c (w_redis (after_others w)) = Ok (a, r) →
     stream_inv (w_db (after_others w)) r) →
  world_inv w' ∧
  (w_redis w' = w_redis (after_others w) ∨
   ∃ a, c (w_redis (after_others w)) = Ok (a, w_redis w')) ∧
  (∀ a, o = Ok a → c (w_redis (after_others w)) = Ok (a, w_redis w')).
Proof.
  intros Hc Hw%others_inv Hs. unfold redis_await, mbind' in Hc. rewrite interleave_eq in Hc.
  apply redis_call_inv in Hc as [(a & r & Hr & -> & Ho)|(e & -> & ->)].
  - specialize (Hs a r Hr). split; [split; [apply Hw|exact Hs]|].
    split; [right; by exists a|]. intros a' ->. destruct Ho as [[= ->]|[e [=]]]. done.
  - split; [done|]. split; [by left|done].
Qed.

(** Acknowledging the message of a concluded event. *)
Lemma inv_ack mid e w o w' :
  good_event e → entry_of mid e ∈ history (w_redis w) → concluded (w_db w) (ae_id e) →
  ack mid w = (o, w') → world_inv w →
  world_inv w' ∧ ∀ x, x ∈ history (w_redis w) → x ∈ history (w_redis w').
Proof.
  intros He Hin Hc Ha Hw.
  assert (concluded (w_db (after_others w)) (ae_id e)) as Hc'.
  { destruct Hc as (r & Hr & Hs). exists r. by rewrite (others_runs others_rely). }
  pose proof (others_history w) as Hent. pose proof (others_inv _ Hw) as [_ Hso].
  destruct (inv_redis_await _ _ _ _ Ha Hw) as (Hw' & Hr & _).
  - intros a r [= _ <-]. destruct Hso as [Hp Hen Hh Hu Hpe Hi Hr]. split; try done;
      rewrite ?xack_history, ?xack_entries, ?xack_unread; try done.
    { intros m. rewrite xack_pending, list_elem_of_filter. intros [_ Hm]. by apply Hpe. }
    intros i row m Hd Hm. destruct (Hr i row m Hd Hm) as [(e' & He' & Hid & Hin') Hst].
    split; [exists e'; by rewrite xack_history|]. unfold trimmed, full.
    rewrite xack_unread, xack_entries, xack_pending, list_elem_of_filter.
    destruct Hst as [Hst|[Hst|Hst]]; [by left| |by right; right].
    destruct (decide (m = mid)) as [->|Hne]; [|by right; left]. right; right; left.
    rewrite <-Hid. by rewrite (entry_event _ _ _ _ Hi He' He Hin' (Hent _ Hin)).
  - split; [done|]. intros x Hx%Hent. destruct Hr as [->|[a [= _ <-]]]; [done|].
    by rewrite xack_history.
Qed.

Lemma inv_process mid fields w o w' :
  (mid, fields) ∈ history (w_redis w) → process mid fields w = (o, w') → world_inv w →
  world_inv w' ∧ ∀ x, x ∈ history (w_redis w) → x ∈ history (w_redis w').
Proof.
  intros Hin Hp Hw. destruct (si_history _ _ (proj2 Hw) _ Hin) as (m & e & He & _ & Heq).
  pose proof (f_equal fst Heq) as Hm. pose proof (f_equal snd Heq) as Hf.
  change (mid = m) in Hm. change (fields = (entry_of m e).2) in Hf. clear Heq. subst mid fields.
  change ((m, (entry_of m e).2)) with (entry_of m e) in Hin.
  destruct (process_inv m (entry_of m e).2 (dumps (event_json e)) e w o w')
    as (o1 & w1 & Hh & Hk).
  - reflexivity.
  - by apply good_event_read.
  - done.
  - assert (∀ x, x ∈ history (w_redis w) → x ∈ history (w_redis w1)) as Hent.
    { intros x. apply (keep_handle_redis (λ r, x ∈ history r) e (λ w, others_history w x) _ _ _ Hh). }
    pose proof (inv_handle e _ _ _ Hh Hw) as Hw1. destruct o1 as [s|ex].
    + destruct (inv_ack m e w1 o w') as [Hw' Hx]; [done|by apply Hent| |done|done|by auto].
      by eapply (handle_concludes others_rely).
    + by destruct Hk as [-> _].
Qed.

Lemma inv_batch batch w o w' :
  (∀ x, x ∈ batch → x ∈ history (w_redis w)) →
  mfor batch (λ m, process m.1 m.2) w = (o, w') → world_inv w → world_inv w'.
Proof.
  revert w o. induction batch as [|[mid fields] batch IH]; intros w o Hin Hb Hw; cbn [mfor] in Hb.
  { by injection Hb as <- <-. }
  apply mbind_inv in Hb as [(u & w1 & Hp & Hb)|(e & Hp & _)].
  - apply inv_process in Hp as [Hw1 Hx]; [|apply Hin; by left|done].
    apply mbind_inv in Hb as [(us & w2 & Hf & [= <- <-])|(e & Hf & _)];
      (eapply IH; [|exact Hf|done]); intros x Hin'; apply Hx, Hin; by right.
  - apply inv_process in Hp as [Hw1 _]; [done|apply Hin; by left|done].
Qed.

Lemma stream_inv_read n d (r : R) : stream_inv d r → stream_inv d (xreadgroup n r).2.
Proof.
  intros [Hp Hen Hh Hu Hpe Hi Hr].
  split; rewrite ?xreadgroup_history, ?xreadgroup_entries; try done.
  - intros x. rewrite xreadgroup_unread. intros Hx. apply Hu.
    rewrite <-(take_drop n (unread r)). apply elem_of_app. by right.
  - intros m. rewrite xreadgroup_pending, elem_of_app. intros [Hm|Hm]; [by apply Hpe|].
    apply list_elem_of_fmap in Hm as (x & -> & Hx). apply list_elem_of_fmap. exists x.
    split; [done|]. apply Hh, Hu. rewrite <-(take_drop n (unread r)). apply elem_of_app. by left.
  - intros i row m Hd Hm. destruct (Hr i row m Hd Hm) as [Hin Hst].
    split; [by rewrite xreadgroup_history|]. unfold trimmed, full.
    rewrite xreadgroup_unread, xreadgroup_pending, xreadgroup_entries, elem_of_app.
    destruct Hst as [Hst|Hst]; [|naive_solver].
    rewrite <-(take_drop n (unread r)), fmap_app, elem_of_app in Hst. naive_solver.
Qed.

Lemma inv_worker_round w o w' : worker_round w = (o, w') → world_inv w → world_inv w'.
Proof.
  intros Hr Hw. unfold worker_round in Hr.
  assert (∀ o1 w1, redis_await (λ r, Ok (xreadgroup READ_COUNT r)) w = (o1, w1) →
    world_inv w1 ∧ ∀ batch, o1 = Ok batch → ∀ x, x ∈ batch → x ∈ history (w_redis w1)) as Hread.
  { intros o1 w1 Hc. destruct (inv_redis_await _ _ _ _ Hc Hw) as (Hw1 & _ & Hok).
    - intros a r Ha.
      assert (xreadgroup READ_COUNT (w_redis (after_others w)) = (a, r)) as Hx by congruence.
      pose proof (stream_inv_read READ_COUNT _ _ (proj2 (others_inv _ Hw))) as Hs.
      by rewrite Hx in Hs.
    - split; [done|]. intros batch -> x Hx. specialize (Hok batch eq_refl).
      assert (xreadgroup READ_COUNT (w_redis (after_others w)) = (batch, w_redis w1)) as Hok'
        by congruence. clear Hok. rename Hok' into Hok.
      pose proof (f_equal fst Hok) as Hb. pose proof (f_equal snd Hok) as Hr1. cbn in Hb, Hr1.
      rewrite <-Hr1, xreadgroup_history. rewrite xreadgroup_batch in Hb. subst batch.
      apply (si_entries _ _ (proj2 (others_inv _ Hw))), (si_unread _ _ (proj2 (others_inv _ Hw))).
      rewrite <-(take_drop READ_COUNT (unread _)). apply elem_of_app. by left. }
  apply mbind_inv in Hr as [(batch & w1 & Ht & Hr)|(e & Ht & _)]; unfold mtry in Ht.
  - destruct (redis_await _ w) as [[b|e] w2] eqn:Hc; destruct (Hread _ _ eq_refl) as [Hw2 Hb].
    + injection Ht as -> ->.
      apply mbind_inv in Hr as [(us & w3 & Hf & [= <- <-])|(e & Hf & _)];
        by eapply inv_batch; [apply Hb| |].
    + destruct (is_Exception e); [|done]. injection Ht as <- <-.
      by injection Hr as <- <-.
  - destruct (redis_await _ w) as [[b|e'] w2] eqn:Hc; destruct (Hread _ _ eq_refl) as [Hw2 Hb].
    + done.
    + destruct (is_Exception e'); [done|]. by injection Ht as <- <-.
Qed.
End system.

(** ** Executions *)

Section executions.
Context {R : Type} `{!Pydantic, !FloatText, !RedisStreams R}.
Implicit Types w : World R.

(** One step of the service: an action of the HTTP side or the outbox, the
    creation of the consumer group, a turn of the worker with such actions in
    between, or a restart with a new audit file. *)
Inductive sys_step : World R → World R → Prop :=
| ss_front w w' :
    front_step (w_db w, w_redis w) (w_db w', w_redis w') →
    w_files w' = w_files w → w_rec w' = w_rec w → sys_step w w'
| ss_group (E : Env) (O : Others R) w o w' :
    (∀ n d r, rtc front_step (d, r) (others n d r)) →
    ensure_group w = (o, w') → sys_step w w'
| ss_worker (E : Env) (O : Others R) w o w' :
    (∀ n d r, rtc front_step (d, r) (others n d r)) →
    worker_round w = (o, w') → sys_step w w'
| ss_restart (E : Env) pid w o w' : Recorder_init pid w = (o, w') → sys_step w w'.

(** A fresh deployment. *)
Record booted w : Prop := {
  bt_db : w_db w = empty_db;
  bt_history : history (w_redis w) = [];
  bt_entries : entries (w_redis w) = [];
  bt_unread : unread (w_redis w) = [];
  bt_pending : pending (w_redis w) = [];
}.

Definition reachable w : Prop := ∃ w0, booted w0 ∧ rtc sys_step w0 w.

Lemma booted_inv w : booted w → world_inv w.
Proof.
  intros [Hd Hh He Hu Hp]. unfold world_inv. rewrite Hd. split; [apply db_inv_empty|].
  split.
  - intros i row [Hi _]. cbn in Hi. by rewrite lookup_empty in Hi.
  - intros x. rewrite Hh. by intros ?%not_elem_of_nil.
  - intros x. rewrite He. by intros ?%not_elem_of_nil.
  - intros x. rewrite Hu. by intros ?%not_elem_of_nil.
  - intros m. rewrite Hp. by intros ?%not_elem_of_nil.
  - rewrite Hh. apply list.NoDup_nil. done.
  - intros i row m [Hi _]. cbn in Hi. by rewrite lookup_empty in Hi.
Qed.

Lemma xgroup_create_same (r r' : R) :
  xgroup_create r = Ok r' →
  entries r' = entries r ∧ unread r' = unread r ∧ pending r' = pending r ∧ history r' = history r.
Proof.
  intros Hc. destruct (group_exists r) eqn:Hg.
  - rewrite xgroup_create_busy in Hc by done. done.
  - destruct (xgroup_create_new r Hg) as (r2 & Hc2 & _ & ? & ? & ? & ?). rewrite Hc in Hc2.
    by injection Hc2 as <-.
Qed.

(** What creating the group does to the world. *)
Lemma ensure_group_inv `{!Env, !Others R} w o w' :
  ensure_group w = (o, w') →
  w_db w' = w_db (after_others w) ∧
  (w_redis w' = w_redis (after_others w) ∨
   xgroup_create (w_redis (after_others w)) = Ok (w_redis w')).
Proof.
  unfold ensure_group, mtry. destruct (redis_await _ w) as [o1 w1] eqn:Hc.
  assert (w_db w1 = w_db (after_others w) ∧ (w_redis w1 = w_redis (after_others w) ∨
    xgroup_create (w_redis (after_others w)) = Ok (w_redis w1))) as Hw1.
  { unfold redis_await, mbind' in Hc. rewrite interleave_eq in Hc.
    split; [by apply redis_call_db in Hc|].
    apply redis_call_inv in Hc as [(a & r & (r' & Hr & [= <- <-])%rbind_Ok & -> & _)|(e & _ & ->)];
      [by right|by left]. }
  destruct o1 as [[]|e]; [by intros [= <- <-]|].
  destruct e; try (by intros [= <- <-]). destruct (contains _ _); by intros [= <- <-].
Qed.

Lemma sys_step_inv w w' : sys_step w w' → world_inv w → world_inv w'.
Proof.
  intros [? ? Hf _ _|E O ? o ? Ho Hg|E O ? o ? Ho Hr|E pid ? o ? Hr] Hw.
  - by apply front_step_inv in Hf.
  - apply ensure_group_inv in Hg as [Hd Hr]. pose proof (others_inv Ho _ Hw) as [Hdb Hs].
    unfold world_inv, sys_inv. rewrite Hd. split; [done|].
    destruct Hr as [->|(He & Hu & Hp & Hh)%xgroup_create_same]; [done|].
    destruct Hs as [S1 S2 S3 S4 S5 S6 S7]. split; rewrite ?Hh, ?He, ?Hu, ?Hp; try done.
    intros i row m Hrow Hm. destruct (S7 i row m Hrow Hm) as [Hin Hst].
    unfold accounted, trimmed, full. by rewrite Hh, He, Hu, Hp.
  - by eapply inv_worker_round.
  - unfold Recorder_init in Hr. by injection Hr as <- <-.
Qed.

Lemma reachable_inv w : reachable w → world_inv w.
Proof.
  intros (w0 & Hb%booted_inv & Hs). induction Hs; eauto using sys_step_inv.
Qed.

(** *** Messages the worker gave up on *)

(** Delivered once, not acknowledged, and no longer unread. *)
Definition stuck (m : string) (r : R) : Prop :=
  m ∈ pending r ∧ m ∈ (history r).*1 ∧ m ∉ (unread r).*1.

Lemma stuck_xadd m v (r : R) : stuck m r → stuck m (xadd v r).2.
Proof.
  intros (Hp & Hh & Hu). unfold stuck.
  rewrite xadd_pending, xadd_history, fmap_app, elem_of_app.
  split; [done|]. split; [by left|].
  intros (x & -> & [Hx|Hx]%xadd_unread_sub%elem_of_app)%list_elem_of_fmap.
  - apply Hu. by apply list_elem_of_fmap_2.
  - apply list_elem_of_singleton in Hx as ->. by apply (xadd_new v r).
Qed.

Lemma stuck_front m x y : front_step x y → stuck m x.2 → stuck m y.2.
Proof.
  intros [E e w o w' He Ha|E id source t reason w o w' Ha|E fp t w o w' Ha|E id w o w' Ha];
    cbn.
  - by rewrite (keep_atomically _ (redis_ignores (w_redis w)) _ (keep_admit _ e) _ _ _ Ha eq_refl).
  - by rewrite (keep_atomically _ (redis_ignores (w_redis w)) _ (keep_quarantine _ _ _ _ _) _ _ _ Ha eq_refl).
  - by rewrite (keep_atomically _ (redis_ignores (w_redis w)) _ (keep_close_window _ _ _) _ _ _ Ha eq_refl).
  - apply atomically_dispatch_inv in Ha. inversion Ha; subst; eauto using stuck_xadd.
Qed.

Lemma stuck_fronts m x y : rtc front_step x y → stuck m x.2 → stuck m y.2.
Proof. induction 1; eauto using stuck_front. Qed.

Section round.
Context `{!Env, !Others R}.
Context (Hothers : ∀ n d r, rtc front_step (d, r) (others n d r)).

Lemma stuck_others m w : stuck m (w_redis w) → stuck m (w_redis (after_others w)).
Proof. apply (stuck_fronts _ _ _ (Hothers (w_tick w) (w_db w) (w_redis w))). Qed.

Lemma stuck_await {A} m (c : R → result exn (A * R)) w o w' :
  (∀ a r r', c r = Ok (a, r') → stuck m r → stuck m r') →
  redis_await c w = (o, w') → stuck m (w_redis w) → stuck m (w_redis w').
Proof.
  intros Hc Ha Hs%stuck_others. unfold redis_await, mbind' in Ha. rewrite interleave_eq in Ha.
  apply redis_call_inv in Ha as [(a & r & Hr & -> & _)|(e & _ & ->)]; [by eapply Hc|done].
Qed.

Lemma stuck_ack m mid w o w' :
  mid ≠ m → ack mid w = (o, w') → stuck m (w_redis w) → stuck m (w_redis w').
Proof.
  intros Hne. apply stuck_await. intros a r r' [= _ <-] (Hp & He & Hu). unfold stuck.
  rewrite xack_pending, xack_history, xack_unread, list_elem_of_filter. naive_solver.
Qed.

Lemma stuck_process m mid fields w o w' :
  mid ≠ m → process mid fields w = (o, w') → stuck m (w_redis w) → stuck m (w_redis w').
Proof.
  intros Hne Hp Hs. destruct (event_field fields) as [raw|] eqn:Hf;
    [destruct (read_message raw) as [event|e] eqn:Hm|].
  - destruct (process_inv _ _ _ _ _ _ _ Hf Hm Hp) as (o1 & w1 & Hh & Hk).
    assert (stuck m (w_redis w1)) as Hs1
      by by apply (keep_handle_redis (stuck m) event (stuck_others m) _ _ _ Hh).
    destruct o1 as [s|e]; [by eapply stuck_ack|by destruct Hk as [-> _]].
  - unfold process in Hp. rewrite Hf, Hm in Hp. by eapply stuck_ack.
  - unfold process in Hp. rewrite Hf in Hp. by eapply stuck_ack.
Qed.

Lemma stuck_batch m batch w o w' :
  m ∉ batch.*1 → mfor batch (λ x, process x.1 x.2) w = (o, w') →
  stuck m (w_redis w) → stuck m (w_redis w').
Proof.
  revert w o. induction batch as [|[mid fields] batch IH]; intros w o Hn Hb Hs; cbn [mfor] in Hb.
  { by injection Hb as <- <-. }
  cbn in Hn. apply not_elem_of_cons in Hn as [Hne Hn].
  apply mbind_inv in Hb as [(u & w1 & Hp & Hb)|(e & Hp & _)];
    apply (stuck_process m) in Hp; try done.
  apply mbind_inv in Hb as [(us & w2 & Hf & [= <- <-])|(e & Hf & _)]; by eapply IH.
Qed.

Lemma stuck_round m w o w' :
  worker_round w = (o, w') → stuck m (w_redis w) → stuck m (w_redis w').
Proof.
  intros Hr Hs. unfold worker_round in Hr.
  assert (∀ o1 w1, redis_await (λ r, Ok (xreadgroup READ_COUNT r)) w = (o1, w1) →
    stuck m (w_redis w1) ∧ ∀ batch, o1 = Ok batch → m ∉ batch.*1) as Hread.
  { intros o1 w1 Hc. pose proof (stuck_others m w Hs) as (_ & _ & Hu).
    assert (∀ r, m ∉ (unread r).*1 → m ∉ (take READ_COUNT (unread r)).*1 ∧
      m ∉ (drop READ_COUNT (unread r)).*1) as Htd.
    { intros r Hn. rewrite <-(take_drop READ_COUNT (unread r)), fmap_app in Hn.
      by apply not_elem_of_app in Hn. }
    split.
    - eapply stuck_await; [|exact Hc|done]. intros a r r' Hx (Hp & He & Hu').
      assert (xreadgroup READ_COUNT r = (a, r')) as Hx' by congruence.
      pose proof (f_equal snd Hx') as Hr'. cbn in Hr'. rewrite <-Hr'. unfold stuck.
      rewrite xreadgroup_pending, xreadgroup_history, xreadgroup_unread, elem_of_app.
      split; [by left|]. split; [done|]. by apply Htd.
    - intros batch ->. unfold redis_await, mbind' in Hc. rewrite interleave_eq in Hc.
      apply redis_call_inv in Hc as [(a & r & Hx & _ & [[= <-]|[e [=]]])|(e & [=] & _)].
      assert (xreadgroup READ_COUNT (w_redis (after_others w)) = (batch, r)) as Hx' by congruence.
      pose proof (f_equal fst Hx') as Hb. cbn in Hb. rewrite xreadgroup_batch in Hb.
      subst batch. by apply Htd. }
  apply mbind_inv in Hr as [(batch & w1 & Ht & Hr)|(e & Ht & _)]; unfold mtry in Ht;
    destruct (redis_await _ w) as [[b|e'] w2] eqn:Hc; destruct (Hread _ _ eq_refl) as [Hw2 Hb].
  - injection Ht as -> ->.
    apply mbind_inv in Hr as [(us & w3 & Hf & [= <- <-])|(e & Hf & _)];
      by eapply stuck_batch; [apply Hb| |].
  - destruct (is_Exception e'); [|done]. injection Ht as <- <-. by injection Hr as <- <-.
  - done.
  - destruct (is_Exception e'); [done|]. by injection Ht as <- <-.
Qed.
End round.

Lemma stuck_step m w w' : sys_step w w' → stuck m (w_redis w) → stuck m (w_redis w').
Proof.
  intros [? ? Hf _ _|E O ? o ? Ho Hg|E O ? o ? Ho Hr|E pid ? o ? Hr] Hs.
  - by apply (stuck_front m) in Hf.
  - apply ensure_group_inv in Hg as [_ Hr]. apply (stuck_others Ho) in Hs.
    destruct Hr as [->|(_ & Hu & Hp & Hh)%xgroup_create_same]; [done|].
    unfold stuck. by rewrite Hh, Hu, Hp.
  - by eapply stuck_round.
  - unfold Recorder_init in Hr. by injection Hr as <- <-.
Qed.

(** ** Claims *)

(** C1. An incident is lost only by the stream's length bound.  In every state the
    service can reach, through any interleaving, fault, crash and restart,
    every admitted event is still in one of four places: waiting in the outbox
    without a receipt, unread on the stream, delivered and pending, or
    concluded; and a concluded one has its action in the ledger, with the
    ticket it names.  The one exception is a message that XADD's MAXLEN trimmed
    from a stream that holds 100000 entries; while it holds fewer, no admitted
    event is lost. *)
Theorem no_incident_lost w i row :
  reachable w → deliverable (w_db w) i row →
  er_queue_message_id row = None ∨
  (∃ m, er_queue_message_id row = Some m ∧
     (m ∈ (unread (w_redis w)).*1 ∨ m ∈ pending (w_redis w))) ∨
  (∃ a t, concluded (w_db w) i ∧ ticket_actions (w_db w) !! i = Some a ∧
     tickets (w_db w) !! ta_ticket_id a = Some t ∧ tk_fingerprint t = ta_fingerprint a) ∨
  (∃ m, er_queue_message_id row = Some m ∧ m ∉ (entries (w_redis w)).*1 ∧
     MAX_STREAM_LENGTH ≤ Z.of_nat (length (entries (w_redis w)))).
Proof.
  intros [Hdb Hs]%reachable_inv Hrow.
  destruct (er_queue_message_id row) as [m|] eqn:Hm; [right|by left].
  destruct (si_receipts _ _ Hs i row m Hrow Hm) as [_ [Hu|[Hp|[Hc|[Hf Ht]]]]].
  - left. exists m. by auto.
  - left. exists m. by auto.
  - right; left. destruct (di_action _ Hdb i Hc) as [a Ha].
    destruct (led_names _ (di_ledger _ Hdb) i a Ha) as (t & Ht & Hf & _). by exists a, t.
  - right; right. by exists m.
Qed.

(** C2. The tables stay consistent.  In every reachable state all constraints
    of the schema hold; a fingerprint has at most one open ticket; open events
    of one fingerprint were received at least 15 minutes apart; every ticket
    was opened by one recorded action and its counter is the number of
    recorded updates; a run is running without an end, or concluded with its
    action recorded. *)
Theorem reachable_consistent w :
  reachable w →
  db_ok (w_db w) ∧ one_open_ticket (tickets (w_db w)) ∧ dedupe_spaced (w_db w) ∧
  ledger (w_db w) ∧ runs_shaped (w_db w) ∧
  (∀ run, concluded (w_db w) run → is_Some (ticket_actions (w_db w) !! run)).
Proof.
  intros [[Hok Hsp Hl Hsh Ha] _]%reachable_inv. split; [done|]. split; [apply Hok|]. done.
Qed.

(** A message the worker failed on is never retried: once it is pending
    and no longer unread, no step of the service, in any order and however
    often, takes it from the pending list.  The worker reads new messages
    only, and nothing reclaims the old ones. *)
Theorem pending_is_never_reclaimed m w w' :
  m ∈ pending (w_redis w) → m ∈ (history (w_redis w)).*1 → m ∉ (unread (w_redis w)).*1 →
  rtc sys_step w w' → m ∈ pending (w_redis w').
Proof.
  intros Hp He Hu Hs. assert (stuck m (w_redis w)) as Hst by done. clear Hp He Hu.
  induction Hs as [x|x y z Hxy _ IH]; [apply Hst|].
  apply IH. by eapply stuck_step.
Qed.
End executions.

(** ** Witnesses *)

Section witnesses.
#[local] Existing Instance quiet.
#[local] Existing Instance solo.
#[local] Existing Instance strict_pydantic.
#[local] Existing Instance repr_text.

Lemma solo_front n d r : rtc front_step (d, r) (@others ListStream solo n d r).
Proof. apply rtc_refl. Qed.

Lemma sample_event_good : good_event sample_event.
Proof.
  split; [vm_compute; reflexivity|]. split.
  - split; [vm_compute; reflexivity|]. split; vm_compute; by repeat split.
  - vm_compute. repeat split; try done;
      repeat (apply list.NoDup_cons; split;
        [by intros Hin; repeat (apply elem_of_cons in Hin as [[=]|Hin]); apply not_elem_of_nil in Hin|]);
      by apply list.NoDup_nil.
Qed.

(** Admission, dispatch, a turn of the worker. *)
Definition admitted_world : World ListStream :=
  (atomically (admit_event sample_event DEDUPE_WINDOW) boot_world).2.
Definition dispatched_world : World ListStream :=
  (atomically (dispatch_body 7%N) admitted_world).2.
Definition worked_world : World ListStream := (worker_round dispatched_world).2.

Lemma boot_booted : booted boot_world.
Proof. by split. Qed.

Lemma admitted_reachable : reachable admitted_world.
Proof.
  exists boot_world. split; [exact boot_booted|]. apply rtc_once.
  apply (ss_front boot_world admitted_world); [|vm_compute; reflexivity..].
  eapply (fs_admit quiet sample_event); [exact sample_event_good|apply surjective_pairing].
Qed.

Lemma dispatched_reachable : reachable dispatched_world.
Proof.
  destruct admitted_reachable as (w0 & Hb & Hs). exists w0. split; [done|].
  eapply rtc_r; [exact Hs|].
  - apply (ss_front admitted_world dispatched_world); [|vm_compute; reflexivity..].
    eapply (fs_dispatch quiet 7%N), surjective_pairing.
Qed.

Lemma worked_reachable : reachable worked_world.
Proof.
  destruct dispatched_reachable as (w0 & Hb & Hs). exists w0. split; [done|].
  eapply rtc_r; [exact Hs|]. eapply (ss_worker quiet solo); [exact solo_front|].
  apply surjective_pairing.
Qed.

Definition worked_row : option EventRow := events (w_db worked_world) !! 7%N.

Lemma no_incident_lost_witness :
  ∃ row, deliverable (w_db worked_world) 7%N row ∧
    (er_queue_message_id row = None ∨
     (∃ m, er_queue_message_id row = Some m ∧
        (m ∈ (unread (w_redis worked_world)).*1 ∨ m ∈ pending (w_redis worked_world))) ∨
     (∃ a t, concluded (w_db worked_world) 7%N ∧
        ticket_actions (w_db worked_world) !! 7%N = Some a ∧
        tickets (w_db worked_world) !! ta_ticket_id a = Some t ∧
        tk_fingerprint t = ta_fingerprint a) ∨
     (∃ m, er_queue_message_id row = Some m ∧ m ∉ (entries (w_redis worked_world)).*1 ∧
        MAX_STREAM_LENGTH ≤ Z.of_nat (length (entries (w_redis worked_world))))).
Proof.
  set (row := default (admitted_row sample_event) worked_row).
  assert (deliverable (w_db worked_world) 7%N row) as Hd by (split; vm_compute; reflexivity).
  exists row. split; [exact Hd|].
  exact (no_incident_lost worked_world 7%N row worked_reachable Hd).
Defined.

Lemma reachable_consistent_witness : one_open_ticket (tickets (w_db worked_world)).
Proof.
  destruct (reachable_consistent worked_world worked_reachable) as (_ & Ho & _). exact Ho.
Defined.

(** The recorder fails on the first line of the run. *)
Definition failed_world : World ListStream :=
  (@worker_round ListStream (faulty 17 FErr) solo strict_pydantic repr_text list_streams
     dispatched_world).2.

Lemma pending_is_never_reclaimed_witness :
  let later := (worker_round failed_world).2 in
  "1" ∈ pending (w_redis failed_world) ∧ "1" ∈ pending (w_redis later).
Proof.
  intros later.
  assert ("1" ∈ pending (w_redis failed_world)) as Hp by (vm_compute; left).
  split; [exact Hp|].
  apply (pending_is_never_reclaimed "1" failed_world later Hp).
  - vm_compute. left.
  - vm_compute. by intros ?%not_elem_of_nil.
  - apply rtc_once. eapply (ss_worker quiet solo); [exact solo_front|].
    apply surjective_pairing.
Defined.

(** Recovery can leave a ticket open.  The alert is admitted and published,
    the recovery arrives and closes its window before the worker gets to the
    message, then the worker opens the ticket: the window is closed, the
    ticket is not, and nothing is left that would close it. *)
Theorem recovery_before_triage_leaves_ticket_open :
  let recovered := (atomically (close_window (ae_fingerprint sample_event) now0)
                      dispatched_world).2 in
  let worked := (worker_round recovered).2 in
  (er_window_closed_at <$> events (w_db worked) !! 7%N) = Some (Some (dt_us now0)) ∧
  (tk_closed_at <$> (snd <$> map_to_list (tickets (w_db worked)))) = [None] ∧
  unread (w_redis worked) = [] ∧ pending (w_redis worked) = [].
Proof. vm_compute. done. Qed.
End witnesses.
