(* ===== verification/Trimming.v ===== *)
(** * What the stream's length bound costs

    [publish] passes MAXLEN to XADD, so the stream drops its oldest entries
    whether or not the worker has read them, while their events keep the
    receipt that tells the outbox not to publish them again.  This file builds
    an execution in which an admitted incident is lost that way: the worker is
    away, and the outbox publishes one event again and again because its
    transaction never commits. *)

From Stdlib Require Import Ascii.
From S2P Require Import Prelude PyStr Json JsonParse Fingerprint PyTime Contracts Wire Database World.
From S2P Require Import Samples Repository Recorder Delivery Actions Triage Worker System.
From stdpp Require Import relations.

Open Scope Z_scope.

(** ** A dispatch whose XADD took effect and whose reply was lost *)

Section undone.
Context {R : Type} `{!Pydantic, !FloatText, !RedisStreams R}.

Lemma undone_dispatch id row event (d : DB) (r : R) :
  deliverable d id row → er_queue_message_id row = None →
  model_validate_event (default JNull (er_payload row)) = Ok event →
  front_step (d, r) (d, (xadd (dumps (event_json event)) r).2).
Proof.
  intros [Hr Hq] Hm Hv. set (w := mkWorld d r ∅ (mkRecorder EmptyString ∅ 0) 0).
  assert (@atomically R (faulty 1 FLost) _ (@dispatch_body R (faulty 1 FLost) _ _ id) w =
    (Raise (ServiceError "redis"),
     put_redis (xadd (dumps (event_json event)) r).2 (next_tick (next_tick w)))) as Hd.
  { unfold atomically, dispatch_body, event_for_queue, mbind', sql. cbn. rewrite Hr, Hq.
    unfold lift. rewrite Hv. cbn. rewrite Hm. cbn. unfold publish, redis_call. cbn.
    by destruct (xadd _ r). }
  exact (fs_dispatch (faulty 1 FLost) id w _ _ Hd).
Qed.

(** The stream after [n] of them. *)
Definition flooded (v : string) (n : nat) (r : R) : R := Nat.iter n (λ r, (xadd v r).2) r.

Lemma flooded_reachable id row event w n :
  reachable w → deliverable (w_db w) id row → er_queue_message_id row = None →
  model_validate_event (default JNull (er_payload row)) = Ok event →
  reachable (put_redis (flooded (dumps (event_json event)) n (w_redis w)) w).
Proof.
  intros Hw Hd Hm Hv. induction n as [|n IH]; [by destruct w|].
  destruct IH as (w0 & Hb & Hs). exists w0. split; [done|]. eapply rtc_r; [exact Hs|].
  apply ss_front; [|done..]. by eapply undone_dispatch.
Qed.
End undone.

(** On the list stream the log grows by one a time; nothing is read. *)
Lemma flooded_list v n (r : ListStream) :
  ls_read r = 0%nat →
  let r' := flooded v n r in
  length (ls_log r') = (length (ls_log r) + n)%nat ∧ ls_read r' = 0%nat ∧
  ls_pending r' = ls_pending r ∧ ∃ l, ls_log r' = ls_log r ++ l.
Proof.
  intros Hr. induction n as [|n IH].
  { cbn. split; [lia|]. do 2 (split; [done|]). exists []. by rewrite app_nil_r. }
  change (flooded v (S n) r) with (xadd v (flooded v n r)).2.
  revert IH. generalize (flooded v n r). intros r1 (Hl & Hd & Hp & l & Hg).
  cbn -[next_id]. rewrite length_app, Hl, Hd. cbn -[next_id].
  split; [lia|]. split; [done|]. split; [done|]. rewrite Hg. eexists. by rewrite <-app_assoc.
Qed.

(** One more entry than the stream holds: the first is gone. *)
Lemma flooded_drops v m f n (r : ListStream) :
  Z.of_nat n = MAX_STREAM_LENGTH → ls_read r = 0%nat → ls_log r = [(m, f)] → ls_pending r = [] →
  let r' := flooded v n r in
  NoDup (history r').*1 → (∀ x, x ∈ unread r' → x ∈ entries r') →
  m ∉ (unread r').*1 ∧ m ∉ pending r' ∧ m ∉ (entries r').*1.
Proof.
  intros Hn Hr Hlog Hp r' Hnd Hu. destruct (flooded_list v n r Hr) as (Hlen & _ & Hpend & l & Hl).
  fold r' in Hlen, Hpend, Hl. rewrite Hlog in Hlen, Hl.
  change (history r') with (ls_log r') in Hnd. rewrite Hl in Hnd.
  cbn in Hnd. apply list.NoDup_cons in Hnd as [Hm _].
  assert (entries r' = l) as Hent.
  { change (drop (trimmed_count (ls_log r')) (ls_log r') = l).
    assert (trimmed_count (ls_log r') = 1%nat) as ->; [|by rewrite Hl].
    unfold trimmed_count. rewrite Hlen. cbn [length]. lia. }
  split; [|split].
  - intros (x & Hx & Hin)%list_elem_of_fmap. apply Hm. rewrite Hx. apply list_elem_of_fmap_2.
    rewrite <-Hent. by apply Hu.
  - change (pending r') with (ls_pending r'). rewrite Hpend, Hp. by intros ?%not_elem_of_nil.
  - by rewrite Hent.
Qed.

Section flood.
Context `{!Pydantic, !FloatText}.

(** A stream whose one entry was never read loses it to that many vain
    publications of another event. *)
Lemma flooded_loses id row event m f n (w : World ListStream) :
  reachable w → deliverable (w_db w) id row → er_queue_message_id row = None →
  model_validate_event (default JNull (er_payload row)) = Ok event →
  Z.of_nat n = MAX_STREAM_LENGTH → ls_read (w_redis w) = 0%nat →
  ls_log (w_redis w) = [(m, f)] → ls_pending (w_redis w) = [] →
  ∃ w', reachable w' ∧ w_db w' = w_db w ∧
    m ∉ (unread (w_redis w')).*1 ∧ m ∉ pending (w_redis w') ∧ m ∉ (entries (w_redis w')).*1.
Proof.
  intros Hw Hd Hm Hv Hn Hr Hlog Hp.
  pose proof (flooded_reachable id row event w n Hw Hd Hm Hv) as Hreach.
  eexists. split; [exact Hreach|]. split; [done|].
  destruct (reachable_inv _ Hreach) as [_ Hs].
  exact (flooded_drops _ m f n (w_redis w) Hn Hr Hlog Hp (si_ids _ _ Hs) (si_unread _ _ Hs)).
Qed.
End flood.

(** ** The execution *)

Section lost.
#[local] Existing Instance quiet.
#[local] Existing Instance strict_pydantic.
#[local] Existing Instance repr_text.

(** A second incident, admitted after the first was published. *)
Definition other_event : AgentEvent :=
  let es := [mkEntity 1 "service" "billing"] in
  mkAgentEvent 1 8%N DATADOG KALERT "monitor-43"
    (event_fingerprint "datadog" "monitor-43" (entity_pairs es)) HIGH
    "billing latency" "p99" es (utc 1785090600000000) (utc 1785090600000000) 1
    [("monitor", JInt 43)].

Definition both_world : World ListStream :=
  (atomically (admit_event other_event DEDUPE_WINDOW) dispatched_world).2.

Lemma other_event_good : good_event other_event.
Proof.
  split; [vm_compute; reflexivity|]. split.
  - split; [vm_compute; reflexivity|]. split; vm_compute; by repeat split.
  - vm_compute. repeat split; try done;
      repeat (apply list.NoDup_cons; split;
        [by intros Hin; repeat (apply elem_of_cons in Hin as [[=]|Hin]); apply not_elem_of_nil in Hin|]);
      by apply list.NoDup_nil.
Qed.

Lemma both_reachable : reachable both_world.
Proof.
  destruct dispatched_reachable as (w0 & Hb & Hs). exists w0. split; [done|].
  eapply rtc_r; [exact Hs|].
  apply (ss_front dispatched_world both_world); [|vm_compute; reflexivity..].
  eapply (fs_admit quiet other_event); [exact other_event_good|apply surjective_pairing].
Qed.

(** An admitted incident is lost: in a reachable state its row holds the receipt
    that keeps the outbox from publishing it again, and its message is neither
    unread nor pending nor on the stream, and no run concluded it. *)
Theorem trimming_loses_incident :
  ∃ w : World ListStream, reachable w ∧
  ∃ row, deliverable (w_db w) 7%N row ∧ er_queue_message_id row = Some "1" ∧
    "1" ∉ (unread (w_redis w)).*1 ∧ "1" ∉ pending (w_redis w) ∧
    "1" ∉ (entries (w_redis w)).*1 ∧ ¬ concluded (w_db w) 7%N.
Proof.
  assert (∃ n, Z.of_nat n = MAX_STREAM_LENGTH) as [n Hn].
  { exists (Z.to_nat MAX_STREAM_LENGTH). apply Z2Nat.id. unfold MAX_STREAM_LENGTH. lia. }
  assert (∃ f, ls_log (w_redis both_world) = [("1", f)]) as [f Hlog]
    by (eexists; vm_compute; reflexivity).
  destruct (flooded_loses 8%N (admitted_row other_event) other_event "1" f n both_world)
    as (w & Hw & Hd & Hu & Hp & He);
    [exact both_reachable|split; vm_compute; reflexivity|vm_compute; reflexivity..|exact Hn|
     vm_compute; reflexivity|exact Hlog|vm_compute; reflexivity|].
  exists w. split; [exact Hw|]. rewrite Hd.
  exists (default (admitted_row sample_event) (events (w_db both_world) !! 7%N)).
  split; [split; vm_compute; reflexivity|]. split; [vm_compute; reflexivity|].
  split; [exact Hu|]. split; [exact Hp|]. split; [exact He|].
  intros (row & Hrow & _). revert Hrow. by vm_compute.
Qed.
End lost.
