(* ===== verification/Progress.v ===== *)
(** * The service catches up

    What the two loops achieve together when the services work: from any
    reachable state the outbox loop publishes what waits, the consumer loop
    concludes what was published, and nothing admitted stays behind, except the
    messages a fault had left pending before. *)

From S2P Require Import Prelude PyStr Json JsonParse PyTime Contracts Wire Database World.
From S2P Require Import Samples Repository Recorder Delivery Actions Triage Worker System.

Open Scope Z_scope.

(** The largest value of the column [runs.audit_end_offset]. *)
Definition INT8_MAX : Z := 9223372036854775807.

(** ** Steps of one task *)

Section steps.
Context {R : Type} `{!Env, !Others R, !Pydantic, !FloatText, !RedisStreams R}.
Implicit Types w : World R.

(** [m] takes worlds with [P] to worlds with [Q], whatever its outcome. *)
Definition leads (P Q : World R → Prop) {A} (m : M R A) : Prop :=
  ∀ w o w', m w = (o, w') → P w → Q w'.

Lemma leads_before (P Q : World R → Prop) {A B} (m : M R A) (k : A → M R B) :
  (∀ w, P w → Q w) → keeps P m → (∀ a, leads P Q (k a)) → leads P Q (mbind' m k).
Proof.
  intros HPQ Hm Hk w o w' [(a & w1 & X1 & X2)|(e & X1 & _)]%mbind_inv HP.
  - eapply Hk; [done|]. by eapply Hm.
  - apply HPQ. by eapply Hm.
Qed.

Lemma leads_after (P Q : World R → Prop) {A B} (m : M R A) (k : A → M R B) :
  leads P Q m → (∀ a, keeps Q (k a)) → leads P Q (mbind' m k).
Proof.
  intros Hm Hk w o w' [(a & w1 & X1 & X2)|(e & X1 & _)]%mbind_inv HP; [|by eapply Hm].
  eapply Hk; [done|]. by eapply Hm.
Qed.

(** Events and tickets as they were, and what was concluded still is. *)
Record advance w w' : Prop := {
  ad_tick : (w_tick w ≤ w_tick w')%nat;
  ad_events : events (w_db w') = events (w_db w);
  ad_tickets : tickets (w_db w') = tickets (w_db w);
  ad_concluded : ∀ i, concluded (w_db w) i → concluded (w_db w') i;
}.

(** Events as they were, and at most one action on the tickets. *)
Record moved w w' : Prop := {
  mv_events : events (w_db w') = events (w_db w);
  mv_tickets : ticket_step w w';
  mv_concluded : ∀ i, concluded (w_db w) i → concluded (w_db w') i;
}.

#[global] Instance advance_preorder : PreOrder advance.
Proof.
  split; [by split|]. intros w1 w2 w3 [] []. split; [lia|congruence..|by auto].
Qed.

Lemma advance_moved w w1 w' : advance w w1 → moved w1 w' → moved w w'.
Proof.
  intros [Ht He Hk Hc] [He' [Ht' Hk'] Hc']. split; [congruence| |by auto]. split; [lia|].
  rewrite Hk in Hk'. destruct Hk' as [Hk'|[(n & fp & ext & t & Hn & Hk')|Hk']]; [by left| |by auto].
  right; left. exists n, fp, ext, t. split; [lia|done].
Qed.

Lemma moved_advance w w1 w' : moved w w1 → advance w1 w' → moved w w'.
Proof.
  intros [He [Ht Hk] Hc] [Ht' He' Hk' Hc']. split; [congruence| |by auto]. split; [lia|].
  rewrite Hk'. destruct Hk as [Hk|[(n & fp & ext & t & Hn & Hk)|Hk]]; [by left| |by auto].
  right; left. exists n, fp, ext, t. split; [lia|done].
Qed.

Lemma moved_refl w : moved w w.
Proof. split; [done| |done]. split; [done|by left]. Qed.

Lemma advance_is_moved w w' : advance w w' → moved w w'.
Proof. intros Ha. exact (moved_advance _ _ _ (moved_refl w) Ha). Qed.

(** Both are kept by steps that advance. *)
Lemma keeps_advance {A} (m : M R A) w0 :
  (∀ w o w', m w = (o, w') → advance w w') → keeps (advance w0) m ∧ keeps (moved w0) m.
Proof.
  intros Hm. split; intros w o w' Hw%Hm Hw0; [by etrans|by eapply moved_advance].
Qed.

(** Room for one action less is left after one action. *)
Lemma ticket_step_room k w w' :
  (∀ m n, env_uuid m = env_uuid n → m = n) → ticket_step w w' → action_room (w_tick w) (k + 1) (w_db w) → action_room (w_tick w') k (w_db w').
Proof.
  intros Hnew [Ht Hs] [Hk Hc Hi].
  destruct Hs as [Hs|[(n & fp & ext & t & Hn & Hs)|(tid & r & Hr & _ & Hs)]];
    (split; [lia|rewrite Hs..]).
  - intros i r Hr. specialize (Hc i r Hr). lia.
  - intros m Hm. apply Hi. lia.
  - intros i r [[<- <-]|[_ Hr]]%lookup_insert_Some; [cbn; lia|]. specialize (Hc i r Hr). lia.
  - intros m Hm. rewrite lookup_insert_ne; [apply Hi; lia|]. intros ?%Hnew. lia.
  - intros i s [[<- <-]|[_ Hr']]%lookup_insert_Some; [|specialize (Hc i s Hr'); lia].
    specialize (Hc tid r Hr). cbn. lia.
  - intros m Hm. rewrite lookup_insert_ne; [apply Hi; lia|]. intros ->.
    rewrite Hi in Hr; [done|lia].
Qed.
End steps.

(** ** Working services, no other task *)

Section quiet.
Context {R : Type} `{!Env, !Others R, !Pydantic, !FloatText, !RedisStreams R}.
Context (Hquiet : ∀ n, env_fault n = FOk) (Halone : ∀ n d r, others n d r = (d, r)).
Context (Hnew : ∀ m n, env_uuid m = env_uuid n → m = n).
Implicit Types w : World R.

Lemma alone_front n (d : DB) (r : R) : rtc front_step (d, r) (others n d r).
Proof. rewrite Halone. apply rtc_refl. Qed.

(** A transaction commits its body's work, or leaves the tables alone. *)
Lemma transaction_alone {A} (m : M R A) w o w' :
  transaction m w = (o, w') → (∀ n, keeps (past n) m) →
  (∃ a w1, m w = (Ok a, w1) ∧ w' = next_tick w1) ∨ advance w w'.
Proof.
  rewrite transaction_eq, (after_others_alone Halone). intros Ht Hm. revert Ht.
  intros [(a & w1 & X1 & -> & _)|(e & o1 & w1 & -> & X1 & Hw)]%atomically_inv; [left; by eauto|].
  right. pose proof (Hm (w_tick w) _ _ _ X1 (le_n _)) as Hp. unfold past in Hp.
  destruct Hw as [-> | ->]; split; cbn; try done; lia.
Qed.

Lemma advance_record run actor kind payload w o w' :
  record run actor kind payload w = (o, w') → advance w w'.
Proof.
  intros Hr. pose proof (record_db _ _ _ _ _ _ _ Hr) as [Hd _]. split; [|by rewrite Hd..]. cbn.
  exact (keep_record_past (w_tick w) _ _ _ _ _ _ _ Hr (le_n _)).
Qed.

Lemma advance_open_run run event fp file off t w o w' :
  transaction (open_run run event fp file off t) w = (o, w') → advance w w'.
Proof.
  intros [(a & w1 & X1 & ->)|Ha]%transaction_alone; [| |intros n; apply keep_open_run, past_ignores]; [|done].
  pose proof (keep_open_run _ (past_ignores (w_tick w)) _ _ _ _ _ _ _ _ _ X1 (le_n _)) as Hp.
  apply open_run_inv in X1 as (_ & Hd & _). unfold past in Hp.
  split; cbn; [lia|by rewrite Hd..|]. rewrite Hd. intros i (r & Hr & Hs).
  destruct (decide (i = run)) as [->|Hne].
  - eexists. split; [apply lookup_insert_eq|]. unfold claimed_row. rewrite Hr.
    rewrite decide_False; [done|]. by rewrite Hs.
  - exists r. split; [|done]. cbn. by rewrite lookup_insert_ne.
Qed.

Lemma advance_close_run run c off w o w' :
  transaction (close_run run "concluded" c off) w = (o, w') → advance w w'.
Proof.
  intros [(a & w1 & X1 & ->)|Ha]%transaction_alone; [| |intros n; apply keep_close_run, past_ignores]; [|done].
  pose proof (keep_close_run _ (past_ignores (w_tick w)) _ _ _ _ _ _ _ X1 (le_n _)) as Hp.
  unfold past in Hp. apply close_run_inv in X1 as [[_ Hd]|(r & t & _ & _ & Hd)];
    (split; cbn; [lia|by rewrite Hd..|rewrite Hd]); [done|]. intros i (r' & Hr' & Hs).
  destruct (decide (i = run)) as [->|Hne].
  - eexists. split; [apply lookup_insert_eq|done].
  - exists r'. split; [|done]. cbn. by rewrite lookup_insert_ne.
Qed.

Lemma moved_apply c w o w' : transaction (apply_conclusion c) w = (o, w') → moved w w'.
Proof.
  intros [(a & w1 & X1 & ->)|Ha]%transaction_alone;
    [| |intros n; apply keep_apply, past_ignores]; [|by apply advance_is_moved].
  apply apply_inv_step in X1 as [[t Ha] Hs].
  apply (moved_advance w w1); [|split; cbn; [lia|done..]]. split; [by destruct Ha|done|].
  unfold concluded. by rewrite (applies_runs _ _ _ _ _ Ha).
Qed.

Lemma moved_handle event w o w' : handle event w = (o, w') → moved w w'.
Proof.
  assert (∀ w0, leads (advance w0) (moved w0) (handle event)) as Hl.
  2: { intros Hh. by apply (Hl w _ _ _ Hh). }
  intros w0. pose proof (advance_is_moved w0) as Hsub.
  assert (∀ run actor kind payload, keeps (advance w0) (record run actor kind payload) ∧
    keeps (moved w0) (record run actor kind payload)) as Hrec.
  { intros. apply keeps_advance. intros ???. apply advance_record. }
  assert (keeps (advance w0) now) as Hnow.
  { apply keeps_advance. intros w1 o1 w1' [= <- <-]. split; cbn; [lia|done..]. }
  unfold handle, run_body.
  apply leads_before; [done|done|intros t0].
  apply leads_before; [done|apply keeps_advance|intros off].
  { intros w1 o1 w1' [-> _]%start_offset_inv. split; cbn; [lia|done..]. }
  apply leads_before; [done|by intros w1 o1 w1' [= _ <-]|intros file].
  apply leads_before; [done|apply keeps_advance; intros ???; apply advance_open_run|intros claim].
  case_decide; [intros w1 o1 w1' [= <- <-]; apply Hsub|].
  apply leads_before; [done|apply Hrec|intros l1]. do 2 (apply leads_before; [done..|intros ?]).
  apply leads_before; [done|apply keeps_lift|intros c].
  apply leads_before; [done|apply Hrec|intros l2].
  apply leads_after.
  { intros w1 o1 w1' Ha%moved_apply Hw. by eapply advance_moved. }
  intros out. apply keeps_bind; [apply Hrec|intros l3].
  apply keeps_bind; [|intros; apply keeps_ret].
  apply keeps_advance. intros ???. apply advance_close_run.
Qed.

(** What the worker needs for [k] more messages. *)
Record ready (k : Z) w : Prop := {
  rd_inv : world_inv w;
  rd_log : has_log w;
  rd_room : action_room (w_tick w) k (w_db w);
}.

Lemma ready_run_room w : ready 1 w → ¬ log_over INT8_MAX w → run_room w.
Proof.
  intros [[Hdb _] Hl Hr] Hn. split; [apply Hdb|apply Hdb|done|done|].
  unfold log_over, INT8_MAX in Hn. lia.
Qed.

Lemma ready_less k k' w : k' ≤ k → ready k w → ready k' w.
Proof. intros Hk [Hi Hl Hr]. split; [done..|]. by eapply action_room_mono; [| | |exact Hr]. Qed.

Lemma handle_ready event k w o w' :
  handle event w = (o, w') → ready (k + 1) w → ready k w'.
Proof.
  intros Hh [Hi Hl Hr]. split.
  - exact (inv_handle alone_front event _ _ _ Hh Hi).
  - exact (keep_handle has_log event has_log_ignores (λ _ H, H) keep_record_log _ _ _ Hh Hl).
  - apply (ticket_step_room k w w' Hnew); [|done]. exact (mv_tickets _ _ (moved_handle _ _ _ _ Hh)).
Qed.

(** A log that outgrew its column stays so. *)
Lemma over_process n mid fields : keeps (log_over n) (process mid fields).
Proof.
  assert (keeps (log_over n) (ack mid)) as Hack.
  { intros w o w'. rewrite (ack_quiet Hquiet Halone). by intros [= <- <-]. }
  unfold process. destruct (event_field fields); [|done]. destruct (read_message _); [|done].
  apply keeps_bind.
  - apply keeps_try; [|intros; apply keeps_ret]. apply keeps_bind; [|intros; apply keeps_ret].
    apply keep_handle; [apply log_over_ignores|done|intros; apply keep_record_over].
  - intros []; [done|apply keeps_ret].
Qed.

(** *** Messages *)

(** The worker dealt with the messages [ids]. *)
Record worked (k : Z) (ids : list string) w w' : Prop := {
  wk_ready : ready k w';
  wk_events : events (w_db w') = events (w_db w);
  wk_history : history (w_redis w') = history (w_redis w);
  wk_entries : entries (w_redis w') = entries (w_redis w);
  wk_concluded : ∀ i, concluded (w_db w) i → concluded (w_db w') i;
  wk_unread : unread (w_redis w') = unread (w_redis w);
  wk_pending : ∀ j, j ∈ pending (w_redis w') → j ∈ pending (w_redis w) ∧ j ∉ ids;
}.

Lemma process_message x k w :
  0 ≤ k → ready (k + 1) w → x ∈ history (w_redis w) →
  ∃ o w', process x.1 x.2 w = (o, w') ∧
    (log_over INT8_MAX w' ∨ (o = Ok () ∧ worked k [x.1] w w')).
Proof.
  intros Hk Hrdy Hx. destruct (process x.1 x.2 w) as [o w'] eqn:Hp. exists o, w'. split; [done|].
  destruct (decide (INT8_MAX < blen (file_text w))) as [Hbig|Hfit].
  { left. exact (over_process INT8_MAX _ _ _ _ _ Hp Hbig). }
  destruct (si_history _ _ (proj2 (rd_inv _ _ Hrdy)) _ Hx) as (m & e & He & Hj & ->).
  destruct (process_quiet Hquiet Halone m (entry_of m e).2 (dumps (event_json e)) e w)
    as (o1 & w1 & Hh & Ho).
  - apply ready_run_room; [|done]. eapply ready_less; [|exact Hrdy]. lia.
  - reflexivity.
  - by apply good_event_read.
  - exact Hj.
  - change (entry_of m e).1 with m in *.
    destruct Ho as [(s & -> & Hok)|[Hbig Hw]]; [|left; by rewrite Hp in Hw; subst].
    right. destruct (inv_process alone_front m _ _ _ _ Hx Hp (rd_inv _ _ Hrdy)) as [Hinv _].
    rewrite Hok in Hp. injection Hp as <- <-. split; [done|].
    destruct (handle_ready _ _ _ _ _ Hh Hrdy) as [_ Hlog Hroom].
    assert (w_redis w1 = w_redis w) as Hr.
    { apply (keep_handle_redis (λ r, r = w_redis w) e) with (w := w) (o := Ok s); [|done..].
      intros w2. by rewrite (after_others_alone Halone). }
    split; cbn.
    + split; [done|done|]. eapply action_room_mono; [|done|done|exact Hroom]. cbn. lia.
    + exact (mv_events _ _ (moved_handle _ _ _ _ Hh)).
    + by rewrite xack_history, Hr.
    + by rewrite xack_entries, Hr.
    + exact (mv_concluded _ _ (moved_handle _ _ _ _ Hh)).
    + by rewrite xack_unread, Hr.
    + intros j. rewrite xack_pending, Hr, list_elem_of_filter, list_elem_of_singleton. tauto.
Qed.

Lemma worked_trans k k' ids ids' w w1 w' :
  worked k ids w w1 → worked k' ids' w1 w' → worked k' (ids ++ ids') w w'.
Proof.
  intros [_ He1 Hh1 Hn1 Hc1 Hu1 Hp1] [Hr He Hh Hn Hc Hu Hp].
  split; [done|congruence..|by auto|congruence|].
  intros j [[Hj Hi]%Hp1 Hi']%Hp. rewrite elem_of_app. tauto.
Qed.

Lemma process_batch batch k w :
  0 ≤ k → ready (k + Z.of_nat (length batch)) w → (∀ x, x ∈ batch → x ∈ history (w_redis w)) →
  ∃ o w', mfor batch (λ x, process x.1 x.2) w = (o, w') ∧
    (log_over INT8_MAX w' ∨ ((∃ us, o = Ok us) ∧ worked k batch.*1 w w')).
Proof.
  intros Hk. revert w. induction batch as [|x batch IH]; intros w Hrdy Hin.
  { exists (Ok []), w. split; [done|]. right. split; [by eauto|]. split; try done.
    - eapply ready_less; [|exact Hrdy]. cbn. lia.
    - intros j Hj. split; [done|]. by intros ?%not_elem_of_nil. }
  destruct (mfor (x :: batch) (λ x, process x.1 x.2) w) as [o w'] eqn:Hf.
  exists o, w'. split; [done|]. cbn [mfor] in Hf.
  assert (∀ l n, keeps (log_over n) (mfor l (λ x, process x.1 x.2))) as Hover.
  { intros l n. apply keeps_for. intros y _. apply over_process. }
  destruct (process_message x (k + Z.of_nat (length batch)) w) as (o1 & w1 & Hx & Ho1);
    [lia| |apply Hin; by left|].
  { eapply ready_less; [|exact Hrdy]. cbn [length]. lia. }
  unfold mbind' at 1 in Hf. rewrite Hx in Hf.
  destruct Ho1 as [Hbig|[-> Hw1]].
  { left. destruct o1 as [[]|e]; [|by injection Hf as _ <-].
    apply mbind_inv in Hf as [(us & w2 & Hf & [= _ <-])|(e & Hf & _)];
      exact (Hover _ _ _ _ _ Hf Hbig). }
  destruct (IH w1) as (o2 & w2 & Hf2 & Ho2); [apply Hw1| |].
  { intros y Hy. rewrite (wk_history _ _ _ _ Hw1). apply Hin. by right. }
  unfold mbind' in Hf. rewrite Hf2 in Hf. destruct Ho2 as [Hbig|[[us ->] Hw2]].
  { left. destruct o2 as [us|e]; by injection Hf as _ <-. }
  injection Hf as <- <-. right. split; [by eauto|].
  exact (worked_trans _ _ [x.1] _ _ _ _ Hw1 Hw2).
Qed.

(** *** Turns of the worker *)

Definition unread_count w : nat := length (unread (w_redis w)).

(** What [n] turns leave of the queue. *)
Record drained (n : nat) w w' : Prop := {
  dr_ready : ready (Z.of_nat (unread_count w')) w';
  dr_events : events (w_db w') = events (w_db w);
  dr_entries : entries (w_redis w') = entries (w_redis w);
  dr_concluded : ∀ i, concluded (w_db w) i → concluded (w_db w') i;
  dr_unread : unread (w_redis w') = drop (READ_COUNT * n) (unread (w_redis w));
  dr_pending : ∀ j, j ∈ pending (w_redis w') → j ∈ pending (w_redis w);
}.

Lemma read_quiet w :
  mtry is_Exception (redis_await (λ r, Ok (xreadgroup READ_COUNT r))) (λ _, mret' []) w =
  (Ok (take READ_COUNT (unread (w_redis w))),
   put_redis (xreadgroup READ_COUNT (w_redis w)).2 (next_tick w)).
Proof.
  unfold mtry, redis_await, mbind'. rewrite interleave_eq, (after_others_alone Halone).
  erewrite redis_call_Ok; [|apply Hquiet|f_equal; apply surjective_pairing].
  by rewrite xreadgroup_batch.
Qed.

Lemma over_round n : keeps (log_over n) worker_round.
Proof.
  apply keeps_bind; [intros w o w'; rewrite read_quiet; by intros [= <- <-]|intros batch].
  apply keeps_bind; [|intros; apply keeps_ret].
  apply keeps_for. intros x _. apply over_process.
Qed.

Lemma round_quiet w :
  ready (Z.of_nat (unread_count w)) w →
  ∃ o w', worker_round w = (o, w') ∧ (log_over INT8_MAX w' ∨ (o = Ok () ∧ drained 1 w w')).
Proof.
  intros [Hi Hl Hr]. destruct (worker_round w) as [o w'] eqn:Hw. exists o, w'. split; [done|].
  unfold worker_round in Hw. unfold mbind' at 1 in Hw. rewrite read_quiet in Hw.
  set (batch := take READ_COUNT (unread (w_redis w))) in *.
  set (w1 := put_redis _ (next_tick w)) in *.
  assert (batch ++ drop READ_COUNT (unread (w_redis w)) = unread (w_redis w)) as Happ
    by apply take_drop.
  assert (unread (w_redis w1) = drop READ_COUNT (unread (w_redis w))) as Hu
    by apply xreadgroup_unread.
  destruct (process_batch batch (Z.of_nat (unread_count w1)) w1) as (o1 & w2 & Hf & Ho).
  - lia.
  - split; [split; [apply Hi|by apply stream_inv_read, Hi]|done|].
    eapply action_room_mono; [| |done|exact Hr]; [cbn; lia|].
    apply (f_equal length) in Happ. rewrite length_app in Happ. unfold unread_count.
    rewrite Hu. lia.
  - intros x Hx. cbn. rewrite xreadgroup_history.
    apply (si_entries _ _ (proj2 Hi)), (si_unread _ _ (proj2 Hi)).
    rewrite <-Happ. apply elem_of_app. by left.
  - unfold mbind' in Hw. rewrite Hf in Hw. destruct Ho as [Hbig|[[us ->] [A1 A2 _ A3 AC A4 A5]]].
    { left. destruct o1; by injection Hw as _ <-. }
    injection Hw as <- <-. right. split; [done|]. split; [..|intros j Hj].
    + unfold unread_count at 1. by rewrite A4.
    + done.
    + rewrite A3. cbn. by rewrite xreadgroup_entries.
    + exact AC.
    + by rewrite A4, Hu.
    + destruct (A5 j Hj) as [Hj' Hn]. cbn in Hj'. rewrite xreadgroup_pending in Hj'.
      by apply elem_of_app in Hj' as [?|?].
Qed.

Lemma rounds_quiet n w :
  ready (Z.of_nat (unread_count w)) w →
  ∃ o w', worker_rounds n w = (o, w') ∧ (log_over INT8_MAX w' ∨ (o = Ok () ∧ drained n w w')).
Proof.
  revert w. induction n as [|n IH]; intros w Hrdy.
  { exists (Ok ()), w. split; [done|]. right. split; [done|]. by split. }
  destruct (worker_rounds (S n) w) as [o w'] eqn:Hw. exists o, w'. split; [done|].
  cbn [worker_rounds] in Hw. destruct (round_quiet w Hrdy) as (o1 & w1 & E1 & Ho1).
  assert (∀ n i, keeps (log_over i) (worker_rounds n)) as Hover.
  { intros m i. induction m as [|m IHm]; [apply keeps_ret|].
    apply keeps_bind; [apply over_round|done]. }
  unfold mbind' in Hw. rewrite E1 in Hw. destruct Ho1 as [Hbig|[-> [A1 A2 AE AC A3 A4]]].
  { left. destruct o1 as [[]|e]; [exact (Hover _ _ _ _ _ Hw Hbig)|by injection Hw as _ <-]. }
  destruct (IH w1 A1) as (o2 & w2 & E2 & Ho2). rewrite E2 in Hw. injection Hw as <- <-.
  destruct Ho2 as [Hbig|[-> [B1 B2 BE BC B3 B4]]]; [by left|right]. split; [done|].
  split; [done|congruence|congruence|by auto| |by auto]. rewrite B3, A3, drop_drop. f_equal. lia.
Qed.

(** *** Rounds of the outbox *)

Lemma keep_dispatch_body (P : World R → Prop) id :
  ignores_db P → (∀ r w, P w → P (put_redis r w)) → keeps P (dispatch_body id).
Proof.
  intros Hi Hr. unfold dispatch_body, event_for_queue, mark_queued. keep_steps; try done.
  intros w o w' Hp Hw. unfold publish in Hp.
  apply redis_call_inv in Hp as [(m & rs & _ & -> & _)|(ex & _ & ->)]; [apply Hr|];
    by apply ign_tick.
Qed.

(** What the outbox did since [w0]: every row is still there, with the receipt
    it had, or with one that names a new entry, and nothing was trimmed. *)
Record published w0 w : Prop := {
  pb_inv : world_inv w;
  pb_log : has_log w;
  pb_tick : past (w_tick w0) w;
  pb_tickets : tickets (w_db w) = tickets (w_db w0);
  pb_pending : pending (w_redis w) = pending (w_redis w0);
  pb_runs : runs (w_db w) = runs (w_db w0);
  pb_entries : ∀ x, x ∈ entries (w_redis w0) → x ∈ entries (w_redis w);
  pb_rows : ∀ i row, deliverable (w_db w0) i row →
    ∃ row', deliverable (w_db w) i row' ∧
      (er_queue_message_id row' = er_queue_message_id row ∨
       ∃ m, er_queue_message_id row' = Some m ∧ m ∉ pending (w_redis w0) ∧
         m ∈ (entries (w_redis w)).*1);
}.

Lemma published_dispatch w0 id w o w' :
  Z.of_nat (stream_length w) < MAX_STREAM_LENGTH →
  dispatch_event id w = (o, w') → published w0 w → published w0 w'.
Proof.
  intros Hcap Hd [Hi Hl Ht Htk Hp Hru Hent Hrows]. unfold dispatch_event in Hd.
  rewrite transaction_eq, (after_others_alone Halone) in Hd. fold (dispatch_body id) in Hd.
  pose proof (front_dispatch id w o w' Hd Hi) as Hi'.
  assert (∀ P : World R → Prop, ignores_db P → (∀ r w, P w → P (put_redis r w)) → P w → P w')
    as Hkeep.
  { intros P HP Hr. exact (keep_atomically P HP _ (keep_dispatch_body P id HP Hr) _ _ _ Hd). }
  apply atomically_dispatch_inv in Hd.
  assert (tickets (w_db w') = tickets (w_db w) ∧ pending (w_redis w') = pending (w_redis w) ∧
    runs (w_db w') = runs (w_db w))
    as (Htk' & Hp' & Hru') by (inversion Hd; subst; by rewrite ?xadd_pending).
  assert (∀ x, x ∈ entries (w_redis w) → x ∈ entries (w_redis w')) as Hent'.
  { intros x Hx. inversion Hd; subst; try done; rewrite xadd_entries by done;
      apply elem_of_app; by left. }
  split; [done|by apply Hkeep; [apply has_log_ignores|..]|
    by apply Hkeep; [apply past_ignores|..]|congruence..|by auto|].
  intros i row Hrow. destruct (Hrows i row Hrow) as (row' & Hd' & Hor).
  assert (er_queue_message_id row' = er_queue_message_id row ∨
    ∃ m, er_queue_message_id row' = Some m ∧ m ∉ pending (w_redis w0) ∧
      m ∈ (entries (w_redis w')).*1) as Hor'.
  { destruct Hor as [?|(m & Hm & Hn & (x & -> & Hx)%list_elem_of_fmap)]; [by left|right].
    exists x.1. split; [done|]. split; [done|]. by apply list_elem_of_fmap_2, Hent'. }
  clear Hor Hent'. revert Hor'.
  inversion Hd as [|r event m Hr Hm Hv Heq|r event t o' Hr Hm Hv m Hc Ho Heq|r event e Hr Hm Hv|e];
    subst; intros Hor'; eauto.
  destruct (decide (i = id)) as [->|Hne].
  - exists (with_receipt m t r). split; [split; [apply lookup_insert_eq|by destruct Hr]|].
    right. exists m. split; [done|]. split.
    + rewrite <-Hp. intros Hin. apply (xadd_new (dumps (event_json event)) (w_redis w)).
      by apply (si_pending _ _ (proj2 Hi)).
    + exact (list_elem_of_fmap_2 fst _ _ (xadd_entries_last _ _)).
  - exists row'. split; [|exact Hor']. destruct Hd' as [Hx Hq]. split; [|done]. cbn.
    by rewrite lookup_insert_ne.
Qed.

Lemma published_closed w0 : dispatch_closed (published w0).
Proof.
  split.
  - intros w [Hi Hl Ht Htk Hp Hru Hent Hrows]. split; try done. unfold past in *. cbn. lia.
  - intros i w o w'. apply published_dispatch.
Qed.

Lemma published_refl w : world_inv w → has_log w → published w w.
Proof.
  intros Hi Hl. split; try done; [by unfold past|]. intros i row Hrow. exists row. split; [done|by left].
Qed.

Lemma inv_outbox_ready w : world_inv w → outbox_ready (w_db w).
Proof.
  intros [Hdb Hs]. split; [apply Hdb|]. intros i r Hr.
  destruct (si_payload _ _ Hs i r Hr) as (e & He & _ & ->). exists e.
  by apply good_event_validate.
Qed.

(** Nothing awaits the outbox: every row has its receipt. *)
Lemma no_backlog_receipt w i row :
  world_inv w → backlog w = 0%nat → deliverable (w_db w) i row →
  is_Some (er_queue_message_id row).
Proof.
  intros [Hdb _] Hb Hrow. apply map_size_empty_iff in Hb.
  assert (er_queued_at row ≠ None) as Hq.
  { intros Hq. assert (awaiting (w_db w) !! i = Some row) as Ha by by apply awaiting_lookup.
    by rewrite Hb, lookup_empty in Ha. }
  destruct Hrow as [Hrow _]. apply (ok_events _ (di_ok _ Hdb)) in Hrow.
  apply event_check_Ok in Hrow as (_ & _ & _ & _ & Hpair).
  unfold events_queue_state_paired in Hpair. destruct (er_queue_message_id row); [by eauto|].
  by destruct (er_queued_at row).
Qed.

(** *** Both loops *)

(** An admitted event whose work is done: its run is concluded, and the action
    that concluded it names a ticket of the same fingerprint. *)
Definition settled (d : DB) (i : uuid) : Prop :=
  ∃ a t, concluded d i ∧ ticket_actions d !! i = Some a ∧
    tickets d !! ta_ticket_id a = Some t ∧ tk_fingerprint t = ta_fingerprint a.

Lemma concluded_settled d i : db_inv d → concluded d i → settled d i.
Proof.
  intros Hdb Hc. destruct (di_action _ Hdb i Hc) as [a Ha].
  destruct (led_names _ (di_ledger _ Hdb) i a Ha) as (t & Ht & Hf & _). by exists a, t.
Qed.

(** Once the queue is drained, what is not settled was left pending, or
    trimmed, before. *)
Lemma drained_settled w0 w n w' i row :
  world_inv w0 → published w0 w → backlog w = 0%nat → drained n w w' → unread (w_redis w') = [] →
  deliverable (w_db w0) i row →
  settled (w_db w') i ∨
  ∃ m, er_queue_message_id row = Some m ∧ (m ∈ pending (w_redis w0) ∨ trimmed m (w_redis w0)).
Proof.
  intros [_ Hs0] Hpb Hb [Hrdy Hev Hent Hcon _ Hpend] Hu Hrow.
  destruct (pb_rows _ _ Hpb i row Hrow) as (row' & Hrow' & Hor).
  destruct (no_backlog_receipt w i row' (pb_inv _ _ Hpb) Hb Hrow') as [m Hm].
  destruct (rd_inv _ _ Hrdy) as [Hdb Hs].
  assert (deliverable (w_db w') i row') as Hrow2.
  { destruct Hrow'. split; [by rewrite Hev|done]. }
  destruct (si_receipts _ _ Hs i row' m Hrow2 Hm) as [_ [Hin|[Hin|[Hc|Htr]]]].
  - rewrite Hu in Hin. by apply not_elem_of_nil in Hin.
  - right. apply Hpend in Hin. rewrite (pb_pending _ _ Hpb) in Hin. exists m. split; [|by left].
    destruct Hor as [<-|(m' & Hm' & Hn & _)]; [done|]. congruence.
  - left. by apply concluded_settled.
  - destruct Hor as [Heq|(m' & Hm' & _ & Hin)].
    2: { exfalso. apply (proj2 Htr). rewrite Hent. congruence. }
    rewrite Heq in Hm. destruct (si_receipts _ _ Hs0 i row m Hrow Hm) as [_ [Hx|[Hx|[Hx|Hx]]]].
    + exfalso. apply (proj2 Htr). rewrite Hent.
      apply list_elem_of_fmap in Hx as (x & -> & Hx). apply list_elem_of_fmap_2.
      by apply (pb_entries _ _ Hpb), (si_unread _ _ Hs0).
    + right. exists m. by auto.
    + left. apply concluded_settled; [done|]. apply Hcon. unfold concluded.
      by rewrite (pb_runs _ _ Hpb).
    + right. exists m. by auto.
Qed.
End quiet.

(** ** Claims *)

Section claims.
Context {R : Type} `{!Env, !Others R, !Pydantic, !FloatText, !RedisStreams R}.
Implicit Types w : World R.

(** C4. The service catches up.  Take any state it can reach, after whatever
    faults, crashes and interleavings; from then on let the services work, the
    ids drawn be new, and the two loops have the process to themselves, with
    room in the stream and in the ticket counters.  Then as many outbox rounds
    as the backlog needs at 100 a round, followed by as many worker turns as
    the queue needs at 10 a turn, end without an exception, leave the queue
    empty and nothing newly pending, and every event admitted before is
    settled: its run concluded, its action recorded and its ticket written;
    except the ones whose message a fault had already left pending, or the
    stream's length bound had trimmed, and unless the audit file outgrew the
    64-bit offset column. *)
Theorem service_catches_up k n w :
  (∀ n, env_fault n = FOk) → (∀ n d r, others n d r = (d, r)) →
  (∀ m n, env_uuid m = env_uuid n → m = n) →
  reachable w → has_log w →
  action_room (w_tick w) (Z.of_nat (unread_count w + backlog w)) (w_db w) →
  (backlog w ≤ 100 * k)%nat → (unread_count w + backlog w ≤ READ_COUNT * n)%nat →
  Z.of_nat (stream_length w + backlog w) ≤ MAX_STREAM_LENGTH →
  ∃ w1 o w2, outbox_rounds k w = (Ok (), w1) ∧ worker_rounds n w1 = (o, w2) ∧
    (log_over INT8_MAX w2 ∨
     (o = Ok () ∧ unread (w_redis w2) = [] ∧
      (∀ m, m ∈ pending (w_redis w2) → m ∈ pending (w_redis w)) ∧
      ∀ i row, deliverable (w_db w) i row →
        settled (w_db w2) i ∨
        ∃ m, er_queue_message_id row = Some m ∧
          (m ∈ pending (w_redis w) ∨ trimmed m (w_redis w)))).
Proof.
  intros Hquiet Halone Hnew Hinv%reachable_inv Hlog Hroom Hk Hn Hcap.
  destruct (outbox_rounds_quiet Hquiet Halone (published w) k w) as (w1 & E1 & Hpb & Hb & Hu).
  - by apply published_closed.
  - by apply published_refl.
  - by apply inv_outbox_ready.
  - done.
  - done.
  - fold (unread_count w1) (unread_count w) in Hu.
    destruct (rounds_quiet Hquiet Halone Hnew n w1) as (o & w2 & E2 & Ho).
    { split; [apply Hpb|apply Hpb|]. rewrite Hu.
      eapply action_room_mono; [apply Hpb|done|apply Hpb|exact Hroom]. }
    exists w1, o, w2. split; [done|]. split; [done|].
    destruct Ho as [Hbig|[-> Hd]]; [by left|right]. split; [done|].
    assert (unread (w_redis w2) = []) as Hempty.
    { rewrite (dr_unread _ _ _ Hd). apply drop_ge. fold (unread_count w1). lia. }
    split; [done|]. split; [|intros i row Hrow; by eapply drained_settled].
    intros m Hm%(dr_pending _ _ _ Hd). by rewrite <-(pb_pending _ _ Hpb).
Qed.
End claims.

(** ** Witness *)

Section witnesses.
#[local] Existing Instance quiet.
#[local] Existing Instance solo.
#[local] Existing Instance strict_pydantic.
#[local] Existing Instance repr_text.

(** One event is admitted and waits in the outbox. *)
Lemma service_catches_up_witness :
  let w1 := (outbox_rounds 1 admitted_world).2 in
  let p := worker_rounds 1 w1 in
  p.1 = Ok () ∧ unread (w_redis p.2) = [] ∧ settled (w_db p.2) 7%N.
Proof.
  intros w1 p.
  destruct (service_catches_up 1 1 admitted_world) as (w1' & o & w2 & E1 & E2 & Ho).
  - done.
  - done.
  - cbn. lia.
  - exact admitted_reachable.
  - exists EmptyString. vm_compute. reflexivity.
  - assert (tickets (w_db admitted_world) = ∅) as Ht by (vm_compute; reflexivity).
    split; [vm_compute; discriminate|intros i r Hr|intros m Hm];
      rewrite Ht in *; [by rewrite lookup_empty in Hr|apply lookup_empty].
  - vm_compute. lia.
  - vm_compute. lia.
  - vm_compute. discriminate.
  - assert (w1' = w1) as -> by exact (f_equal snd (eq_sym E1)).
    assert (o = p.1) as -> by exact (f_equal fst (eq_sym E2)).
    assert (w2 = p.2) as -> by exact (f_equal snd (eq_sym E2)).
    destruct Ho as [Hbig|(Ho & Hu & _ & Hs)]; [exfalso; revert Hbig; vm_compute; discriminate|].
    split; [exact Ho|]. split; [exact Hu|].
    set (row := default (admitted_row sample_event) (events (w_db admitted_world) !! 7%N)).
    destruct (Hs 7%N row) as [H7|(m & Hm & _)]; [split; vm_compute; reflexivity|exact H7|].
    exfalso. revert Hm. vm_compute. discriminate.
Defined.
End witnesses.
