(* ===== verification/Interleave.v ===== *)
(** * Transactions that overlap

    Elsewhere a transaction is one step.  Here the statements of several
    admissions, and of several dispatchers, interleave under READ COMMITTED: a
    statement sees what was committed before it, writes become visible at the
    commit, the advisory lock and the row locks are held until then.  The
    theorems show that the locks the code takes are what makes the atomic view
    right: overlapping admissions are serializable, and an event is published
    twice only after a dispatch was lost between XADD and its commit. *)

From Stdlib Require Import Ascii.
From S2P Require Import Prelude PyStr Json PyTime Contracts Wire Database World Samples.
From S2P Require Import Repository Delivery.
From stdpp Require Import relations.

Open Scope Z_scope.

(** ** Admissions (receiver/repository.py, [admit]) *)

(** How far one call of [admit] has come. *)
Inductive phase :=
| PStart                        (* before pg_advisory_xact_lock *)
| PLocked                       (* the lock is held *)
| PHit (id : uuid) (count : Z)  (* the UPDATE returned a row, which it locks *)
| PMiss                         (* the UPDATE returned no row *)
| PInserted                     (* the INSERT ran *)
| PDone (a : Admission)         (* committed *)
| PAborted.                     (* rolled back *)

Record tx := mkTx { tx_event : AgentEvent; tx_phase : phase }.

Definition in_lock (p : phase) : bool :=
  match p with PLocked | PHit _ _ | PMiss | PInserted => true | _ => false end.

(** The row some transaction has updated and not yet committed. *)
Definition row_locked (txs : list tx) (id : uuid) : Prop :=
  ∃ i t n, txs !! i = Some t ∧ tx_phase t = PHit id n.

Record astate := mkAState { a_db : DB; a_txs : list tx }.

(** Other transactions that commit: a recovery, a delivery receipt, a
    quarantined delivery.  A row lock keeps them off the row. *)
Inductive other_commit (locked : uuid → Prop) (d : DB) : DB → Prop :=
| OtherClose fp t :
    (∀ i r, events d !! i = Some r → window_open fp r → ¬ locked i) →
    other_commit locked d (close_open_windows fp t d).2
| OtherReceipt id m t d' :
    ¬ locked id → set_receipt id m t d = Ok ((), d') → other_commit locked d d'
| OtherQuarantine id source t reason d' :
    insert_event id (quarantined_row source t reason) d = Ok d' → other_commit locked d d'.

Inductive label :=
| LAdmit (event : AgentEvent) (a : Admission)
| Other
| Silent.

Section admission.
Context `{!Pydantic}.
(** [hashtext], and whether the lock is taken. *)
Context (hash : string → Z) (locking : bool).

Definition lock_key (t : tx) : Z := hash (ae_fingerprint (tx_event t)).
Definition cutoff (event : AgentEvent) : Z := dt_us (ae_received_at event) - DEDUPE_WINDOW.

Definition move (s : astate) (i : nat) (t : tx) (p : phase) : list tx :=
  <[i := mkTx (tx_event t) p]> (a_txs s).

(** One statement of one of the calls, a commit, a rollback, or another
    transaction. *)
Inductive astep (s : astate) : label → astate → Prop :=
| ALock i t :
    a_txs s !! i = Some t → tx_phase t = PStart →
    (locking = true → ∀ j u, j ≠ i → a_txs s !! j = Some u → in_lock (tx_phase u) = true →
       lock_key u ≠ lock_key t) →
    astep s Silent (mkAState (a_db s) (move s i t PLocked))
| ACountHit i t id n d' :
    a_txs s !! i = Some t → tx_phase t = PLocked →
    count_duplicate (ae_fingerprint (tx_event t)) (cutoff (tx_event t)) (a_db s) =
      Ok (Some (id, n), d') →
    ¬ row_locked (a_txs s) id →
    astep s Silent (mkAState (a_db s) (move s i t (PHit id n)))
| ACountMiss i t d' :
    a_txs s !! i = Some t → tx_phase t = PLocked →
    count_duplicate (ae_fingerprint (tx_event t)) (cutoff (tx_event t)) (a_db s) = Ok (None, d') →
    astep s Silent (mkAState (a_db s) (move s i t PMiss))
| AInsert i t d' :
    a_txs s !! i = Some t → tx_phase t = PMiss →
    insert_event (ae_id (tx_event t)) (admitted_row (tx_event t)) (a_db s) = Ok d' →
    astep s Silent (mkAState (a_db s) (move s i t PInserted))
| ACommitHit i t id n d' :
    a_txs s !! i = Some t → tx_phase t = PHit id n →
    update_event id bump_dedupe (a_db s) = Ok d' →
    let a := mkAdmission id (ae_fingerprint (tx_event t)) n true in
    astep s (LAdmit (tx_event t) a) (mkAState d' (move s i t (PDone a)))
| ACommitNew i t d' :
    a_txs s !! i = Some t → tx_phase t = PInserted →
    insert_event (ae_id (tx_event t)) (admitted_row (tx_event t)) (a_db s) = Ok d' →
    let a := mkAdmission (ae_id (tx_event t)) (ae_fingerprint (tx_event t)) 1 false in
    astep s (LAdmit (tx_event t) a) (mkAState d' (move s i t (PDone a)))
| AAbort i t :
    a_txs s !! i = Some t → in_lock (tx_phase t) = true →
    astep s Silent (mkAState (a_db s) (move s i t PAborted))
| AOther d' :
    other_commit (row_locked (a_txs s)) (a_db s) d' → astep s Other (mkAState d' (a_txs s)).

Inductive asteps : astate → list label → astate → Prop :=
| ANil s : asteps s [] s
| ACons s l s' ls s'' : astep s l s' → asteps s' ls s'' → asteps s (l :: ls) s''.

(** The same labels with every transaction as one step. *)
Inductive serial : DB → list label → DB → Prop :=
| SerialNil d : serial d [] d
| SerialAdmit event a d d' ls d'' :
    admits event DEDUPE_WINDOW (admitted_row event) d a d' → serial d' ls d'' →
    serial d (LAdmit event a :: ls) d''
| SerialOther d d' ls d'' :
    other_commit (λ _, False) d d' → serial d' ls d'' → serial d (Other :: ls) d''
| SerialSilent d ls d' : serial d ls d' → serial d (Silent :: ls) d'.
End admission.

(** *** What a transaction has seen stays true while it holds its locks *)

(** A change that leaves fingerprint [fp] alone as far as a transaction that
    locked the rows [lk] can tell: no new candidate, and its open locked rows
    are as they were. *)
Definition calm (fp : string) (c : Z) (lk : uuid → Prop) (d d' : DB) : Prop :=
  (∀ j s', events d' !! j = Some s' → dedupe_candidate fp c s' →
     ∃ s, events d !! j = Some s ∧ dedupe_candidate fp c s ∧ er_received_at s = er_received_at s') ∧
  (∀ j r, lk j → events d !! j = Some r → window_open fp r → events d' !! j = Some r).

Lemma other_calm fp c locked d d' : other_commit locked d d' → calm fp c locked d d'.
Proof.
  intros [fp' t Hfree|id m t d1 Hl Hs|id src t reason d1 Hi].
  - rewrite close_open_windows_eq. split; cbn.
    + intros j s' (s & <- & Hs)%lookup_fmap_Some. case_decide; [|by eauto].
      by intros [(_ & _ & [=]) _].
    + intros j r Hj Hr Hw. apply lookup_fmap_Some. exists r. split; [|done].
      rewrite decide_False; [done|]. intros Hw'. by apply (Hfree j r).
  - unfold set_receipt in Hs. destruct (events d !! id) as [r|] eqn:Hr.
    2: { injection Hs as <-. split; by eauto. }
    case_decide as Hn; [|injection Hs as <-; split; by eauto].
    apply rbind_Ok in Hs as (d2 & Hs & [= <-]). unfold update_event in Hs. rewrite Hr in Hs.
    apply rbind_Ok in Hs as ([] & _ & [= <-]). split; cbn.
    + intros j s' [[<- <-]|[_ Hs']]%lookup_insert_Some Hc; [by exists r|by eauto].
    + intros j x Hj Hx _. rewrite lookup_insert_ne; [done|]. by intros ->.
  - unfold insert_event in Hi. destruct (events d !! id) eqn:Hn; [done|].
    apply rbind_Ok in Hi as ([] & _ & [= <-]). split; cbn.
    + intros j s' [[<- <-]|[_ Hs']]%lookup_insert_Some Hc; [|by eauto].
      by destruct Hc as [(_ & [=] & _) _].
    + intros j x _ Hx _. rewrite lookup_insert_ne; [done|]. intros ->. congruence.
Qed.

Lemma other_unlocked locked d d' : other_commit locked d d' → other_commit (λ _, False) d d'.
Proof.
  intros [fp t _|id m t d1 _ Hs|id src t reason d1 Hi].
  - apply OtherClose. by intros i r _ _ [].
  - eapply OtherReceipt; [tauto|exact Hs].
  - eapply OtherQuarantine. exact Hi.
Qed.

Lemma insert_calm fp c lk d id row :
  er_fingerprint row ≠ Some fp →
  (∀ r, events d !! id = Some r → er_fingerprint r ≠ Some fp) →
  calm fp c lk d (set_events (<[id := row]> (events d)) d).
Proof.
  intros Hrow Hold. split; cbn.
  - intros j s' [[<- <-]|[_ Hs']]%lookup_insert_Some Hc; [|by eauto].
    by destruct Hc as [[Hfp _] _].
  - intros j x _ Hx [Hfp _]. rewrite lookup_insert_ne; [done|]. intros ->. by apply (Hold x).
Qed.

Section serializable.
Context `{!Pydantic}.
Context (hash : string → Z).

(** What the statements of a transaction returned still holds of the committed
    rows. *)
Definition seen (t : tx) (d : DB) : Prop :=
  let cand := dedupe_candidate (ae_fingerprint (tx_event t)) (cutoff (tx_event t)) in
  match tx_phase t with
  | PHit id n =>
      ∃ r, events d !! id = Some r ∧ cand r ∧ event_check (bump_dedupe r) = Ok () ∧
        n = er_dedupe_count r + 1 ∧
        ∀ j s, events d !! j = Some s → cand s → er_received_at r ≤ er_received_at s
  | PMiss | PInserted => ∀ i r, events d !! i = Some r → ¬ cand r
  | _ => True
  end.

Record ainv (s : astate) : Prop := {
  ai_keys : ∀ i j t u, i ≠ j → a_txs s !! i = Some t → a_txs s !! j = Some u →
    in_lock (tx_phase t) = true → in_lock (tx_phase u) = true →
    lock_key hash t ≠ lock_key hash u;
  ai_seen : ∀ i t, a_txs s !! i = Some t → seen t (a_db s);
}.

Lemma calm_seen t d d' :
  calm (ae_fingerprint (tx_event t)) (cutoff (tx_event t)) (λ j, ∃ n, tx_phase t = PHit j n) d d' →
  seen t d → seen t d'.
Proof.
  intros [Hback Hkeep]. unfold seen. destruct (tx_phase t) as [| |id n| | | |]; try done.
  - intros (r & Hr & Hc & Hck & Hn & Hmin). exists r.
    split; [apply Hkeep; [by eauto|done|apply Hc]|]. do 3 (split; [done|]).
    intros j s Hj Hcs. destruct (Hback j s Hj Hcs) as (s0 & Hs0 & Hc0 & <-). by eapply Hmin.
  - intros Hno i r Hi Hc. destruct (Hback i r Hi Hc) as (s & Hs & Hcs & _). by eapply Hno.
  - intros Hno i r Hi Hc. destruct (Hback i r Hi Hc) as (s & Hs & Hcs & _). by eapply Hno.
Qed.

(** A step of transaction [i] that keeps the committed rows. *)
Lemma ainv_move s i t p :
  ainv s → a_txs s !! i = Some t →
  (in_lock p = true → in_lock (tx_phase t) = false →
     ∀ j u, j ≠ i → a_txs s !! j = Some u → in_lock (tx_phase u) = true →
       lock_key hash u ≠ lock_key hash t) →
  seen (mkTx (tx_event t) p) (a_db s) →
  ainv (mkAState (a_db s) (move s i t p)).
Proof.
  intros [Hk Hs] Hi Hlock Hseen. unfold move. constructor; cbn.
  - assert (Hold : ∀ j u, j ≠ i → a_txs s !! j = Some u → in_lock (tx_phase u) = true →
      in_lock p = true → lock_key hash u ≠ lock_key hash t).
    { intros j u Hj Hu Hl Hp. destruct (in_lock (tx_phase t)) eqn:Ht; [by eapply (Hk j i)|by eapply Hlock]. }
    intros j k u v Hjk [(<- & <- & _)|[Hj Hu]]%list_lookup_insert_Some
      [(<- & <- & _)|[Hk' Hv]]%list_lookup_insert_Some; cbn; intros Hlu Hlv.
    + done.
    + intros He. by apply (Hold k v).
    + by apply (Hold j u).
    + by eapply (Hk j k).
  - intros j u [(<- & <- & _)|[_ Hu]]%list_lookup_insert_Some; [done|by eapply Hs].
Qed.

(** A commit of transaction [i]: the others hold other keys, so they see no
    difference. *)
Lemma ainv_commit s i t a d' :
  ainv s → a_txs s !! i = Some t → in_lock (tx_phase t) = true →
  (∀ fp c lk, fp ≠ ae_fingerprint (tx_event t) → calm fp c lk (a_db s) d') →
  ainv (mkAState d' (move s i t (PDone a))).
Proof.
  intros Hinv Hi Hl Hcalm.
  assert (ainv (mkAState (a_db s) (move s i t (PDone a)))) as [Hk _] by (by apply ainv_move).
  destruct Hinv as [Hk0 Hs]. constructor; [exact Hk|]. cbn.
  intros j u [(<- & <- & _)|[Hj Hu]]%list_lookup_insert_Some; [done|].
  destruct (in_lock (tx_phase u)) eqn:Hlu; [|unfold seen; by destruct (tx_phase u)].
  apply calm_seen with (a_db s); [|by eapply Hs]. apply Hcalm. intros He.
  apply (Hk0 j i u t); [congruence|done..|]. unfold lock_key. by rewrite He.
Qed.

Lemma hit_admits s t id n d' :
  seen t (a_db s) → tx_phase t = PHit id n → update_event id bump_dedupe (a_db s) = Ok d' →
  admits (tx_event t) DEDUPE_WINDOW (admitted_row (tx_event t)) (a_db s)
    (mkAdmission id (ae_fingerprint (tx_event t)) n true) d' ∧
  ∀ fp c lk, fp ≠ ae_fingerprint (tx_event t) → calm fp c lk (a_db s) d'.
Proof.
  unfold seen. intros Hseen Hp Hu. rewrite Hp in Hseen.
  destruct Hseen as (r & Hr & Hc & Hck & -> & Hmin).
  unfold update_event in Hu. rewrite Hr, Hck in Hu. injection Hu as <-.
  split; [by eapply admits_duplicate|]. intros fp c lk Hne. destruct Hc as [[Hfp _] _].
  apply insert_calm; [|intros x Hx]; cbn; congruence.
Qed.

Lemma new_admits s t d' :
  seen t (a_db s) → tx_phase t = PInserted →
  insert_event (ae_id (tx_event t)) (admitted_row (tx_event t)) (a_db s) = Ok d' →
  admits (tx_event t) DEDUPE_WINDOW (admitted_row (tx_event t)) (a_db s)
    (mkAdmission (ae_id (tx_event t)) (ae_fingerprint (tx_event t)) 1 false) d' ∧
  ∀ fp c lk, fp ≠ ae_fingerprint (tx_event t) → calm fp c lk (a_db s) d'.
Proof.
  unfold seen. intros Hseen Hp Hi. rewrite Hp in Hseen. unfold insert_event in Hi.
  destruct (events (a_db s) !! ae_id (tx_event t)) eqn:Hn; [done|].
  apply rbind_Ok in Hi as ([] & Hck & [= <-]).
  split; [by apply admits_new|]. intros fp c lk Hne. apply insert_calm; [cbn; congruence|].
  intros r Hr. congruence.
Qed.

(** One step: the invariant, and what the label says of the committed rows. *)
Lemma astep_sound s l s' :
  ainv s → astep hash true s l s' →
  ainv s' ∧
  match l with
  | LAdmit event a => admits event DEDUPE_WINDOW (admitted_row event) (a_db s) a (a_db s')
  | Other => other_commit (λ _, False) (a_db s) (a_db s')
  | Silent => a_db s' = a_db s
  end.
Proof.
  intros Hinv Hstep.
  destruct Hstep as [i t Hi Hp Hfree|i t id n d' Hi Hp Hcd Hrow|i t d' Hi Hp Hcd|i t d' Hi Hp Hins
    |i t id n d' Hi Hp Hu a|i t d' Hi Hp Hins a|i t Hi Hp|d' Ho].
  - split; [|done]. apply ainv_move; [done|done| |done]. intros _ _ j u Hj Hu Hl.
    by apply (Hfree eq_refl j u).
  - split; [|done]. apply ainv_move; [done|done|by rewrite Hp|].
    apply count_duplicate_inv in Hcd as [([=] & _)|(id' & r & [= <- ->] & Hr & Hc & Hmin & _ & Hck)].
    unfold seen. cbn. by exists r.
  - split; [|done]. apply ainv_move; [done|done|by rewrite Hp|].
    apply count_duplicate_inv in Hcd as [(_ & _ & Hno)|(id' & r & [=] & _)]. exact Hno.
  - split; [|done]. apply ainv_move; [done|done|by rewrite Hp|].
    pose proof (ai_seen s Hinv i t Hi) as Hs. unfold seen in *. by rewrite Hp in Hs.
  - destruct (hit_admits s t id n d' (ai_seen s Hinv i t Hi) Hp Hu) as [Ha Hcalm].
    split; [|done]. apply ainv_commit; [done..|by rewrite Hp|done].
  - destruct (new_admits s t d' (ai_seen s Hinv i t Hi) Hp Hins) as [Ha Hcalm].
    split; [|done]. apply ainv_commit; [done..|by rewrite Hp|done].
  - split; [|done]. by apply ainv_move.
  - split; [|by eapply other_unlocked]. destruct Hinv as [Hk Hs]. constructor; [exact Hk|].
    intros i t Hi. apply calm_seen with (a_db s); [|by eapply Hs].
    destruct (other_calm (ae_fingerprint (tx_event t)) (cutoff (tx_event t)) _ _ _ Ho) as [H1 H2].
    split; [done|]. intros j r [n Hn] Hr Hw. apply H2; [|done..]. by exists i, t, n.
Qed.

(** C9. Admissions that overlap behave as if they ran one after another.  However
    the statements of any number of admissions interleave, with rollbacks and
    with recoveries, receipts and quarantines committing between them, every
    committed admission took the decision [admits] describes on the rows
    committed just before it: no two new events of one incident, no duplicate
    counted twice or lost. *)
Theorem admissions_serializable s ls s' :
  (∀ t, t ∈ a_txs s → tx_phase t = PStart) → asteps hash true s ls s' →
  serial (a_db s) ls (a_db s').
Proof.
  intros Hstart Hsteps. assert (ainv s) as Hinv.
  { assert (Hp : ∀ i t, a_txs s !! i = Some t → tx_phase t = PStart).
    { intros i t Hi. apply Hstart. by eapply list_elem_of_lookup_2. }
    constructor.
    - intros i j t u _ Hi%Hp _ Hl. by rewrite Hi in Hl.
    - intros i t Hi%Hp. unfold seen. by rewrite Hi. }
  clear Hstart. induction Hsteps as [s|s l s1 ls s2 Hstep Hsteps IH]; [constructor|].
  destruct (astep_sound _ _ _ Hinv Hstep) as [Hinv1 Hl]. specialize (IH Hinv1).
  destruct l as [event a| |].
  - by eapply SerialAdmit.
  - by eapply SerialOther.
  - constructor. by rewrite <-Hl.
Qed.
End serializable.

Lemma insert_event_eq id row d :
  events d !! id = None → event_check row = Ok () →
  insert_event id row d = Ok (set_events (<[id := row]> (events d)) d).
Proof. intros Hn Hc. unfold insert_event. by rewrite Hn, Hc. Qed.

Lemma count_none fp c d :
  (∀ i r, events d !! i = Some r → ¬ dedupe_candidate fp c r) → count_duplicate fp c d = Ok (None, d).
Proof.
  intros Hno. unfold count_duplicate. destruct (head _) as [[id r]|] eqn:E; [|done].
  apply head_order_by_received in E as [[Hi Hc]%map_lookup_filter_Some _]. by destruct (Hno id r).
Qed.

(** *** Two deliveries of one incident *)

#[local] Existing Instance strict_pydantic.

Definition first_delivery : AgentEvent := sample_event.
Definition second_delivery : AgentEvent := sample_event_at 8%N 1785090600000000 "p99 above 2s".
Definition race : astate := mkAState empty_db [mkTx first_delivery PStart; mkTx second_delivery PStart].

Lemma deliveries_storable :
  event_check (admitted_row first_delivery) = Ok () ∧
  event_check (admitted_row second_delivery) = Ok ().
Proof. vm_compute. done. Qed.

(** Without the advisory lock the two admissions of one incident can both look,
    both find nothing and both insert: two new events of one fingerprint.  The
    lock is what [admissions_serializable] rests on. *)
Theorem race_without_lock hash :
  let new e := LAdmit e (mkAdmission (ae_id e) (ae_fingerprint e) 1 false) in
  ae_fingerprint first_delivery = ae_fingerprint second_delivery ∧
  ∃ s, asteps hash false race
         [Silent; Silent; Silent; Silent; Silent; Silent; new first_delivery; new second_delivery] s ∧
       size (events (a_db s)) = 2%nat.
Proof.
  destruct deliveries_storable as [C1 C2].
  assert (∀ fp c i r, events empty_db !! i = Some r → ¬ dedupe_candidate fp c r) as Hno.
  { intros fp c i r Hr. cbn in Hr. by rewrite lookup_empty in Hr. }
  split; [vm_compute; reflexivity|]. eexists. split.
  - eapply ACons; [by apply (ALock _ _ race 0 (mkTx first_delivery PStart))|].
    eapply ACons; [by eapply (ALock _ _ _ 1 (mkTx second_delivery PStart))|].
    eapply ACons; [by eapply (ACountMiss _ _ _ 0 (mkTx first_delivery PLocked)), count_none|].
    eapply ACons; [by eapply (ACountMiss _ _ _ 1 (mkTx second_delivery PLocked)), count_none|].
    eapply ACons; [by eapply (AInsert _ _ _ 0 (mkTx first_delivery PMiss)), insert_event_eq|].
    eapply ACons; [by eapply (AInsert _ _ _ 1 (mkTx second_delivery PMiss)), insert_event_eq|].
    eapply ACons; [by eapply (ACommitNew _ _ _ 0 (mkTx first_delivery PInserted)), insert_event_eq|].
    eapply ACons; [by eapply (ACommitNew _ _ _ 1 (mkTx second_delivery PInserted)), insert_event_eq|].
    apply ANil.
  - cbn [a_db]. unfold set_events. cbn [events]. rewrite !map_size_insert_None; [done|apply lookup_empty|].
    rewrite lookup_insert_ne by done. apply lookup_empty.
Qed.

(** With the lock: the first admission commits, then the second counts. *)
Lemma admissions_serializable_witness :
  let a := mkAdmission 7%N (ae_fingerprint first_delivery) 1 false in
  let ls := [Silent; Silent; Silent; LAdmit first_delivery a] in
  ∃ s, asteps (λ _, 0) true race ls s ∧ serial (a_db race) ls (a_db s).
Proof.
  intros a ls. destruct deliveries_storable as [C1 _].
  assert (∀ fp c i r, events empty_db !! i = Some r → ¬ dedupe_candidate fp c r) as Hno.
  { intros fp c i r Hr. cbn in Hr. by rewrite lookup_empty in Hr. }
  assert (∃ s, asteps (λ _, 0) true race ls s) as [s Hs].
  { eexists. eapply ACons; [apply (ALock _ _ race 0 (mkTx first_delivery PStart)); [done..|]|].
    { intros _ [|[|j]] u Hj Hu Hl; [by destruct Hj| |discriminate Hu].
      change (Some (mkTx second_delivery PStart) = Some u) in Hu.
      assert (mkTx second_delivery PStart = u) as <- by congruence. discriminate Hl. }
    eapply ACons; [by eapply (ACountMiss _ _ _ 0 (mkTx first_delivery PLocked)), count_none|].
    eapply ACons; [by eapply (AInsert _ _ _ 0 (mkTx first_delivery PMiss)), insert_event_eq|].
    eapply ACons; [by eapply (ACommitNew _ _ _ 0 (mkTx first_delivery PInserted)), insert_event_eq|].
    apply ANil. }
  exists s. split; [exact Hs|].
  apply (admissions_serializable (λ _, 0) race ls s); [|exact Hs].
  intros t [->|[->|[]%elem_of_nil]%elem_of_cons]%elem_of_cons; reflexivity.
Defined.

(** ** Dispatchers (receiver/delivery.py, [dispatch_event]) *)

(** How far one call of [dispatch_event] has come. *)
Inductive dphase :=
| DStart                       (* before SELECT ... FOR UPDATE *)
| DHeld                        (* the row is locked, without a receipt *)
| DSent (m : string)           (* XADD returned [m] *)
| DDone (o : option string)    (* returned *)
| DLost (m : string)           (* failed after XADD: no receipt was committed *)
| DAborted.                    (* failed before XADD *)

Record dispatcher := mkDisp { dp_id : uuid; dp_phase : dphase }.

Definition holding (p : dphase) : bool := match p with DHeld | DSent _ => true | _ => false end.

(** The stream as the pairs of message and event published. *)
Record dstate := mkDState { b_db : DB; b_stream : list (string * uuid); b_disp : list dispatcher }.

(** The committed delivery receipt. *)
Definition receipt (d : DB) (id : uuid) : option string := events d !! id ≫= er_queue_message_id.

(** Transactions other than dispatches: they keep rows and receipts, and the
    rows they add have none. *)
Definition receipts_kept (d d' : DB) : Prop :=
  ∀ id, receipt d' id = receipt d id ∧ (is_Some (events d !! id) → is_Some (events d' !! id)).

Definition dmove (s : dstate) (i : nat) (t : dispatcher) (p : dphase) : list dispatcher :=
  <[i := mkDisp (dp_id t) p]> (b_disp s).

(** No other call holds the lock of the row. *)
Definition row_free (s : dstate) (i : nat) (id : uuid) : Prop :=
  ∀ j u, j ≠ i → b_disp s !! j = Some u → dp_id u = id → holding (dp_phase u) = false.

Inductive dstep (s : dstate) : dstate → Prop :=
| DTake i t row :
    b_disp s !! i = Some t → dp_phase t = DStart → row_free s i (dp_id t) →
    deliverable (b_db s) (dp_id t) row → er_queue_message_id row = None →
    dstep s (mkDState (b_db s) (b_stream s) (dmove s i t DHeld))
| DKnown i t row m :
    b_disp s !! i = Some t → dp_phase t = DStart → row_free s i (dp_id t) →
    deliverable (b_db s) (dp_id t) row → er_queue_message_id row = Some m →
    dstep s (mkDState (b_db s) (b_stream s) (dmove s i t (DDone (Some m))))
| DNone i t :
    b_disp s !! i = Some t → dp_phase t = DStart → (∀ row, ¬ deliverable (b_db s) (dp_id t) row) →
    dstep s (mkDState (b_db s) (b_stream s) (dmove s i t (DDone None)))
| DSend i t m :
    b_disp s !! i = Some t → dp_phase t = DHeld →
    dstep s (mkDState (b_db s) (b_stream s ++ [(m, dp_id t)]) (dmove s i t (DSent m)))
| DCommit i t m q d' :
    b_disp s !! i = Some t → dp_phase t = DSent m →
    set_receipt (dp_id t) m q (b_db s) = Ok ((), d') →
    dstep s (mkDState d' (b_stream s) (dmove s i t (DDone (Some m))))
| DLose i t m :
    b_disp s !! i = Some t → dp_phase t = DSent m →
    dstep s (mkDState (b_db s) (b_stream s) (dmove s i t (DLost m)))
| DDrop i t :
    b_disp s !! i = Some t → dp_phase t = DStart ∨ dp_phase t = DHeld →
    dstep s (mkDState (b_db s) (b_stream s) (dmove s i t DAborted))
| DOther d' :
    receipts_kept (b_db s) d' → dstep s (mkDState d' (b_stream s) (b_disp s)).

(** Admissions and recoveries are such other transactions. *)
Lemma admits_receipts_kept event window row d a d' :
  er_queue_message_id row = None → admits event window row d a d' → receipts_kept d d'.
Proof.
  intros Hrow Ha id. unfold receipt.
  destruct Ha as [i r Hi _ _ _|_ Hn _]; cbn.
  - destruct (decide (id = i)) as [->|Hne]; [|by rewrite lookup_insert_ne].
    rewrite lookup_insert_eq, Hi. cbn. split; [done|]. by eexists.
  - destruct (decide (id = ae_id event)) as [->|Hne]; [|by rewrite lookup_insert_ne].
    rewrite lookup_insert_eq, Hn. cbn. split; [done|]. by intros [].
Qed.

Lemma close_receipts_kept fp t d : receipts_kept d (close_open_windows fp t d).2.
Proof.
  rewrite close_open_windows_eq. intros id. unfold receipt. cbn. rewrite lookup_fmap.
  destruct (events d !! id) as [r|]; cbn; [|done]. by case_decide.
Qed.

(** *** Counting *)

Fixpoint total (f : dispatcher → Z) (l : list dispatcher) : Z :=
  match l with [] => 0 | t :: l => f t + total f l end.

Lemma total_insert f l i t t' :
  l !! i = Some t → total f (<[i := t']> l) = total f l - f t + f t'.
Proof.
  revert i. induction l as [|x l IH]; intros [|i] Hi; try done; cbn in *.
  - injection Hi as ->. lia.
  - etrans; [exact (f_equal (Z.add (f x)) (IH i Hi))|]. lia.
Qed.

Lemma total_nonneg f l : (∀ t, 0 ≤ f t) → 0 ≤ total f l.
Proof. intros Hf. induction l as [|x l IH]; cbn; [lia|]. specialize (Hf x). lia. Qed.

Lemma total_ge f l i t : (∀ t, 0 ≤ f t) → l !! i = Some t → f t ≤ total f l.
Proof.
  intros Hf. revert i. induction l as [|x l IH]; intros [|i] Hi; try done; cbn in *.
  - injection Hi as ->. pose proof (total_nonneg f l Hf). lia.
  - specialize (IH i Hi). specialize (Hf x). lia.
Qed.

Lemma total_zero f l : (∀ i t, l !! i = Some t → f t = 0) → total f l = 0.
Proof.
  induction l as [|x l IH]; intros Hz; cbn; [done|]. rewrite (Hz 0%nat x eq_refl), IH; [done|].
  intros i t Hi. by apply (Hz (S i)).
Qed.

Definition b2z (b : bool) : Z := if b then 1 else 0.
Definition holds (id : uuid) (t : dispatcher) : Z :=
  b2z (bool_decide (dp_id t = id) && holding (dp_phase t)).
Definition sent (id : uuid) (t : dispatcher) : Z :=
  b2z (bool_decide (dp_id t = id) && match dp_phase t with DSent _ => true | _ => false end).
Definition lost (id : uuid) (t : dispatcher) : Z :=
  b2z (bool_decide (dp_id t = id) && match dp_phase t with DLost _ => true | _ => false end).

(** Entries of an event on the stream. *)
Definition entries_of (id : uuid) (l : list (string * uuid)) : Z :=
  Z.of_nat (length (filter (λ e, e.2 = id) l)).

Definition newly (o o' : option string) : Z :=
  match o, o' with None, Some _ => 1 | _, _ => 0 end.

Lemma b2z_range b : 0 ≤ b2z b ≤ 1.
Proof. destruct b; cbn; lia. Qed.

Lemma sent_le_holds id t : sent id t ≤ holds id t.
Proof. unfold sent, holds. destruct (bool_decide _), (dp_phase t); cbn; lia. Qed.

Lemma total_mono f g l : (∀ t, f t ≤ g t) → total f l ≤ total g l.
Proof. intros Hfg. induction l as [|x l IH]; cbn; [lia|]. specialize (Hfg x). lia. Qed.

Lemma entries_of_app id l m id' :
  entries_of id (l ++ [(m, id')]) = entries_of id l + b2z (bool_decide (id' = id)).
Proof.
  unfold entries_of. rewrite filter_app, length_app, filter_cons, filter_nil. cbn.
  destruct (decide (id' = id)) as [->|Hn]; cbn.
  - rewrite bool_decide_eq_true_2 by done. cbn. lia.
  - rewrite bool_decide_eq_false_2 by done. cbn. lia.
Qed.

Section dispatch.
Context (s0 : dstate).

Record dinv (s : dstate) : Prop := {
  (* one holder, of a row without a receipt *)
  di_one : ∀ id, total (holds id) (b_disp s) ≤ 1;
  di_none : ∀ id, 0 < total (holds id) (b_disp s) →
    is_Some (events (b_db s) !! id) ∧ receipt (b_db s) id = None;
  (* receipts are final *)
  di_kept : ∀ id m, receipt (b_db s0) id = Some m → receipt (b_db s) id = Some m;
  di_done : ∀ i t m, b_disp s !! i = Some t → dp_phase t = DDone (Some m) →
    receipt (b_db s) (dp_id t) = Some m;
  (* every entry is a receipt of this run, a loss or in flight *)
  di_count : ∀ id, entries_of id (b_stream s) = entries_of id (b_stream s0) +
    total (lost id) (b_disp s) + total (sent id) (b_disp s) +
    newly (receipt (b_db s0) id) (receipt (b_db s) id);
  di_old : ∀ id, receipt (b_db s0) id ≠ None → total (lost id) (b_disp s) = 0;
}.

(** A step of call [i] on committed rows that keep their receipts. *)
Lemma dinv_move s i t p str :
  dinv s → b_disp s !! i = Some t →
  (holding p = true → holding (dp_phase t) = false →
     row_free s i (dp_id t) ∧ is_Some (events (b_db s) !! dp_id t) ∧
     receipt (b_db s) (dp_id t) = None) →
  (∀ m, p = DDone (Some m) → receipt (b_db s) (dp_id t) = Some m) →
  (∀ id, entries_of id str - entries_of id (b_stream s) =
     lost id (mkDisp (dp_id t) p) - lost id t + sent id (mkDisp (dp_id t) p) - sent id t) →
  (∀ m, p = DLost m → holding (dp_phase t) = true) →
  dinv (mkDState (b_db s) str (dmove s i t p)).
Proof.
  intros [H1 H2 H3 H4 H5 H6] Hi Hh Hd He Hl. unfold dmove.
  assert (Hnew : ∀ id, total (holds id) (<[i := mkDisp (dp_id t) p]> (b_disp s)) =
    total (holds id) (b_disp s) - holds id t + holds id (mkDisp (dp_id t) p))
    by (intros id; by apply total_insert).
  assert (Hfree : holding p = true → holding (dp_phase t) = false →
    total (holds (dp_id t)) (b_disp s) = 0).
  { intros Hp Ht. destruct (Hh Hp Ht) as [Hf _]. apply total_zero. intros j u Hu. unfold holds.
    destruct (decide (j = i)) as [->|Hj].
    - assert (u = t) as -> by congruence. by rewrite Ht, andb_false_r.
    - case_bool_decide as Hid; [|done]. by rewrite (Hf j u Hj Hu Hid). }
  assert (Hcases : ∀ id, holds id (mkDisp (dp_id t) p) ≤ holds id t ∨
    (id = dp_id t ∧ holding p = true ∧ holding (dp_phase t) = false)).
  { intros id. unfold holds. cbn. case_bool_decide; [|left; cbn; lia]. subst.
    destruct (holding p), (holding (dp_phase t)); cbn; auto; left; lia. }
  constructor; cbn.
  - intros id. rewrite Hnew. specialize (H1 id).
    destruct (Hcases id) as [Hle|(-> & Hp & Ht)]; [lia|]. specialize (Hfree Hp Ht).
    unfold holds at 2 3. cbn. pose proof (b2z_range (bool_decide (dp_id t = dp_id t) && holding p)).
    pose proof (b2z_range (bool_decide (dp_id t = dp_id t) && holding (dp_phase t))). lia.
  - intros id. rewrite Hnew. intros Hpos.
    destruct (Hcases id) as [Hle|(-> & Hp & Ht)]; [apply H2; lia|]. by apply Hh.
  - done.
  - intros j u m [(<- & <- & _)|[_ Hu]]%list_lookup_insert_Some Hm; [by apply Hd|by eapply H4].
  - intros id. rewrite !(total_insert _ _ _ _ _ Hi). specialize (H5 id). specialize (He id). lia.
  - intros id Hr. rewrite (total_insert _ _ _ _ _ Hi), (H6 id Hr).
    assert (lost id t = 0) as ->.
    { pose proof (total_ge (lost id) _ _ _ (λ t, proj1 (b2z_range _)) Hi) as Hge.
      rewrite (H6 id Hr) in Hge. pose proof (b2z_range
        (bool_decide (dp_id t = id) && match dp_phase t with DLost _ => true | _ => false end)).
      unfold lost in *. lia. }
    unfold lost. cbn. case_bool_decide as Hid; [|done]. destruct p as [| | | |m|]; try done.
    exfalso. assert (0 < total (holds id) (b_disp s)) as Hpos.
    { pose proof (total_ge (holds id) _ _ _ (λ t, proj1 (b2z_range _)) Hi) as Hge.
      unfold holds at 1 in Hge. rewrite bool_decide_eq_true_2, (Hl m eq_refl) in Hge by done.
      cbn in Hge. lia. }
    destruct (H2 id Hpos) as [_ Hnone]. destruct (receipt (b_db s0) id) as [m0|] eqn:E; [|done].
    specialize (H3 id m0 E). congruence.
Qed.

Lemma set_receipt_at id m q d d' :
  is_Some (events d !! id) → receipt d id = None → set_receipt id m q d = Ok ((), d') →
  receipt d' id = Some m ∧
  ∀ j, j ≠ id → receipt d' j = receipt d j ∧ events d' !! j = events d !! j.
Proof.
  intros [r Hr] Hn Hs. unfold receipt in Hn. unfold set_receipt in Hs. rewrite Hr in *.
  rewrite decide_True in Hs by done. apply rbind_Ok in Hs as (d2 & Hs & [= <-]).
  unfold update_event in Hs. rewrite Hr in Hs. apply rbind_Ok in Hs as ([] & _ & [= <-]).
  unfold receipt. cbn. split; [by rewrite lookup_insert_eq|]. intros j Hj.
  by rewrite !lookup_insert_ne by done.
Qed.

Lemma dinv_commit s i t m q d' :
  dinv s → b_disp s !! i = Some t → dp_phase t = DSent m →
  set_receipt (dp_id t) m q (b_db s) = Ok ((), d') →
  dinv (mkDState d' (b_stream s) (dmove s i t (DDone (Some m)))).
Proof.
  intros [H1 H2 H3 H4 H5 H6] Hi Hp Hset. unfold dmove.
  assert (holds (dp_id t) t = 1) as Hone by (unfold holds; by rewrite bool_decide_eq_true_2, Hp).
  pose proof (total_ge (holds (dp_id t)) _ _ _ (λ t, proj1 (b2z_range _)) Hi) as Hge.
  destruct (H2 (dp_id t)) as [Hrow Hnone]; [lia|].
  destruct (set_receipt_at _ _ _ _ _ Hrow Hnone Hset) as [Hme Hothers].
  assert (receipt (b_db s0) (dp_id t) = None) as H0.
  { destruct (receipt (b_db s0) (dp_id t)) as [m0|] eqn:E; [|done].
    specialize (H3 _ _ E). congruence. }
  assert (∀ f id, dp_id t ≠ id → f = holds id ∨ f = sent id ∨ f = lost id →
    f t = 0 ∧ f (mkDisp (dp_id t) (DDone (Some m))) = 0) as Hz.
  { intros f id Hid [->|[->| ->]]; unfold holds, sent, lost; cbn;
      by rewrite bool_decide_eq_false_2. }
  constructor; cbn.
  - intros id. rewrite (total_insert _ _ _ _ _ Hi). specialize (H1 id).
    unfold holds at 3. cbn. rewrite andb_false_r. cbn. pose proof (b2z_range
      (bool_decide (dp_id t = id) && holding (dp_phase t))). unfold holds in *. lia.
  - intros id. rewrite (total_insert _ _ _ _ _ Hi). unfold holds at 3. cbn. rewrite andb_false_r. cbn.
    intros Hpos. destruct (decide (dp_id t = id)) as [<-|Hne]; [specialize (H1 (dp_id t)); lia|].
    destruct (Hz (holds id) id Hne) as [Hz1 _]; [by left|].
    destruct (H2 id) as [Hs Hn]; [lia|]. destruct (Hothers id) as [-> ->]; [congruence|done].
  - intros id m0 Hm0. destruct (decide (id = dp_id t)) as [->|Hne]; [congruence|].
    destruct (Hothers id Hne) as [-> _]. by apply H3.
  - intros j u m' [(<- & <- & _)|[_ Hu]]%list_lookup_insert_Some Hm; cbn in *; [by injection Hm as <-|].
    specialize (H4 j u m' Hu Hm). destruct (decide (dp_id u = dp_id t)) as [He|Hne].
    + rewrite He in H4. congruence.
    + by destruct (Hothers _ Hne) as [-> _].
  - intros id. rewrite !(total_insert _ _ _ _ _ Hi). specialize (H5 id).
    destruct (decide (dp_id t = id)) as [<-|Hne].
    + rewrite Hnone, H0 in H5. rewrite Hme, H0. cbn in *.
      unfold sent at 2 3, lost at 2 3. cbn. rewrite !bool_decide_eq_true_2, Hp by done. cbn. lia.
    + destruct (Hz (sent id) id Hne) as [-> ->]; [by auto|].
      destruct (Hz (lost id) id Hne) as [-> ->]; [by auto|].
      destruct (Hothers id) as [-> _]; [congruence|]. lia.
  - intros id Hr. rewrite (total_insert _ _ _ _ _ Hi), (H6 id Hr). unfold lost. cbn.
    rewrite Hp, !andb_false_r. done.
Qed.

Lemma dstep_inv s s' : dinv s → dstep s s' → dinv s'.
Proof.
  intros Hinv Hstep. pose proof Hinv as [H1 H2 H3 H4 H5 H6].
  destruct Hstep as [i t row Hi Hp Hf [Hrow _] Hn|i t row m Hi Hp Hf [Hrow _] Hm|i t Hi Hp Hno
    |i t m Hi Hp|i t m q d' Hi Hp Hset|i t m Hi Hp|i t Hi Hp|d' Hk].
  - apply dinv_move; try done.
    + intros _ _. split; [done|]. split; [by eexists|]. unfold receipt. by rewrite Hrow.
    + intros id. unfold lost, sent. cbn. rewrite Hp. rewrite !andb_false_r. cbn. lia.
  - apply dinv_move; try done.
    + intros m' [= <-]. unfold receipt. by rewrite Hrow.
    + intros id. unfold lost, sent. cbn. rewrite Hp. rewrite !andb_false_r. cbn. lia.
  - apply dinv_move; try done. intros id. unfold lost, sent. cbn. rewrite Hp.
    rewrite !andb_false_r. cbn. lia.
  - apply dinv_move; try done; [by rewrite Hp|]. intros id. rewrite entries_of_app.
    unfold lost, sent. cbn. rewrite Hp, !andb_false_r, andb_true_r. cbn. lia.
  - by eapply dinv_commit.
  - apply dinv_move; try done.
    + intros id. unfold lost, sent. cbn. rewrite Hp, !andb_false_r, !andb_true_r. cbn. lia.
    + intros _ _. by rewrite Hp.
  - apply dinv_move; try done. intros id. unfold lost, sent. cbn.
    destruct Hp as [-> | ->]; rewrite !andb_false_r; cbn; lia.
  - constructor; cbn; try done.
    + intros id Hpos. destruct (H2 id Hpos) as [Hs Hn]. destruct (Hk id) as [-> Hsome]. auto.
    + intros id m Hm. destruct (Hk id) as [-> _]. by apply H3.
    + intros i t m Hi Hm. destruct (Hk (dp_id t)) as [-> _]. by eapply H4.
    + intros id. destruct (Hk id) as [-> _]. apply H5.
Qed.

Lemma dinv_start : (∀ t, t ∈ b_disp s0 → dp_phase t = DStart) → dinv s0.
Proof.
  intros Hstart.
  assert (Hz : ∀ f id, f = holds id ∨ f = sent id ∨ f = lost id → total f (b_disp s0) = 0).
  { intros f id Hf. apply total_zero. intros i t Hi.
    assert (dp_phase t = DStart) as Hp by (apply Hstart; by eapply list_elem_of_lookup_2).
    destruct Hf as [->|[->| ->]]; unfold holds, sent, lost; by rewrite Hp, andb_false_r. }
  constructor; try done.
  - intros id. rewrite (Hz (holds id) id) by auto. lia.
  - intros id. rewrite (Hz (holds id) id) by auto. lia.
  - intros i t m Hi Hm. rewrite Hstart in Hm; [done|]. by eapply list_elem_of_lookup_2.
  - intros id. rewrite (Hz (lost id) id), (Hz (sent id) id) by auto.
    destruct (receipt (b_db s0) id); cbn; lia.
  - intros id _. apply (Hz (lost id) id). auto.
Qed.

Lemma dinv_run x y : rtc dstep x y → dinv x → dinv y.
Proof. induction 1 as [|x y z Hxy Hyz IH]; [done|]. intros Hx. apply IH. by eapply dstep_inv. Qed.

(** C10. An event is published once, and once more only for each dispatch that was
    lost after its XADD.  However any number of dispatch calls for any events
    overlap, with admissions and recoveries between them, the stream gains at
    most one entry of an event besides those of lost calls, none when the
    receipt was there from the start; and every call that returns a message id
    returns the one that is recorded. *)
Theorem published_once s id :
  (∀ t, t ∈ b_disp s0 → dp_phase t = DStart) → rtc dstep s0 s →
  let published := entries_of id (b_stream s) - entries_of id (b_stream s0) in
  published ≤ 1 + total (lost id) (b_disp s) ∧
  (receipt (b_db s0) id ≠ None → published = 0) ∧
  ∀ t m, t ∈ b_disp s → dp_id t = id → dp_phase t = DDone (Some m) → receipt (b_db s) id = Some m.
Proof.
  intros Hstart Hrun.
  destruct (dinv_run _ _ Hrun (dinv_start Hstart)) as [H1 H2 H3 H4 H5 H6].
  specialize (H5 id). specialize (H1 id).
  pose proof (total_mono (sent id) (holds id) (b_disp s) (sent_le_holds id)) as Hle.
  pose proof (total_nonneg (sent id) (b_disp s) (λ t, proj1 (b2z_range _))) as Hge.
  cbv zeta. split; [|split].
  - destruct (decide (0 < total (holds id) (b_disp s))) as [Hpos|Hz].
    + destruct (H2 id Hpos) as [_ Hn]. rewrite Hn in H5.
      destruct (receipt (b_db s0) id) eqn:E; cbn in H5; [|lia].
      specialize (H3 id _ E). congruence.
    + unfold newly in H5. destruct (receipt (b_db s0) id), (receipt (b_db s) id); lia.
  - intros Hr. specialize (H6 id Hr). destruct (receipt (b_db s0) id) as [m0|] eqn:E; [|done].
    specialize (H3 id m0 E). destruct (decide (0 < total (holds id) (b_disp s))) as [Hpos|Hz].
    + destruct (H2 id Hpos) as [_ Hn]. congruence.
    + cbn in H5. lia.
  - intros t m Ht <- Hm. apply list_elem_of_lookup in Ht as [i Hi]. by eapply H4.
Qed.
End dispatch.

(** *** A lost dispatch is retried by the next *)

Definition two_dispatchers : dstate := mkDState one_event_db [] [mkDisp 7%N DStart; mkDisp 7%N DStart].

Lemma retry_run :
  ∃ s, rtc dstep two_dispatchers s ∧ b_stream s = [("1-0", 7%N); ("2-0", 7%N)] ∧
       b_disp s = [mkDisp 7%N (DLost "1-0"); mkDisp 7%N (DSent "2-0")].
Proof.
  assert (deliverable one_event_db 7%N (admitted_row sample_event)) as Hrow.
  { split; [|done]. unfold one_event_db. cbn. apply lookup_singleton_eq. }
  eexists. split; [|split].
  - eapply rtc_l; [apply (DTake two_dispatchers 0 (mkDisp 7%N DStart) (admitted_row sample_event)); [done|done| |exact Hrow|done]|].
    { intros [|[|j]] u Hj Hu; [by destruct Hj| |discriminate Hu]. by injection Hu as <-. }
    eapply rtc_l; [by apply (DSend _ 0 (mkDisp 7%N DHeld) "1-0")|].
    eapply rtc_l; [by apply (DLose _ 0 (mkDisp 7%N (DSent "1-0")) "1-0")|].
    eapply rtc_l; [eapply (DTake _ 1 (mkDisp 7%N DStart) (admitted_row sample_event)); [done|done| |exact Hrow|done]|].
    { intros [|[|j]] u Hj Hu; [|by destruct Hj|discriminate Hu]. by injection Hu as <-. }
    eapply rtc_l; [by apply (DSend _ 1 (mkDisp 7%N DHeld) "2-0")|]. apply rtc_refl.
  - done.
  - done.
Qed.

Lemma published_once_witness :
  ∃ s, rtc dstep two_dispatchers s ∧
    entries_of 7%N (b_stream s) - entries_of 7%N (b_stream two_dispatchers) = 2 ∧
    entries_of 7%N (b_stream s) - entries_of 7%N (b_stream two_dispatchers)
      ≤ 1 + total (lost 7%N) (b_disp s).
Proof.
  destruct retry_run as (s & Hrun & Hstr & Hdisp). exists s. split; [exact Hrun|].
  split; [rewrite Hstr; reflexivity|].
  refine (proj1 (published_once two_dispatchers s 7%N _ Hrun)).
  intros t [->|[->|[]%elem_of_nil]%elem_of_cons]%elem_of_cons; reflexivity.
Defined.
