(* ===== verification/TicketOverlap.v ===== *)
(** * Conclusions that overlap (actions/service.py, [apply])

    [Actions] runs each transaction of [apply] as one step.  Here the statements
    of several calls interleave under READ COMMITTED, with recoveries closing
    tickets between them.  What orders them are the lock on the run row, the
    entry of the partial unique index that an uncommitted INSERT holds, and the
    lock an uncommitted UPDATE holds on its ticket. *)

From Stdlib Require Import Ascii.
From S2P Require Import Prelude PyStr Json PyTime Contracts Wire Database World Samples.
From S2P Require Import Repository Actions.

Open Scope Z_scope.

(** What a call has written to [tickets] and not committed. *)
Inductive ticket_write :=
| Opened (tid : uuid)
| Commented (tid : uuid) (old : TicketRow).

(** How far one call of [apply] has come. *)
Inductive aphase :=
| AStart                       (* before SELECT ... FOR UPDATE *)
| ALocked                      (* the run row is locked *)
| AReplay (p : ActionRow)      (* the ledger has the action *)
| AFresh                       (* the ledger has none *)
| AConflict                    (* the INSERT met an open ticket *)
| AWrote (w : ticket_write)    (* the ticket is written *)
| ALogged (w : ticket_write)   (* and so is the ledger row *)
| ADone (o : TicketOutcome)    (* committed *)
| AAborted.                    (* rolled back *)

Record call := mkCall { cl_conclusion : Conclusion; cl_moment : Z; cl_phase : aphase }.
Record tstate := mkTState { t_db : DB; t_calls : list call }.

Definition cl_run (k : call) : uuid := co_run_id (cl_conclusion k).
Definition cl_fp (k : call) : string := co_fingerprint (cl_conclusion k).

Definition holds_run (p : aphase) : bool :=
  match p with AStart | ADone _ | AAborted => false | _ => true end.

Definition written (p : aphase) : option ticket_write :=
  match p with AWrote w | ALogged w => Some w | _ => None end.

(** The run row is locked by another call. *)
Definition run_free (s : tstate) (i : nat) (run : uuid) : Prop :=
  ∀ j k, j ≠ i → t_calls s !! j = Some k → holds_run (cl_phase k) = true → cl_run k ≠ run.

(** No uncommitted ticket of the fingerprint, or with the primary key. *)
Definition slot_free (s : tstate) (fp : string) : Prop :=
  ∀ j k tid, t_calls s !! j = Some k → written (cl_phase k) = Some (Opened tid) → cl_fp k ≠ fp.
Definition id_free (s : tstate) (tid : uuid) : Prop :=
  ∀ j k, t_calls s !! j = Some k → written (cl_phase k) ≠ Some (Opened tid).

(** The ticket some call has updated and not committed. *)
Definition ticket_locked (l : list call) (tid : uuid) : Prop :=
  ∃ j k r, l !! j = Some k ∧ written (cl_phase k) = Some (Commented tid r).

Definition outcome_of (c : Conclusion) (w : ticket_write) : TicketOutcome :=
  match w with
  | Opened tid => mkTicketOutcome tid (external_id_of (co_fingerprint c)) true 0 false
  | Commented tid r => mkTicketOutcome tid (tk_external_id r) false (tk_update_count r + 1) false
  end.

Definition replay_of (p : ActionRow) : TicketOutcome :=
  mkTicketOutcome (ta_ticket_id p) (ta_external_id p) (ta_created p) (ta_update_count p) true.

(** The committed rows with the call's own ticket write on top. *)
Definition with_write (c : Conclusion) (t : Z) (w : ticket_write) (d : DB) : DB :=
  match w with
  | Opened tid =>
      let fp := co_fingerprint c in
      set_tickets (<[tid := opened_ticket fp (external_id_of fp) t]> (tickets d)) d
  | Commented tid r => set_tickets (<[tid := bump_update r]> (tickets d)) d
  end.

(** Other transactions that commit: the recovery of an incident, which closes
    its ticket unless a call holds it, the rows of runs, and whatever else
    happens to events. *)
Inductive conclusion_label :=
| TApply (c : Conclusion) (o : TicketOutcome)
| TRecover (fp : string)
| TOther
| TSilent.

Inductive beside (locked : uuid → Prop) (d : DB) : conclusion_label → DB → Prop :=
| OtherRecovery fp t :
    (∀ tid r, tickets d !! tid = Some r → open_ticket fp r → ¬ locked tid) →
    beside locked d (TRecover fp) (close_open_windows fp t d).2
| OtherRun run r :
    run_check r = Ok () →
    beside locked d TOther (set_runs (<[run := r]> (runs d)) d)
| OtherEvents m :
    (∀ i r, m !! i = Some r → event_check r = Ok ()) →
    beside locked d TOther (set_events m d).

Section steps.
(** Whether an uncommitted INSERT holds its entry of the unique index. *)
Context (indexed : bool).

Definition tmove (s : tstate) (i : nat) (k : call) (p : aphase) : list call :=
  <[i := mkCall (cl_conclusion k) (cl_moment k) p]> (t_calls s).

(** One statement of one of the calls, a commit, a rollback, or another
    transaction. *)
Inductive tstep (s : tstate) : conclusion_label → tstate → Prop :=
| SLock i k :
    t_calls s !! i = Some k → cl_phase k = AStart → run_free s i (cl_run k) →
    is_Some (runs (t_db s) !! cl_run k) →
    tstep s TSilent (mkTState (t_db s) (tmove s i k ALocked))
| SNoRun i k :
    t_calls s !! i = Some k → cl_phase k = AStart → runs (t_db s) !! cl_run k = None →
    tstep s TSilent (mkTState (t_db s) (tmove s i k AAborted))
| SPrior i k p :
    t_calls s !! i = Some k → cl_phase k = ALocked →
    ticket_actions (t_db s) !! cl_run k = Some p →
    tstep s TSilent (mkTState (t_db s) (tmove s i k (AReplay p)))
| SNone i k :
    t_calls s !! i = Some k → cl_phase k = ALocked →
    ticket_actions (t_db s) !! cl_run k = None →
    tstep s TSilent (mkTState (t_db s) (tmove s i k AFresh))
| SOpen i k tid d' :
    t_calls s !! i = Some k → cl_phase k = AFresh →
    (indexed = true → slot_free s (cl_fp k)) → id_free s tid →
    insert_ticket_on_conflict tid
      (opened_ticket (cl_fp k) (external_id_of (cl_fp k)) (cl_moment k)) (t_db s) = Ok (true, d') →
    tstep s TSilent (mkTState (t_db s) (tmove s i k (AWrote (Opened tid))))
| SConflict i k tid d' :
    t_calls s !! i = Some k → cl_phase k = AFresh →
    insert_ticket_on_conflict tid
      (opened_ticket (cl_fp k) (external_id_of (cl_fp k)) (cl_moment k)) (t_db s) = Ok (false, d') →
    tstep s TSilent (mkTState (t_db s) (tmove s i k AConflict))
| SComment i k tid r d' :
    t_calls s !! i = Some k → cl_phase k = AConflict →
    tickets (t_db s) !! tid = Some r → ¬ ticket_locked (t_calls s) tid →
    comment_open_ticket (cl_fp k) (t_db s) = Ok (Some (tid, bump_update r), d') →
    tstep s TSilent (mkTState (t_db s) (tmove s i k (AWrote (Commented tid r))))
| SVanished i k d' :
    t_calls s !! i = Some k → cl_phase k = AConflict →
    comment_open_ticket (cl_fp k) (t_db s) = Ok (None, d') →
    tstep s TSilent (mkTState (t_db s) (tmove s i k AAborted))
| SLog i k w d' :
    t_calls s !! i = Some k → cl_phase k = AWrote w →
    let o := outcome_of (cl_conclusion k) w in
    insert_action (cl_run k)
      (mkActionRow (cl_fp k) (to_ticket_id o) (to_external_id o) (to_created o)
         (to_update_count o) (cl_moment k))
      (with_write (cl_conclusion k) (cl_moment k) w (t_db s)) = Ok d' →
    tstep s TSilent (mkTState (t_db s) (tmove s i k (ALogged w)))
| SCommit i k w :
    t_calls s !! i = Some k → cl_phase k = ALogged w →
    let c := cl_conclusion k in let o := outcome_of c w in
    tstep s (TApply c o)
      (mkTState (with_action c (cl_moment k) o (with_write c (cl_moment k) w (t_db s)))
         (tmove s i k (ADone o)))
| SCommitReplay i k p :
    t_calls s !! i = Some k → cl_phase k = AReplay p →
    tstep s (TApply (cl_conclusion k) (replay_of p))
      (mkTState (t_db s) (tmove s i k (ADone (replay_of p))))
| SAbort i k :
    t_calls s !! i = Some k → holds_run (cl_phase k) = true →
    tstep s TSilent (mkTState (t_db s) (tmove s i k AAborted))
| SOther l d' :
    beside (ticket_locked (t_calls s)) (t_db s) l d' →
    tstep s l (mkTState d' (t_calls s)).

Inductive tsteps : tstate → list conclusion_label → tstate → Prop :=
| TNil s : tsteps s [] s
| TCons s l s' ls s'' : tstep s l s' → tsteps s' ls s'' → tsteps s (l :: ls) s''.
End steps.

(** The same labels with every transaction as one step. *)
Inductive tserial_step (d : DB) : conclusion_label → DB → Prop :=
| SerialApply c t o d' : applies c t d o d' → tserial_step d (TApply c o) d'
| SerialOther l d' : beside (λ _, False) d l d' → tserial_step d l d'
| SerialSilent : tserial_step d TSilent d.

Inductive tserial : DB → list conclusion_label → DB → Prop :=
| SerialNil d : tserial d [] d
| SerialCons d l d' ls d'' : tserial_step d l d' → tserial d' ls d'' → tserial d (l :: ls) d''.

(** ** What a call has seen stays true while it holds its locks *)

Definition ledger_read (p : aphase) : bool :=
  match p with AFresh | AConflict | AWrote _ | ALogged _ => true | _ => false end.

(** The write still fits the committed rows. *)
Definition fits (fp : string) (w : ticket_write) (d : DB) : Prop :=
  match w with
  | Opened tid => open_tickets fp (tickets d) = ∅ ∧ tickets d !! tid = None
  | Commented tid r =>
      tickets d !! tid = Some r ∧ open_ticket fp r ∧ ticket_check (bump_update r) = Ok ()
  end.

Record tseen (k : call) (d : DB) : Prop := {
  ts_run : holds_run (cl_phase k) = true → is_Some (runs d !! cl_run k);
  ts_prior p : cl_phase k = AReplay p → ticket_actions d !! cl_run k = Some p;
  ts_none : ledger_read (cl_phase k) = true → ticket_actions d !! cl_run k = None;
  ts_fits w : written (cl_phase k) = Some w → fits (cl_fp k) w d;
}.

(** Two uncommitted writes do not meet. *)
Definition apart (fp : string) (w : ticket_write) (fq : string) (v : ticket_write) : Prop :=
  match w, v with
  | Opened t, Opened u => fp ≠ fq ∧ t ≠ u
  | Commented t _, Commented u _ => t ≠ u
  | _, _ => True
  end.

Lemma apart_sym fp w fq v : apart fp w fq v → apart fq v fp w.
Proof. destruct w, v; cbn; naive_solver. Qed.

Record tinv (s : tstate) : Prop := {
  ti_runs : ∀ i j k m, i ≠ j → t_calls s !! i = Some k → t_calls s !! j = Some m →
    holds_run (cl_phase k) = true → holds_run (cl_phase m) = true → cl_run k ≠ cl_run m;
  ti_writes : ∀ i j k m w v, i ≠ j → t_calls s !! i = Some k → t_calls s !! j = Some m →
    written (cl_phase k) = Some w → written (cl_phase m) = Some v →
    apart (cl_fp k) w (cl_fp m) v;
  ti_seen : ∀ i k, t_calls s !! i = Some k → tseen k (t_db s);
}.

Lemma written_holds p w : written p = Some w → holds_run p = true ∧ ledger_read p = true.
Proof. by destruct p. Qed.

Lemma ledger_read_holds p : ledger_read p = true → holds_run p = true.
Proof. by destruct p. Qed.

(** A step of call [i] that keeps the committed rows. *)
Lemma tinv_move s i k p :
  tinv s → t_calls s !! i = Some k →
  (holds_run p = true → holds_run (cl_phase k) = true ∨ run_free s i (cl_run k)) →
  (∀ w, written p = Some w → written (cl_phase k) = Some w ∨
     ∀ j m v, j ≠ i → t_calls s !! j = Some m → written (cl_phase m) = Some v →
       apart (cl_fp k) w (cl_fp m) v) →
  tseen (mkCall (cl_conclusion k) (cl_moment k) p) (t_db s) →
  tinv (mkTState (t_db s) (tmove s i k p)).
Proof.
  intros [Hr Hw Hs] Hi Hlock Hwrite Hseen. unfold tmove.
  assert (Hruns : ∀ j m, j ≠ i → t_calls s !! j = Some m → holds_run p = true →
    holds_run (cl_phase m) = true → cl_run k ≠ cl_run m).
  { intros j m Hj Hm Hp Hh. destruct (Hlock Hp) as [Hk|Hf]; [by eapply (Hr i j)|].
    intros He. by eapply Hf. }
  assert (Hwrites : ∀ j m w v, j ≠ i → t_calls s !! j = Some m → written p = Some w →
    written (cl_phase m) = Some v → apart (cl_fp k) w (cl_fp m) v).
  { intros j m w v Hj Hm Hp Hv. destruct (Hwrite w Hp) as [Hk|Hf]; [by eapply (Hw i j)|by eapply Hf]. }
  constructor; cbn.
  - intros a b x y Hab [(<- & <- & _)|[Ha Hx]]%list_lookup_insert_Some
      [(<- & <- & _)|[Hb Hy]]%list_lookup_insert_Some; [done|..]; intros Hhx Hhy.
    + by eapply Hruns.
    + intros He. by eapply (Hruns a x).
    + by eapply (Hr a b).
  - intros a b x y w v Hab [(<- & <- & _)|[Ha Hx]]%list_lookup_insert_Some
      [(<- & <- & _)|[Hb Hy]]%list_lookup_insert_Some; [done|..]; intros Hhx Hhy.
    + by eapply Hwrites.
    + apply apart_sym. by eapply (Hwrites a x).
    + by eapply (Hw a b).
  - intros j u [(<- & <- & _)|[_ Hu]]%list_lookup_insert_Some; [done|by eapply Hs].
Qed.

(** The committed rows change so that no other call can tell. *)
Lemma tinv_change s d' :
  tinv s → (∀ j m, t_calls s !! j = Some m → tseen m d') → tinv (mkTState d' (t_calls s)).
Proof. intros [Hr Hw _] Hs. by constructor. Qed.

(** ** Commits *)

Lemma logged_applies k w d :
  tseen k d → cl_phase k = ALogged w →
  let c := cl_conclusion k in let o := outcome_of c w in
  applies c (cl_moment k) d o (with_action c (cl_moment k) o (with_write c (cl_moment k) w d)).
Proof.
  intros [Hrun _ Hnone Hfits] Hp. rewrite Hp in *. specialize (Hrun eq_refl).
  specialize (Hnone eq_refl). specialize (Hfits w eq_refl).
  destruct w as [tid|tid r]; destruct Hfits as [H1 H2].
  - by apply applies_open.
  - destruct H2. by apply applies_comment.
Qed.

Lemma commit_tickets c t w d :
  tickets (with_action c t (outcome_of c w) (with_write c t w d)) = tickets (with_write c t w d) ∧
  ticket_actions (with_action c t (outcome_of c w) (with_write c t w d)) =
    <[co_run_id c := mkActionRow (co_fingerprint c) (to_ticket_id (outcome_of c w))
       (to_external_id (outcome_of c w)) (to_created (outcome_of c w))
       (to_update_count (outcome_of c w)) t]> (ticket_actions d) ∧
  runs (with_action c t (outcome_of c w) (with_write c t w d)) = runs d.
Proof. by destruct w. Qed.

(** A committed write fits beside another one. *)
Lemma fits_beside c t w fq v d :
  fits (co_fingerprint c) w d → apart (co_fingerprint c) w fq v → fits fq v d →
  fits fq v (with_write c t w d).
Proof.
  destruct w as [tid|tid r], v as [uid|uid q]; cbn.
  - intros [Hno Hn] [Hf Hu] [Hno' Hn']. rewrite lookup_insert_ne by done. split; [|done].
    apply open_tickets_empty. intros i x [[<- <-]|[_ Hx]]%lookup_insert_Some.
    + intros [He _]. by apply Hf.
    + by eapply (proj1 (open_tickets_empty _ _) Hno').
  - intros [Hno Hn] _ (Hq & ? & ?). rewrite lookup_insert_ne by congruence. done.
  - intros (Hr & Ho & Hc) _ [Hno' Hn']. rewrite lookup_insert_ne by congruence. split; [|done].
    apply open_tickets_empty. intros i x [[<- <-]|[_ Hx]]%lookup_insert_Some.
    + intros Hx. by apply (proj1 (open_tickets_empty _ _) Hno' tid r).
    + by eapply (proj1 (open_tickets_empty _ _) Hno').
  - intros _ Hne (Hq & ? & ?). rewrite lookup_insert_ne by done. done.
Qed.

(** A commit of call [i]: the others cannot tell. *)
Lemma tinv_commit s i k w o :
  tinv s → t_calls s !! i = Some k → cl_phase k = ALogged w →
  let c := cl_conclusion k in
  tinv (mkTState (with_action c (cl_moment k) (outcome_of c w) (with_write c (cl_moment k) w (t_db s)))
          (tmove s i k (ADone o))).
Proof.
  intros Hinv Hi Hp c.
  assert (tinv (mkTState (t_db s) (tmove s i k (ADone o)))) as Hmoved by by apply tinv_move.
  apply (tinv_change _ _ Hmoved). clear Hmoved. cbn [t_calls]. destruct Hinv as [Hr Hw Hs].
  intros j m [(<- & <- & _)|[Hj Hm]]%list_lookup_insert_Some; [done|].
  destruct (Hs i k Hi) as [_ _ _ Hfits]. destruct (Hs j m Hm) as [Hrun Hprior Hnone Hfits'].
  destruct (commit_tickets c (cl_moment k) w (t_db s)) as (Et & Ea & Er).
  assert (holds_run (cl_phase m) = true → cl_run k ≠ cl_run m) as Hne.
  { intros Hh. apply (Hr i j); [congruence|done|done|by rewrite Hp|done]. }
  constructor; rewrite ?Er, ?Ea; [done|..].
  - intros p Hm'. rewrite lookup_insert_ne; [by apply Hprior|]. apply Hne. by rewrite Hm'.
  - intros Hl. rewrite lookup_insert_ne; [by apply Hnone|]. by apply Hne, ledger_read_holds.
  - intros v Hv. assert (fits (cl_fp m) v (with_write c (cl_moment k) w (t_db s))) as Hf.
    { apply fits_beside; [apply Hfits; by rewrite Hp| |by apply Hfits'].
      apply (Hw i j k m); [congruence|done|done|by rewrite Hp|done]. }
    unfold fits in *. by destruct v; rewrite Et.
Qed.

(** Another transaction: the locks keep it off what a call has seen. *)
Lemma beside_seen locked d l d' k :
  beside locked d l d' → (∀ tid r, written (cl_phase k) = Some (Commented tid r) → locked tid) →
  tseen k d → tseen k d'.
Proof.
  intros [fp t Hfree|run r Hc|m Hm] Hlock [Hrun Hprior Hnone Hfits].
  - rewrite close_open_windows_eq. constructor; [done..|]. cbn.
    intros w Hw. specialize (Hfits w Hw). case_decide; [done|]. unfold tickets_closed.
    destruct w as [tid|tid r]; cbn in *.
    + destruct Hfits as [Hno Hn]. rewrite lookup_fmap, Hn. split; [|done].
      apply open_tickets_empty. intros i x (y & <- & Hy)%lookup_fmap_Some.
      case_decide; [by intros [_ ?]|]. by eapply (proj1 (open_tickets_empty _ _) Hno).
    + destruct Hfits as (Hr & Ho & Hck). rewrite lookup_fmap, Hr. cbn.
      rewrite decide_False; [done|]. intros Hfp. by apply (Hfree tid r), (Hlock tid r).
  - constructor; [|done..]. cbn. intros Hh. rewrite lookup_insert_is_Some'. right. by apply Hrun.
  - by constructor.
Qed.

Lemma beside_unlocked locked d l d' : beside locked d l d' → beside (λ _, False) d l d'.
Proof.
  intros [fp t _|run r Hc|m Hm]; [|by constructor..]. apply OtherRecovery. by intros ? ? _ _ [].
Qed.

Lemma insert_open_inv tid r d d' :
  tk_closed_at r = None → insert_ticket_on_conflict tid r d = Ok (true, d') →
  open_tickets (tk_fingerprint r) (tickets d) = ∅ ∧ tickets d !! tid = None.
Proof.
  intros Ho. unfold insert_ticket_on_conflict. case_decide as Hd; [done|].
  destruct (tickets d !! tid); [done|]. intros _. split; [|done].
  destruct (decide (open_tickets (tk_fingerprint r) (tickets d) = ∅)); naive_solver.
Qed.

Lemma comment_inv fp d tid r d' :
  comment_open_ticket fp d = Ok (Some (tid, bump_update r), d') → tickets d !! tid = Some r →
  open_ticket fp r ∧ ticket_check (bump_update r) = Ok ().
Proof.
  unfold comment_open_ticket. destruct (map_to_list _) as [|[i x] l] eqn:El; [done|].
  intros (d1 & Hd & Heq)%rbind_Ok Hr. assert (i = tid) as -> by congruence. clear Heq.
  assert (open_tickets fp (tickets d) !! tid = Some x) as Hx.
  { apply elem_of_map_to_list. rewrite El. by left. }
  apply map_lookup_filter_Some in Hx as [Hx Ho]. cbn in Ho. assert (x = r) as -> by congruence.
  split; [done|]. unfold update_ticket in Hd. rewrite Hr in Hd.
  by apply rbind_Ok in Hd as ([] & Hc & _).
Qed.

(** One step: the invariant, and what the label says of the committed rows. *)
Lemma tstep_sound s l s' :
  tinv s → tstep true s l s' → tinv s' ∧ tserial_step (t_db s) l (t_db s').
Proof.
  intros Hinv Hstep. pose proof (ti_seen s Hinv) as Hseen.
  destruct Hstep as [i k Hi Hp Hf Hr|i k Hi Hp Hr|i k p Hi Hp Ha|i k Hi Hp Ha
    |i k tid d' Hi Hp Hslot Hid Hins|i k tid d' Hi Hp Hins|i k tid r d' Hi Hp Hr Hl Hcm
    |i k d' Hi Hp Hcm|i k w d' Hi Hp o Hins|i k w Hi Hp c o|i k p Hi Hp|i k Hi Hh|l d' Ho];
    try (specialize (Hseen i k Hi); destruct Hseen as [Hrun Hprior Hnone Hfits];
         rewrite Hp in Hrun, Hnone, Hfits; cbn in Hrun, Hnone, Hfits).
  - split; [|apply SerialSilent]. apply tinv_move; [done|done|by right|done|by split].
  - split; [|apply SerialSilent]. by apply tinv_move.
  - split; [|apply SerialSilent]. apply tinv_move; [done|done|rewrite Hp; by left|done|].
    split; [by auto| |done|done]. by intros q [= <-].
  - split; [|apply SerialSilent]. apply tinv_move; [done|done|rewrite Hp; by left|done|].
    split; [by auto|done|done|done].
  - split; [|apply SerialSilent]. apply insert_open_inv in Hins as [H1 H2]; [|done].
    apply tinv_move; [done|done|rewrite Hp; by left| |].
    + intros w [= <-]. right. intros j m v Hj Hm Hv. destruct v as [u|u q]; cbn; [|done].
      split; [|intros ->; by eapply Hid]. intros He. by eapply (Hslot eq_refl j m u).
    + split; [by auto|done|by auto|]. by intros w [= <-].
  - split; [|apply SerialSilent]. apply tinv_move; [done|done|rewrite Hp; by left|done|].
    split; [by auto|done|by auto|done].
  - split; [|apply SerialSilent]. apply comment_inv in Hcm as [H1 H2]; [|done].
    apply tinv_move; [done|done|rewrite Hp; by left| |].
    + intros w [= <-]. right. intros j m v Hj Hm Hv. destruct v as [u|u q]; cbn; [done|].
      intros ->. apply Hl. by exists j, m, q.
    + split; [by auto|done|by auto|]. by intros w [= <-].
  - split; [|apply SerialSilent]. by apply tinv_move.
  - split; [|apply SerialSilent]. apply tinv_move; [done|done|rewrite Hp; by left| |].
    + intros v [= <-]. left. by rewrite Hp.
    + split; [by auto|done|by auto|]. intros v [= <-]. by apply Hfits.
  - split; [by apply tinv_commit|]. apply SerialApply with (cl_moment k).
    apply logged_applies; [by apply (ti_seen s Hinv i)|done].
  - split; [by apply tinv_move|]. apply SerialApply with (cl_moment k).
    apply applies_replay; by auto.
  - split; [by apply tinv_move|apply SerialSilent].
  - split; [|by apply SerialOther; eapply beside_unlocked].
    apply (tinv_change _ _ Hinv). intros j m Hm.
    eapply beside_seen; [exact Ho| |by eapply Hseen].
    intros tid r Hw. by exists j, m, r.
Qed.

(** ** What the calls leave behind *)

Lemma beside_ok locked d l d' :
  beside locked d l d' → db_ok d ∧ ledger d → db_ok d' ∧ ledger d'.
Proof.
  intros [fp t _|run r Hc|m Hm] [Hok Hl].
  - split; [by apply close_open_windows_ok|]. rewrite close_open_windows_eq. cbn [snd].
    assert (ledger (set_tickets (tickets_closed fp t (tickets d)) d)) as [? ?]
      by by apply ledger_closed.
    case_decide; [by destruct Hl|]. by split.
  - split; [by apply set_runs_ok|]. by destruct Hl.
  - split; [by destruct Hok|by destruct Hl].
Qed.

Lemma tserial_step_ok d l d' :
  tserial_step d l d' → db_ok d ∧ ledger d → db_ok d' ∧ ledger d'.
Proof.
  intros [c t o d1 Ha|l1 d1 Ho|]; [|by eapply beside_ok|done].
  intros [Hok Hl]. split; [by eapply applies_ok|by eapply applies_ledger].
Qed.

Lemma tserial_ok d ls d' : tserial d ls d' → db_ok d ∧ ledger d → db_ok d' ∧ ledger d'.
Proof. induction 1; [done|]. eauto using tserial_step_ok. Qed.

Lemma tsteps_sound s ls s' :
  tinv s → tsteps true s ls s' → tserial (t_db s) ls (t_db s').
Proof.
  intros Hinv Hsteps. induction Hsteps as [s|s l s1 ls s2 Hstep Hsteps IH]; [constructor|].
  destruct (tstep_sound _ _ _ Hinv Hstep) as [Hinv1 Hl]. econstructor; [done|by apply IH].
Qed.

Lemma tinv_start s : (∀ k, k ∈ t_calls s → cl_phase k = AStart) → tinv s.
Proof.
  intros Hstart. assert (∀ i k, t_calls s !! i = Some k → cl_phase k = AStart) as Hp.
  { intros i k Hi. apply Hstart. by eapply list_elem_of_lookup_2. }
  constructor.
  - intros i j k m _ Hi%Hp _ Hh. by rewrite Hi in Hh.
  - intros i j k m w v _ Hi%Hp _ Hw. by rewrite Hi in Hw.
  - intros i k Hi%Hp. constructor; by rewrite Hi.
Qed.

(** The outcomes reported for a fingerprint, without the replays. *)
Definition fresh_outcomes (fp : string) (ls : list conclusion_label) : list TicketOutcome :=
  omap (λ l, match l with
             | TApply c o =>
                 if decide (co_fingerprint c = fp ∧ to_replayed o = false) then Some o else None
             | _ => None
             end) ls.

(** While the incident stays open, [n] conclusions have its ticket or, before
    the first, there is none. *)
Definition ticket_after (fp : string) (tid : uuid) (n : nat) (d : DB) : Prop :=
  match n with
  | O => open_tickets fp (tickets d) = ∅
  | S m => ∃ r, tickets d !! tid = Some r ∧ open_ticket fp r ∧
             tk_external_id r = external_id_of fp ∧ tk_update_count r = Z.of_nat m
  end.

Lemma beside_ticket_after fp tid n d l d' :
  beside (λ _, False) d l d' → l ≠ TRecover fp → ticket_after fp tid n d → ticket_after fp tid n d'.
Proof.
  intros [fq t _|run r Hc|m Hm] Hl; [|done..]. rewrite close_open_windows_eq.
  assert (fq ≠ fp) as Hne by (by intros ->). cbn [snd]. case_decide; [done|].
  assert (∀ r, open_ticket fp r → (if decide (open_ticket fq r) then close_ticket_row t r else r) = r)
    as Hsame.
  { intros r [Hf _]. rewrite decide_False; [done|]. intros [? _]. congruence. }
  destruct n as [|m]; cbn; unfold tickets_closed.
  - intros Hno. apply open_tickets_empty. intros i x (y & <- & Hy)%lookup_fmap_Some.
    case_decide; [by intros [_ ?]|]. by eapply (proj1 (open_tickets_empty _ _) Hno).
  - intros (r & Hr & Ho & Hx). exists r. rewrite lookup_fmap, Hr. cbn. by rewrite Hsame.
Qed.

(** The outcome of the conclusion that finds [n] before it. *)
Definition nth_outcome (fp : string) (tid : uuid) (n : nat) : TicketOutcome :=
  mkTicketOutcome tid (external_id_of fp) (Nat.eqb n 0) (Z.of_nat n) false.

Lemma applies_ticket_after fp tid n c t d o d' :
  db_ok d → applies c t d o d' → ticket_after fp tid n d →
  if decide (co_fingerprint c = fp ∧ to_replayed o = false)
  then ∃ tid', (n ≠ 0%nat → tid' = tid) ∧ o = nth_outcome fp tid' n ∧ ticket_after fp tid' (S n) d'
  else ticket_after fp tid n d'.
Proof.
  intros Hok Ha Hn. destruct Ha as [p _ _|u _ _ Hno Hu|u r _ _ Hr Ho Hc].
  - by rewrite decide_False by (cbn; naive_solver).
  - destruct (decide (co_fingerprint c = fp)) as [<-|Hne].
    + rewrite decide_True by done. destruct n as [|m].
      * exists u. split; [done|]. split; [done|]. cbn. rewrite lookup_insert_eq. by eexists.
      * destruct Hn as (r & Hr & Hor & _). exfalso.
        by eapply (proj1 (open_tickets_empty _ _) Hno).
    + rewrite decide_False by naive_solver. destruct n as [|m]; cbn in *.
      * apply open_tickets_empty. intros i x [[<- <-]|[_ Hx]]%lookup_insert_Some.
        -- by intros [? _].
        -- by eapply (proj1 (open_tickets_empty _ _) Hn).
      * destruct Hn as (r & Hr & Hx). exists r. by rewrite lookup_insert_ne by congruence.
  - destruct (decide (co_fingerprint c = fp)) as [<-|Hne].
    + rewrite decide_True by done. destruct n as [|m].
      { exfalso. by eapply (proj1 (open_tickets_empty _ _) Hn). }
      destruct Hn as (s & Hs & [Hf Hcl] & Hx & Hcnt). destruct Ho as [Hf' Hcl'].
      assert (u = tid) as -> by (eapply (ok_open _ Hok); eauto; congruence).
      assert (s = r) as -> by congruence.
      exists tid. split; [done|]. split; [unfold nth_outcome; f_equal; [done|lia]|].
      cbn. rewrite lookup_insert_eq. exists (bump_update r). split; [done|]. split; [done|].
      cbn. split; [done|]. lia.
    + rewrite decide_False by naive_solver. destruct n as [|m]; cbn in *.
      * apply open_tickets_empty. intros i x [[<- <-]|[_ Hx]]%lookup_insert_Some.
        -- intros [? _]. apply Hne. destruct Ho. cbn in *. congruence.
        -- by eapply (proj1 (open_tickets_empty _ _) Hn).
      * destruct Hn as (s & Hs & Ho' & Hx). exists s. rewrite lookup_insert_ne; [done|].
        intros ->. destruct Ho, Ho'. congruence.
Qed.

Lemma tserial_outcomes fp d ls d' :
  tserial d ls d' → ∀ n tid, db_ok d ∧ ledger d → TRecover fp ∉ ls → ticket_after fp tid n d →
  ∃ tid', (n ≠ 0%nat → tid' = tid) ∧
    ∀ k o, fresh_outcomes fp ls !! k = Some o → o = nth_outcome fp tid' (n + k).
Proof.
  induction 1 as [d|d l d1 ls d2 Hl Hls IH]; intros n tid Hok Hrec Hn; [by exists tid|].
  apply not_elem_of_cons in Hrec as [Hne Hrec].
  pose proof (tserial_step_ok _ _ _ Hl Hok) as Hok1.
  destruct Hl as [c t o d1 Ha|l d1 Ho|].
  - pose proof (applies_ticket_after fp tid n c t d o d1 (proj1 Hok) Ha Hn) as Hstep.
    unfold fresh_outcomes in *. cbn. case_decide.
    + destruct Hstep as (tid1 & Ht1 & Ho & Hn1).
      destruct (IH (S n) tid1 Hok1 Hrec Hn1) as (tid2 & Ht2 & Hall).
      rewrite (Ht2 ltac:(done)) in Hall. exists tid1. split; [done|].
      intros [|k] x Hx; cbn in Hx; [injection Hx as <-; by rewrite Nat.add_0_r|].
      rewrite Nat.add_succ_r. by apply Hall.
    + by apply IH.
  - assert (fresh_outcomes fp (l :: ls) = fresh_outcomes fp ls) as ->.
    { unfold fresh_outcomes. cbn. by destruct Ho. }
    apply IH; [done|done|]. eapply beside_ticket_after; [done|congruence|done].
  - by apply IH.
Qed.

(** C12. Conclusions that overlap behave as if they ran one after another.
    However the statements of any number of calls interleave, with rollbacks
    and with recoveries, run updates and event updates committing between them,
    every committed call did what [applies] says to the rows committed just
    before it, and the rows stay well-formed with a ledger that accounts for
    the tickets: no commit breaks a key, the one-open-ticket index or a foreign
    key, and no update of a counter is lost. *)
Theorem conclusions_serializable s ls s' :
  (∀ k, k ∈ t_calls s → cl_phase k = AStart) → db_ok (t_db s) → ledger (t_db s) →
  tsteps true s ls s' →
  tserial (t_db s) ls (t_db s') ∧ db_ok (t_db s') ∧ ledger (t_db s').
Proof.
  intros Hstart Hok Hl Hsteps. pose proof (tsteps_sound _ _ _ (tinv_start s Hstart) Hsteps) as Hs.
  split; [done|]. by eapply tserial_ok.
Qed.

(** C11. One ticket per incident under concurrency.  When a fingerprint has no
    open ticket and no recovery closes one meanwhile, the calls that commit a
    conclusion of it, however they overlap, all report the same ticket: the
    first to commit created it and the one after [n] others made its [n]-th
    update. *)
Theorem overlapping_conclusions_share_ticket s ls s' fp :
  (∀ k, k ∈ t_calls s → cl_phase k = AStart) → db_ok (t_db s) → ledger (t_db s) →
  tsteps true s ls s' → TRecover fp ∉ ls → open_tickets fp (tickets (t_db s)) = ∅ →
  ∃ tid, ∀ n o, fresh_outcomes fp ls !! n = Some o →
    o = mkTicketOutcome tid (external_id_of fp) (Nat.eqb n 0) (Z.of_nat n) false.
Proof.
  intros Hstart Hok Hl Hsteps Hrec Hno.
  pose proof (tsteps_sound _ _ _ (tinv_start s Hstart) Hsteps) as Hs.
  destruct (tserial_outcomes fp _ _ _ Hs 0 0%N (conj Hok Hl) Hrec Hno) as (tid & _ & Hall).
  exists tid. exact Hall.
Qed.

(** ** Two conclusions of one incident *)

Definition first_ticket : TicketRow :=
  opened_ticket (ae_fingerprint sample_event) (external_id_of (ae_fingerprint sample_event)) 0.

Definition two_runs : DB :=
  set_runs (<[8%N := running_row 8%N (ae_fingerprint sample_event) "audit.jsonl" 0 0]>
    (runs claimed_db)) claimed_db.
Definition two_calls : tstate :=
  mkTState two_runs [mkCall (sample_conclusion 7%N) 0 AStart; mkCall (sample_conclusion 8%N) 0 AStart].

Lemma two_runs_ok : db_ok two_runs ∧ ledger two_runs.
Proof.
  split; [apply set_runs_ok; [reflexivity|exact claimed_db_ok]|].
  destruct claimed_ledger. by split.
Qed.

(** The two calls up to their first write. *)
Lemma two_calls_checked indexed :
  ∃ s, tsteps indexed two_calls [TSilent; TSilent; TSilent; TSilent] s ∧
    s = mkTState two_runs
          [mkCall (sample_conclusion 7%N) 0 AFresh; mkCall (sample_conclusion 8%N) 0 AFresh].
Proof.
  eexists. split; [|reflexivity].
  eapply TCons; [apply (SLock _ two_calls 0 (mkCall (sample_conclusion 7%N) 0 AStart));
    [done|done| |vm_compute; by eexists]|].
  { intros [|[|j]] k Hj [= <-] Hh; [by destruct Hj|discriminate Hh]. }
  eapply TCons; [eapply (SLock _ _ 1 (mkCall (sample_conclusion 8%N) 0 AStart));
    [done|done| |vm_compute; by eexists]|].
  { intros [|[|j]] k Hj [= <-] Hh; [done|by destruct Hj]. }
  eapply TCons; [by eapply (SNone _ _ 0 (mkCall (sample_conclusion 7%N) 0 ALocked))|].
  eapply TCons; [by eapply (SNone _ _ 1 (mkCall (sample_conclusion 8%N) 0 ALocked))|].
  apply TNil.
Qed.

Lemma tsteps_app indexed s ls s' ls' s'' :
  tsteps indexed s ls s' → tsteps indexed s' ls' s'' → tsteps indexed s (ls ++ ls') s''.
Proof. induction 1; [done|]. intros. econstructor; eauto. Qed.

Lemma insert_ticket_eq tid fp t d :
  open_tickets fp (tickets d) = ∅ → tickets d !! tid = None →
  insert_ticket_on_conflict tid (opened_ticket fp (external_id_of fp) t) d =
  Ok (true, set_tickets (<[tid := opened_ticket fp (external_id_of fp) t]> (tickets d)) d).
Proof.
  intros Hno Hn. unfold insert_ticket_on_conflict. cbn. rewrite decide_False by naive_solver.
  by rewrite Hn.
Qed.

(** Without the index entry of an uncommitted INSERT both calls can find no
    ticket and both open one: two open tickets of one incident, which is what
    a check in the application would allow. *)
Theorem race_without_index :
  let opened run tid := TApply (sample_conclusion run)
    (mkTicketOutcome tid (external_id_of (ae_fingerprint sample_event)) true 0 false) in
  ∃ s, tsteps false two_calls
         (replicate 8 TSilent ++ [opened 7%N 1%N; opened 8%N 2%N]) s ∧
       ¬ one_open_ticket (tickets (t_db s)).
Proof.
  intros opened. destruct (two_calls_checked false) as (s & Hs & ->). eexists. split.
  - change (replicate 8 TSilent ++ [opened 7%N 1%N; opened 8%N 2%N])
      with (replicate 4 TSilent ++ replicate 4 TSilent ++ [opened 7%N 1%N; opened 8%N 2%N]).
    eapply tsteps_app; [exact Hs|].
    eapply TCons; [eapply (SOpen _ _ 0 (mkCall (sample_conclusion 7%N) 0 AFresh) 1%N);
      [done|done|done| |by apply insert_ticket_eq]|].
    { intros [|[|j]] k Hk Hw; [| |discriminate Hk]; injection Hk as <-; discriminate Hw. }
    eapply TCons; [eapply (SOpen _ _ 1 (mkCall (sample_conclusion 8%N) 0 AFresh) 2%N);
      [done|done|done| |by apply insert_ticket_eq]|].
    { intros [|[|j]] k Hk Hw; [| |discriminate Hk]; injection Hk as <-; discriminate Hw. }
    eapply TCons; [by eapply (SLog _ _ 0 (mkCall (sample_conclusion 7%N) 0 (AWrote (Opened 1%N))))|].
    eapply TCons; [by eapply (SLog _ _ 1 (mkCall (sample_conclusion 8%N) 0 (AWrote (Opened 2%N))))|].
    eapply TCons; [by eapply (SCommit _ _ 0 (mkCall (sample_conclusion 7%N) 0 (ALogged (Opened 1%N))) (Opened 1%N))|].
    eapply TCons; [by eapply (SCommit _ _ 1 (mkCall (sample_conclusion 8%N) 0 (ALogged (Opened 2%N))) (Opened 2%N))|].
    apply TNil.
  - intros Hone.
      assert (1%N = 2%N) as [=]. by apply (Hone 1%N 2%N first_ticket first_ticket).
Qed.

(** With it, the second call waits, meets the first one's ticket and updates
    it. *)
Definition second_update : list conclusion_label :=
  let c run := sample_conclusion run in
  replicate 6 TSilent ++
  [TApply (c 7%N) (nth_outcome (ae_fingerprint sample_event) 1%N 0);
   TSilent; TSilent; TSilent; TApply (c 8%N) (nth_outcome (ae_fingerprint sample_event) 1%N 1)].

Lemma second_update_run :
  ∃ s, tsteps true two_calls second_update s ∧
    runs (t_db s) = runs two_runs.
Proof.
  destruct (two_calls_checked true) as (s & Hs & ->). eexists. split.
  - unfold second_update. change (replicate 6 TSilent) with (replicate 4 TSilent ++ [TSilent; TSilent]).
    rewrite <-app_assoc. eapply tsteps_app; [exact Hs|].
    eapply TCons; [eapply (SOpen _ _ 0 (mkCall (sample_conclusion 7%N) 0 AFresh) 1%N);
      [done|done| | |by apply insert_ticket_eq]|].
    { intros _ [|[|j]] k tid Hk Hw; [| |discriminate Hk]; injection Hk as <-; discriminate Hw. }
    { intros [|[|j]] k Hk Hw; [| |discriminate Hk]; injection Hk as <-; discriminate Hw. }
    eapply TCons; [by eapply (SLog _ _ 0 (mkCall (sample_conclusion 7%N) 0 (AWrote (Opened 1%N))))|].
    eapply TCons; [by eapply (SCommit _ _ 0 (mkCall (sample_conclusion 7%N) 0 (ALogged (Opened 1%N))) (Opened 1%N))|].
    eapply TCons; [eapply (SConflict _ _ 1 (mkCall (sample_conclusion 8%N) 0 AFresh) 2%N);
      [done|done|vm_compute; reflexivity]|].
    eapply TCons; [eapply (SComment _ _ 1 (mkCall (sample_conclusion 8%N) 0 AConflict) 1%N first_ticket);
      [done|done|done| |vm_compute; reflexivity]|].
    { intros ([|[|j]] & k & r & Hk & Hw); [| |discriminate Hk]; injection Hk as <-; discriminate Hw. }
    eapply TCons; [by eapply (SLog _ _ 1 (mkCall (sample_conclusion 8%N) 0 (AWrote (Commented 1%N first_ticket))))|].
    eapply TCons; [by eapply (SCommit _ _ 1 (mkCall (sample_conclusion 8%N) 0 (ALogged (Commented 1%N first_ticket)))
      (Commented 1%N first_ticket))|].
    apply TNil.
  - reflexivity.
Qed.

Lemma two_calls_start k : k ∈ t_calls two_calls → cl_phase k = AStart.
Proof. intros [->|[->|[]%elem_of_nil]%elem_of_cons]%elem_of_cons; reflexivity. Qed.

Lemma conclusions_serializable_witness :
  ∃ s, tsteps true two_calls second_update s ∧ tserial two_runs second_update (t_db s) ∧
       db_ok (t_db s) ∧ ledger (t_db s).
Proof.
  destruct second_update_run as (s & Hs & _). exists s. split; [exact Hs|].
  exact (conclusions_serializable two_calls second_update s two_calls_start
    (proj1 two_runs_ok) (proj2 two_runs_ok) Hs).
Defined.

Lemma overlapping_conclusions_share_ticket_witness :
  let fp := ae_fingerprint sample_event in
  fresh_outcomes fp second_update = [nth_outcome fp 1%N 0; nth_outcome fp 1%N 1] ∧
  ∃ tid, ∀ n o, fresh_outcomes fp second_update !! n = Some o →
    o = mkTicketOutcome tid (external_id_of fp) (Nat.eqb n 0) (Z.of_nat n) false.
Proof.
  intros fp. split; [vm_compute; reflexivity|].
  destruct second_update_run as (s & Hs & _).
  apply (overlapping_conclusions_share_ticket two_calls second_update s fp two_calls_start
    (proj1 two_runs_ok) (proj2 two_runs_ok) Hs).
  - unfold second_update. intros Hin. repeat (apply elem_of_cons in Hin as [Hin|Hin]; [discriminate Hin|]).
    by apply elem_of_nil in Hin.
  - reflexivity.
Defined.
