(* ===== verification/Verification.v ===== *)
(** * Per-source verification (receiver/verification.py)

    Shared tokens, HMAC signatures and peer addresses.  Comparing two [str]
    with [hmac.compare_digest] raises TypeError unless both are ASCII, so the
    checks return a result. *)

From Stdlib Require Import Ascii.
From S2P Require Import Prelude PyStr Sha256 JsonParse.

Open Scope N_scope.

Definition headers := list (string * string).

Definition is_ascii (s : string) : bool := str_forallb (λ a, byte_val a <? 128) s.

(** [hmac.compare_digest(a, b)] on two strings *)
Definition compare_digest (a b : string) : result exn bool :=
  if is_ascii a && is_ascii b then Ok (String.eqb a b)
  else Raise (TypeError "comparing strings with non-ASCII characters is not supported").

(** [_header(headers, name)] *)
Fixpoint header (hs : headers) (name : string) : option string :=
  match hs with
  | [] => None
  | (key, value) :: hs => if String.eqb (lower key) (lower name) then Some value else header hs name
  end.

Definition DATADOG_TOKEN_HEADER : string := "X-Smokejumper-Token".
Definition GENERIC_SIGNATURE_HEADER : string := "X-Smokejumper-Signature".
Definition PAGERDUTY_SIGNATURE_HEADER : string := "X-PagerDuty-Signature".

Definition verify_shared_token (hs : headers) (secret : string) : result exn bool :=
  if negb (nonempty secret) then Ok false else
  match header hs DATADOG_TOKEN_HEADER with
  | None => Ok false
  | Some presented => compare_digest presented secret
  end.

Definition verify_hmac_signature (body : string) (hs : headers) (secret : string) :
    result exn bool :=
  if negb (nonempty secret) then Ok false else
  match header hs GENERIC_SIGNATURE_HEADER with
  | None => Ok false
  | Some presented =>
      if negb (startswith presented "sha256=") then Ok false else
      compare_digest (removeprefix presented "sha256=") (hmac_sha256_hex secret body)
  end.

(** [any(part.strip().startswith("v1=") and compare_digest(...) for ...)]: stops
    at the first match. *)
Fixpoint any_signature (parts : list string) (expected : string) : result exn bool :=
  match parts with
  | [] => Ok false
  | part :: parts =>
      if startswith (strip part) "v1=" then
        let? hit := compare_digest (removeprefix (strip part) "v1=") expected in
        if (hit : bool) then Ok true else any_signature parts expected
      else any_signature parts expected
  end.

Definition verify_pagerduty_signature (body : string) (hs : headers) (secret : string) :
    result exn bool :=
  if negb (nonempty secret) then Ok false else
  match header hs PAGERDUTY_SIGNATURE_HEADER with
  | None => Ok false
  | Some presented => any_signature (split "," presented) (hmac_sha256_hex secret body)
  end.

(** ** IP addresses (the [ipaddress] module) *)

Inductive ip := V4 (n : N) | V6 (n : N).
#[export] Instance ip_eq_dec : EqDecision ip.
Proof. solve_decision. Defined.

(** A network: its address and prefix length. *)
Record network := mkNetwork { net_address : ip; net_prefix : N }.

(** [IPv4Address._parse_octet]: one to three digits, no leading zero, at most
    255. *)
Definition parse_octet (s : string) : option N :=
  if nonempty s && all_digits s && Nat.leb (String.length s) 3 &&
     (String.eqb s "0" || negb (startswith s "0")) then
    let n := digits_val 0 s in if n <=? 255 then Some n else None
  else None.

Definition parse_ipv4 (s : string) : option N :=
  match split "." s with
  | [a; b; c; d] =>
      a ← parse_octet a; b ← parse_octet b; c ← parse_octet c; d ← parse_octet d;
      Some (((a * 256 + b) * 256 + c) * 256 + d)
  | _ => None
  end.

(** [IPv6Address._parse_hextet] *)
Fixpoint hex_number (acc : N) (s : string) : option N :=
  match s with
  | EmptyString => Some acc
  | String a r => d ← hex_val a; hex_number (16 * acc + d) r
  end.
Definition parse_hextet (s : string) : option N :=
  if nonempty s && Nat.leb (String.length s) 4 then hex_number 0 s else None.

Definition hextets (l : list string) : option N :=
  foldl (λ acc s, n ← acc; h ← parse_hextet s; Some (n * 65536 + h)) (Some 0) l.

(** The last part may be a dotted IPv4 address, worth two hextets. *)
Definition expand_v4 (parts : list string) : option (list string) :=
  match reverse parts with
  | last :: _ =>
      if str_forallb (λ a, negb (Ascii.eqb a ".")) last then Some parts
      else n ← parse_ipv4 last;
           Some (take (length parts - 1) parts ++ [hex 4 (n / 65536); hex 4 (n mod 65536)])
  | [] => None
  end.

(** The indices of the empty parts that are neither first nor last. *)
Definition skips (parts : list string) : list nat :=
  filter (λ i, nonempty (default EmptyString (parts !! i)) = false)
    (seq 1 (length parts - 2)).

Definition parse_parts (parts : list string) : option N :=
  let n := length parts in
  let hd := default EmptyString (head parts) in
  let lst := default EmptyString (parts !! (n - 1)%nat) in
  match skips parts with
  | [] => if Nat.eqb n 8 && nonempty hd && nonempty lst then hextets parts else None
  | [i] =>
      let lo0 := (n - i - 1)%nat in
      if negb (nonempty hd) && negb (Nat.eqb (i - 1) 0) then None else
      if negb (nonempty lst) && negb (Nat.eqb (lo0 - 1) 0) then None else
      let hi := if nonempty hd then i else (i - 1)%nat in
      let lo := if nonempty lst then lo0 else (lo0 - 1)%nat in
      if Nat.ltb (8 - (hi + lo)) 1 || Nat.ltb 8 (hi + lo) then None else
      a ← hextets (take hi parts);
      b ← hextets (if nonempty lst then drop (n - lo) parts else []);
      Some (a * 2 ^ (16 * N.of_nat (8 - hi)) + b)
  | _ => None
  end.

Definition parse_ipv6 (s : string) : option N :=
  let '(addr, scoped, scope) := partition "%" s in
  if scoped && (negb (nonempty scope) || negb (str_forallb (λ a, negb (Ascii.eqb a "%")) scope))
  then None else
  let parts := split ":" addr in
  if Nat.ltb (length parts) 3 then None else
  parts ← expand_v4 parts;
  if Nat.ltb 9 (length parts) then None else parse_parts parts.

(** [ip_address(text)] *)
Definition ip_address (s : string) : option ip :=
  match parse_ipv4 s with
  | Some n => Some (V4 n)
  | None => V6 <$> parse_ipv6 s
  end.

(** [peer in network] *)
Definition in_network (peer : ip) (net : network) : bool :=
  match peer, net_address net with
  | V4 n, V4 a => N.shiftr n (32 - net_prefix net) =? N.shiftr a (32 - net_prefix net)
  | V6 n, V6 a => N.shiftr n (128 - net_prefix net) =? N.shiftr a (128 - net_prefix net)
  | _, _ => false
  end.

Definition verify_source_ip (client_host : option string) (allowlist : list network) : bool :=
  match allowlist, client_host with
  | [], _ | _, None => false
  | _, Some host =>
      if nonempty host then
        match ip_address host with
        | None => false
        | Some peer => existsb (in_network peer) allowlist
        end
      else false
  end.

Example ip_examples :
  ip_address <$> ["10.0.3.7"; "010.0.3.7"; "10.0.3"; "256.1.1.1"; "::1"; "fe80::1%eth0"; "1::2::3";
                  "2001:db8:0:0:0:0:2:1"; "::ffff:10.0.3.7"; ":1"; "1:2:3:4:5:6:7::"; "::"] =
  [Some (V4 167772935); None; None; None; Some (V6 1);
   Some (V6 (0xfe80 * 2 ^ 112 + 1)); None;
   Some (V6 (0x20010db8 * 2 ^ 96 + 0x20001)); Some (V6 (0xffff * 2 ^ 32 + 167772935)); None;
   Some (V6 0x00010002000300040005000600070000); Some (V6 0)].
Proof. vm_compute. reflexivity. Qed.

(** ** Claims *)

Lemma compare_digest_true a b :
  compare_digest a b = Ok true ↔ a = b ∧ is_ascii a = true.
Proof.
  unfold compare_digest. destruct (is_ascii a && is_ascii b) eqn:E.
  - apply andb_prop in E as [Ea Eb]. split.
    + intros [= He%String.eqb_eq]. done.
    + intros [-> _]. by rewrite String.eqb_refl.
  - split; [done|]. intros [-> Ha]. by rewrite Ha in E.
Qed.

Lemma hmac_is_ascii key msg : is_ascii (hmac_sha256_hex key msg) = true.
Proof.
  assert (Sha256Hex (hmac_sha256_hex key msg) = true) as Hs by apply hexdigest_Sha256Hex.
  apply andb_prop in Hs as [_ Hs]. revert Hs. unfold is_ascii.
  induction (hmac_sha256_hex key msg) as [|a s IH]; [done|]. cbn [str_forallb].
  intros [Ha Hs]%andb_prop. rewrite (IH Hs), andb_true_r.
  destruct a as [[] [] [] [] [] [] [] []]; done.
Qed.

Lemma nonempty_false s : nonempty s = false ↔ s = EmptyString.
Proof. by destruct s. Qed.

(** A shared token is accepted exactly when a secret is configured and the
    request carries that very secret, whatever the casing of the header's name;
    in particular an empty secret accepts nothing. *)
Theorem shared_token_exact hs secret :
  verify_shared_token hs secret = Ok true ↔
  secret ≠ EmptyString ∧ header hs DATADOG_TOKEN_HEADER = Some secret ∧ is_ascii secret = true.
Proof.
  unfold verify_shared_token. destruct (nonempty secret) eqn:Hs; cbn [negb].
  - apply nonempty_true in Hs. destruct (header hs _) as [p|]; [|naive_solver].
    rewrite compare_digest_true. naive_solver.
  - apply nonempty_false in Hs. naive_solver.
Qed.

(** C26. A signed request is accepted exactly when a secret is configured and the
    header is "sha256=" followed by the HMAC-SHA256 of the exact body bytes
    under that secret, in lower-case hexadecimal. *)
Theorem hmac_signature_exact body hs secret :
  verify_hmac_signature body hs secret = Ok true ↔
  secret ≠ EmptyString ∧
  header hs GENERIC_SIGNATURE_HEADER = Some ("sha256=" +:+ hmac_sha256_hex secret body).
Proof.
  unfold verify_hmac_signature. destruct (nonempty secret) eqn:Hs; cbn [negb].
  - apply nonempty_true in Hs. destruct (header hs _) as [p|]; [|naive_solver].
    destruct (startswith p "sha256=") eqn:Hp; cbn [negb].
    + apply startswith_true in Hp as [r ->]. rewrite removeprefix_app, compare_digest_true.
      split.
      * intros [-> _]. done.
      * intros [_ [= Hr]]. rewrite !app_nil_str in Hr. rewrite Hr. split; [done|apply hmac_is_ascii].
    + split; [done|]. intros [_ He]. exfalso.
      assert (p = "sha256=" +:+ hmac_sha256_hex secret body) as -> by congruence.
      assert (startswith ("sha256=" +:+ hmac_sha256_hex secret body) "sha256=" = true) as Ht
        by (apply startswith_true; by eexists).
      congruence.
  - apply nonempty_false in Hs. naive_solver.
Qed.

Lemma any_signature_true parts expected :
  any_signature parts expected = Ok true →
  ∃ part, part ∈ parts ∧ strip part = "v1=" +:+ expected.
Proof.
  induction parts as [|p parts IH]; [done|]. cbn [any_signature].
  destruct (startswith (strip p) "v1=") eqn:Hp.
  - apply startswith_true in Hp as [r Hr]. rewrite Hr, removeprefix_app.
    intros (hit & Hh & Hrest)%rbind_Ok. destruct hit.
    + apply compare_digest_true in Hh as [-> _]. exists p. split; [by left|done].
    + destruct (IH Hrest) as (q & Hq & He). exists q. split; [by right|done].
  - intros Hrest. destruct (IH Hrest) as (q & Hq & He). exists q. split; [by right|done].
Qed.

Lemma any_signature_ascii parts expected :
  is_ascii expected = true → Forall (λ p, is_ascii (removeprefix (strip p) "v1=") = true) parts →
  ∃ b, any_signature parts expected = Ok b ∧
    (b = false → ∀ part, part ∈ parts → strip part ≠ "v1=" +:+ expected).
Proof.
  intros He. induction 1 as [|p parts Hp Hps (b & Hb & Hno)].
  { exists false. split; [done|]. by intros _ p ?%not_elem_of_nil. }
  cbn [any_signature]. destruct (startswith (strip p) "v1=") eqn:Hs.
  - unfold compare_digest. rewrite Hp, He. cbn [andb rbind].
    destruct (String.eqb (removeprefix (strip p) "v1=") expected) eqn:Heq.
    + by exists true.
    + exists b. split; [done|]. intros Hf q [->|Hq]%elem_of_cons Hx; [|by eapply Hno].
      rewrite Hx, removeprefix_app, String.eqb_refl in Heq. done.
  - exists b. split; [done|]. intros Hf q [->|Hq]%elem_of_cons Hx; [|by eapply Hno].
    rewrite Hx in Hs. assert (startswith ("v1=" +:+ expected) "v1=" = true) as Ht
      by (apply startswith_true; by eexists). congruence.
Qed.

(** During a secret rotation PagerDuty may send several signatures: when the
    presented parts are ASCII, the delivery is accepted exactly when one of the
    comma-separated parts, trimmed, is "v1=" and the HMAC-SHA256 of the exact
    body, and a secret is configured. *)
Theorem pagerduty_signature_exact body hs secret presented :
  header hs PAGERDUTY_SIGNATURE_HEADER = Some presented →
  Forall (λ p, is_ascii (removeprefix (strip p) "v1=") = true) (split "," presented) →
  verify_pagerduty_signature body hs secret = Ok true ↔
  secret ≠ EmptyString ∧
  ∃ part, part ∈ split "," presented ∧ strip part = "v1=" +:+ hmac_sha256_hex secret body.
Proof.
  intros Hh Ha. unfold verify_pagerduty_signature. rewrite Hh.
  destruct (nonempty secret) eqn:Hs; cbn [negb].
  - apply nonempty_true in Hs.
    destruct (any_signature_ascii _ (hmac_sha256_hex secret body) (hmac_is_ascii _ _) Ha)
      as (b & Hb & Hno).
    rewrite Hb. split.
    + intros [= ->]. split; [done|]. by apply any_signature_true.
    + intros [_ (p & Hp & Hx)]. destruct b; [done|]. by destruct (Hno eq_refl p Hp).
  - apply nonempty_false in Hs. naive_solver.
Qed.

(** An Alertmanager peer is accepted exactly when its address parses and lies
    in one of the configured networks; an empty allowlist and an unknown peer
    accept nothing. *)
Theorem source_ip_exact client_host allowlist :
  verify_source_ip client_host allowlist = true ↔
  ∃ host peer net, client_host = Some host ∧ ip_address host = Some peer ∧ net ∈ allowlist ∧
    in_network peer net = true.
Proof.
  unfold verify_source_ip. destruct allowlist as [|n l].
  { split; [done|]. intros (? & ? & ? & _ & _ & ?%not_elem_of_nil & _). done. }
  destruct client_host as [host|]; [|naive_solver].
  destruct (nonempty host) eqn:Hh.
  - destruct (ip_address host) as [peer|] eqn:Hp; [|naive_solver].
    rewrite existsb_exists. setoid_rewrite <-list_elem_of_In. naive_solver.
  - apply nonempty_false in Hh as ->. split; [done|].
    intros (? & peer & ? & [= <-] & Hp & _). by vm_compute in Hp.
Qed.

(** A header with a character outside ASCII is not a failed check but an
    error: with a secret configured, [verify_shared_token] raises TypeError
    instead of answering False. *)
Theorem non_ascii_token_raises hs secret presented :
  secret ≠ EmptyString → header hs DATADOG_TOKEN_HEADER = Some presented →
  is_ascii presented = false → ∃ msg, verify_shared_token hs secret = Raise (TypeError msg).
Proof.
  intros Hs%nonempty_true Hh Ha. unfold verify_shared_token, compare_digest.
  rewrite Hs, Hh, Ha. by eexists.
Qed.

(** ** Witnesses *)

Definition pd_headers : headers :=
  [("x-pagerduty-signature", "v1=00, v1=" +:+ hmac_sha256_hex "key" "body")].

Lemma pd_parts_ascii :
  Forall (λ p, is_ascii (removeprefix (strip p) "v1=") = true)
    (split "," ("v1=00, v1=" +:+ hmac_sha256_hex "key" "body")).
Proof.
  apply list.Forall_forall. intros p Hp%list_elem_of_In. revert p Hp.
  apply (proj1 (List.forallb_forall _ _)). vm_compute. reflexivity.
Qed.

Lemma pagerduty_signature_exact_witness :
  verify_pagerduty_signature "body" pd_headers "key" = Ok true.
Proof.
  apply (pagerduty_signature_exact "body" pd_headers "key"
    ("v1=00, v1=" +:+ hmac_sha256_hex "key" "body")).
  - vm_compute. reflexivity.
  - exact pd_parts_ascii.
  - split; [discriminate|]. eexists. split; [vm_compute; right; left|vm_compute; reflexivity].
Defined.

(** The bytes of U+00E9 as UTF-8. *)
Definition e_acute : string := String (ascii_of_N 195) (String (ascii_of_N 169) EmptyString).

Lemma non_ascii_token_raises_witness :
  ∃ msg, verify_shared_token [("x-smokejumper-token", e_acute)] "secret" = Raise (TypeError msg).
Proof.
  apply (non_ascii_token_raises _ "secret" e_acute); [discriminate|reflexivity..].
Defined.
