(* ===== verification/PyValue.v ===== *)
(** * Python values of JSON payloads

    [str(v)] of what [json.loads] returns, [int(text)] and
    [datetime.fromtimestamp], as the normalizers use them.  Which characters
    beyond ASCII are printable (the Unicode database) and the grammar of
    [datetime.fromisoformat], which differs between Python versions, are the
    interface [PyText]. *)

From Stdlib Require Import Ascii.
From S2P Require Import Prelude PyStr Json JsonParse PyTime Wire.

Open Scope N_scope.

Class PyText := {
  (** [chr(c).isprintable()] for a code point from 128 on *)
  isprintable : N → bool;
  (** The local time read, in microseconds since the epoch as if it were UTC,
      and the offset if the text has one. *)
  fromisoformat : string → option (Z * option Z);
}.

(** ** Code points *)

(** The first code point of UTF-8 text, its bytes and the rest. *)
Definition next_char (s : string) : option (N * string * string) :=
  match s with
  | EmptyString => None
  | String a r =>
      let x := byte_val a in
      if x <? 192 then Some (x, String a EmptyString, r) else
      match r with
      | EmptyString => Some (x, String a EmptyString, r)
      | String b r2 =>
          let y := byte_val b in
          if x <? 224 then Some ((x - 192) * 64 + (y - 128), String a (String b EmptyString), r2)
          else match r2 with
          | EmptyString => Some (x, String a EmptyString, r)
          | String c r3 =>
              let z := byte_val c in
              if x <? 240 then
                Some (((x - 224) * 64 + (y - 128)) * 64 + (z - 128),
                      String a (String b (String c EmptyString)), r3)
              else match r3 with
              | EmptyString => Some (x, String a EmptyString, r)
              | String d r4 =>
                  Some ((((x - 240) * 64 + (y - 128)) * 64 + (z - 128)) * 64 + (byte_val d - 128),
                        String a (String b (String c (String d EmptyString))), r4)
              end
          end
      end
  end.

Definition quote : ascii := ascii_of_N 39.
Definition backslash : ascii := ascii_of_N 92.

Fixpoint has_char (a : ascii) (s : string) : bool :=
  match s with EmptyString => false | String b r => Ascii.eqb a b || has_char a r end.

Lemma partition_true sep s x y :
  partition sep s = (x, true, y) ↔ s = x +:+ String sep y ∧ has_char sep x = false.
Proof.
  revert x y. induction s as [|a s IH]; intros x y; cbn.
  - split; [done|]. intros [H _]. by destruct x.
  - destruct (decide (a = sep)) as [->|Hn].
    + split; [by intros [= <- <-]|]. intros [H Hx]. destruct x as [|b x]; [by injection H as <-|].
      injection H as <- _. cbn in Hx. by rewrite Ascii.eqb_refl in Hx.
    + destruct (partition sep s) as [[x' f] y'] eqn:E. split.
      * intros [= <- -> ->]. destruct (proj1 (IH x' y) eq_refl) as [-> Hx]. split; [done|].
        cbn. rewrite Hx. by destruct (Ascii.eqb_spec sep a); [subst|].
      * intros [H Hx]. destruct x as [|b x]; [by injection H as ?|].
        cbn in H. injection H as <- H. cbn in Hx. apply orb_false_iff in Hx as [_ Hx].
        pose proof (proj2 (IH x y) (conj H Hx)) as E'. congruence.
Qed.

Section value.
Context `{!PyText}.

(** How [repr] writes one code point of a string quoted by [q]. *)
Definition repr_char (q : ascii) (c : N) (bytes : string) : string :=
  if (c =? byte_val q) || (c =? 92) then String backslash bytes
  else if c =? 9 then "\t"
  else if c =? 10 then "\n"
  else if c =? 13 then "\r"
  else if (c <? 32) || (c =? 127) then "\x" +:+ hex 2 c
  else if c <? 127 then bytes
  else if isprintable c then bytes
  else if c <? 256 then "\x" +:+ hex 2 c
  else if c <? 65536 then "\u" +:+ hex 4 c
  else "\U" +:+ hex 8 c.

(** Each code point takes at least one byte, so the length is enough fuel. *)
Fixpoint repr_chars (fuel : nat) (q : ascii) (s : string) : string :=
  match fuel with
  | O => EmptyString
  | S fuel =>
      match next_char s with
      | None => EmptyString
      | Some (c, bytes, r) => repr_char q c bytes +:+ repr_chars fuel q r
      end
  end.

(** [repr(s)] *)
Definition repr_str (s : string) : string :=
  let q := if has_char quote s && negb (has_char dquote s) then dquote else quote in
  String q (repr_chars (String.length s) q s +:+ String q EmptyString).

(** [repr(v)] *)
Fixpoint repr (j : json) : string :=
  match j with
  | JNull => "None"
  | JBool true => "True"
  | JBool false => "False"
  | JInt z => str_int z
  | JFloat r => r
  | JStr s => repr_str s
  | JArr l => "[" +:+ join ", " (repr <$> l) +:+ "]"
  | JObj d => "{" +:+ join ", " ((λ kv, repr_str kv.1 +:+ ": " +:+ repr kv.2) <$> d) +:+ "}"
  end.

(** [str(v)] *)
Definition py_str (j : json) : string := match j with JStr s => s | _ => repr j end.
End value.

(** [bool(v)] *)
Definition truthy (j : json) : bool :=
  match j with
  | JNull => false
  | JBool b => b
  | JInt z => negb (Z.eqb z 0)
  | JFloat r => negb (existsb (String.eqb r) ["0.0"; "-0.0"])
  | JStr s => nonempty s
  | JArr l => negb (Nat.eqb (length l) 0)
  | JObj d => negb (Nat.eqb (length d) 0)
  end.

(** ** Integers *)

(** Digits with single underscores between them. *)
Fixpoint int_digits (acc : N) (after_digit : bool) (s : string) : option N :=
  match s with
  | EmptyString => if after_digit then Some acc else None
  | String a r =>
      if is_digit a then int_digits (10 * acc + (byte_val a - 48)) true r
      else if Ascii.eqb a "_" then
        (if after_digit then
           match r with
           | String b _ => if is_digit b then int_digits acc false r else None
           | EmptyString => None
           end
         else None)
      else None
  end.

(** The number of digits of a text. *)
Fixpoint digit_count (s : string) : nat :=
  match s with
  | EmptyString => O
  | String a r => if is_digit a then S (digit_count r) else digit_count r
  end.

(** [int(text)], of ASCII digits; more than 4300 of them are refused. *)
Definition py_int (text : string) : option Z :=
  let s := strip text in
  if Nat.ltb 4300 (digit_count s) then None else
  match s with
  | String a r =>
      if Ascii.eqb a "-" then Z.opp <$> (Z.of_N <$> int_digits 0 false r)
      else if Ascii.eqb a "+" then Z.of_N <$> int_digits 0 false r
      else Z.of_N <$> int_digits 0 false s
  | EmptyString => None
  end.

Open Scope Z_scope.

(** ** Timestamps *)

(** Round half to even of the double [m * 2^e]. *)
Definition round_double (f : Z * Z) : Z :=
  let '(m, e) := f in
  if 0 <=? e then m * 2 ^ e else
  let q := m / 2 ^ (- e) in
  let r := m mod 2 ^ (- e) in
  if (2 ^ (- e) <? 2 * r) || ((2 * r =? 2 ^ (- e)) && Z.odd q) then q + 1 else q.

(** [datetime.fromtimestamp(ms / 1000, tz=UTC)] for a positive [ms]: the
    division rounds to a double, its fraction is scaled to microseconds and
    rounded.  A year past 9999 is a ValueError; past what the C library or a
    double can hold it is an OSError or an OverflowError. *)
Definition fromtimestamp_ms (ms : Z) : result exn datetime :=
  let '(m, e) := round_ratio ms 1000 in
  if 2 ^ 1024 <=? m * 2 ^ Z.max 0 e then Raise OverflowError else
  let whole := trunc_double (m, e) in
  let frac := if 0 <=? e then 0 else m mod 2 ^ (- e) in
  let us := if frac =? 0 then 0 else round_double (round_ratio (frac * 1000000) (2 ^ (- e))) in
  let secs := if 1000000 <=? us then whole + 1 else whole in
  let us := if 1000000 <=? us then us - 1000000 else us in
  if secs <=? 253402300799 then Ok (utc (secs * 1000000 + us))
  else if secs <=? 67768036191676799 then Raise (ValueError "year is out of range")
  else if secs <? 9223372036854775808 then Raise OSError
  else Raise OverflowError.

Definition ascii_text : PyText := {| isprintable _ := true; fromisoformat _ := None |}.

Example py_str_examples :
  @py_str ascii_text <$> [JInt 5; JBool true; JNull; JStr "x y"; JArr [JStr "it's"; JInt 1; JFloat "1.5"];
    JObj [("a", JStr "b\c"); ("k", JArr [])]] =
  ["5"; "True"; "None"; "x y"; String "["%char (String dquote ("it's" +:+ String dquote ", 1, 1.5]"));
   "{'a': 'b\\c', 'k': []}"].
Proof. vm_compute. reflexivity. Qed.

Example py_int_examples :
  py_int <$> ["42"; " +1_000 "; "-7"; "1__0"; "_1"; "1_"; ""; "1.0"; "0x10"] =
  [Some 42; Some 1000; Some (-7); None; None; None; None; None; None].
Proof. vm_compute. reflexivity. Qed.

Example fromtimestamp_examples :
  fromtimestamp_ms <$> [1785090600123; 1; 253402300799999; 253402300800000; 10 ^ 18; 10 ^ 20;
                        10 ^ 23; 10 ^ 400] =
  [Ok (utc 1785090600123000); Ok (utc 1000); Ok (utc 253402300799998993);
   Raise (ValueError "year is out of range"); Raise (ValueError "year is out of range");
   Raise OSError; Raise OverflowError; Raise OverflowError].
Proof. vm_compute. reflexivity. Qed.
