(* ===== verification/Normalizers.v ===== *)
(** * Vendor payloads to events (receiver/normalizers)

    The five normalizers.  [uuid4] gives each event its id, so they run in the
    monad; nothing else in them has an effect.  A payload that is not a
    dictionary, or lacks its identity, raises UnparseablePayload; an entity or
    an event pydantic refuses raises ValidationError. *)

From Stdlib Require Import Ascii.
From S2P Require Import Prelude PyStr Sha256 Json JsonParse Fingerprint PyTime Contracts.
From S2P Require Import Wire Database World Samples PyValue.

Open Scope Z_scope.

(** ** Tables *)

Definition IDENTITY_TAG_KEYS : list string :=
  ["service"; "host"; "env"; "cluster"; "cluster_name"; "database"; "table"; "region";
   "availability-zone"; "kube_namespace"; "kube_deployment"; "queue"; "topic"].

Definition is_identity_key (k : string) : bool := existsb (String.eqb k) IDENTITY_TAG_KEYS.

(** [table.get(key)] *)
Fixpoint table_get {A} (key : string) (table : list (string * A)) : option A :=
  match table with
  | [] => None
  | (k, v) :: table => if String.eqb key k then Some v else table_get key table
  end.

Definition PRIORITY_SEVERITY : list (string * Severity) :=
  [("P1", CRITICAL); ("P2", HIGH); ("P3", MEDIUM); ("P4", LOW); ("P5", INFO)].
Definition ALERT_TYPE_SEVERITY : list (string * Severity) :=
  [("error", HIGH); ("warning", MEDIUM); ("success", INFO); ("info", INFO)].
Definition LABEL_SEVERITY : list (string * Severity) :=
  [("critical", CRITICAL); ("error", HIGH); ("high", HIGH); ("page", HIGH); ("warning", MEDIUM);
   ("warn", MEDIUM); ("minor", LOW); ("low", LOW); ("info", INFO); ("none", INFO)].
Definition PD_SEVERITY : list (string * Severity) :=
  [("critical", CRITICAL); ("error", HIGH); ("warning", MEDIUM); ("info", INFO)].
Definition PD_URGENCY : list (string * Severity) := [("high", HIGH); ("low", LOW)].

Notation dict := (list (string * json)).

(** [sorted(seen)] of a set of pairs *)
Definition sorted_set (l : list (string * string)) : list (string * string) :=
  sorted entity_le (remove_dups l).

(** [[Entity(schema_version=1, type=t, id=i) for t, i in pairs]] *)
Definition make_entities (pairs : list (string * string)) : result exn (list Entity) :=
  rmapM (λ p, construct (mkEntity 1 p.1 p.2)) pairs.

Section normalizers.
Context {R : Type} `{!Env, !PyText}.

(** ** Reading fields *)

Definition text (d : dict) (key : string) : string :=
  match dget key d with
  | None | Some JNull => EmptyString
  | Some v => strip (py_str v)
  end.

Definition obj (d : dict) (key : string) : dict :=
  match dget key d with Some (JObj o) => o | _ => [] end.

(** [a or b] on dictionaries *)
Definition dict_or (a b : dict) : dict := match a with [] => b | _ => a end.

(** [not isinstance(payload, dict)] raises. *)
Definition as_payload (payload : json) : result exn dict :=
  match payload with
  | JObj d => Ok d
  | _ => Raise (UnparseablePayload "body is not a JSON object")
  end.

(** ** Datadog (datadog.py) *)

Definition parse_tags (raw : option json) : list string :=
  let candidates := match raw with
                    | Some (JStr s) => split "," s
                    | Some (JArr l) => py_str <$> l
                    | _ => []
                    end in
  filter (λ t, nonempty t = true) (strip <$> candidates).

(** The identity-bearing tags, before sorting. *)
Definition identity_pairs (tags : list string) : list (string * string) :=
  omap (λ tag,
    let '(k, found, v) := partition ":" tag in
    let k := lower (strip k) in
    let v := strip v in
    if (found : bool) && is_identity_key k && nonempty v then Some (k, v) else None) tags.

Definition tag_entities (tags : list string) : result exn (list Entity) :=
  make_entities (sorted_set (identity_pairs tags)).

Definition severity_of (d : dict) : Severity :=
  match table_get (upper (text d "priority")) PRIORITY_SEVERITY with
  | Some s => s
  | None => default INFO (table_get (lower (text d "alert_type")) ALERT_TYPE_SEVERITY)
  end.

Definition occurred_at_of (d : dict) (received_at : datetime) : result exn datetime :=
  match py_int (py_str (default JNull (dget "date" d))) with
  | None => Ok received_at
  | Some ms => if ms <=? 0 then Ok received_at else fromtimestamp_ms ms
  end.

Definition is_recovery (d : dict) : bool :=
  existsb (String.eqb (text d "alert_transition")) ["Recovered"; "recovered"].

Definition normalize_datadog (payload : json) (received_at : datetime) : M R AgentEvent :=
  do! d := lift (as_payload payload) in
  let alert_id := text d "alert_id" in
  if negb (nonempty alert_id)
  then mraise (UnparseablePayload "alert_id is required: it is the monitor identity")
  else
    do! entities := lift (tag_entities (parse_tags (dget "tags" d))) in
    let title := str_or (text d "title") ("Datadog monitor " +:+ alert_id) in
    do! id := uuid4 in
    do! occurred_at := lift (occurred_at_of d received_at) in
    lift (construct (mkAgentEvent 1 id DATADOG KALERT alert_id
      (event_fingerprint (source_value DATADOG) alert_id (entity_pairs entities))
      (severity_of d) title (text d "body") entities occurred_at received_at 1 d)).

(** ** The other sources (sources.py) *)

Definition pagerduty_severity (data : dict) : Severity :=
  match table_get (upper (text (obj data "priority") "summary")) PRIORITY_SEVERITY with
  | Some s => s
  | None =>
      match table_get (lower (text data "severity")) PD_SEVERITY with
      | Some s => s
      | None => default HIGH (table_get (lower (text data "urgency")) PD_URGENCY)
      end
  end.

Definition label_pairs (labels : dict) : list (string * string) :=
  omap (λ kv,
    let name := lower (strip kv.1) in
    let value := strip (py_str kv.2) in
    if is_identity_key name && nonempty value then Some (name, value) else None) labels.

Definition entities_from_labels (labels : dict) : result exn (list Entity) :=
  make_entities (sorted_set (label_pairs labels)).

Definition build (source : EventSource) (key : string) (severity : Severity)
    (title body : string) (entities : list Entity) (occurred_at received_at : datetime)
    (raw : dict) : M R AgentEvent :=
  do! id := uuid4 in
  lift (construct (mkAgentEvent 1 id source KALERT key
    (event_fingerprint (source_value source) key (entity_pairs entities)) severity
    (str_or title (source_value source +:+ " alert " +:+ key)) body entities occurred_at
    received_at 1 raw)).

(** [value.replace("Z", "+00:00")] *)
Fixpoint replace_z (s : string) : string :=
  match s with
  | EmptyString => EmptyString
  | String a r => if Ascii.eqb a "Z" then "+00:00" +:+ replace_z r else String a (replace_z r)
  end.

Definition parse_iso (value : string) (fallback : datetime) : datetime :=
  if negb (nonempty value) then fallback else
  match fromisoformat (replace_z value) with
  | None => fallback
  | Some (local, Some offset) => DateTime (local - offset) offset
  | Some (local, None) => utc local
  end.

Definition pagerduty_event (payload : json) (received_at : datetime) : M R AgentEvent :=
  do! d := lift (as_payload payload) in
  let data := dict_or (obj (obj d "event") "data") (obj d "incident") in
  match data with
  | [] => mraise (UnparseablePayload "event.data (or incident) is required")
  | _ =>
      let key := str_or (text data "dedup_key") (text data "incident_key") in
      if negb (nonempty key)
      then mraise (UnparseablePayload "dedup_key or incident_key is required: incident.id is reminted on re-trigger and cannot identify a recurring condition")
      else
        let service_name := text (obj data "service") "summary" in
        do! entities := lift (make_entities
          (if nonempty service_name then [("service", service_name)] else [])) in
        build PAGERDUTY key (pagerduty_severity data)
          (str_or (text data "title") (text data "summary"))
          (text (obj data "body") "details") entities
          (parse_iso (text data "created_at") received_at) received_at d
  end.

Definition pagerduty_is_resolved (d : dict) : bool :=
  let event_type := lower (text (obj d "event") "event_type") in
  endswith event_type ".resolved" || String.eqb event_type "resolve".

Definition normalize_pagerduty (payload : json) (received_at : datetime) :
    M R (list AgentEvent) :=
  do! d := lift (as_payload payload) in
  if pagerduty_is_resolved d then mret' []
  else do! e := pagerduty_event payload received_at in mret' [e].

Definition resolved_pagerduty (payload : json) (received_at : datetime) :
    M R (list AgentEvent) :=
  do! d := lift (as_payload payload) in
  if negb (pagerduty_is_resolved d) then mret' []
  else do! e := pagerduty_event payload received_at in mret' [e].

(** [_text(alert, "status").lower() == "resolved"] *)
Definition is_resolved (alert : dict) : bool :=
  String.eqb (lower (text alert "status")) "resolved".

Definition alert_key (alert : dict) : string :=
  str_or (text alert "fingerprint") (text (obj alert "labels") "__alert_rule_uid__").

(** One alert of a batch. *)
Definition label_event (source : EventSource) (received_at : datetime) (alert : dict) :
    M R AgentEvent :=
  let labels := obj alert "labels" in
  let annotations := obj alert "annotations" in
  let key := alert_key alert in
  if negb (nonempty key)
  then mraise (UnparseablePayload "fingerprint (or __alert_rule_uid__) is required: it is the alert identity")
  else
    do! entities := lift (entities_from_labels labels) in
    build source key
      (default MEDIUM (table_get (lower (text labels "severity")) LABEL_SEVERITY))
      (str_or (text labels "alertname") (text annotations "summary"))
      (str_or (text annotations "description") (text annotations "summary"))
      entities (parse_iso (text alert "startsAt") received_at) received_at alert.

Fixpoint label_events (source : EventSource) (received_at : datetime) (resolved : bool)
    (alerts : list json) : M R (list AgentEvent) :=
  match alerts with
  | [] => mret' []
  | JObj alert :: alerts =>
      if eqb (is_resolved alert) resolved then
        do! e := label_event source received_at alert in
        do! es := label_events source received_at resolved alerts in
        mret' (e :: es)
      else label_events source received_at resolved alerts
  | _ :: alerts => label_events source received_at resolved alerts
  end.

Definition label_batch (d : dict) (source : EventSource) (received_at : datetime)
    (resolved : bool) : M R (list AgentEvent) :=
  match dget "alerts" d with
  | Some (JArr (alert :: alerts)) => label_events source received_at resolved (alert :: alerts)
  | _ => mraise (UnparseablePayload "alerts[] is required and must be non-empty")
  end.

Definition normalize_grafana (payload : json) (received_at : datetime) : M R (list AgentEvent) :=
  do! d := lift (as_payload payload) in label_batch d GRAFANA received_at false.
Definition resolved_grafana (payload : json) (received_at : datetime) : M R (list AgentEvent) :=
  do! d := lift (as_payload payload) in label_batch d GRAFANA received_at true.
Definition normalize_alertmanager (payload : json) (received_at : datetime) :
    M R (list AgentEvent) :=
  do! d := lift (as_payload payload) in label_batch d ALERTMANAGER received_at false.
Definition resolved_alertmanager (payload : json) (received_at : datetime) :
    M R (list AgentEvent) :=
  do! d := lift (as_payload payload) in label_batch d ALERTMANAGER received_at true.

(** The entities a generic caller lists; items without both fields are
    skipped. *)
Definition generic_pairs (raw : option json) : list (string * string) :=
  match raw with
  | Some (JArr items) =>
      omap (λ item,
        match item with
        | JObj d =>
            match dget "type" d, dget "id" d with
            | Some t, Some i =>
                if truthy t && truthy i then Some (strip (py_str t), strip (py_str i)) else None
            | _, _ => None
            end
        | _ => None
        end) items
  | _ => []
  end.

Definition generic_severity (s : string) : Severity :=
  match severity_of_value s with
  | Some sev => sev
  | None => default MEDIUM (table_get s LABEL_SEVERITY)
  end.

Definition normalize_generic (payload : json) (received_at : datetime) : M R (list AgentEvent) :=
  do! d := lift (as_payload payload) in
  let key := text d "event_id" in
  if negb (nonempty key)
  then mraise (UnparseablePayload "event_id is required and must be stable per incident")
  else
    do! entities := lift (make_entities (sorted_set (generic_pairs (dget "entities" d)))) in
    do! e := build GENERIC key (generic_severity (lower (text d "severity"))) (text d "title")
      (text d "body") entities (parse_iso (text d "occurred_at") received_at) received_at d in
    mret' [e].
End normalizers.

(** ** Lemmas *)

Definition to_entity (p : string * string) : Entity := mkEntity 1 p.1 p.2.

(** Both halves are non-empty, as [Entity] requires. *)
Definition named (p : string * string) : Prop := nonempty p.1 = true ∧ nonempty p.2 = true.

Lemma construct_entity p e : construct (mkEntity 1 p.1 p.2) = Ok e ↔ e = to_entity p ∧ named p.
Proof.
  rewrite construct_Ok. unfold valid, named, to_entity. cbn. rewrite andb_true_iff.
  unfold min_length_1. naive_solver.
Qed.

Lemma make_entities_Ok pairs es :
  make_entities pairs = Ok es ↔ es = to_entity <$> pairs ∧ Forall named pairs.
Proof.
  unfold make_entities. rewrite rmapM_Ok. split.
  - induction 1 as [|p e ps es He%construct_entity _ [-> IH]]; [done|].
    destruct He as [-> Hn]. split; [done|]. by constructor.
  - intros [-> Hn]. induction Hn as [|p ps Hp _ IH]; constructor; [|done].
    by apply construct_entity.
Qed.

Lemma make_entities_Raise pairs e :
  make_entities pairs = Raise e → e = ValidationError "Entity".
Proof.
  unfold make_entities. induction pairs as [|p ps IH]; [done|]. cbn.
  intros [Hc|(? & _ & [Hm|(? & _ & ?)]%rbind_Raise)]%rbind_Raise; [|by apply IH|done].
  unfold construct in Hc. destruct (valid _); [done|]. by injection Hc as <-.
Qed.

Lemma entity_pairs_to_entity pairs : entity_pairs (to_entity <$> pairs) = pairs.
Proof.
  unfold entity_pairs. rewrite <-list_fmap_compose. rewrite <-(list_fmap_id pairs) at 2.
  apply list_fmap_ext. by intros _ [] _.
Qed.

Lemma valid_to_entity pairs : Forall named pairs → forallb valid (to_entity <$> pairs) = true.
Proof.
  induction 1 as [|p ps [H1 H2] _ IH]; [done|]. cbn. rewrite IH.
  unfold valid. cbn. unfold min_length_1. by rewrite H1, H2.
Qed.

Lemma elem_of_sorted_set p l : p ∈ sorted_set l ↔ p ∈ l.
Proof. unfold sorted_set. by rewrite elem_of_sorted, elem_of_remove_dups. Qed.

(** Sorting and deduplication leave only the set. *)
Lemma sorted_set_ext l k : (∀ p, p ∈ l ↔ p ∈ k) → sorted_set l = sorted_set k.
Proof.
  intros He. unfold sorted_set. apply sorted_proper; [apply _..|].
  apply NoDup_Permutation; [apply NoDup_remove_dups..|].
  intros p. by rewrite !elem_of_remove_dups.
Qed.

Lemma sorted_set_perm l k : sorted_set l ≡ₚ sorted_set k → ∀ p, p ∈ l ↔ p ∈ k.
Proof. intros Hp p. by rewrite <-(elem_of_sorted_set p l), Hp, elem_of_sorted_set. Qed.

Lemma Forall_sorted_set (P : string * string → Prop) l : Forall P l → Forall P (sorted_set l).
Proof. rewrite !list.Forall_forall. intros Hl p Hp. apply Hl. by apply elem_of_sorted_set. Qed.

Lemma identity_key_nonempty k : is_identity_key k = true → nonempty k = true.
Proof. destruct k; [vm_compute; discriminate|done]. Qed.

(** [fromtimestamp] refuses every instant past the year 9999. *)
Lemma fromtimestamp_far ms :
  253402300800000 <= ms → ∃ e, fromtimestamp_ms ms = Raise e.
Proof.
  intros Hms. unfold fromtimestamp_ms.
  pose proof (trunc_round_ratio_ge ms 1000 253402300800 ltac:(lia) ltac:(lia) ltac:(lia) ltac:(lia))
    as Hw.
  destruct (round_ratio ms 1000) as [m e]. destruct (2 ^ 1024 <=? _); [by eexists|]. cbv zeta.
  set (us := if _ =? 0 then 0 else _). set (secs := if 1000000 <=? us then _ + 1 else _).
  assert (253402300800 <= secs) by (unfold secs; destruct (1000000 <=? us); lia).
  rewrite (proj2 (Z.leb_gt secs 253402300799)) by lia. by repeat case_match; eexists.
Qed.

Section properties.
Context {R : Type} `{!Env, !PyText}.
Implicit Types w : World R.

Lemma identity_pairs_named tags : Forall named (identity_pairs tags).
Proof.
  apply list.Forall_forall. intros p (tag & Htag & Hp)%list_elem_of_omap.
  destruct (partition ":" tag) as [[k found] v].
  cbv zeta in Hp. destruct (found && is_identity_key _ && nonempty _) eqn:E; simplify_eq.
  apply andb_true_iff in E as [[_ Hk]%andb_true_iff Hv].
  split; [by apply identity_key_nonempty|done].
Qed.

Lemma label_pairs_named labels : Forall named (label_pairs labels).
Proof.
  apply list.Forall_forall. intros p (kv & Hkv & Hp)%list_elem_of_omap.
  cbv zeta in Hp. destruct (is_identity_key _ && nonempty _) eqn:E; simplify_eq.
  apply andb_true_iff in E as [Hk Hv]. split; [by apply identity_key_nonempty|done].
Qed.

Lemma tag_entities_eq tags :
  tag_entities tags = Ok (to_entity <$> sorted_set (identity_pairs tags)).
Proof.
  apply make_entities_Ok. split; [done|]. apply Forall_sorted_set, identity_pairs_named.
Qed.

Lemma entities_from_labels_eq labels :
  entities_from_labels labels = Ok (to_entity <$> sorted_set (label_pairs labels)).
Proof.
  apply make_entities_Ok. split; [done|]. apply Forall_sorted_set, label_pairs_named.
Qed.

(** An alert with an identity and named entities is a valid event. *)
Lemma alert_valid id source key sev title body pairs occurred received raw :
  nonempty key = true → Forall named pairs →
  valid (mkAgentEvent 1 id source KALERT key
    (event_fingerprint (source_value source) key pairs) sev title body (to_entity <$> pairs)
    occurred received 1 raw) = true.
Proof.
  intros Hk Hp. unfold valid. cbn [schema_version fields_ok AgentEvent_contract ae_version
    ae_source_event_key ae_fingerprint ae_entities ae_dedupe_count].
  unfold min_length_1, expected_fingerprint.
  cbn [ae_source ae_source_event_key ae_entities].
  rewrite Hk, (valid_to_entity _ Hp), entity_pairs_to_entity, event_fingerprint_Sha256Hex.
  by rewrite bool_decide_eq_true_2.
Qed.

(** What [build] makes of entities that were constructed. *)
Definition built source key sev title body pairs occurred received raw w : AgentEvent :=
  mkAgentEvent 1 (env_uuid (w_tick w)) source KALERT key
    (event_fingerprint (source_value source) key pairs) sev
    (str_or title (source_value source +:+ " alert " +:+ key)) body (to_entity <$> pairs)
    occurred received 1 raw.

Lemma build_eq source key sev title body pairs occurred received raw w :
  nonempty key = true → Forall named pairs →
  build source key sev title body (to_entity <$> pairs) occurred received raw w =
  (Ok (built source key sev title body pairs occurred received raw w), next_tick w).
Proof.
  intros Hk Hp. unfold build, mbind', uuid4, lift. rewrite entity_pairs_to_entity.
  f_equal. apply construct_valid. by apply alert_valid.
Qed.

(** *** Datadog *)

(** The tags a payload carries: the pieces of one comma-separated text, or the
    items of a list. *)
Definition carries_tag (d : dict) (tag : string) : Prop :=
  (∃ s, dget "tags" d = Some (JStr s) ∧ tag ∈ split "," s) ∨
  (∃ l v, dget "tags" d = Some (JArr l) ∧ v ∈ l ∧ tag = py_str v).

(** The tag keys that say what is broken. *)
Definition identifying_keys : list string :=
  ["service"; "host"; "env"; "cluster"; "cluster_name"; "database"; "table"; "region";
   "availability-zone"; "kube_namespace"; "kube_deployment"; "queue"; "topic"].

(** A name, up to case and spaces, with a value, up to spaces, identifies. *)
Definition identifies (name value : string) (p : string * string) : Prop :=
  p = (lower (strip name), strip value) ∧ p.1 ∈ identifying_keys ∧ p.2 ≠ EmptyString.

(** The identity of a delivery: the pairs of its tags [name:value], cut at the
    first colon. *)
Definition datadog_identifies (d : dict) (p : string * string) : Prop :=
  ∃ tag name value, carries_tag d tag ∧
    strip tag = name +:+ ":" +:+ value ∧ free_of ":" name ∧ identifies name value p.

Lemma is_identity_key_spec k : is_identity_key k = true ↔ k ∈ identifying_keys.
Proof.
  unfold is_identity_key. rewrite existsb_exists. split.
  - intros (x & Hx & ->%String.eqb_eq). by apply list_elem_of_In.
  - intros Hk. exists k. split; [by apply list_elem_of_In|apply String.eqb_refl].
Qed.

Lemma nonempty_spec s : nonempty s = true ↔ s ≠ EmptyString.
Proof. by destruct s. Qed.

Lemma parse_tags_spec d tag :
  tag ∈ parse_tags (dget "tags" d) ↔ ∃ t, carries_tag d t ∧ tag = strip t ∧ tag ≠ EmptyString.
Proof.
  unfold parse_tags, carries_tag. rewrite list_elem_of_filter, nonempty_spec, list_elem_of_fmap.
  split.
  - intros [Hn (t & -> & Ht)]. exists t. split; [|done].
    destruct (dget "tags" d) as [[]|]; try (by apply not_elem_of_nil in Ht); [left; by eauto|right].
    apply list_elem_of_fmap in Ht as (v & -> & Hv). by eauto.
  - intros (t & [(s & -> & Ht)|(l & v & -> & Hv & ->)] & -> & Hn); (split; [done|]);
      eexists; (split; [done|]); [done|by apply list_elem_of_fmap_2].
Qed.

Lemma identity_pairs_spec tags p :
  p ∈ identity_pairs tags ↔
  ∃ tag name value, tag ∈ tags ∧ tag = name +:+ ":" +:+ value ∧ free_of ":" name ∧
    identifies name value p.
Proof.
  unfold identity_pairs, identifies. rewrite list_elem_of_omap. split.
  - intros (tag & Htag & Hp). destruct (partition ":" tag) as [[k f] v] eqn:E. cbv zeta in Hp.
    destruct (f && is_identity_key _ && nonempty _) eqn:Hc; simplify_eq.
    apply andb_true_iff in Hc as [[-> Hk%is_identity_key_spec]%andb_true_iff Hv%nonempty_spec].
    apply partition_iff in E as [-> Hf]. by exists (k +:+ String ":" v), k, v.
  - intros (tag & k & v & Htag & He & Hf & -> & Hk & Hv). exists tag. split; [done|].
    assert (partition ":" tag = (k, true, v)) as -> by by apply partition_iff.
    cbn [fst snd] in Hk, Hv. apply is_identity_key_spec in Hk. apply nonempty_spec in Hv. cbv zeta.
    by rewrite Hk, Hv.
Qed.

(** The identity-bearing tags of a delivery, as [normalize] computes them. *)
Definition datadog_identity (d : dict) : list (string * string) :=
  identity_pairs (parse_tags (dget "tags" d)).

Lemma datadog_identity_spec d p : p ∈ datadog_identity d ↔ datadog_identifies d p.
Proof.
  unfold datadog_identity, datadog_identifies. rewrite identity_pairs_spec. split.
  - intros (tag & k & v & (t & Ht & -> & _)%parse_tags_spec & He & Hp). by exists t, k, v.
  - intros (t & k & v & Ht & He & Hp). exists (strip t), k, v. split; [|done].
    apply parse_tags_spec. exists t. split; [done|]. split; [done|]. rewrite He. by destruct k.
Qed.

Lemma normalize_datadog_eq d received_at w :
  nonempty (text d "alert_id") = true →
  normalize_datadog (JObj d) received_at w =
  (let? t := occurred_at_of d received_at in
   Ok (mkAgentEvent 1 (env_uuid (w_tick w)) DATADOG KALERT (text d "alert_id")
     (event_fingerprint "datadog" (text d "alert_id") (sorted_set (datadog_identity d)))
     (severity_of d) (str_or (text d "title") ("Datadog monitor " +:+ text d "alert_id"))
     (text d "body") (to_entity <$> sorted_set (datadog_identity d)) t received_at 1 d),
   next_tick w).
Proof.
  intros Hid. unfold normalize_datadog, as_payload, mbind', lift. rewrite Hid. cbn [negb].
  rewrite tag_entities_eq. cbn. rewrite entity_pairs_to_entity.
  destruct (occurred_at_of d received_at) as [t|e]; [|done]. cbn [rbind]. f_equal.
  apply construct_valid, alert_valid; [done|].
  apply Forall_sorted_set, identity_pairs_named.
Qed.

(** C27. A Datadog delivery that names its monitor, with a date in range, is
    normalized: the event passes every check of the B2 contract, its key is
    the monitor id, its entities are exactly the tags [name:value] of the
    payload whose name, in any case, is one of the thirteen that say what is
    broken, each once and in order, and it carries the whole payload. *)
Theorem datadog_normalizes d received_at t w :
  nonempty (text d "alert_id") = true → occurred_at_of d received_at = Ok t →
  ∃ e, normalize_datadog (JObj d) received_at w = (Ok e, next_tick w) ∧ valid e = true ∧
    ae_source_event_key e = text d "alert_id" ∧ ae_occurred_at e = t ∧
    ae_received_at e = received_at ∧ ae_raw e = d ∧ ae_dedupe_count e = 1 ∧
    StronglySorted entity_le (entity_pairs (ae_entities e)) ∧
    NoDup (entity_pairs (ae_entities e)) ∧
    ∀ p, p ∈ entity_pairs (ae_entities e) ↔ datadog_identifies d p.
Proof.
  intros Hid Ht. eexists. rewrite normalize_datadog_eq, Ht by done. split; [done|].
  cbn [ae_entities]. rewrite entity_pairs_to_entity. split_and!; try done.
  - apply alert_valid; [done|]. apply Forall_sorted_set, identity_pairs_named.
  - apply sorted_Sorted; apply _.
  - unfold sorted_set. rewrite sorted_perm. apply NoDup_remove_dups.
  - intros p. by rewrite elem_of_sorted_set, datadog_identity_spec.
Qed.

(** What identifies a Datadog incident: two deliveries get one fingerprint
    when they name the same monitor and carry the same identity-bearing tags,
    in whatever order, with whatever other tags, title, severity or date; and
    only then, unless their canonical encodings are a SHA-256 collision. *)
Theorem datadog_identity_stable d d' r r' e e' w w1 w' w1' :
  normalize_datadog (JObj d) r w = (Ok e, w1) →
  normalize_datadog (JObj d') r' w' = (Ok e', w1') →
  let same := text d "alert_id" = text d' "alert_id" ∧
              ∀ p, p ∈ datadog_identity d ↔ p ∈ datadog_identity d' in
  (same → ae_fingerprint e = ae_fingerprint e') ∧
  (ae_fingerprint e = ae_fingerprint e' → same ∨
   let c := canonical "datadog" (text d "alert_id") (sorted_set (datadog_identity d)) in
   let c' := canonical "datadog" (text d' "alert_id") (sorted_set (datadog_identity d')) in
   c ≠ c' ∧ sha256_hex c = sha256_hex c').
Proof.
  assert (Hn : ∀ d r (w : World R) e w1, normalize_datadog (JObj d) r w = (Ok e, w1) →
    ae_fingerprint e = event_fingerprint "datadog" (text d "alert_id")
      (sorted_set (datadog_identity d))).
  { clear. intros d r w e w1 Hn. destruct (nonempty (text d "alert_id")) eqn:Hid.
    - rewrite normalize_datadog_eq in Hn by done.
      destruct (occurred_at_of d r); [|done]. by injection Hn as <- <-.
    - unfold normalize_datadog, mbind', lift in Hn. cbn in Hn. by rewrite Hid in Hn. }
  intros ->%Hn ->%Hn. split.
  - intros [-> Hp]. by rewrite (sorted_set_ext _ _ Hp).
  - intros [(_ & Hk & Hp)|[Hc He]]%fingerprint_cases; [left|by right].
    split; [done|]. by apply sorted_set_perm.
Qed.

(** A date past the year 9999 fails a Datadog delivery: although a
    malformed date falls back to the time of arrival, a number of
    milliseconds that is out of range raises instead, so the alert is not
    admitted. *)
Theorem datadog_far_date_fails d received_at w ms :
  nonempty (text d "alert_id") = true →
  py_int (py_str (default JNull (dget "date" d))) = Some ms → 253402300800000 <= ms →
  ∃ e, normalize_datadog (JObj d) received_at w = (Raise e, next_tick w).
Proof.
  intros Hid Hms Hle. rewrite normalize_datadog_eq by done.
  destruct (fromtimestamp_far ms Hle) as [e He]. exists e.
  unfold occurred_at_of. rewrite Hms. destruct (ms <=? 0) eqn:E; [lia|]. by rewrite He.
Qed.

(** *** The other sources *)

(** Only the count of calls moved. *)
Definition same_state w w' : Prop :=
  w_db w = w_db w' ∧ w_redis w = w_redis w' ∧ w_files w = w_files w' ∧ w_rec w = w_rec w'.

(** Code without effects on shared state: it gives a value in [Q] or raises
    something [except (ValueError, TypeError)] catches. *)
Definition yields {A} (Q : A → Prop) (m : M R A) : Prop := ∀ w o w', m w = (o, w') →
  same_state w w' ∧
  match o with Ok a => Q a | Raise e => is_ValueError e = true end.

Lemma yields_bind {A B} (P : A → Prop) (Q : B → Prop) (m : M R A) (k : A → M R B) :
  yields P m → (∀ a, P a → yields Q (k a)) → yields Q (mbind' m k).
Proof.
  intros Hm Hk w o w' [(a & w1 & H1 & H2)|(e & H1 & ->)]%mbind_inv; apply Hm in H1 as [Hs Ho].
  - apply Hk in H2 as [Hs' Ho']; [|done]. split; [|done].
    unfold same_state in *. naive_solver congruence.
  - done.
Qed.

Lemma yields_ret {A} (Q : A → Prop) a : Q a → yields Q (mret' a).
Proof. by intros HQ w o w' [= <- <-]. Qed.
Lemma yields_raise {A} (Q : A → Prop) e : is_ValueError e = true → yields Q (mraise e).
Proof. by intros He w o w' [= <- <-]. Qed.
Lemma yields_uuid4 : yields (λ _, True) (@uuid4 R _).
Proof. by intros w o w' [= <- <-]. Qed.
Lemma yields_lift {A} (Q : A → Prop) (r : result exn A) :
  match r with Ok a => Q a | Raise e => is_ValueError e = true end → yields Q (lift r).
Proof. by intros Hr w o w' [= <- <-]. Qed.
Lemma yields_construct `{Contract A} (a : A) : yields (λ b, valid b = true) (lift (construct a)).
Proof. apply yields_lift. unfold construct. by destruct (valid a) eqn:E. Qed.
Lemma yields_payload payload : yields (λ d, payload = JObj d) (lift (as_payload payload)).
Proof. apply yields_lift. by destruct payload. Qed.
Lemma yields_entities pairs : yields (λ _, True) (lift (make_entities pairs)).
Proof.
  apply yields_lift. destruct (make_entities pairs) eqn:E; [done|].
  by rewrite (make_entities_Raise _ _ E).
Qed.

Lemma yields_build source key sev title body es occurred received raw :
  yields (λ e, valid e = true) (build source key sev title body es occurred received raw).
Proof.
  unfold build. eapply yields_bind; [apply yields_uuid4|]. intros id _. apply yields_construct.
Qed.

Lemma yields_pagerduty_event payload received_at :
  yields (λ e, valid e = true) (pagerduty_event payload received_at).
Proof.
  unfold pagerduty_event. eapply yields_bind; [apply yields_payload|]. intros d _. cbv zeta.
  destruct (dict_or _ _); [by apply yields_raise|].
  destruct (negb _); [by apply yields_raise|].
  eapply yields_bind; [apply yields_entities|]. intros es _. apply yields_build.
Qed.

Lemma yields_label_events source received_at resolved alerts :
  yields (Forall (λ e, valid e = true)) (label_events source received_at resolved alerts).
Proof.
  induction alerts as [|a alerts IH]; [by apply yields_ret|].
  destruct a as [| | | | | |alert]; try apply IH. cbn [label_events].
  destruct (eqb _ _); [|apply IH].
  eapply (yields_bind (λ e, valid e = true)).
  - unfold label_event. destruct (negb _); [by apply yields_raise|].
    eapply yields_bind; [apply yields_entities|]. intros es _. apply yields_build.
  - intros e He. eapply yields_bind; [apply IH|]. intros es Hes. apply yields_ret.
    by constructor.
Qed.

Lemma yields_label_batch d source received_at resolved :
  yields (Forall (λ e, valid e = true)) (label_batch d source received_at resolved).
Proof.
  unfold label_batch. repeat case_match; try (by apply yields_raise).
  apply yields_label_events.
Qed.

(** Every normalizer of sources.py, firing and resolved. *)
Definition source_normalizers : list (json → datetime → M R (list AgentEvent)) :=
  [normalize_pagerduty; resolved_pagerduty; normalize_grafana; resolved_grafana;
   normalize_alertmanager; resolved_alertmanager; normalize_generic].

Lemma yields_normalizer n payload received_at :
  n ∈ source_normalizers →
  yields (Forall (λ e, valid e = true)) (n payload received_at).
Proof.
  intros Hn. unfold source_normalizers in Hn.
  repeat (apply elem_of_cons in Hn as [->|Hn]); [..|by apply not_elem_of_nil in Hn];
    (eapply yields_bind; [apply yields_payload|]; intros d _);
    try apply yields_label_batch.
  3: { cbv zeta. destruct (negb (nonempty _)); [by apply yields_raise|].
    eapply yields_bind; [apply yields_entities|]. intros es _.
    eapply yields_bind; [apply yields_build|]. intros e He. apply yields_ret. by constructor. }
  all: destruct (pagerduty_is_resolved d); cbn [negb]; try (by apply yields_ret).
  all: eapply yields_bind; [apply yields_pagerduty_event|]; intros e He.
  all: apply yields_ret; by constructor.
Qed.

(** C28. Whatever JSON value a PagerDuty, Grafana, Alertmanager or generic
    delivery carries, normalizing it either gives events that all pass the B2
    contract or raises an exception the route quarantines, and it touches
    nothing outside. *)
Theorem sources_yield_valid_or_quarantine n payload received_at w o w' :
  n ∈ source_normalizers → n payload received_at w = (o, w') →
  same_state w w' ∧
  match o with
  | Ok es => Forall (λ e, valid e = true) es
  | Raise e => is_ValueError e = true
  end.
Proof. intros Hn. by apply yields_normalizer. Qed.

(** *** Firing and resolved alerts of a batch *)

Lemma label_event_eq source received_at alert w :
  nonempty (alert_key alert) = true →
  label_event source received_at alert w =
  (let labels := obj alert "labels" in let annotations := obj alert "annotations" in
   Ok (built source (alert_key alert)
     (default MEDIUM (table_get (lower (text labels "severity")) LABEL_SEVERITY))
     (str_or (text labels "alertname") (text annotations "summary"))
     (str_or (text annotations "description") (text annotations "summary"))
     (sorted_set (label_pairs labels))
     (parse_iso (text alert "startsAt") received_at) received_at alert w), next_tick w).
Proof.
  intros Hk. unfold label_event. cbv zeta. rewrite Hk. cbn [negb].
  rewrite entities_from_labels_eq. unfold mbind' at 1, lift. apply build_eq; [done|].
  apply Forall_sorted_set, label_pairs_named.
Qed.

(** The dictionaries of [alerts]; other items are skipped. *)
Definition alert_dicts (alerts : list json) : list dict :=
  omap (λ a, match a with JObj d => Some d | _ => None end) alerts.

Definition identified (alert : dict) : Prop := nonempty (alert_key alert) = true.

Lemma label_events_eq source received_at resolved alerts w :
  Forall identified (alert_dicts alerts) →
  ∃ es w', label_events source received_at resolved alerts w = (Ok es, w') ∧
    ae_raw <$> es = filter (λ a, is_resolved a = resolved) (alert_dicts alerts).
Proof.
  revert w. induction alerts as [|a alerts IH]; intros w Hi; [by exists [], w|].
  destruct a as [| | | | | |alert]; try (apply IH; done).
  apply list.Forall_cons in Hi as [Ha Hi]. cbn [label_events alert_dicts omap list_omap].
  rewrite filter_cons. destruct (eqb _ _) eqn:E.
  - apply eqb_prop in E. rewrite decide_True by done.
    destruct (IH (next_tick w) Hi) as (es & w' & He & Hr). eexists (_ :: es), w'.
    unfold mbind'. rewrite label_event_eq, He by done. split; [done|].
    cbn [fmap list_fmap]. f_equal. exact Hr.
  - apply eqb_false_iff in E. rewrite decide_False by done. by apply IH.
Qed.

(** A Grafana or Alertmanager batch is partitioned: when every alert in it
    has an identity, the firing and the resolved halves are both computed,
    one event per alert in order, firing events for the alerts that are not
    resolved and resolution events for those that are, and no alert is
    dropped or taken twice. *)
Theorem batch_partition source d alerts received_at w :
  dget "alerts" d = Some (JArr alerts) → alerts ≠ [] →
  Forall identified (alert_dicts alerts) →
  ∃ firing resolved w1 w2,
    label_batch d source received_at false w = (Ok firing, w1) ∧
    label_batch d source received_at true w1 = (Ok resolved, w2) ∧
    ae_raw <$> firing = filter (λ a, is_resolved a = false) (alert_dicts alerts) ∧
    ae_raw <$> resolved = filter (λ a, is_resolved a = true) (alert_dicts alerts) ∧
    (ae_raw <$> firing) ++ (ae_raw <$> resolved) ≡ₚ alert_dicts alerts.
Proof.
  intros Ha Hne Hi. unfold label_batch. rewrite Ha. destruct alerts as [|a alerts]; [done|].
  destruct (label_events_eq source received_at false _ w Hi) as (firing & w1 & Hf & Ef).
  destruct (label_events_eq source received_at true _ w1 Hi) as (resolved & w2 & Hr & Er).
  exists firing, resolved, w1, w2. split_and!; try done. rewrite Ef, Er.
  apply filter_partition. intros x. destruct (is_resolved x); naive_solver.
Qed.









End properties.

(** ** Instances *)

Section witnesses.
#[local] Existing Instance quiet.
#[local] Existing Instance ascii_text.

Definition arrival : datetime := utc 1785090660000000.

Definition datadog_payload (tags : string) (title : string) : dict :=
  [("alert_id", JInt 42); ("title", JStr title); ("tags", JStr tags);
   ("priority", JStr "P1"); ("date", JInt 1785090600000)].

Example datadog_example :
  (λ e, (ae_severity e, entity_pairs (ae_entities e), dt_us (ae_occurred_at e))) <$>
    match (normalize_datadog
             (JObj (datadog_payload "service:checkout, host:web-1,pod:x,service:checkout" "t"))
             arrival boot_world).1 with Ok e => Some e | _ => None end =
  Some (CRITICAL, [("host", "web-1"); ("service", "checkout")], 1785090600000000).
Proof. vm_compute. reflexivity. Qed.

Lemma datadog_normalizes_witness :
  let d := datadog_payload "service:checkout,host:web-1" "slow" in
  ∃ e, normalize_datadog (JObj d) arrival boot_world = (Ok e, next_tick boot_world) ∧
    valid e = true ∧
    ae_source_event_key e = text d "alert_id" ∧ ae_occurred_at e = utc 1785090600000000 ∧
    ae_received_at e = arrival ∧ ae_raw e = d ∧ ae_dedupe_count e = 1 ∧
    StronglySorted entity_le (entity_pairs (ae_entities e)) ∧
    NoDup (entity_pairs (ae_entities e)) ∧
    ∀ p, p ∈ entity_pairs (ae_entities e) ↔ datadog_identifies d p.
Proof. apply datadog_normalizes; vm_compute; reflexivity. Defined.

Lemma datadog_far_date_fails_witness :
  ∃ e, normalize_datadog (JObj [("alert_id", JInt 42); ("date", JInt 253402300800000)])
    arrival boot_world = (Raise e, next_tick boot_world).
Proof.
  apply (datadog_far_date_fails _ _ _ 253402300800000);
    [vm_compute; reflexivity..|lia].
Defined.

(** The event a successful run gives. *)
Definition outcome {A} (dflt : A) (p : result exn A * World ListStream) : A :=
  match p.1 with Ok a => a | Raise _ => dflt end.

Lemma datadog_identity_stable_witness :
  let d := datadog_payload "service:checkout,host:web-1" "slow" in
  let d' := datadog_payload "host:web-1,pod:web-1-abc,service:checkout,host:web-1" "slower" in
  ae_fingerprint (outcome sample_event (normalize_datadog (JObj d) arrival boot_world)) =
  ae_fingerprint (outcome sample_event (normalize_datadog (JObj d') arrival boot_world)).
Proof.
  intros d d'.
  refine (proj1 (datadog_identity_stable d d' arrival arrival _ _ boot_world _ boot_world _ _ _) _).
  - apply run_pair. vm_compute. reflexivity.
  - apply run_pair. vm_compute. reflexivity.
  - split; [vm_compute; reflexivity|]. intros p.
    change (datadog_identity d) with [("service", "checkout"); ("host", "web-1")].
    change (datadog_identity d') with [("host", "web-1"); ("service", "checkout"); ("host", "web-1")].
    rewrite !elem_of_cons. naive_solver.
Defined.

Lemma sources_yield_valid_or_quarantine_witness :
  same_state boot_world boot_world ∧ is_ValueError (UnparseablePayload "body is not a JSON object") = true.
Proof.
  apply (sources_yield_valid_or_quarantine normalize_generic (JArr []) arrival boot_world
           (Raise (UnparseablePayload "body is not a JSON object"))).
  - unfold source_normalizers. do 6 right. left.
  - reflexivity.
Defined.

Definition grafana_alert (status : string) : dict :=
  [("status", JStr status); ("fingerprint", JStr "abc");
   ("labels", JObj [("alertname", JStr "slow"); ("service", JStr "checkout")])].

Lemma batch_partition_witness :
  let alerts := [JObj (grafana_alert "firing"); JInt 3; JObj (grafana_alert "Resolved")] in
  let d := [("alerts", JArr alerts)] in
  ∃ firing resolved w1 w2,
    label_batch d GRAFANA arrival false boot_world = (Ok firing, w1) ∧
    label_batch d GRAFANA arrival true w1 = (Ok resolved, w2) ∧
    ae_raw <$> firing = filter (λ a, is_resolved a = false) (alert_dicts alerts) ∧
    ae_raw <$> resolved = filter (λ a, is_resolved a = true) (alert_dicts alerts) ∧
    (ae_raw <$> firing) ++ (ae_raw <$> resolved) ≡ₚ alert_dicts alerts.
Proof.
  apply batch_partition; [reflexivity|done|]. repeat constructor.
Defined.


End witnesses.
