(* ===== verification/Encoding.v ===== *)
(** * The text of a request body

    [json.loads] of bytes: it guesses the encoding from a byte order mark or
    from the zero bytes among the first four, and decodes with
    [surrogatepass].  The result is the text as UTF-8, which is how strings are
    kept here. *)

From Stdlib Require Import Ascii.
From S2P Require Import Prelude PyStr Json JsonParse.

Open Scope N_scope.

Inductive encoding := UTF8 | UTF8_SIG | UTF16 (big : bool) (bom : bool) | UTF32 (big : bool) (bom : bool).

Fixpoint bytes_of (s : string) : list N :=
  match s with EmptyString => [] | String a r => byte_val a :: bytes_of r end.

(** [json.detect_encoding]; for the two encodings with a byte order mark the
    codec takes the byte order from it. *)
Definition detect_encoding (b : list N) : encoding :=
  match b with
  | 0 :: 0 :: 254 :: 255 :: _ => UTF32 true true
  | 255 :: 254 :: 0 :: 0 :: _ => UTF32 false true
  | 254 :: 255 :: _ => UTF16 true true
  | 255 :: 254 :: _ => UTF16 false true
  | 239 :: 187 :: 191 :: _ => UTF8_SIG
  | b0 :: b1 :: b2 :: b3 :: _ =>
      if b0 =? 0 then (if b1 =? 0 then UTF32 true false else UTF16 true false)
      else if b1 =? 0 then
        (if (b2 =? 0) && (b3 =? 0) then UTF32 false false else UTF16 false false)
      else UTF8
  | [b0; b1] =>
      if b0 =? 0 then UTF16 true false else if b1 =? 0 then UTF16 false false else UTF8
  | _ => UTF8
  end.

(** A continuation byte. *)
Definition cont (a : ascii) : bool := let n := byte_val a in (128 <=? n) && (n <=? 191).

(** Well-formed UTF-8, surrogates included. *)
Fixpoint utf8_ok (s : string) : bool :=
  match s with
  | EmptyString => true
  | String a r =>
      let x := byte_val a in
      if x <? 128 then utf8_ok r else
      match r with
      | EmptyString => false
      | String b r2 =>
          let y := byte_val b in
          if (194 <=? x) && (x <=? 223) then cont b && utf8_ok r2 else
          match r2 with
          | EmptyString => false
          | String c r3 =>
              if (224 <=? x) && (x <=? 239) then
                cont b && cont c && (negb (x =? 224) || (160 <=? y)) && utf8_ok r3
              else match r3 with
              | EmptyString => false
              | String d r4 =>
                  (240 <=? x) && (x <=? 244) && cont b && cont c && cont d &&
                  (negb (x =? 240) || (144 <=? y)) && (negb (x =? 244) || (y <=? 143)) &&
                  utf8_ok r4
              end
          end
      end
  end.

(** Bytes to code units of two and of four bytes. *)
Fixpoint units16 (big : bool) (b : list N) : option (list N) :=
  match b with
  | [] => Some []
  | x :: y :: b => cons (if big then 256 * x + y else 256 * y + x) <$> units16 big b
  | _ => None
  end.
Fixpoint units32 (big : bool) (b : list N) : option (list N) :=
  match b with
  | [] => Some []
  | w :: x :: y :: z :: b =>
      cons (if big then ((w * 256 + x) * 256 + y) * 256 + z
            else ((z * 256 + y) * 256 + x) * 256 + w) <$> units32 big b
  | _ => None
  end.

(** Joins surrogate pairs; a lone surrogate passes. *)
Fixpoint join_pairs (u : list N) : list N :=
  match u with
  | x :: ((y :: u') as rest) =>
      if ((55296 <=? x) && (x <? 56320)) && ((56320 <=? y) && (y <? 57344))
      then 65536 + (x - 55296) * 1024 + (y - 56320) :: join_pairs u'
      else x :: join_pairs rest
  | [x] => [x]
  | [] => []
  end.

Definition utf8_of_points (l : list N) : string := foldr (λ n s, utf8 n +:+ s) EmptyString l.

(** [b.decode(detect_encoding(b), "surrogatepass")]; [None] is a
    UnicodeDecodeError. *)
Definition decode_body (body : string) : option string :=
  let b := bytes_of body in
  match detect_encoding b with
  | UTF8 => if utf8_ok body then Some body else None
  | UTF8_SIG =>
      match body with
      | String _ (String _ (String _ r)) => if utf8_ok r then Some r else None
      | _ => None
      end
  | UTF16 big bom =>
      u ← units16 big (if bom then drop 2 b else b); Some (utf8_of_points (join_pairs u))
  | UTF32 big bom =>
      u ← units32 big (if bom then drop 4 b else b);
      if forallb (λ n, n <? 1114112) u then Some (utf8_of_points u) else None
  end.

(** [json.loads(body)] *)
Definition loads_bytes `{!FloatText} (body : string) : result exn json :=
  match decode_body body with
  | None => Raise (ValueError "UnicodeDecodeError")
  | Some text =>
      match loads text with None => Raise JSONDecodeError | Some j => Ok j end
  end.

Definition of_bytes (l : list N) : string := foldr (λ n s, String (ascii_of_N n) s) EmptyString l.

Example decode_examples :
  decode_body <$> [of_bytes [91; 93]; of_bytes [239; 187; 191; 91; 93]; of_bytes [255; 254; 91; 0; 93; 0];
    of_bytes [0; 91; 0; 93]; of_bytes [91; 0; 0; 0; 93; 0; 0; 0];
    of_bytes [34; 0; 61; 216; 0; 222; 34; 0]; of_bytes [192; 128]; of_bytes [91; 128]; of_bytes [0; 91; 0]] =
  [Some "[]"; Some "[]"; Some "[]"; Some "[]"; Some "[]";
   Some (of_bytes [34; 240; 159; 152; 128; 34]); None; None; Some (of_bytes [0; 91; 0])].
Proof. vm_compute. reflexivity. Qed.
