(* ===== verification/Routes.v ===== *)
(** * The webhook routes (receiver/routes.py)

    Each handler is the whole request: verification, decoding, normalization,
    quarantine, recovery, admission and the fast dispatch of the outbox row.  An
    exception that leaves a handler becomes a 500 in the framework and is a
    [Raise] here. *)

From Stdlib Require Import Ascii.
From S2P Require Import Prelude PyStr Sha256 Json JsonParse Fingerprint PyTime Contracts.
From S2P Require Import Wire Database World Samples Repository Delivery Verification PyValue.
From S2P Require Import Normalizers Encoding.

Open Scope Z_scope.

Record Request := mkRequest {
  req_headers : headers;
  req_body : string;
  (** [request.client.host if request.client else None] *)
  req_client : option string;
}.

Record Response := mkResponse { status_code : Z; content : list (string * json) }.

(** [str(error)], for an error about a request body.  The program writes the
    text of its own exception; the texts of pydantic and json are theirs. *)
Class ErrorText := {
  error_text : string → exn → string;
  error_text_unparseable : ∀ body msg, error_text body (UnparseablePayload msg) = msg;
}.

Definition ACCEPTED : Z := 202.
Definition UNAUTHORIZED : Z := 401.

Definition unverified : Response :=
  mkResponse UNAUTHORIZED [("status", JStr "unverified")].

(** ["published" if message_id else "pending"] *)
Definition queue_status (message_id : option string) : string :=
  match message_id with
  | Some m => if nonempty m then "published" else "pending"
  | None => "pending"
  end.
Definition or_null (s : option string) : json := match s with Some s => JStr s | None => JNull end.

Section routes.
Context {R : Type} `{!Env, !Others R, !Pydantic, !RedisStreams R}.
Context `{!FloatText, !PyText, !ErrorText}.

Definition admission_content (event : AgentEvent) (admission : Admission)
    (message_id : option string) : list (string * json) :=
  if ad_is_duplicate admission then
    [("status", JStr "duplicate"); ("event_id", JStr (uuid_str (ad_event_id admission)));
     ("fingerprint", JStr (ad_fingerprint admission));
     ("dedupe_count", JInt (ad_dedupe_count admission));
     ("queue_message_id", or_null message_id);
     ("queue_status", JStr (queue_status message_id))]
  else
    [("status", JStr "accepted"); ("event_id", JStr (uuid_str (ad_event_id admission)));
     ("fingerprint", JStr (ad_fingerprint admission));
     ("severity", JStr (severity_value (ae_severity event)));
     ("queue_message_id", or_null message_id);
     ("queue_status", JStr (queue_status message_id))].

Definition admit_and_publish_one (event : AgentEvent) : M R (list (string * json)) :=
  do! admission := transaction (admit_event event DEDUPE_WINDOW) in
  do! message_id := mtry is_Exception (dispatch_event (ad_event_id admission))
                      (λ _, mret' None) in
  mret' (admission_content event admission message_id).

Definition admit_and_enqueue (events : list AgentEvent) : M R (list (list (string * json))) :=
  mfor events admit_and_publish_one.

(** The [except (ValueError, TypeError)] arm of both handlers. *)
Definition quarantine_delivery (source : string) (received_at : datetime) (body : string)
    (error : exn) : M R Response :=
  let reason := take_chars 500 (error_text body error) in
  do! id := uuid4 in
  do! _ := transaction (quarantine id source (dt_us received_at) reason) in
  mret' (mkResponse ACCEPTED [("status", JStr "quarantined"); ("reason", JStr reason)]).

(** [try: v = parse  except (ValueError, TypeError): return handle(error)]
    and the rest of the handler. *)
Definition or_return {A} (parse : M R A) (handle : exn → M R Response)
    (rest : A → M R Response) : M R Response :=
  do! step := mtry is_ValueError (do! a := parse in mret' (inl a))
                (λ error, do! resp := handle error in mret' (inr resp)) in
  match step with
  | inl a => rest a
  | inr resp => mret' resp
  end.

Section router.
Context (datadog_secret : string) (source_secrets : list (string * string)).
Context (alertmanager_allowlist : list network).

Definition datadog_webhook (request : Request) : M R Response :=
  do! received_at := now in
  do! ok := lift (verify_shared_token (req_headers request) datadog_secret) in
  if negb ok then mret' unverified else
  or_return
    (do! payload := lift (loads_bytes (req_body request)) in
     do! event := normalize_datadog payload received_at in
     mret' (event, payload))
    (quarantine_delivery "datadog" received_at (req_body request))
    (λ '(event, payload),
      if match payload with JObj d => is_recovery d | _ => false end then
        do! closed := transaction (close_window (ae_fingerprint event) received_at) in
        mret' (mkResponse ACCEPTED
          [("status", JStr "recovered"); ("fingerprint", JStr (ae_fingerprint event));
           ("windows_closed", JInt closed)])
      else
        do! result := admit_and_publish_one event in
        if decide (dget "status" result = Some (JStr "duplicate"))
        then mret' (mkResponse ACCEPTED result)
        else mret' (mkResponse ACCEPTED (result ++
          [("entities", JArr ((λ e, JStr (en_type e +:+ ":" +:+ en_id e)) <$>
                                ae_entities event))]))).

Notation normalizer := (json → datetime → M R (list AgentEvent)).

Definition resolution_normalizers : list (string * normalizer) :=
  [("pagerduty", resolved_pagerduty); ("grafana", resolved_grafana);
   ("alertmanager", resolved_alertmanager)].

(** The credential each source carries. *)
Definition verify_source (name : string) (hmac : bool) (request : Request) : result exn bool :=
  let secret := default EmptyString (table_get name source_secrets) in
  if String.eqb name "alertmanager"
  then Ok (verify_source_ip (req_client request) alertmanager_allowlist)
  else if String.eqb name "pagerduty"
  then verify_pagerduty_signature (req_body request) (req_headers request) secret
  else if hmac then verify_hmac_signature (req_body request) (req_headers request) secret
  else verify_shared_token (req_headers request) secret.

(** [for resolved_event in resolved_events: windows_closed += ...] *)
Fixpoint close_windows (total : Z) (received_at : datetime) (events : list AgentEvent) :
    M R Z :=
  match events with
  | [] => mret' total
  | event :: events =>
      do! closed := transaction (close_window (ae_fingerprint event) received_at) in
      close_windows (total + closed) received_at events
  end.

(** The body of the [try]: the firing and the resolved events. *)
Definition parse_source (name : string) (normalize : normalizer) (body : string)
    (received_at : datetime) : M R (list AgentEvent * list AgentEvent) :=
  do! payload := lift (loads_bytes body) in
  do! events := normalize payload received_at in
  do! resolved_events :=
    match table_get name resolution_normalizers with
    | Some resolved => resolved payload received_at
    | None => mret' []
    end in
  mret' (events, resolved_events).

(** The handler [_register] makes for one source. *)
Definition source_webhook (name : string) (normalize : normalizer) (hmac : bool)
    (request : Request) : M R Response :=
  do! received_at := now in
  do! ok := lift (verify_source name hmac request) in
  if negb ok then mret' unverified else
  or_return
    (parse_source name normalize (req_body request) received_at)
    (quarantine_delivery name received_at (req_body request))
    (λ '(events, resolved_events),
      do! windows_closed := close_windows 0 received_at resolved_events in
      match events with
      | [] =>
          mret' (mkResponse ACCEPTED
            [("status", JStr "ignored"); ("reason", JStr "no firing alerts in payload");
             ("windows_closed", JInt windows_closed)])
      | _ =>
          do! results := admit_and_enqueue events in
          mret' (mkResponse ACCEPTED
            [("status", JStr "processed"); ("count", JInt (Z.of_nat (length results)));
             ("windows_closed", JInt windows_closed); ("results", JArr (JObj <$> results))])
      end).

(** The calls of [_register]: name, normalizer and whether the body is signed. *)
Definition registered : list (string * normalizer * bool) :=
  [("pagerduty", normalize_pagerduty, false); ("grafana", normalize_grafana, false);
   ("alertmanager", normalize_alertmanager, false); ("generic", normalize_generic, true)].

(** [build_router]: the handlers under the prefix [/webhooks]. *)
Definition router : list (string * (Request → M R Response)) :=
  ("/webhooks/datadog", datadog_webhook) ::
  ((λ '(name, normalize, hmac),
      ("/webhooks/" +:+ name, source_webhook name normalize hmac)) <$> registered).
End router.
End routes.

(** ** Claims *)

Section claims.
Context {R : Type} `{!Env, !Others R, !Pydantic, !RedisStreams R}.
Context `{!FloatText, !PyText, !ErrorText}.
Context (datadog_secret : string) (source_secrets : list (string * string)).
Context (allowlist : list network).
Implicit Types w : World R.

Notation router := (@router R _ _ _ _ _ _ _ datadog_secret source_secrets allowlist).

(** Whether a request proves where it comes from, by path. *)
Definition authentic (path : string) (request : Request) : result exn bool :=
  match table_get path
    [("/webhooks/datadog", verify_shared_token (req_headers request) datadog_secret);
     ("/webhooks/pagerduty", verify_source source_secrets allowlist "pagerduty" false request);
     ("/webhooks/grafana", verify_source source_secrets allowlist "grafana" false request);
     ("/webhooks/alertmanager",
       verify_source source_secrets allowlist "alertmanager" false request);
     ("/webhooks/generic", verify_source source_secrets allowlist "generic" true request)] with
  | Some r => r
  | None => Ok false
  end.

(** The check every handler starts with. *)
Lemma checked_first (check : result exn bool) (rest : datetime → M R Response) w o w' :
  check ≠ Ok true →
  (do! received_at := now in do! ok := lift check in
   if negb ok then mret' unverified else rest received_at) w = (o, w') →
  same_state w w' ∧ (o = Ok unverified ∨ ∃ e, check = Raise e ∧ o = Raise e).
Proof.
  intros Hc. unfold mbind', now, lift. destruct check as [[]|e]; [done|..];
    intros [= <- <-]; (split; [done|]); [by left|right; by eauto].
Qed.

Lemma refused_changes_nothing path handler request w o w' :
  (path, handler) ∈ router → authentic path request ≠ Ok true →
  handler request w = (o, w') →
  same_state w w' ∧ (o = Ok unverified ∨ ∃ e, authentic path request = Raise e ∧ o = Raise e).
Proof.
  intros Hh Ha Hr. unfold Routes.router, registered in Hh. cbn [fmap list_fmap] in Hh.
  repeat (apply elem_of_cons in Hh as [[= -> ->]|Hh]); [..|by apply not_elem_of_nil in Hh];
    unfold datadog_webhook, source_webhook in Hr; exact (checked_first _ _ _ _ _ Ha Hr).
Qed.

(** C14. A delivery that does not prove its origin changes nothing: on every
    route, unless the check of that source's credential answers true, the
    database, the stream and the audit log are untouched and the answer is
    401, or the check itself raised. *)
Theorem unverified_changes_nothing path handler request w o w' :
  (path, handler) ∈ router → authentic path request ≠ Ok true →
  handler request w = (o, w') →
  same_state w w' ∧ (o = Ok unverified ∨ ∃ e, authentic path request = Raise e ∧ o = Raise e).
Proof. apply refused_changes_nothing. Qed.

(** *** Admission and dispatch *)

Lemma transaction_admit_inv event w o w' :
  transaction (admit_event event DEDUPE_WINDOW) w = (o, w') →
  match o with
  | Ok a => admits event DEDUPE_WINDOW (admitted_row event) (w_db (after_others w)) a (w_db w')
  | Raise _ => True
  end.
Proof.
  rewrite transaction_eq. intros [(a & Ha & [->|[e ->]])|(e & -> & _)]%atomically_admit_inv; done.
Qed.

(** C13. Redis cannot cost an admission.  A delivery whose admission committed
    is answered with that admission whatever happens to the dispatch that
    follows, cancellation of the request aside: when the dispatch fails the
    answer says the event is pending, and the row is still in the outbox
    unless the receipt was stored. *)
Theorem admission_survives_dispatch event w a w1 o w' :
  transaction (admit_event event DEDUPE_WINDOW) w = (Ok a, w1) →
  admit_and_publish_one event w = (o, w') →
  admits event DEDUPE_WINDOW (admitted_row event) (w_db (after_others w)) a (w_db w1) ∧
  ∃ sent, dispatches (ad_event_id a) (w_db (after_others w1)) (w_redis (after_others w1))
            sent (w_db w') (w_redis w') ∧
    match sent with
    | Ok m => o = Ok (admission_content event a m)
    | Raise e => o = if is_Exception e then Ok (admission_content event a None) else Raise e
    end.
Proof.
  intros Ha Ho. split; [exact (transaction_admit_inv _ _ _ _ Ha)|].
  unfold admit_and_publish_one, mbind', mtry in Ho. rewrite Ha in Ho.
  destruct (dispatch_event (ad_event_id a) w1) as [sent w2] eqn:Hd.
  apply dispatch_event_inv in Hd. exists sent.
  destruct sent as [m|e]; [by injection Ho as <- <-|].
  destruct (is_Exception e); by injection Ho as <- <-.
Qed.

(** C20. A recovery ends the incident for deduplication: once a recovery has
    closed the windows of a fingerprint and nothing came between, the next
    delivery with it is admitted as a new event, however soon it comes. *)
Theorem retrigger_after_recovery_is_new event t w n w1 reply w2 :
  transaction (close_window (ae_fingerprint event) t) w = (Ok n, w1) →
  others (w_tick w1) (w_db w1) (w_redis w1) = (w_db w1, w_redis w1) →
  admit_and_publish_one event w1 = (Ok reply, w2) →
  let fresh := mkAdmission (ae_id event) (ae_fingerprint event) 1 false in
  ∃ wa m,
    transaction (admit_event event DEDUPE_WINDOW) w1 = (Ok fresh, wa) ∧
    events (w_db wa) !! ae_id event = Some (admitted_row event) ∧
    reply = admission_content event fresh m.
Proof.
  intros Hc Ho Hp fresh.
  apply mbind_inv in Hp as [(a & wa & Ha & Hp)|(e & _ & [=])].
  apply mbind_inv in Hp as [(m & wb & _ & [= <- <-])|(e & _ & [=])].
  assert (a = fresh ∧ events (w_db wa) !! ae_id event = Some (admitted_row event)) as [-> Hr];
    [|by exists wa, m].
  apply transaction_admit_inv in Ha. rewrite transaction_eq in Hc.
  assert (w_db (after_others w1) = w_db w1) as Hs by (unfold after_others; by rewrite Ho).
  rewrite Hs in Ha. clear Ho Hs.
  apply atomically_inv in Hc as
    [(n' & w3 & Hc & -> & [[= <-]|[e [=]]])|(e & o1 & w3 & [=] & _)].
  apply close_window_inv in Hc as [[[= ->] ->]|(e & [=] & _)].
  inversion Ha as [i r Hi [Hw _] _ _ E1 E2|Hno Hn Hck E1 E2].
  - exfalso. exact (close_leaves_none _ _ _ _ _ Hi Hw).
  - split; [done|]. cbn. apply lookup_insert_eq.
Qed.

(** *** Deliveries that cannot be parsed *)

Lemma yields_parse_source name normalize hmac body received_at :
  (name, normalize, hmac) ∈ registered (R := R) →
  yields (λ _, True) (parse_source name normalize body received_at).
Proof.
  intros Hin.
  assert (normalize ∈ source_normalizers (R := R)) as Hn.
  { unfold registered in Hin. unfold source_normalizers.
    repeat (apply elem_of_cons in Hin as [[= -> -> ->]|Hin]); [..|by apply not_elem_of_nil in Hin];
      rewrite !elem_of_cons; auto 12. }
  unfold parse_source. eapply (yields_bind (λ _, True)).
  { apply yields_lift. unfold loads_bytes. destruct (decode_body body); [|done].
    by destruct (loads _). }
  intros payload _. eapply yields_bind; [by apply yields_normalizer|]. intros es _.
  eapply (yields_bind (λ _, True)); [|intros; by apply yields_ret].
  destruct (table_get name resolution_normalizers) as [resolved|] eqn:E; [|by apply yields_ret].
  assert (resolved ∈ source_normalizers (R := R)) as Hr.
  { unfold resolution_normalizers in E. cbn in E. unfold source_normalizers.
    repeat case_match; try done; injection E as <-; rewrite !elem_of_cons; auto 12. }
  intros w o w' Hw. apply (yields_normalizer _ _ _ Hr) in Hw as [Hs Ho].
  split; [done|]. by destruct o.
Qed.

Lemma quarantine_delivery_inv source received_at body error w o w' :
  quarantine_delivery source received_at body error w = (o, w') →
  let reason := take_chars 500 (error_text body error) in
  let w1 := after_others (next_tick w) in
  let d := set_events (<[env_uuid (w_tick w) :=
             quarantined_row source (dt_us received_at) reason]> (events (w_db w1))) (w_db w1) in
  w_redis w' = w_redis w1 ∧
  match o with
  | Ok resp => w_db w' = d ∧ resp = mkResponse ACCEPTED
                 [("status", JStr "quarantined"); ("reason", JStr reason)]
  | Raise _ => w_db w' = w_db w1 ∨ w_db w' = d
  end.
Proof.
  intros Hq reason w1 d.
  assert (Hbody : ∀ x w2 a, quarantine (env_uuid (w_tick w)) source (dt_us received_at) reason x
      = (Ok a, w2) → w_db x = w_db w1 → w_db w2 = d).
  { intros x w2 a [(? & d' & _ & Hd & ->)|(e & [=] & _)]%sql_inv Hx.
    apply rbind_Ok in Hd as (d2 & Hd & [= <- <-]). unfold insert_event in Hd.
    rewrite Hx in Hd. destruct (_ !! _); [done|].
    apply rbind_Ok in Hd as ([] & _ & [= <-]). done. }
  apply mbind_inv in Hq as [(id & w2 & [= <- <-] & Hq)|(e & [=] & _)].
  apply mbind_inv in Hq as [([] & w3 & Hq & [= <- <-])|(e & Hq & ->)];
    apply transaction_world in Hq as [-> Hq];
    try (intros r; apply keep_sql, redis_ignores); (split; [done|]).
  - destruct Hq as [([] & w4 & Hq & -> & _)|(_ & e & [=])]. split; [by eapply Hbody|done].
  - destruct Hq as [([] & w4 & Hq & -> & _)|(-> & _)]; [right; by eapply Hbody|by left].
Qed.

(** C15. What cannot be parsed is kept.  On the PagerDuty, Grafana, Alertmanager
    and generic routes, a verified delivery whose body does not decode or
    normalize, for whatever reason, ends in quarantine: the answer is 202 with
    the first 500 characters of the reason, one quarantined row with that
    reason was inserted, and nothing was published.  If Postgres failed, the
    row is there or the database is unchanged. *)
Theorem malformed_is_quarantined name normalize hmac request w error w1 o w' :
  (name, normalize, hmac) ∈ registered (R := R) →
  verify_source source_secrets allowlist name hmac request = Ok true →
  let received_at := utc (env_now (w_tick w)) in
  parse_source name normalize (req_body request) received_at (next_tick w) =
    (Raise error, w1) →
  source_webhook source_secrets allowlist name normalize hmac request w = (o, w') →
  let reason := take_chars 500 (error_text (req_body request) error) in
  let w2 := after_others (next_tick w1) in
  let d := set_events (<[env_uuid (w_tick w1) :=
             quarantined_row name (dt_us received_at) reason]> (events (w_db w2))) (w_db w2) in
  w_redis w' = w_redis w2 ∧
  match o with
  | Ok resp => w_db w' = d ∧ resp = mkResponse ACCEPTED
                 [("status", JStr "quarantined"); ("reason", JStr reason)]
  | Raise _ => w_db w' = w_db w2 ∨ w_db w' = d
  end.
Proof.
  intros Hin Hv received_at Hp Hw.
  pose proof (yields_parse_source _ _ _ (req_body request) received_at Hin _ _ _ Hp) as [_ He].
  unfold source_webhook, mbind' at 1, now in Hw. rewrite Hv in Hw.
  unfold mbind' at 1, lift in Hw. cbn [negb] in Hw. fold received_at in Hw.
  unfold or_return, mtry in Hw. unfold mbind' at 1 2 in Hw. rewrite Hp, He in Hw.
  unfold mbind' at 1 in Hw.
  destruct (quarantine_delivery name received_at (req_body request) error w1)
    as [[resp|e] w3] eqn:Hq; injection Hw as <- <-;
    exact (quarantine_delivery_inv _ _ _ _ _ _ _ Hq).
Qed.

(** *** A storm of duplicates *)

Section quiet_process.
Context (Hquiet : ∀ n, env_fault n = FOk) (Halone : ∀ n d r, others n d r = (d, r)).

(** A delivery that finds its incident open and already queued. *)
Lemma duplicate_delivery event w id row m ev :
  let fp := ae_fingerprint event in
  db_ok (w_db w) → countable_rows (w_db w) → events (w_db w) !! id = Some row →
  dedupe_candidate fp (dt_us (ae_received_at event) - DEDUPE_WINDOW) row →
  (∀ j s, events (w_db w) !! j = Some s → window_open fp s → j = id) →
  er_queue_message_id row = Some m →
  model_validate_event (default JNull (er_payload row)) = Ok ev →
  ∃ w', admit_and_publish_one event w =
      (Ok (admission_content event
             (mkAdmission id fp (er_dedupe_count row + 1) true) (Some m)), w') ∧
    w_db w' = set_events (<[id := bump_dedupe row]> (events (w_db w))) (w_db w) ∧
    w_redis w' = w_redis w.
Proof.
  intros fp Hok Hcr Hi Hc Hu Hm Hv.
  destruct (count_duplicate_total fp (dt_us (ae_received_at event) - DEDUPE_WINDOW) (w_db w)
              Hok Hcr) as (o & d' & Hd).
  pose proof (count_duplicate_inv _ _ _ _ _ Hd) as
    [(_ & _ & Hno)|(id' & r' & -> & Hi' & [Hw' _] & _ & -> & _)]; [by destruct (Hno _ _ Hi)|].
  pose proof (Hu _ _ Hi' Hw') as ->. rewrite Hi in Hi'. injection Hi' as <-.
  unfold admit_and_publish_one, mbind', mtry.
  erewrite (transaction_Ok (admit_event event DEDUPE_WINDOW)); [| |apply Hquiet].
  2: { rewrite (after_others_alone Halone). unfold admit_event, mbind'.
       rewrite (sql_Ok _ _ () (w_db w)) by done. by erewrite sql_Ok by done. }
  unfold dispatch_event. cbn [ad_event_id].
  erewrite transaction_Ok; [| |apply Hquiet].
  2: { rewrite (after_others_alone Halone). unfold mbind'.
       rewrite (event_for_queue_Ok Hquiet id _ (bump_dedupe row) ev);
         [|split; [apply lookup_insert_eq|apply Hc]|done].
       cbn [er_queue_message_id bump_dedupe]. rewrite Hm. reflexivity. }
  eexists. split; [reflexivity|]. done.
Qed.

(** The first delivery of an incident. *)
Lemma first_delivery event w :
  let fp := ae_fingerprint event in
  let m := (xadd (dumps (event_json event)) (w_redis w)).1 in
  db_ok (w_db w) → countable_rows (w_db w) → valid event = true → event_ok event →
  jsonb_ok (event_json event) = true → events (w_db w) !! ae_id event = None →
  (∀ j s, events (w_db w) !! j = Some s → ¬ window_open fp s) →
  ∃ w' t, admit_and_publish_one event w =
      (Ok (admission_content event (mkAdmission (ae_id event) fp 1 false) (Some m)), w') ∧
    w_db w' = set_events
      (<[ae_id event := with_receipt m t (admitted_row event)]> (events (w_db w))) (w_db w) ∧
    w_redis w' = (xadd (dumps (event_json event)) (w_redis w)).2.
Proof.
  intros fp m Hok Hcr Hv Heo Hj Hid Hno.
  destruct (admit_total event DEDUPE_WINDOW w Hquiet Hok Hcr Hid Hj) as (a & w1 & Ha).
  pose proof (admit_inv _ _ _ _ _ Ha) as (Had & Hr & _).
  pose proof (admits_ok _ _ _ _ _ _ Had Hok) as Hok1.
  inversion Had as [i r Hi [Hw _]|_ _ _ E1 E2]; subst; [by destruct (Hno _ _ Hi)|].
  assert (awaiting (w_db (next_tick w1)) !! ae_id event = Some (admitted_row event)) as Haw.
  { apply awaiting_lookup. split; [split|]; [|done..]. cbn. rewrite <-E2.
    apply lookup_insert_eq. }
  assert (model_validate_event (default JNull (er_payload (admitted_row event))) = Ok event)
    as Hval by (unfold model_validate_event;
      change (default JNull (er_payload (admitted_row event))) with (event_json event);
      by rewrite event_of_json_event_json).
  rewrite E2 in Hok1.
  destruct (dispatch_publishes Hquiet Halone (ae_id event) (next_tick w1) _ _ Hok1 Haw Hval)
    as (w2 & t & Hd & Hdb & Hrd).
  cbn [w_redis next_tick w_db] in Hd, Hdb, Hrd. rewrite Hr in Hd, Hdb, Hrd.
  exists w2, t. split_and!; [|rewrite Hdb, <-E2; cbn; by rewrite insert_insert_eq|exact Hrd].
  unfold admit_and_publish_one, mbind', mtry.
  erewrite (transaction_Ok (admit_event event DEDUPE_WINDOW));
    [|rewrite (after_others_alone Halone); exact Ha|apply Hquiet].
  cbn [ad_event_id]. by rewrite Hd.
Qed.

(** [n] more deliveries counted. *)
Definition bump_by (n : nat) (r : EventRow) : EventRow := Nat.iter n bump_dedupe r.

Lemma bump_by_fields n r :
  er_dedupe_count (bump_by n r) = er_dedupe_count r + Z.of_nat n ∧
  er_queue_message_id (bump_by n r) = er_queue_message_id r.
Proof.
  unfold bump_by. induction n as [|n [IH1 IH2]]; cbn [Nat.iter nat_rect]; [split; [lia|done]|].
  cbn [bump_dedupe er_dedupe_count er_queue_message_id]. unfold Nat.iter in *. split; [lia|done].
Qed.

Lemma bump_by_S n r : bump_by n (bump_dedupe r) = bump_by (S n) r.
Proof. unfold bump_by. by rewrite Nat.iter_succ_r. Qed.

Definition duplicate_replies (id : uuid) (m : string) (count : Z) (events : list AgentEvent) :
    list (list (string * json)) :=
  imap (λ i e, admission_content e
          (mkAdmission id (ae_fingerprint e) (count + Z.of_nat i + 1) true) (Some m)) events.

Lemma duplicate_replies_cons id m count e rest :
  duplicate_replies id m count (e :: rest) =
  admission_content e (mkAdmission id (ae_fingerprint e) (count + 1) true) (Some m) ::
  duplicate_replies id m (count + 1) rest.
Proof.
  unfold duplicate_replies. cbn [imap]. f_equal.
  { by replace (count + Z.of_nat 0 + 1) with (count + 1) by lia. }
  apply imap_ext. intros i x _. unfold compose.
  by replace (count + 1 + Z.of_nat i + 1) with (count + Z.of_nat (S i) + 1) by lia.
Qed.

Lemma duplicates_delivered rest w id row m ev fp :
  db_ok (w_db w) → countable_rows (w_db w) → events (w_db w) !! id = Some row →
  window_open fp row →
  (∀ j s, events (w_db w) !! j = Some s → window_open fp s → j = id) →
  er_queue_message_id row = Some m →
  model_validate_event (default JNull (er_payload row)) = Ok ev →
  er_dedupe_count row + Z.of_nat (length rest) < 2147483647 →
  Forall (λ e, ae_fingerprint e = fp ∧
               dt_us (ae_received_at e) - DEDUPE_WINDOW < er_received_at row) rest →
  ∃ w', admit_and_enqueue rest w =
      (Ok (duplicate_replies id m (er_dedupe_count row) rest), w') ∧
    w_db w' = set_events (<[id := bump_by (length rest) row]> (events (w_db w))) (w_db w) ∧
    w_redis w' = w_redis w.
Proof.
  revert w row. induction rest as [|e rest IH]; intros w row Hok Hcr Hi Hw Hu Hm Hv Hlen Hrest.
  { exists w. split_and!; [done| |done]. cbn. rewrite insert_id by done. by destruct (w_db w). }
  apply list.Forall_cons in Hrest as [[<- Hcut] Hrest].
  destruct (duplicate_delivery e w id row m ev) as (w1 & Hone & Hdb & Hr); try done.
  cbn [length] in Hlen.
  assert (er_dedupe_count row < 2147483647) as Hlt by lia.
  destruct (IH w1 (bump_dedupe row)) as (w2 & Hall & Hdb2 & Hr2).
  - rewrite Hdb. eapply (update_event_ok id bump_dedupe); [|exact Hok]. unfold update_event.
    rewrite Hi, bump_dedupe_check; [done|by eapply ok_events|done].
  - rewrite Hdb. intros j s. cbn. destruct (decide (j = id)) as [->|Hj].
    + rewrite lookup_insert_eq. intros [= <-]. cbn. lia.
    + rewrite lookup_insert_ne by done. apply Hcr.
  - rewrite Hdb. apply lookup_insert_eq.
  - exact Hw.
  - rewrite Hdb. intros j s. cbn. destruct (decide (j = id)) as [->|Hj]; [done|].
    rewrite lookup_insert_ne by done. apply Hu.
  - exact Hm.
  - exact Hv.
  - cbn. lia.
  - exact Hrest.
  - exists w2. unfold admit_and_enqueue in *. cbn [mfor]. unfold mbind'. rewrite Hone, Hall.
    split_and!; [|rewrite Hdb2, Hdb; cbn; by rewrite insert_insert_eq, bump_by_S|by rewrite Hr2].
    by rewrite duplicate_replies_cons.
Qed.
End quiet_process.

(** C3. A storm is one incident.  Without faults, with the process to itself and
    with room in the stream, one batch of deliveries handled in sequence, all
    with one fingerprint that no open event has, all received less than a window
    after the first and fewer than the 32-bit counter holds, leave one new event row that counts them
    all and one new stream entry, which carries the first delivery; the first
    answer is an acceptance, every other one a duplicate that names the same
    event and the same message and carries the running count. *)
Theorem storm_is_one_incident first rest w :
  (∀ n, env_fault n = FOk) → (∀ n d r, others n d r = (d, r)) →
  db_ok (w_db w) → countable_rows (w_db w) →
  valid first = true → event_ok first → jsonb_ok (event_json first) = true →
  events (w_db w) !! ae_id first = None →
  (∀ j s, events (w_db w) !! j = Some s → ¬ window_open (ae_fingerprint first) s) →
  Z.of_nat (length (entries (w_redis w))) < MAX_STREAM_LENGTH →
  1 + Z.of_nat (length rest) < 2147483647 →
  Forall (λ e, ae_fingerprint e = ae_fingerprint first ∧
    dt_us (ae_received_at e) - dt_us (ae_received_at first) < DEDUPE_WINDOW) rest →
  ∃ w' m t,
    admit_and_enqueue (first :: rest) w =
      (Ok (admission_content first
             (mkAdmission (ae_id first) (ae_fingerprint first) 1 false) (Some m) ::
           duplicate_replies (ae_id first) m 1 rest), w') ∧
    events (w_db w') =
      <[ae_id first := bump_by (length rest) (with_receipt m t (admitted_row first))]>
        (events (w_db w)) ∧
    entries (w_redis w') =
      entries (w_redis w) ++ [(m, [("event", dumps (event_json first))])].
Proof.
  intros Hq Ha Hok Hcr Hv Heo Hj Hid Hno Hmax Hlen Hrest.
  destruct (first_delivery Hq Ha first w) as (w1 & t & Hone & Hdb & Hr); try done.
  set (m := (xadd _ _).1) in *. set (row := with_receipt m t (admitted_row first)) in *.
  pose proof (admitted_row_check first Hj) as Hrow.
  destruct (duplicates_delivered Hq Ha rest w1 (ae_id first) row m first (ae_fingerprint first))
    as (w2 & Hall & Hdb2 & Hr2).
  - rewrite Hdb. eapply (insert_event_ok (ae_id first) row); [|exact Hok].
    unfold insert_event. rewrite Hid. unfold row. by rewrite receipt_check.
  - rewrite Hdb. intros j s. cbn. destruct (decide (j = ae_id first)) as [->|Hne].
    + rewrite lookup_insert_eq. by intros [= <-].
    + rewrite lookup_insert_ne by done. apply Hcr.
  - rewrite Hdb. apply lookup_insert_eq.
  - done.
  - rewrite Hdb. intros j s. cbn. destruct (decide (j = ae_id first)) as [->|Hne]; [done|].
    rewrite lookup_insert_ne by done. intros Hs Hw. by destruct (Hno _ _ Hs).
  - done.
  - unfold model_validate_event. change (er_payload row) with (Some (event_json first)).
    cbn [default from_option id]. by rewrite event_of_json_event_json.
  - done.
  - eapply list.Forall_impl; [exact Hrest|]. cbn. intros e [-> Hd]. split; [done|]. lia.
  - exists w2, m, t. unfold admit_and_enqueue in *. cbn [mfor]. unfold mbind'.
    rewrite Hone, Hall. split_and!; [done| |].
    + rewrite Hdb2, Hdb. cbn. by rewrite insert_insert_eq.
    + rewrite Hr2, Hr. by apply xadd_entries.
Qed.
End claims.

(** ** Witnesses *)

Definition plain_errors : ErrorText := {|
  error_text _ e := match e with UnparseablePayload msg => msg | _ => "invalid" end;
  error_text_unparseable _ _ := eq_refl;
|}.

Section witnesses.
#[local] Existing Instance quiet.
#[local] Existing Instance solo.
#[local] Existing Instance strict_pydantic.
#[local] Existing Instance repr_text.
#[local] Existing Instance ascii_text.
#[local] Existing Instance plain_errors.

Definition no_token : Request := mkRequest [] "{}" None.

Lemma unverified_changes_nothing_witness :
  let p := datadog_webhook (R := ListStream) "secret" no_token boot_world in
  same_state boot_world p.2 ∧
  (p.1 = Ok unverified ∨
   ∃ e, authentic "secret" [] [] "/webhooks/datadog" no_token = Raise e ∧ p.1 = Raise e).
Proof.
  intros p. apply (unverified_changes_nothing "secret" [] [] "/webhooks/datadog"
    (datadog_webhook "secret") no_token).
  - unfold router. left.
  - vm_compute. discriminate.
  - exact (surjective_pairing p).
Defined.

Lemma retrigger_after_recovery_is_new_witness :
  let again := sample_event_at 9%N 1785090660000000 "again" in
  let p := transaction (close_window (ae_fingerprint again) now0) (with_db one_event_db) in
  let q := admit_and_publish_one again p.2 in
  ∃ m, q.1 = Ok (admission_content again (mkAdmission 9%N (ae_fingerprint again) 1 false) m).
Proof.
  intros again p q.
  assert (p.1 = Ok 1) as Hp by (vm_compute; reflexivity).
  assert (is_ok q.1 = true) as Hq by (vm_compute; reflexivity).
  destruct q.1 as [a|e] eqn:E; [|discriminate Hq].
  assert (∀ w : World ListStream, others (w_tick w) (w_db w) (w_redis w) = (w_db w, w_redis w))
    as Halone by done.
  pose proof (run_pair p _ Hp) as Hclose. pose proof (run_pair q _ E) as Hadmit.
  pose proof (retrigger_after_recovery_is_new again now0 (with_db one_event_db) 1 p.2 a q.2)
    as Hnew.
  specialize (Hnew Hclose). specialize (Hnew (Halone p.2)). specialize (Hnew Hadmit).
  destruct Hnew as (wa & m & _ & _ & ->). exists m. reflexivity.
Defined.

Definition storm : list AgentEvent :=
  [sample_event_at 8%N 1785090660000000 "again"; sample_event_at 9%N 1785091000000000 "and again"].

Lemma storm_is_one_incident_witness :
  let id := ae_id sample_event in
  ∃ w' m t,
    admit_and_enqueue (sample_event :: storm) boot_world =
      (Ok (admission_content sample_event
             (mkAdmission id (ae_fingerprint sample_event) 1 false) (Some m) ::
           duplicate_replies id m 1 storm), w') ∧
    events (w_db w') = <[id := bump_by (length storm)
                                 (with_receipt m t (admitted_row sample_event))]>
                         (events (w_db boot_world)) ∧
    entries (w_redis w') = entries (w_redis boot_world) ++
                           [(m, [("event", dumps (event_json sample_event))])].
Proof.
  apply (storm_is_one_incident sample_event storm boot_world).
  - done.
  - done.
  - apply empty_db_ok.
  - intros i r Hi. cbn in Hi. by rewrite lookup_empty in Hi.
  - vm_compute. reflexivity.
  - split; [|split; split; [| split | |split]]; try (vm_compute; done).
  - vm_compute. reflexivity.
  - apply lookup_empty.
  - intros i r Hi. cbn in Hi. by rewrite lookup_empty in Hi.
  - vm_compute. reflexivity.
  - vm_compute. reflexivity.
  - repeat constructor.
Defined.

Definition blank_generic : Request :=
  mkRequest [("x-smokejumper-signature", "sha256=" +:+ hmac_sha256_hex "k" "{}")] "{}" None.

Lemma malformed_is_quarantined_witness :
  let p := source_webhook (R := ListStream) [("generic", "k")] [] "generic" normalize_generic true
             blank_generic boot_world in
  let reason := "event_id is required and must be stable per incident" in
  p.1 = Ok (mkResponse ACCEPTED [("status", JStr "quarantined"); ("reason", JStr reason)]) ∧
  events (w_db p.2) = <[1001%N := quarantined_row "generic" 1785090600000000 reason]> ∅.
Proof.
  intros p reason.
  pose proof (malformed_is_quarantined [("generic", "k")] [] "generic" normalize_generic true
    blank_generic boot_world (UnparseablePayload reason) (next_tick boot_world) p.1 p.2) as Hm.
  destruct Hm as [_ Hm].
  - unfold registered. do 3 right. left.
  - vm_compute. reflexivity.
  - vm_compute. reflexivity.
  - exact (surjective_pairing p).
  - assert (is_ok p.1 = true) as Hok by (vm_compute; reflexivity).
    destruct p.1 as [resp|e]; [|discriminate Hok].
    destruct Hm as [Hd ->]. split; [reflexivity|]. rewrite Hd. reflexivity.
Defined.

(** A Datadog delivery dated [date]. *)
Definition dated (date : Z) : Request :=
  mkRequest [("X-Smokejumper-Token", "secret")]
    (dumps (JObj [("alert_id", JInt 42); ("date", JInt date)])) None.

(** A date far out of range loses a Datadog delivery: with a timestamp of
    10^20 ms the conversion raises an OSError, which the route does not catch,
    so a verified alert ends in an error without an event row, a quarantine
    row or a queue entry; 10^18 ms is quarantined and an unreadable date is
    accepted. *)
Theorem far_date_loses_delivery :
  let run date := datadog_webhook (R := ListStream) "secret" (dated date) boot_world in
  (run (10 ^ 20)).1 = Raise OSError ∧ same_state boot_world (run (10 ^ 20)).2 ∧
  (dget "status" ∘ content <$> match (run (10 ^ 18)).1 with Ok r => Some r | _ => None end)
    = Some (Some (JStr "quarantined")) ∧
  (dget "status" ∘ content <$> match (run (-1)).1 with Ok r => Some r | _ => None end)
    = Some (Some (JStr "accepted")).
Proof. cbv zeta. split_and!; [vm_compute; reflexivity|vm_compute; done|vm_compute; reflexivity..]. Qed.
End witnesses.

(** Redis refuses the XADD: the third call after the four of the admission. *)
Lemma admission_survives_dispatch_witness :
  let p := @admit_and_publish_one ListStream (faulty 5 FErr) solo strict_pydantic list_streams
             sample_event boot_world in
  let a := mkAdmission 7%N (ae_fingerprint sample_event) 1 false in
  p.1 = Ok (admission_content sample_event a None) ∧
  entries (w_redis p.2) = [].
Proof.
  intros p a.
  pose (t := @transaction ListStream (faulty 5 FErr) solo _ (@admit_event ListStream (faulty 5 FErr) strict_pydantic sample_event DEDUPE_WINDOW) boot_world).
  assert (t.1 = Ok a) as Ht by (vm_compute; reflexivity).
  destruct (@admission_survives_dispatch ListStream (faulty 5 FErr) solo strict_pydantic list_streams
    sample_event boot_world a t.2 p.1 p.2 (run_pair t _ Ht) (surjective_pairing p))
    as (_ & sent & _ & Hsent).
  split; [|vm_compute; reflexivity].
  destruct sent as [m|e]; [|].
  - rewrite Hsent. assert (p.1 = Ok (admission_content sample_event a None)) as Hp
      by (vm_compute; reflexivity). rewrite Hp in Hsent. exact (eq_sym Hsent).
  - destruct (is_Exception e) eqn:He; [exact Hsent|]. rewrite Hsent.
    assert (is_ok p.1 = true) as Hp by (vm_compute; reflexivity). rewrite Hsent in Hp. discriminate Hp.
Defined.
