(* ===== verification/Config.v ===== *)
(** * The settings object (config.py)

    The settings sections, the two model validators and the helpers around
    them.  The layers (flags, environment, [.env], YAML files) are merged by
    pydantic-settings; [load_settings] takes that merge and the field coercions
    as the interface [SettingsSource], and the code below is what the module
    adds to them.  A credential is [Some text] when set; a SecretStr and a str
    differ only in how they print. *)

From Stdlib Require Import Ascii.
From S2P Require Import Prelude PyStr Json Contracts Wire Verification.

Open Scope Z_scope.

(** ** Selections *)

Inductive Environment := Local | Dev | Prod.
Inductive AuthSelection := AllowAll | HostVerifier.
Inductive GovernanceSelection := NoopGovernance | HostPolicy.
Inductive TenancySelection := SingleTenant.
Inductive ModelSelection := RecordedModel | DirectProvider.
Inductive PlatformSelection := FixturePlatform | HostPlatform.
Inductive ChannelSelection := FakeChannel | SlackChannel.
Inductive TicketingSelection := FixtureTicketing | LinearTicketing.
Inductive MemorySelection := InMemoryStore | PostgresMemory.

#[export] Instance Environment_eq_dec : EqDecision Environment.
Proof. solve_decision. Defined.

Definition env_value (e : Environment) : string :=
  match e with Local => "local" | Dev => "dev" | Prod => "prod" end.

Record PortSelection := mkPorts {
  p_auth : AuthSelection;
  p_governance : GovernanceSelection;
  p_tenancy : TenancySelection;
  p_model : ModelSelection;
  p_platform : PlatformSelection;
  p_channel : ChannelSelection;
  p_ticketing : TicketingSelection;
  p_memory : MemorySelection;
}.
#[export] Instance PortSelection_eq_dec : EqDecision PortSelection.
Proof. unfold EqDecision, Decision. repeat decide equality. Defined.

(** The defaults are the substitutes. *)
Definition default_ports : PortSelection :=
  mkPorts AllowAll NoopGovernance SingleTenant RecordedModel FixturePlatform FakeChannel
    FixtureTicketing InMemoryStore.

(** [PortSelection.model_fields] with [getattr(self, port)] *)
Definition port_values (p : PortSelection) : list (string * string) :=
  [("auth", match p_auth p with AllowAll => "AllowAll" | HostVerifier => "HostVerifier" end);
   ("governance",
     match p_governance p with NoopGovernance => "NoopGovernance" | HostPolicy => "HostPolicy" end);
   ("tenancy", match p_tenancy p with SingleTenant => "SingleTenant" end);
   ("model",
     match p_model p with RecordedModel => "RecordedModel" | DirectProvider => "DirectProvider" end);
   ("platform",
     match p_platform p with FixturePlatform => "FixturePlatform" | HostPlatform => "HostPlatform" end);
   ("channel", match p_channel p with FakeChannel => "FakeChannel" | SlackChannel => "Slack" end);
   ("ticketing",
     match p_ticketing p with FixtureTicketing => "FixtureTicketing" | LinearTicketing => "Linear" end);
   ("memory",
     match p_memory p with InMemoryStore => "InMemoryStore" | PostgresMemory => "Postgres" end)].

(** [d.get(k)] on a table *)
Fixpoint assoc {A} (k : string) (l : list (string * A)) : option A :=
  match l with
  | [] => None
  | (k', v) :: l => if String.eqb k k' then Some v else assoc k l
  end.

Definition port_value (p : PortSelection) (port : string) : string :=
  default EmptyString (assoc port (port_values p)).

Definition STUB_SELECTIONS : list (string * string) :=
  [("auth", "AllowAll"); ("governance", "NoopGovernance"); ("model", "RecordedModel");
   ("platform", "FixturePlatform"); ("channel", "FakeChannel");
   ("ticketing", "FixtureTicketing"); ("memory", "InMemoryStore")].

Definition PLANNED_SELECTIONS : list (string * string) :=
  [("HostVerifier", "a host-supplied adapter (SPEC 11.5.2)");
   ("HostPolicy", "a host-supplied adapter (SPEC 11.5.2)");
   ("HostPlatform", "a host-supplied adapter (SPEC 11.5.2)");
   ("DirectProvider", "M2"); ("Slack", "M2"); ("Linear", "M2"); ("Postgres", "M3")].

Definition stubbed (p : PortSelection) : list string :=
  (filter (λ kv, port_value p kv.1 = kv.2) STUB_SELECTIONS).*1.

Definition unimplemented (p : PortSelection) : list (string * string * string) :=
  omap (λ kv, (λ milestone, (kv.1, kv.2, milestone)) <$> assoc kv.2 PLANNED_SELECTIONS)
    (port_values p).

(** ** Sections *)

Record ModelSettings := mkModelSettings {
  m_worker : option string; m_synthesis : option string; m_api_key : option string }.
Record EmbeddingSettings := mkEmbedding { em_model : option string; em_dimension : option Z }.
Record SlackSettings := mkSlack {
  s_bot_token : option string; s_app_token : option string; s_channel_id : option string }.
Record TicketingSettings := mkTicketing {
  t_api_key : option string; t_team_id : option string; t_project_id : option string }.
Record ToolsSettings := mkTools { to_prometheus_url : option string; to_loki_url : option string }.
Record WebhookSettings := mkWebhooks {
  wh_grafana : option string; wh_datadog : option string; wh_pagerduty : option string;
  wh_generic : option string; wh_alertmanager_allowlist : list network }.

Record Settings := mkSettings {
  st_env : Environment;
  st_compose_profiles : gset string;
  st_log_dir : string;
  st_database_url : string;
  st_redis_url : string;
  st_ports : PortSelection;
  st_model : ModelSettings;
  st_embedding : EmbeddingSettings;
  st_max_usd_per_run : option decimal;
  st_slack : SlackSettings;
  st_ticketing : TicketingSettings;
  st_tools : ToolsSettings;
  st_webhooks : WebhookSettings;
}.

(** [Field(default=None, gt=0)] on the dimension and on the ceiling, and
    [Literal] on the profiles. *)
Definition settings_fields_ok (s : Settings) : bool :=
  match em_dimension (st_embedding s) with Some n => 0 <? n | None => true end &&
  match st_max_usd_per_run s with Some d => 0 <? coef d | None => true end &&
  forallb (λ p, existsb (String.eqb p) ["lab"; "obs"]) (elements (st_compose_profiles s)).

(** ** Environment-gated rules: [_fail_closed] *)

Definition LOCAL_ONLY_PROFILES : gset string := {[ "lab" ]}.

Definition present (value : option string) : bool :=
  match value with None => false | Some s => nonempty (strip s) end.

(** [_at], for the paths of [CREDENTIALS_FOR] *)
Definition setting_at (s : Settings) (path : string) : option string :=
  default None (assoc path
    [("model.worker", m_worker (st_model s)); ("model.synthesis", m_synthesis (st_model s));
     ("model.api_key", m_api_key (st_model s)); ("slack.bot_token", s_bot_token (st_slack s));
     ("slack.app_token", s_app_token (st_slack s)); ("slack.channel_id", s_channel_id (st_slack s));
     ("ticketing.api_key", t_api_key (st_ticketing s));
     ("ticketing.team_id", t_team_id (st_ticketing s))]).

Definition CREDENTIALS_FOR : list (string * string * list (string * string)) :=
  [("model", "DirectProvider",
     [("model.worker", "SMOKEJUMPER__MODEL__WORKER");
      ("model.synthesis", "SMOKEJUMPER__MODEL__SYNTHESIS");
      ("model.api_key", "SMOKEJUMPER__MODEL__API_KEY")]);
   ("channel", "Slack",
     [("slack.bot_token", "SLACK_BOT_TOKEN"); ("slack.app_token", "SLACK_APP_TOKEN");
      ("slack.channel_id", "SMOKEJUMPER__SLACK__CHANNEL_ID")]);
   ("ticketing", "Linear",
     [("ticketing.api_key", "LINEAR_API_KEY");
      ("ticketing.team_id", "SMOKEJUMPER__TICKETING__TEAM_ID")])].

Definition port_var (port : string) : string := "SMOKEJUMPER__PORTS__" +:+ upper port.

Definition stub_problem (s : Settings) : list string :=
  match st_env s, stubbed (st_ports s) with
  | Prod, (_ :: _) as ports =>
      ["prod refuses to boot with stub ports (SPEC 5.10): " +:+
       join ", " ((λ port, port +:+ "=" +:+ port_value (st_ports s) port) <$> ports) +:+
       ". Set " +:+ join ", " (port_var <$> ports) +:+
       " to a real implementation, or run with SMOKEJUMPER_ENV=local."]
  | _, _ => []
  end.

Definition ceiling_problem (s : Settings) : list string :=
  match st_env s, st_max_usd_per_run s with
  | Prod, None =>
      ["prod requires an explicit spend ceiling (SPEC 2d): set SMOKEJUMPER__BUDGET__MAX_USD_PER_RUN to a positive USD amount. Boot fails rather than defaulting to unlimited."]
  | _, _ => []
  end.

Definition unimplemented_problem (s : Settings) : list string :=
  match unimplemented (st_ports s) with
  | [] => []
  | found =>
      ["these port selections have no implementation yet: " +:+
       join ", " ((λ '(port, value, when),
                    port +:+ "=" +:+ value +:+ " (arrives with " +:+ when +:+ ")") <$> found) +:+
       ". Set " +:+ join ", " ((λ '(port, _, _), port_var port) <$> found) +:+
       " to a substitute, or wait for the milestone that builds it. Boot fails here rather than reporting a usable configuration."]
  end.

Definition profile_problem (s : Settings) : list string :=
  match sorted String.le (elements (st_compose_profiles s ∩ LOCAL_ONLY_PROFILES)) with
  | [] => []
  | local_only =>
      if decide (st_env s = Local) then []
      else ["compose profiles " +:+ join ", " local_only +:+
            " are local-only (SPEC 2c) but SMOKEJUMPER_ENV=" +:+ env_value (st_env s) +:+
            ". Remove them from COMPOSE_PROFILES, or run with SMOKEJUMPER_ENV=local."]
  end.

Definition credential_problems (s : Settings) : list string :=
  omap (λ '(port, selection, credentials),
    if String.eqb (port_value (st_ports s) port) selection then
      match sorted String.le
              (filter (λ kv, present (setting_at s kv.1) = false) credentials).*2 with
      | [] => None
      | missing =>
          Some (port +:+ "=" +:+ selection +:+ " is enabled but unset: " +:+ join ", " missing +:+
                ". Supply them, or select " +:+ default EmptyString (assoc port STUB_SELECTIONS) +:+
                " via " +:+ port_var port +:+ ".")
      end
    else None) CREDENTIALS_FOR.

Definition problems (s : Settings) : list string :=
  stub_problem s ++ ceiling_problem s ++ unimplemented_problem s ++ profile_problem s ++
  credential_problems s.

Definition newline_indent : string := String (ascii_of_N 10) "  ".

Definition fail_closed (s : Settings) : result exn Settings :=
  match problems s with
  | [] => Ok s
  | ps => Raise (ValueError (join newline_indent ps))
  end.

(** ** Reading the shared environment *)

Notation environ := (list (string * string)).

Definition split_profiles (value : json) : json :=
  match value with
  | JStr s => JArr (JStr <$> filter (λ x, nonempty x = true) (strip <$> split "," s))
  | v => v
  end.

Definition BARE_SECRET_VARS : list (string * (string * string)) :=
  [("SLACK_BOT_TOKEN", ("slack", "bot_token")); ("SLACK_APP_TOKEN", ("slack", "app_token"));
   ("LINEAR_API_KEY", ("ticketing", "api_key"))].

Definition COMPOSE_ONLY_SUFFIX : string := "_host_port".

(** [data.pop(k, None)]'s effect *)
Definition ddel (k : string) (d : list (string * json)) : list (string * json) :=
  filter (λ kv, kv.1 ≠ k) d.

(** [data[k] = v] *)
Fixpoint dput (k : string) (v : json) (d : list (string * json)) : list (string * json) :=
  match d with
  | [] => [(k, v)]
  | (k', v') :: d => if String.eqb k k' then (k', v) :: d else (k', v') :: dput k v d
  end.

(** [{key: value, **existing}] *)
Definition under (key : string) (value : json) (existing : list (string * json)) :
    list (string * json) :=
  (key, default value (dget key existing)) :: ddel key existing.

(** [os.environ.get(variable) or from_dotenv] *)
Definition env_or (os : environ) (variable : string) (from_dotenv : option json) : option json :=
  match assoc variable os with
  | Some v => if nonempty v then Some (JStr v) else from_dotenv
  | None => from_dotenv
  end.

(** [x is None] on a looked-up value *)
Definition not_none (o : option json) : option json :=
  match o with Some JNull => None | o => o end.

(** One turn of the loop over [BARE_SECRET_VARS]. *)
Definition route_secret (os : environ) (data : list (string * json))
    (entry : string * (string * string)) : list (string * json) :=
  let '(variable, (section, key)) := entry in
  let from_dotenv := dget (lower variable) data in
  let data := ddel (lower variable) data in
  match not_none (env_or os variable from_dotenv), not_none (dget section data) with
  | None, _ => data
  | Some value, None => dput section (JObj [(key, value)]) data
  | Some value, Some (JObj existing) => dput section (JObj (under key value existing)) data
  | Some _, Some _ => data
  end.

Definition reconcile_shared_env (os : environ) (data : json) : json :=
  match data with
  | JObj d =>
      JObj (foldl (route_secret os)
        (filter (λ kv, endswith (lower kv.1) COMPOSE_ONLY_SUFFIX = false) d) BARE_SECRET_VARS)
  | v => v
  end.

(** ** Choosing the YAML layer *)

Inductive config_exn := ConfigError (msg : string).

(** [init_kwargs.get(ENV_VAR) or init_kwargs.get("env")] when it is a string *)
Definition flag_env (flags : list (string * json)) : option string :=
  match dget "SMOKEJUMPER_ENV" flags, dget "env" flags with
  | Some (JStr s), other => if nonempty s then Some s else
                              match other with Some (JStr t) => Some t | _ => None end
  | Some JNull, Some (JStr t) | None, Some (JStr t) => Some t
  | _, _ => None
  end.

Definition resolve_env (os : environ) (flags : list (string * json)) : result config_exn string :=
  match assoc "SMOKEJUMPER__ENV" os with
  | Some _ => Raise (ConfigError "SMOKEJUMPER__ENV is not a supported spelling; it would select an environment without selecting its config file. Use SMOKEJUMPER_ENV instead.")
  | None =>
      Ok match flag_env flags with
         | Some flag => flag
         | None =>
             match assoc "SMOKEJUMPER_ENV" os with
             | Some e => if nonempty e then e else "local"
             | None => "local"
             end
         end
  end.

(** [CONFIG_DIR] is read from the environment when the module is imported;
    nothing writes the environment after that. *)
Inductive config_dir := StatedDir (path : string) | RepositoryDir.
#[export] Instance config_dir_eq_dec : EqDecision config_dir.
Proof. solve_decision. Defined.

Definition CONFIG_DIR (os : environ) : config_dir :=
  match assoc "SMOKEJUMPER_CONFIG_DIR" os with
  | Some d => if nonempty d then StatedDir d else RepositoryDir
  | None => RepositoryDir
  end.

(** [settings_customise_sources], highest precedence first *)
Inductive source :=
| InitSource | EnvSource | DotenvSource | YamlSource (dir : config_dir) (file : string).
#[export] Instance source_eq_dec : EqDecision source.
Proof. solve_decision. Defined.

Definition settings_sources (os : environ) (flags : list (string * json)) :
    result config_exn (list source) :=
  let? env := resolve_env os flags in
  Ok [InitSource; EnvSource; DotenvSource; YamlSource (CONFIG_DIR os) (env +:+ ".yaml");
      YamlSource (CONFIG_DIR os) "base.yaml"].

(** ** Reporting *)

(** One entry of pydantic's [error.errors()]. *)
Record ErrorDetails := mkDetails { ed_type : string; ed_loc : list string; ed_msg : string }.

Definition env_var_for (loc : list string) : string :=
  let head := default EmptyString (head loc) in
  if startswith head "SMOKEJUMPER" then head
  else "SMOKEJUMPER__" +:+ upper (join "__" loc).

(** The required keys of a section: [database] and [redis] need their URL. *)
Definition required_keys (field : string) : list string :=
  if String.eqb field "database" || String.eqb field "redis" then ["url"] else [].

Definition env_vars_for (d : ErrorDetails) : list string :=
  match ed_loc d with
  | [field] =>
      if String.eqb (ed_type d) "missing" then
        match required_keys field with
        | [] => [env_var_for [field]]
        | required => (λ name, env_var_for [field; name]) <$> required
        end
      else [env_var_for [field]]
  | loc => [env_var_for loc]
  end.

Definition describe (errors : list ErrorDetails) : string :=
  "configuration is invalid:" +:+ newline_indent +:+
  join newline_indent ((λ d,
    let message := removeprefix (ed_msg d) "Value error, " in
    match ed_loc d with
    | [] => message
    | _ => join ", " (env_vars_for d) +:+ ": " +:+ message
    end) <$> errors).

(** ** Assembling the settings *)

(** What pydantic-settings does: it merges the sources and builds the object
    from the merged dictionary, or reports the errors it found. *)
Class SettingsSource := {
  merged : environ → list source → list (string * json) → json;
  coerce : json → result (list ErrorDetails) Settings;
  (** The declared bounds hold of what is built. *)
  coerce_bounds : ∀ j s, coerce j = Ok s → settings_fields_ok s = true;
}.

(** The names [compose_profiles] is read under. *)
Definition profile_names : list string :=
  ["SMOKEJUMPER__COMPOSE_PROFILES"; "COMPOSE_PROFILES"; "compose_profiles"].

(** The field validator [_split_profiles], where the field is in the data. *)
Definition with_split_profiles (data : json) : json :=
  match data with
  | JObj d => JObj ((λ kv, (kv.1, if existsb (String.eqb kv.1) profile_names
                                  then split_profiles kv.2 else kv.2)) <$> d)
  | v => v
  end.

Section load.
Context `{!SettingsSource}.

(** A ValueError of a validator of the whole model is one error without
    location, and pydantic prefixes its text. *)
Definition as_details (e : exn) : list ErrorDetails :=
  match e with
  | ValueError msg => [mkDetails "value_error" [] ("Value error, " +:+ msg)]
  | _ => []
  end.

Definition load_settings (os : environ) (flags : list (string * json)) :
    result config_exn Settings :=
  let? sources := settings_sources os flags in
  match coerce (with_split_profiles (reconcile_shared_env os (merged os sources flags))) with
  | Raise errors => Raise (ConfigError (describe errors))
  | Ok s =>
      match fail_closed s with
      | Ok s => Ok s
      | Raise e => Raise (ConfigError (describe (as_details e)))
      end
  end.

(** cli.py: [check-config], its exit code and what it prints *)
Definition check_config (os : environ) : Z * string :=
  match load_settings os [] with
  | Ok s => (0, "configuration valid for SMOKEJUMPER_ENV=" +:+ env_value (st_env s))
  | Raise (ConfigError msg) => (1, "configuration invalid: " +:+ msg)
  end.
End load.

(** ** Properties *)

Lemma problems_nil s :
  problems s = [] ↔
  st_env s ≠ Prod ∧ st_ports s = default_ports ∧
  ("lab" ∈ st_compose_profiles s → st_env s = Local).
Proof.
  unfold problems. rewrite !app_nil.
  assert (unimplemented_problem s = [] ↔ st_ports s = default_ports) as ->.
  { unfold unimplemented_problem. destruct (st_ports s) as [[] [] [] [] [] [] [] []];
      vm_compute; naive_solver. }
  assert (profile_problem s = [] ↔ ("lab" ∈ st_compose_profiles s → st_env s = Local)) as ->.
  { unfold profile_problem. destruct (sorted _ _) as [|p ps] eqn:E.
    - split; [|done]. intros _ Hlab. exfalso.
      assert ("lab" ∈ sorted String.le (elements (st_compose_profiles s ∩ LOCAL_ONLY_PROFILES))) as Hin.
      { rewrite elem_of_sorted, elem_of_elements. unfold LOCAL_ONLY_PROFILES. set_solver. }
      rewrite E in Hin. by apply not_elem_of_nil in Hin.
    - assert (p ∈ sorted String.le (elements (st_compose_profiles s ∩ LOCAL_ONLY_PROFILES))) as Hin
        by (rewrite E; left).
      rewrite elem_of_sorted, elem_of_elements in Hin. unfold LOCAL_ONLY_PROFILES in Hin.
      assert ("lab" ∈ st_compose_profiles s) by set_solver.
      case_decide; naive_solver. }
  split.
  - intros (Hs & _ & Hp & Hl & _). split; [|done]. intros He.
    unfold stub_problem in Hs. rewrite He, Hp in Hs. vm_compute in Hs. done.
  - intros (He & Hp & Hl). unfold stub_problem, ceiling_problem, credential_problems.
    rewrite Hp. destruct (st_env s); done.
Qed.

(** C33. Boot is refused unless it is safe, exactly: the validator accepts the
    settings it is given, unchanged, when the environment is not prod, every
    port is the substitute this version implements and the lab profile is only
    on locally; in every other case it raises one error that lists the
    problems.  In particular prod cannot boot yet, because each port there is
    either a refused substitute or an adapter that does not exist. *)
Theorem fail_closed_exact (s : Settings) :
  (fail_closed s = Ok s ↔
     st_env s ≠ Prod ∧ st_ports s = default_ports ∧
     ("lab" ∈ st_compose_profiles s → st_env s = Local)) ∧
  (fail_closed s = Ok s ∨
   problems s ≠ [] ∧ fail_closed s = Raise (ValueError (join newline_indent (problems s)))).
Proof.
  unfold fail_closed. destruct (problems s) as [|p ps] eqn:E.
  - split; [|by left]. split; [|done]. intros _. by apply problems_nil.
  - split; [|by right]. split; [done|]. intros Hs. apply problems_nil in Hs. congruence.
Qed.

(** Whatever the environment and the flags, settings that load satisfy
    every declared bound and every boot rule (so a loaded environment is local
    or dev, with a positive spend ceiling if it has one), and
    [check-config] exits with 0 exactly when they load. *)
Theorem load_settings_safe `{!SettingsSource} (os : environ) (flags : list (string * json)) :
  match load_settings os flags with
  | Ok s => settings_fields_ok s = true ∧ st_env s ≠ Prod ∧ st_ports s = default_ports ∧
            ("lab" ∈ st_compose_profiles s → st_env s = Local)
  | Raise (ConfigError msg) => True
  end ∧
  ((check_config os).1 = 0 ↔ ∃ s, load_settings os [] = Ok s).
Proof.
  split.
  - unfold load_settings. destruct (settings_sources os flags) as [src|[msg]]; [|done]. cbn [rbind].
    destruct (coerce _) as [s|errs] eqn:E; [|done]. apply coerce_bounds in E.
    unfold fail_closed. destruct (problems s) eqn:Hp; [|done].
    split; [done|]. by apply problems_nil.
  - unfold check_config. destruct (load_settings os []) as [s|[msg]]; naive_solver.
Qed.

(** *** Secrets outside the prefix *)

(** The value of a key of a section. *)
Definition value_at (data : list (string * json)) (section key : string) : option json :=
  match dget section data with Some (JObj e) => dget key e | _ => None end.

(** A section that can take a key: absent, null or a dictionary. *)
Definition open_section (data : list (string * json)) (section : string) : Prop :=
  match dget section data with None | Some JNull | Some (JObj _) => True | _ => False end.

(** Case analysis on the keys compared. *)
Ltac key_cases :=
  repeat match goal with
  | |- context [String.eqb ?a ?b] => destruct (String.eqb_spec a b)
  | |- context [decide (?a = ?b)] => destruct (decide (a = b))
  end; subst; try congruence.

Lemma dget_filter (P : string * json → Prop) `{!∀ x, Decision (P x)} k d :
  (∀ v, P (k, v)) → dget k (filter P d) = dget k d.
Proof.
  intros HP. induction d as [|[k' v] d IH]; [done|]. rewrite filter_cons.
  destruct (decide (P (k', v))) as [Hp|Hp]; cbn; [by rewrite IH|].
  rewrite IH. key_cases. by destruct Hp.
Qed.

Lemma dget_ddel k k' d : dget k (ddel k' d) = if decide (k = k') then None else dget k d.
Proof.
  case_decide as E.
  - subst. unfold ddel. induction d as [|[j v] d IH]; [done|]. rewrite filter_cons. cbn.
    case_decide; [|done]. cbn. rewrite IH. key_cases.
  - apply dget_filter. done.
Qed.

Lemma dget_dput k k' v d : dget k (dput k' v d) = if decide (k = k') then Some v else dget k d.
Proof.
  induction d as [|[j u] d IH]; cbn [dput dget]; [key_cases|].
  destruct (String.eqb_spec k' j) as [->|Hn]; cbn [dget]; [key_cases|]. rewrite IH. key_cases.
Qed.

Lemma dget_under k key v e :
  dget k (under key v e) = if decide (k = key) then Some (default v (dget key e)) else dget k e.
Proof. unfold under. cbn. rewrite dget_ddel. key_cases. Qed.

(** What one turn of the loop leaves under the section's keys. *)
Lemma route_secret_value os data variable section key s k :
  lower variable ≠ section → lower variable ≠ s → (s = section → open_section data section) →
  value_at (route_secret os data (variable, (section, key))) s k =
  match value_at data s k with
  | Some v => Some v
  | None => if decide (s = section ∧ k = key)
            then not_none (env_or os variable (dget (lower variable) data)) else None
  end.
Proof.
  intros Hv Hvs Ho. unfold route_secret, value_at, open_section in *.
  assert (∀ s, lower variable ≠ s → dget s (ddel (lower variable) data) = dget s data) as Hd.
  { intros s' Hs'. rewrite dget_ddel. by rewrite decide_False by congruence. }
  rewrite (Hd section Hv).
  destruct (not_none (env_or os variable _)) as [v|] eqn:Ev.
  2: { rewrite (Hd s Hvs). by repeat case_match. }
  destruct (decide (s = section)) as [->|Hs].
  2: { rewrite (decide_False (P := s = section ∧ k = key)) by tauto.
       assert (dget s data = dget s (ddel (lower variable) data)) as -> by (by rewrite Hd).
       destruct (not_none (dget section _)) as [[]|]; cbn beta iota;
         rewrite ?dget_dput, ?(decide_False (P := s = section)) by done;
         by destruct (dget s (ddel _ _)) as [[]|]; try destruct (dget k _). }
  specialize (Ho eq_refl).
  destruct (dget section data) as [[| | | | | |e]|] eqn:E; try done; cbn [not_none];
    rewrite dget_dput, decide_True by done; rewrite ?dget_under; cbn [dget];
    destruct (decide (section = section ∧ k = key)) as [[_ ->]|Hn]; key_cases;
    first [by destruct (dget _ e) | by destruct Hn].
Qed.

Lemma route_secret_dget os data variable section key k :
  lower variable ≠ section → k ≠ section →
  dget k (route_secret os data (variable, (section, key))) =
  if decide (k = lower variable) then None else dget k data.
Proof.
  intros Hv Hk. rewrite <-dget_ddel. unfold route_secret.
  destruct (not_none (env_or _ _ _)); [|done].
  destruct (not_none (dget section _)) as [[]|];
    rewrite ?dget_dput, ?(decide_False (P := k = section)) by done; done.
Qed.

Lemma route_secret_open os data variable section key s :
  lower variable ≠ section → lower variable ≠ s →
  open_section data s → open_section (route_secret os data (variable, (section, key))) s.
Proof.
  intros Hv Hs. unfold open_section, route_secret.
  assert (dget s data = dget s (ddel (lower variable) data)) as ->.
  { by rewrite dget_ddel, decide_False by congruence. }
  destruct (not_none (env_or _ _ _)); [|done].
  destruct (not_none (dget section _)) as [[]|]; try done;
    rewrite dget_dput; destruct (decide (s = section)); done.
Qed.

(** [data] once compose's own settings are dropped. *)
Definition without_ports (d : list (string * json)) : list (string * json) :=
  filter (λ kv, endswith (lower kv.1) COMPOSE_ONLY_SUFFIX = false) d.

Lemma dget_without_ports k d :
  endswith (lower k) COMPOSE_ONLY_SUFFIX = false → dget k (without_ports d) = dget k d.
Proof. intros Hk. by apply dget_filter. Qed.

(** The lower-case variables are no section names. *)
Definition apart (es : list (string * (string * string))) (s : string) : Prop :=
  ∀ e, e ∈ es → lower e.1 ≠ e.2.1 ∧ lower e.1 ≠ s.

Lemma apart_cons e es s : apart (e :: es) s → (lower e.1 ≠ e.2.1 ∧ lower e.1 ≠ s) ∧ apart es s.
Proof. intros Ha. split; [apply Ha; left|]. intros x Hx. apply Ha. by right. Qed.

(** Entries for other keys leave a value as it is. *)
Lemma routes_other os es data s k :
  apart es s → open_section data s → (s, k) ∉ es.*2 →
  value_at (foldl (route_secret os) data es) s k = value_at data s k.
Proof.
  revert data. induction es as [|[v [s' k']] es IH]; intros data Ha Ho Hn; [done|].
  apply apart_cons in Ha as [[H1 H2] Ha]. cbn in H1, H2, Hn. apply not_elem_of_cons in Hn as [Hn Hes].
  cbn [foldl]. rewrite IH; [|done|by apply route_secret_open|done].
  rewrite route_secret_value; [|done|done|by intros <-].
  rewrite decide_False by naive_solver. by destruct (value_at data s k).
Qed.

Lemma routes_dget os es data k :
  (∀ e, e ∈ es → lower e.1 ≠ e.2.1 ∧ k ≠ e.2.1) → k ∈ (lower <$> es.*1) ∨ dget k data = None →
  dget k (foldl (route_secret os) data es) = None.
Proof.
  revert data. induction es as [|[v [s' k']] es IH]; intros data Ha Hk.
  { by destruct Hk as [?%not_elem_of_nil|?]. }
  cbn [foldl]. destruct (Ha (v, (s', k'))) as [H1 H2]; [left|]. cbn in H1, H2.
  apply IH; [intros e He; apply Ha; by right|].
  rewrite route_secret_dget by done. destruct (decide (k = lower v)) as [->|Hne]; [by right|].
  destruct Hk as [Hk|Hk]; [left|by right].
  apply elem_of_cons in Hk as [?|?]; [done|done].
Qed.

Lemma routes_value os es data v s k :
  apart es s → open_section data s → NoDup (lower <$> es.*1) → NoDup es.*2 →
  (∀ e, e ∈ es → lower v ≠ e.2.1) → (v, (s, k)) ∈ es →
  value_at (foldl (route_secret os) data es) s k =
    match value_at data s k with
    | Some x => Some x
    | None => not_none (env_or os v (dget (lower v) data))
    end.
Proof.
  revert data. induction es as [|[v' [s' k']] es IH]; intros data Ha Ho Hn Hd Hv Hin;
    [by apply not_elem_of_nil in Hin|].
  apply apart_cons in Ha as [[H1 H2] Ha]. cbn in H1, H2, Hn, Hd.
  apply list.NoDup_cons in Hn as [Hn Hnd]. apply list.NoDup_cons in Hd as [Hd Hdd]. cbn [foldl].
  assert (open_section (route_secret os data (v', (s', k'))) s) as Ho' by by apply route_secret_open.
  assert (lower v ≠ s') as Hvs by (apply (Hv (v', (s', k'))); left).
  apply elem_of_cons in Hin as [[= <- <- <-]|Hin].
  - rewrite routes_other by done. rewrite route_secret_value; [|done|done|done].
    by rewrite decide_True.
  - assert ((s, k) ≠ (s', k')) as Hne.
    { intros [= -> ->]. apply Hd. apply list_elem_of_fmap. by exists (v, (s', k')). }
    assert (lower v ≠ lower v') as Hlv.
    { intros He. apply Hn. rewrite <-He. apply list_elem_of_fmap_2, list_elem_of_fmap.
      by exists (v, (s, k)). }
    rewrite IH; try done; [|intros e He; apply Hv; by right].
    rewrite route_secret_value; [|done|done|by intros <-].
    rewrite decide_False by naive_solver. rewrite route_secret_dget by done.
    rewrite decide_False by done. by destruct (value_at data s k).
Qed.

Lemma bare_apart e e' : e ∈ BARE_SECRET_VARS → e' ∈ BARE_SECRET_VARS → lower e.1 ≠ e'.2.1.
Proof.
  assert (Forall (λ e, Forall (λ e', lower e.1 ≠ e'.2.1) BARE_SECRET_VARS) BARE_SECRET_VARS) as Hf
    by (apply (bool_decide_unpack _); vm_compute; exact I).
  intros He He'. rewrite list.Forall_forall in Hf. specialize (Hf _ He).
  rewrite list.Forall_forall in Hf. by apply Hf.
Qed.

(** A secret under its vendor's own name reaches its section with the right
    precedence: a value the section already has wins, then the process
    environment, then the [.env] file; an empty variable counts as unset.  The
    [.env] spelling is consumed, so that it is not taken for a typo. *)
Theorem reconcile_precedence os d d' variable section key :
  reconcile_shared_env os (JObj d) = JObj d' →
  (variable, (section, key)) ∈ BARE_SECRET_VARS → open_section d section →
  value_at d' section key =
    match value_at d section key with
    | Some v => Some v
    | None => not_none (env_or os variable (dget (lower variable) d))
    end ∧
  dget (lower variable) d' = None.
Proof.
  intros E Hin Ho. unfold reconcile_shared_env in E. fold (without_ports d) in E.
  assert (d' = foldl (route_secret os) (without_ports d) BARE_SECRET_VARS) as -> by congruence.
  clear E. assert (endswith (lower section) COMPOSE_ONLY_SUFFIX = false ∧
          endswith (lower (lower variable)) COMPOSE_ONLY_SUFFIX = false) as [Hs Hv].
  { unfold BARE_SECRET_VARS in Hin.
    repeat (apply elem_of_cons in Hin as [[= -> -> ->]|Hin]); [done..|].
    by apply not_elem_of_nil in Hin. }
  assert (value_at d section key = value_at (without_ports d) section key) as ->
    by (unfold value_at; by rewrite dget_without_ports).
  rewrite <-(dget_without_ports (lower variable) d Hv).
  assert (open_section (without_ports d) section) as Ho'
    by (unfold open_section in *; by rewrite dget_without_ports).
  split.
  - apply routes_value; try done.
    + intros e He. split; [by apply bare_apart|]. by apply (bare_apart e _ He Hin).
    + apply (bool_decide_unpack _). vm_compute. exact I.
    + apply (bool_decide_unpack _). vm_compute. exact I.
    + intros e He. by apply (bare_apart _ _ Hin He).
  - apply routes_dget.
    + intros e He. split; [by apply bare_apart|]. by apply (bare_apart _ _ Hin He).
    + left. apply list_elem_of_fmap_2, list_elem_of_fmap. by exists (variable, (section, key)).
Qed.

Lemma reconcile_precedence_witness :
  let os := [("LINEAR_API_KEY", "lin_env")] in
  let d := [("linear_api_key", JStr "lin_file"); ("postgres_host_port", JStr "5433");
            ("ticketing", JObj [("team_id", JStr "OPS")])] in
  match reconcile_shared_env os (JObj d) with
  | JObj d' => value_at d' "ticketing" "api_key" = Some (JStr "lin_env")
  | _ => False
  end.
Proof.
  intros os d. destruct (reconcile_shared_env os (JObj d)) as [| | | | | |d'] eqn:E; try discriminate.
  exact (proj1 (reconcile_precedence os d d' "LINEAR_API_KEY" "ticketing" "api_key" E
                  ltac:(unfold BARE_SECRET_VARS; do 2 right; left) I)).
Defined.

(** ** A source of settings *)

Definition sample_settings (env : Environment) : Settings :=
  mkSettings env {[ "lab" ]} "logs" "postgresql://localhost/smokejumper" "redis://localhost:6379/0"
    default_ports (mkModelSettings None None None) (mkEmbedding None None) (Some (Dec 100 (-2)))
    (mkSlack None None None) (mkTicketing None None None) (mkTools None None)
    (mkWebhooks None (Some "secret") None None []).

(** Reads the environment's name off the YAML layer. *)
Definition fixed_source : SettingsSource.
Proof.
  refine {|
    merged _ sources _ :=
      JObj [("env", JStr (if decide (YamlSource RepositoryDir "dev.yaml" ∈ sources) then "dev" else "local"))];
    coerce j := match j with
                | JObj [(_, JStr "dev")] => Ok (sample_settings Dev)
                | JObj _ => Ok (sample_settings Local)
                | _ => Raise [mkDetails "missing" ["database"] "Field required"]
                end |}.
  intros j s. repeat case_match; intros [= <-]; vm_compute; reflexivity.
Defined.

Example load_examples :
  let run os := @check_config fixed_source os in
  run [] = (0, "configuration valid for SMOKEJUMPER_ENV=local") ∧
  (run [("SMOKEJUMPER_ENV", "dev")]).1 = 1 ∧ (run [("SMOKEJUMPER__ENV", "dev")]).1 = 1.
Proof. vm_compute. done. Qed.

Example describe_example :
  describe [mkDetails "missing" ["database"] "Field required"] =
  "configuration is invalid:" +:+ newline_indent +:+ "SMOKEJUMPER__DATABASE__URL: Field required".
Proof. vm_compute. reflexivity. Qed.

Lemma load_settings_safe_witness :
  (@check_config fixed_source []).1 = 0 ↔ ∃ s, @load_settings fixed_source [] [] = Ok s.
Proof. exact (proj2 (@load_settings_safe fixed_source [] [])). Defined.
