(* ===== verification/App.v ===== *)
(** * The HTTP application (app.py, persistence/database.py)

    Health, the read path for one incident, and the composition root.  What
    XINFO GROUPS answers, the revision Alembic stored and the class name of an
    exception come from outside. *)

From Stdlib Require Import Ascii.
From S2P Require Import Prelude PyStr Sha256 Json JsonParse Fingerprint PyTime Contracts.
From S2P Require Import Wire Database World Samples Repository Delivery Worker Verification.
From S2P Require Import PyValue Normalizers Encoding Routes Config.

Open Scope Z_scope.

Definition SCHEMA_HEAD : string := "0004_event_queue_outbox".

(** ** [ORDER BY started_at DESC], [ORDER BY created_at DESC] *)

Section newest.
Context {A : Type} (key : A → Z).

Definition newer (p q : uuid * A) : Prop := key q.2 ≤ key p.2.
#[export] Instance newer_dec : RelDecision newer.
Proof. intros p q. unfold newer. apply _. Defined.

(** The first row of [ORDER BY key DESC LIMIT 1]. *)
Definition newest (m : gmap uuid A) : option (uuid * A) :=
  head (merge_sort newer (map_to_list m)).

#[local] Instance newer_total : Total newer.
Proof. intros p q. unfold newer. lia. Qed.
#[local] Instance newer_trans : Transitive newer.
Proof. intros p q r. unfold newer. lia. Qed.

Lemma newest_Some m i x :
  newest m = Some (i, x) →
  m !! i = Some x ∧ ∀ j y, m !! j = Some y → key y ≤ key x.
Proof.
  unfold newest. intros Hh.
  pose proof (StronglySorted_merge_sort newer (map_to_list m)) as Hs.
  pose proof (merge_sort_Permutation newer (map_to_list m)) as Hp.
  destruct (merge_sort newer (map_to_list m)) as [|p l]; [done|]. injection Hh as ->.
  split.
  - apply elem_of_map_to_list. rewrite <-Hp. left.
  - intros j y Hj%elem_of_map_to_list. rewrite <-Hp in Hj.
    apply elem_of_cons in Hj as [[= -> ->]|Hj]; [lia|].
    apply StronglySorted_inv in Hs as [_ Hs]. rewrite list.Forall_forall in Hs. by apply Hs in Hj.
Qed.

Lemma newest_None m : newest m = None ↔ m = ∅.
Proof.
  unfold newest. split.
  - intros Hh. pose proof (merge_sort_Permutation newer (map_to_list m)) as Hp.
    destruct (merge_sort newer (map_to_list m)); [|done].
    apply map_to_list_empty_iff. by apply Permutation_nil in Hp.
  - intros ->. by rewrite map_to_list_empty.
Qed.
End newest.

(** ** Queries of the read path *)

(** The ticket of a run: the one its ledger row names, or else the newest of
    the fingerprint. *)
Definition ticket_of_run (d : DB) (run_id : uuid) (r : RunRow) : option TicketRow :=
  match ticket_actions d !! run_id with
  | Some a => tickets d !! ta_ticket_id a
  | None => snd <$> newest tk_created_at
                      (filter (λ kv, tk_fingerprint kv.2 = rn_fingerprint r) (tickets d))
  end.

Definition latest_run (d : DB) (fp : string) : option (uuid * RunRow) :=
  newest rn_started_at (filter (λ kv, rn_fingerprint kv.2 = fp) (runs d)).

Definition opt_json {A} (f : A → json) (o : option A) : json :=
  match o with Some a => f a | None => JNull end.

(** [row.conclusion or {}] *)
Definition conclusion_fields (o : option json) : list (string * json) :=
  match o with Some (JObj d) => d | _ => [] end.

Definition run_content (run_id : uuid) (r : RunRow) (t : option TicketRow) :
    list (string * json) :=
  let conclusion := conclusion_fields (rn_conclusion r) in
  [("run_id", JStr (uuid_str run_id)); ("status", JStr (rn_status r));
   ("conclusion_status", default JNull (dget "status" conclusion));
   ("confidence", default JNull (dget "confidence" conclusion));
   ("summary_md", default JNull (dget "summary_md" conclusion));
   ("findings", default (JArr []) (dget "findings" conclusion));
   ("proposed_actions", default (JArr []) (dget "proposed_actions" conclusion));
   ("ticket", opt_json (λ t, JStr (tk_external_id t)) t);
   ("ticket_updates", opt_json (λ t, JInt (tk_update_count t)) t);
   ("audit", JObj [("file", JStr (rn_audit_log_file r));
                   ("start_offset", JInt (rn_audit_start_offset r));
                   ("end_offset", opt_json JInt (rn_audit_end_offset r))])].

Section app.
Context {R : Type} `{!Env, !Others R}.
(** [type(error).__name__] *)
Context (class_name : exn → string).
(** [SELECT version_num FROM alembic_version] *)
Context (revision : option string).
(** [redis.xinfo_groups(STREAM)] *)
Context (xinfo_groups : R → result exn (list group_info)).

(** A query on a connection of its own. *)
Definition query {A} (q : DB → result exn A) : M R A :=
  do! _ := interleave in sql (λ d, let? a := q d in Ok (a, d)).

Definition check_connection : M R () := query (λ _, Ok ()).

Definition check_schema : M R () :=
  do! current := query (λ _, Ok revision) in
  if decide (current = Some SCHEMA_HEAD) then mret' ()
  else mraise (RuntimeError "schema revision").

Definition ping : M R () := redis_await (λ r, Ok ((), r)).

(** A timeout is a failure of the call like any other. *)
Definition probe (check : M R ()) : M R string :=
  mtry is_Exception (do! _ := check in mret' "ok")
    (λ error, mret' ("down: " +:+ class_name error)).

(** [with contextlib.suppress(Exception): details[...] = ...] *)
Definition suppress {A} (m : M R A) : M R (option A) :=
  mtry is_Exception (do! a := m in mret' (Some a)) (λ _, mret' None).

Definition status_or_starting (status : task_state → string) (t : option task_state) : string :=
  match t with Some t => status t | None => "starting" end.

Definition read_depth : M R depth :=
  do! reply := redis_await (λ r, Ok (xinfo_groups r, r)) in lift (queue_depth reply).

(** The dictionary [checks].  [worker] and [outbox] are the tasks the lifespan
    started, if it has. *)
Definition health_checks (postgres schema redis : string) (worker outbox : option task_state) :
    list (string * string) :=
  [("postgres", postgres); ("schema", schema); ("redis", redis);
   ("worker", status_or_starting worker_status worker);
   ("outbox", status_or_starting outbox_status outbox)].

Definition health_response (checks : list (string * string)) (failures : Z)
    (queue : option depth) (pending : option Z) : Response :=
  let healthy := forallb (λ kv, String.eqb kv.2 "ok") checks in
  mkResponse (if healthy then 200 else 503)
    ([("status", JStr (if healthy then "ok" else "unhealthy"))] ++
     ((λ kv, (kv.1, JStr kv.2)) <$> checks) ++
     ([("recorder_write_failures", JInt failures)] ++
      match queue with
      | Some q => [("queue", JObj [("lag", JInt (dp_lag q)); ("pending", JInt (dp_pending q))])]
      | None => []
      end ++
      match pending with Some n => [("outbox_pending", JInt n)] | None => [] end)).

Definition healthz (worker outbox : option task_state) (failures : Z) : M R Response :=
  do! postgres := probe check_connection in
  do! schema := probe check_schema in
  do! redis := probe ping in
  do! queue := suppress read_depth in
  do! pending := suppress (query (λ d,
    Ok (Z.of_nat (size (filter (λ kv, awaiting_queue kv.2) (events d)))))) in
  mret' (health_response (health_checks postgres schema redis worker outbox) failures
           queue pending).

Definition run_for (fingerprint : string) : M R Response :=
  do! row := query (λ d,
    Ok ((λ '(id, r), (id, r, ticket_of_run d id r)) <$> latest_run d fingerprint)) in
  mret' match row with
        | None => mkResponse 404 [("status", JStr "no run for fingerprint")]
        | Some (id, r, t) => mkResponse 200 (run_content id r t)
        end.
End app.

(** ** The composition root *)

(** [reveal(source)] *)
Definition reveal (secret : option string) : string := default EmptyString secret.

(** What [app_from_env] hands to [build_router]. *)
Definition router_secrets (s : Settings) : string * list (string * string) * list network :=
  let wh := st_webhooks s in
  (reveal (wh_datadog wh),
   [("grafana", reveal (wh_grafana wh)); ("pagerduty", reveal (wh_pagerduty wh));
    ("generic", reveal (wh_generic wh))],
   wh_alertmanager_allowlist wh).

Section root.
Context {R : Type} `{!Env, !Others R, !Pydantic, !RedisStreams R}.
Context `{!FloatText, !PyText, !ErrorText, !SettingsSource}.

Definition app_routes (os : list (string * string)) :
    result config_exn (list (string * (Request → M R Response))) :=
  let? s := load_settings os [] in
  let '(datadog, secrets, allowlist) := router_secrets s in
  Ok (router datadog secrets allowlist).
End root.

(** ** Claims *)

Section claims.
Context {R : Type} `{!Env, !Others R}.
Context (class_name : exn → string) (revision : option string).
Context (xinfo_groups : R → result exn (list group_info)).
Implicit Types w : World R.

Lemma probe_inv check w o w' :
  probe class_name check w = (o, w') →
  o = Raise CancelledError ∨ (o = Ok "ok" ∧ check w = (Ok (), w')) ∨ (∃ s, o = Ok s ∧ s ≠ "ok").
Proof.
  unfold probe, mtry, mbind'. destruct (check w) as [[[]|e] w1] eqn:E.
  - intros [= <- <-]. by eauto.
  - destruct (is_Exception e) eqn:He; intros [= <- <-].
    + right; right. by eexists.
    + left. by destruct e.
Qed.

Lemma suppress_inv {A} (m : M R A) w o w' :
  suppress m w = (o, w') → o = Raise CancelledError ∨ ∃ a, o = Ok a.
Proof.
  unfold suppress, mtry, mbind'. destruct (m w) as [[a|e] w1]; [intros [= <- <-]; by eauto|].
  destruct (is_Exception e) eqn:He; intros [= <- <-]; [by eauto|]. left. by destruct e.
Qed.

Lemma check_schema_Ok w w' : check_schema revision w = (Ok (), w') → revision = Some SCHEMA_HEAD.
Proof.
  intros (cur & w1 & Hq & Hc)%mbind_Ok. unfold query in Hq.
  apply mbind_Ok in Hq as ([] & w2 & _ & Hq).
  apply sql_inv in Hq as [(? & d & [= <-] & [= <- <-] & ->)|(e & [=] & _)].
  destruct (decide (revision = Some SCHEMA_HEAD)); [done|]. done.
Qed.

(** The name and the outcome of every check. *)
Definition check_names : list string := ["postgres"; "schema"; "redis"; "worker"; "outbox"].

Lemma status_ok_running status t :
  (∀ t, status t = "ok" → t = TaskRunning) →
  status_or_starting status t = "ok" → t = Some TaskRunning.
Proof. destruct t as [t|]; cbn; [|done]. by intros Hs ->%Hs. Qed.

Lemma checks_ok pg sc rd worker outbox :
  forallb (λ kv, String.eqb kv.2 "ok") (health_checks pg sc rd worker outbox) = true ↔
  pg = "ok" ∧ sc = "ok" ∧ rd = "ok" ∧ status_or_starting worker_status worker = "ok" ∧
  status_or_starting outbox_status outbox = "ok".
Proof.
  unfold health_checks. cbn [forallb snd]. rewrite !andb_true_iff, !String.eqb_eq. tauto.
Qed.

(** What the answer shows of the checks. *)
Lemma checks_shown (code : string) (rest : list (string * json)) pg sc rd worker outbox :
  (∀ name, name ∈ check_names →
     dget name ([("status", JStr code)] ++
       ((λ kv, (kv.1, JStr kv.2)) <$> health_checks pg sc rd worker outbox) ++ rest)
     = Some (JStr "ok")) ↔
  pg = "ok" ∧ sc = "ok" ∧ rd = "ok" ∧ status_or_starting worker_status worker = "ok" ∧
  status_or_starting outbox_status outbox = "ok".
Proof.
  unfold check_names. rewrite <-list.Forall_forall, !list.Forall_cons, list.Forall_nil.
  cbn -[status_or_starting]. split.
  - intros (H1 & H2 & H3 & H4 & H5 & _). split_and!; congruence.
  - intros (-> & -> & -> & -> & ->). done.
Qed.

(** C34. Health is what it says: short of cancellation [/healthz] always
    answers, with 200 exactly when all five checks read ok and 503 otherwise,
    and 200 means that both background tasks are running and the schema is at
    the revision this code expects. *)
Theorem healthz_exact worker outbox failures w o w' :
  healthz class_name revision xinfo_groups worker outbox failures w = (o, w') →
  o = Raise CancelledError ∨
  ∃ resp, o = Ok resp ∧
    (status_code resp = 200 ∨ status_code resp = 503) ∧
    (status_code resp = 200 ↔
       ∀ name, name ∈ check_names → dget name (content resp) = Some (JStr "ok")) ∧
    (status_code resp = 200 →
       worker = Some TaskRunning ∧ outbox = Some TaskRunning ∧ revision = Some SCHEMA_HEAD).
Proof.
  intros [(pg & w1 & H1 & Hr)|(e & H1 & ->)]%mbind_inv; apply probe_inv in H1; [|naive_solver].
  apply mbind_inv in Hr as [(sc & w2 & H2 & Hr)|(e & H2 & ->)]; apply probe_inv in H2; [|naive_solver].
  apply mbind_inv in Hr as [(rd & w3 & H3 & Hr)|(e & H3 & ->)]; apply probe_inv in H3; [|naive_solver].
  apply mbind_inv in Hr as [(q & w4 & H4 & Hr)|(e & H4 & ->)]; apply suppress_inv in H4; [|naive_solver].
  apply mbind_inv in Hr as [(n & w5 & H5 & Hr)|(e & H5 & ->)]; apply suppress_inv in H5; [|naive_solver].
  assert (o = Ok (health_response (health_checks pg sc rd worker outbox) failures q n)) as ->
    by (unfold mret' in Hr; congruence).
  right. eexists. split; [done|]. unfold health_response. cbv zeta. cbn [status_code content].
  rewrite checks_shown, <-checks_ok.
  destruct (forallb _ _) eqn:E; (split; [auto|]); (split; [done|]); [|done].
  intros _. apply checks_ok in E as (-> & -> & -> & Hw & Ho). split_and!.
  - apply (status_ok_running worker_status); [|done]. by intros [].
  - apply (status_ok_running outbox_status); [|done]. by intros [].
  - destruct H2 as [[=]|[(_ & Hs)|(s & [= <-] & Hs)]]; [|done]. by eapply check_schema_Ok.
Qed.

(** The read path shows the latest run: [/runs/{fingerprint}] writes
    nothing; it answers 404 exactly when no run has that fingerprint, and
    otherwise shows a run that has it and was started last, with the ticket
    its ledger row names, or the newest ticket of the fingerprint when it has
    none. *)
Theorem run_for_latest fp w resp w' :
  run_for fp w = (Ok resp, w') →
  let d := w_db (after_others w) in
  w_db w' = d ∧ w_redis w' = w_redis (after_others w) ∧
  ((status_code resp = 404 ∧ ∀ i r, runs d !! i = Some r → rn_fingerprint r ≠ fp) ∨
   ∃ i r, runs d !! i = Some r ∧ rn_fingerprint r = fp ∧
     (∀ j s, runs d !! j = Some s → rn_fingerprint s = fp → rn_started_at s ≤ rn_started_at r) ∧
     ∃ t, resp = mkResponse 200 (run_content i r t) ∧
       (∀ a, ticket_actions d !! i = Some a → t = tickets d !! ta_ticket_id a) ∧
       (ticket_actions d !! i = None → ∀ x, t = Some x →
          tk_fingerprint x = fp ∧
          ∀ k y, tickets d !! k = Some y → tk_fingerprint y = fp →
                 tk_created_at y ≤ tk_created_at x)).
Proof.
  intros (row & w1 & Hq & Hr)%mbind_Ok d. unfold query in Hq.
  apply mbind_Ok in Hq as ([] & w2 & Hi & Hq). rewrite interleave_eq in Hi. injection Hi as <-.
  apply sql_inv in Hq as [(? & d' & [= <-] & Hs & ->)|(e & [=] & _)]. cbn [rbind] in Hs.
  fold d in Hs. injection Hs as <- <-. injection Hr as Hresp <-. split; [done|]. split; [done|].
  unfold latest_run in Hresp. destruct (newest rn_started_at _) as [[i r]|] eqn:E; cbn in Hresp.
  - right. apply newest_Some in E as [[Hi Hf]%map_lookup_filter_Some Hmax]. exists i, r.
    split_and!; [done|done| |].
    { intros j s Hj Hs. apply (Hmax j). by apply map_lookup_filter_Some. }
    exists (ticket_of_run d i r). split; [done|]. unfold ticket_of_run. split.
    + intros a Ha. by rewrite Ha.
    + intros Hn x. rewrite Hn. destruct (newest tk_created_at _) as [[k y]|] eqn:Et; [|done].
      intros [= <-]. apply newest_Some in Et as [[Hk Hkf]%map_lookup_filter_Some Ht].
      cbn in Hkf, Hf. split; [congruence|]. intros k' y' Hk' Hy'. apply (Ht k').
      apply map_lookup_filter_Some. split; [done|]. cbn. congruence.
  - left. subst resp. split; [done|]. intros i r Hi Hf. apply newest_None in E.
    rewrite map_empty_filter in E. by eapply (E i r Hi).
Qed.
End claims.

Section root_claims.
Context {R : Type} `{!Env, !Others R, !Pydantic, !RedisStreams R}.
Context `{!FloatText, !PyText, !ErrorText}.

(** Whether a path has a credential to check against. *)
Definition configured (credentials : string * list (string * string) * list network)
    (path : string) : bool :=
  let '(datadog, secrets, allowlist) := credentials in
  let has name := nonempty (default EmptyString (table_get name secrets)) in
  default false (assoc path
    [("/webhooks/datadog", nonempty datadog); ("/webhooks/pagerduty", has "pagerduty");
     ("/webhooks/grafana", has "grafana"); ("/webhooks/generic", has "generic");
     ("/webhooks/alertmanager", negb (Nat.eqb (length allowlist) 0))]).

Lemma verify_empty_secret body hs :
  verify_shared_token hs EmptyString = Ok false ∧
  verify_hmac_signature body hs EmptyString = Ok false ∧
  verify_pagerduty_signature body hs EmptyString = Ok false.
Proof. done. Qed.

(** A source nobody configured is closed: on the routes the application
    boots with, a path whose secret is unset or empty, or whose allowlist is
    empty, answers every request with 401 and touches nothing. *)
Theorem unconfigured_source_is_closed s path handler request (w w' : World R) o :
  (path, handler) ∈ (let '(dd, secrets, allow) := router_secrets s in
                     router (R := R) dd secrets allow) →
  configured (router_secrets s) path = false → handler request w = (o, w') →
  o = Ok unverified ∧ same_state w w'.
Proof.
  destruct (router_secrets s) as [[dd secrets] allow]. intros Hin Hc Hh.
  assert (authentic dd secrets allow path request = Ok false) as Ha.
  { unfold router, registered in Hin. cbn [fmap list_fmap] in Hin. unfold configured in Hc.
    change ("/webhooks/" +:+ "pagerduty") with "/webhooks/pagerduty" in Hin.
    change ("/webhooks/" +:+ "grafana") with "/webhooks/grafana" in Hin.
    change ("/webhooks/" +:+ "alertmanager") with "/webhooks/alertmanager" in Hin.
    change ("/webhooks/" +:+ "generic") with "/webhooks/generic" in Hin.
    repeat (apply elem_of_cons in Hin as [Heq|Hin]); [..|by apply not_elem_of_nil in Hin];
      injection Heq as -> _; cbn in Hc; unfold authentic, verify_source; cbn.
    4: { by destruct allow. }
    all: match type of Hc with nonempty ?x = false => destruct x; [|done] end.
    all: apply (verify_empty_secret (req_body request)). }
  destruct (refused_changes_nothing dd secrets allow path handler request w o w' Hin)
    as [Hs [->|(e & He & _)]]; [congruence|done|done|congruence].
Qed.
End root_claims.

(** ** Witnesses *)

Section witnesses.
#[local] Existing Instance quiet.
#[local] Existing Instance solo.
#[local] Existing Instance strict_pydantic.
#[local] Existing Instance repr_text.
#[local] Existing Instance ascii_text.
#[local] Existing Instance plain_errors.

Definition no_groups (r : ListStream) : result exn (list group_info) := Ok [].

Lemma healthz_exact_witness :
  let p := healthz (λ _, "Error") (Some SCHEMA_HEAD) no_groups (Some TaskRunning) None 0
             boot_world in
  match p.1 with Ok resp => status_code resp = 503 | Raise _ => False end.
Proof.
  intros p.
  pose proof (healthz_exact (λ _, "Error") (Some SCHEMA_HEAD) no_groups (Some TaskRunning) None 0
                boot_world p.1 p.2 (surjective_pairing p)) as Hh.
  assert (is_ok p.1 = true) as Hok by (vm_compute; reflexivity).
  destruct p.1 as [resp|e]; [|discriminate Hok].
  destruct Hh as [Hh|(r & Hr & [H200|H503] & _ & Hrun)]; [discriminate Hh| |].
  - destruct (Hrun H200) as (_ & Hn & _). discriminate Hn.
  - injection Hr as ->. exact H503.
Defined.

Definition one_run_db : DB :=
  set_runs {[ 5%N := mkRunRow "fp" "running" 1785090600000000 "audit.jsonl" 0 None None None None ]}
    empty_db.

Lemma run_for_latest_witness :
  let p := run_for "fp" (with_db one_run_db) in
  match p.1 with Ok resp => status_code resp = 200 | Raise _ => False end.
Proof.
  intros p. assert (is_ok p.1 = true) as Hok by (vm_compute; reflexivity).
  destruct p.1 as [resp|e] eqn:E; [|discriminate Hok].
  destruct (run_for_latest "fp" (with_db one_run_db) resp p.2 (run_pair p _ E))
    as (_ & _ & [[_ Hno]|(i & r & _ & _ & _ & t & -> & _)]); [|reflexivity].
  exfalso. by apply (Hno 5%N (mkRunRow "fp" "running" 1785090600000000 "audit.jsonl" 0 None None None None)).
Defined.

Lemma unconfigured_source_is_closed_witness :
  let p := source_webhook (R := ListStream) (router_secrets (sample_settings Local)).1.2 [] "grafana"
             normalize_grafana false no_token boot_world in
  p.1 = Ok unverified ∧ same_state boot_world p.2.
Proof.
  intros p. apply (unconfigured_source_is_closed (sample_settings Local) "/webhooks/grafana"
    (source_webhook (router_secrets (sample_settings Local)).1.2 [] "grafana" normalize_grafana false)
    no_token boot_world p.2 p.1).
  - unfold router_secrets, router, registered. right; right; left.
  - vm_compute. reflexivity.
  - exact (surjective_pairing p).
Defined.
End witnesses.
