(* ===== verification/Migrations.v ===== *)
(** * The migrations (migrations/versions, migrations/env.py)

    The four revisions as the statements they run, statement by statement, and
    the runner.  The theorems show that the schema they build enforces exactly
    the constraints [Database] assumes, that every downgrade restores the catalog
    its upgrade started from, and that the upgrade to the outbox replays no
    event of the time before it.

    [CREATE EXTENSION IF NOT EXISTS] does not record who created the extension,
    which is why a downgrade to the base can take one that was there before. *)

From Stdlib Require Import Ascii.
From S2P Require Import Prelude PyStr Json Contracts Wire Database Catalog Samples Repository Config App.

Open Scope Z_scope.

(** ** Columns, as [sa.Column] is called *)

Definition column (name : string) (t : ctype) (nullable : bool) : Column :=
  mkColumn name t false nullable None None.
Definition defaulted (name : string) (t : ctype) (v : value) : Column :=
  mkColumn name t false false (Some v) None.
Definition primary (name : string) : Column := mkColumn name Uuid true false None None.

(** ** 0001_core_tables *)

Definition events_source_check : expr :=
  InList (Col "source")
    ["grafana"; "alertmanager"; "datadog"; "pagerduty"; "generic"; "slack"; "scheduled"].

Definition events_quarantine_check : expr :=
  And (And (Eq (Col "quarantined") (IsNull (Col "payload")))
           (Eq (Col "quarantined") (IsNull (Col "fingerprint"))))
      (Eq (Col "quarantined") (IsNotNull (Col "quarantine_reason"))).

Definition runs_offsets_check : expr :=
  Or (IsNull (Col "audit_end_offset")) (Ge (Col "audit_end_offset") (Col "audit_start_offset")).

Definition upgrade_0001 : list op :=
  [CreateExtension "vector";
   CreateTable "events"
     [primary "id";
      column "source" Text false;
      column "fingerprint" Text true;
      column "received_at" Timestamptz false;
      defaulted "dedupe_count" Integer (VInt 1);
      defaulted "quarantined" Boolean (VBool false);
      column "quarantine_reason" Text true;
      column "payload" Jsonb true]
     [("events_source_known", events_source_check);
      ("events_quarantine_invariant", events_quarantine_check)];
   CreateIndex "ix_events_fingerprint_received_at"
     (mkIndex "events" ["fingerprint"; "received_at"] false None);
   CreateTable "runs"
     [primary "run_id";
      column "fingerprint" Text false;
      column "status" Text false;
      column "started_at" Timestamptz false;
      column "audit_log_file" Text false;
      column "audit_start_offset" BigInteger false;
      column "audit_end_offset" BigInteger true]
     [("runs_audit_offsets_ordered", runs_offsets_check)];
   CreateIndex "ix_runs_fingerprint" (mkIndex "runs" ["fingerprint"] false None)].

Definition downgrade_0001 : list op :=
  [DropIndex "ix_runs_fingerprint" "runs";
   DropTable "runs";
   DropIndex "ix_events_fingerprint_received_at" "events";
   DropTable "events";
   DropExtension "vector"].

(** ** 0002_event_window_closed *)

Definition open_window_where : expr :=
  And (IsNull (Col "window_closed_at")) (Eq (Col "quarantined") (BoolLit false)).

Definition upgrade_0002 : list op :=
  [AddColumn "events" (column "window_closed_at" Timestamptz true);
   CreateIndex "ix_events_open_window"
     (mkIndex "events" ["fingerprint"; "received_at"] false (Some open_window_where))].

Definition downgrade_0002 : list op :=
  [DropIndex "ix_events_open_window" "events"; DropColumn "events" "window_closed_at"].

(** ** 0003_runs_and_tickets *)

Definition runs_status_check : expr := InList (Col "status") run_statuses.

Definition runs_concluded_check : expr :=
  Or (Ne (Col "status") (Lit "concluded")) (IsNotNull (Col "conclusion")).

Definition open_ticket_where : expr := IsNull (Col "closed_at").

Definition upgrade_0003 : list op :=
  [AddColumn "runs" (column "event_id" Uuid true);
   AddColumn "runs" (column "conclusion" Jsonb true);
   AddColumn "runs" (column "finished_at" Timestamptz true);
   CreateCheck "runs_status_known" "runs" runs_status_check;
   CreateCheck "runs_concluded_has_conclusion" "runs" runs_concluded_check;
   CreateTable "tickets"
     [primary "id";
      column "fingerprint" Text false;
      column "provider" Text false;
      column "external_id" Text false;
      column "url" Text true;
      column "created_at" Timestamptz false;
      column "closed_at" Timestamptz true;
      defaulted "update_count" Integer (VInt 0)]
     [];
   CreateIndex "uq_tickets_open_fingerprint"
     (mkIndex "tickets" ["fingerprint"] true (Some open_ticket_where))].

Definition downgrade_0003 : list op :=
  [DropIndex "uq_tickets_open_fingerprint" "tickets";
   DropTable "tickets";
   DropConstraint "runs_concluded_has_conclusion" "runs";
   DropConstraint "runs_status_known" "runs";
   DropColumn "runs" "finished_at";
   DropColumn "runs" "conclusion";
   DropColumn "runs" "event_id"].

(** ** 0004_event_queue_outbox *)

Definition queue_state_check : expr :=
  Eq (IsNull (Col "queued_at")) (IsNull (Col "queue_message_id")).

Definition pending_where : expr :=
  And (Eq (Col "quarantined") (BoolLit false)) (IsNull (Col "queued_at")).

Definition legacy_sets : list (string * expr) :=
  [("queued_at", Col "received_at"); ("queue_message_id", Lit "legacy-before-0004")].
Definition legacy_where : expr := Eq (Col "quarantined") (BoolLit false).

Definition upgrade_0004 : list op :=
  [AddColumn "events" (column "queued_at" Timestamptz true);
   AddColumn "events" (column "queue_message_id" Text true);
   UpdateRows "events" legacy_sets legacy_where;
   CreateCheck "events_queue_state_paired" "events" queue_state_check;
   CreateIndex "ix_events_pending_queue"
     (mkIndex "events" ["received_at"] false (Some pending_where));
   CreateTable "ticket_actions"
     [mkColumn "run_id" Uuid true false None (Some ("runs", "run_id"));
      column "fingerprint" Text false;
      mkColumn "ticket_id" Uuid false false None (Some ("tickets", "id"));
      column "external_id" Text false;
      column "created" Boolean false;
      column "update_count" Integer false;
      column "applied_at" Timestamptz false]
     [];
   CreateFunction "smokejumper_close_ticket_on_window" CloseTicketOnWindow;
   CreateTrigger "events_close_ticket_on_window" "events"
     (mkTrigger ["window_closed_at"] "smokejumper_close_ticket_on_window")].

Definition downgrade_0004 : list op :=
  [DropTrigger "events_close_ticket_on_window" "events";
   DropFunction "smokejumper_close_ticket_on_window";
   DropTable "ticket_actions";
   DropIndex "ix_events_pending_queue" "events";
   DropConstraint "events_queue_state_paired" "events";
   DropColumn "events" "queue_message_id";
   DropColumn "events" "queued_at"].

(** The texts are those of the source. *)
Example sql_texts :
  sql_text events_source_check =
    "source IN ('grafana', 'alertmanager', 'datadog', 'pagerduty', 'generic', 'slack', 'scheduled')" ∧
  sql_text events_quarantine_check =
    "quarantined = (payload IS NULL) AND quarantined = (fingerprint IS NULL) AND quarantined = (quarantine_reason IS NOT NULL)" ∧
  sql_text runs_offsets_check =
    "audit_end_offset IS NULL OR audit_end_offset >= audit_start_offset" ∧
  sql_text open_window_where = "window_closed_at IS NULL AND quarantined = false" ∧
  sql_text runs_status_check = "status IN ('running', 'concluded', 'needs_human', 'failed')" ∧
  sql_text runs_concluded_check = "status <> 'concluded' OR conclusion IS NOT NULL" ∧
  sql_text open_ticket_where = "closed_at IS NULL" ∧
  sql_text queue_state_check = "(queued_at IS NULL) = (queue_message_id IS NULL)" ∧
  sql_text pending_where = "quarantined = false AND queued_at IS NULL" ∧
  sql_text legacy_where = "quarantined = false".
Proof. vm_compute. done. Qed.

(** ** Revisions and the runner *)

Record Revision := mkRevision {
  revision : string;
  down_revision : option string;
  upgrade : list op;
  downgrade : list op;
}.

Definition r0001 : Revision := mkRevision "0001_core_tables" None upgrade_0001 downgrade_0001.
Definition r0002 : Revision :=
  mkRevision "0002_event_window_closed" (Some "0001_core_tables") upgrade_0002 downgrade_0002.
Definition r0003 : Revision :=
  mkRevision "0003_runs_and_tickets" (Some "0002_event_window_closed") upgrade_0003 downgrade_0003.
Definition r0004 : Revision :=
  mkRevision "0004_event_queue_outbox" (Some "0003_runs_and_tickets") upgrade_0004 downgrade_0004.

Definition revisions : list Revision := [r0001; r0002; r0003; r0004].

(** The scripts' links, followed from the base. *)
Fixpoint chain (fuel : nat) (from : option string) : list Revision :=
  match fuel with
  | O => []
  | S fuel =>
      match list_find (λ r, down_revision r = from) revisions with
      | Some (_, r) => r :: chain fuel (Some (revision r))
      | None => []
      end
  end.

(** The links name one order, and it ends at the head the health check
    expects. *)
Example chain_to_head :
  chain 5 None = revisions ∧ revision <$> list.last (chain 5 None) = Some SCHEMA_HEAD.
Proof. vm_compute. done. Qed.

Definition upgrades (l : list Revision) : list op := l ≫= upgrade.
Definition downgrades (l : list Revision) : list op := reverse l ≫= downgrade.

(** env.py: [_database_url] *)
Definition database_url (os : environ) : result exn string :=
  match assoc "SMOKEJUMPER__DATABASE__URL" os with
  | Some url =>
      if nonempty url then Ok url
      else Raise (RuntimeError "SMOKEJUMPER__DATABASE__URL must be set to run migrations")
  | None => Raise (RuntimeError "SMOKEJUMPER__DATABASE__URL must be set to run migrations")
  end.

Section runner.
(** Whether the engine connects, and the statements Alembic plans for the
    command it was given. *)
Context (connect : string → result exn ()) (plan : Catalog → list op).

(** [run_migrations]: one transaction around the whole plan. *)
Definition run_migrations (os : environ) (c : Catalog) : result exn () * Catalog :=
  match database_url os with
  | Raise e => (Raise e, c)
  | Ok url =>
      match connect url with
      | Raise e => (Raise e, c)
      | Ok _ =>
          match run_ops (plan c) c with
          | Ok c' => (Ok (), c')
          | Raise e => (Raise e, c)
          end
      end
  end.
End runner.

(** The catalog of a result, for results that evaluate. *)
Definition outcome (r : result exn Catalog) : Catalog :=
  match r with Ok c => c | Raise _ => empty_catalog end.

Lemma outcome_ok r : is_ok r = true → r = Ok (outcome r).
Proof. by destruct r. Qed.

(** ** Downgrades *)

Lemma restores_plain l l' c c' :
  mapM undo l = Some (reverse l') → wf c → run_ops l c = Ok c' → run_ops l' c' = Ok c.
Proof. intros Hu Hwf H. rewrite <-(reverse_involutive l'). by eapply run_ops_undo. Qed.

Lemma restores_0001 c c' :
  wf c → "vector" ∉ extensions c → run_ops upgrade_0001 c = Ok c' → run_ops downgrade_0001 c' = Ok c.
Proof.
  intros Hwf Hv H. unfold upgrade_0001 in H. cbn [run_ops] in H.
  apply rbind_Ok in H as (c1 & H1 & H).
  assert (wf c1) as Hwf1 by by eapply (run_op_wf (CreateExtension "vector")).
  change downgrade_0001 with (take 4 downgrade_0001 ++ [DropExtension "vector"]).
  rewrite run_ops_app. rewrite (restores_plain (drop 1 upgrade_0001) _ c1 c'); [|reflexivity|done|exact H].
  injection H1 as <-. cbn. f_equal. destruct c as [ex tbs ixs fns tgs]. cbn in *. f_equal. set_solver.
Qed.

Lemma restores_0004 c c' :
  wf c → run_ops upgrade_0004 c = Ok c' → run_ops downgrade_0004 c' = Ok c.
Proof.
  intros Hwf H.
  change upgrade_0004 with (take 2 upgrade_0004 ++
    [UpdateRows "events" legacy_sets legacy_where] ++ drop 3 upgrade_0004) in H.
  rewrite run_ops_app in H. apply rbind_Ok in H as (c1 & H1 & H).
  rewrite run_ops_app in H. apply rbind_Ok in H as (c2 & H2 & H).
  cbn [run_ops] in H2. apply rbind_Ok in H2 as (c2' & H2 & [= ->]).
  assert (wf c1) as Hwf1 by by eapply (run_ops_wf (take 2 upgrade_0004)).
  assert (wf c2) as Hwf2 by by eapply (run_op_wf (UpdateRows "events" legacy_sets legacy_where)).
  change downgrade_0004 with (take 5 downgrade_0004 ++
    (DropColumn "events" <$> ["queue_message_id"; "queued_at"])).
  rewrite run_ops_app. rewrite (restores_plain (drop 3 upgrade_0004) _ c2 c'); [|reflexivity|done|exact H].
  cbn [rbind]. eapply (drop_after_update "events" legacy_sets legacy_where _ c1); [|exact H2|].
  - intros x. cbn. rewrite !elem_of_cons. tauto.
  - by apply (restores_plain (take 2 upgrade_0004)).
Qed.

Lemma restores rv c c' :
  rv ∈ revisions → wf c → (rv = r0001 → "vector" ∉ extensions c) →
  run_ops (upgrade rv) c = Ok c' → run_ops (downgrade rv) c' = Ok c.
Proof.
  intros Hin Hwf Hv. unfold revisions in Hin. repeat setoid_rewrite elem_of_cons in Hin.
  destruct Hin as [->|[->|[->|[->|[]%elem_of_nil]]]].
  - apply restores_0001; auto.
  - by apply restores_plain.
  - by apply restores_plain.
  - by apply restores_0004.
Qed.

Lemma upgrade_forward rv : rv ∈ revisions → forallb forward (upgrade rv) = true.
Proof.
  unfold revisions. rewrite !elem_of_cons. by intros [->|[->|[->|[->|[]%elem_of_nil]]]].
Qed.

Lemma upgrade_extensions rv :
  rv ∈ revisions → rv ≠ r0001 → forallb keeps_extensions (upgrade rv) = true.
Proof.
  unfold revisions. rewrite !elem_of_cons. by intros [->|[->|[->|[->|[]%elem_of_nil]]]].
Qed.

(** C32. Every downgrade restores what its upgrade started from.  Take any of the
    revisions in order, on any catalog in which nothing dangles, with whatever
    tables, rows and indexes of others it holds: when their upgrades go through,
    their downgrades in reverse go through and give back the same catalog, row
    for row.  The one other condition is that [vector] was not installed before
    0001 ran. *)
Theorem downgrades_restore (l : list Revision) (c c' : Catalog) :
  l ⊆ revisions → NoDup l → wf c → (r0001 ∈ l → "vector" ∉ extensions c) →
  run_ops (upgrades l) c = Ok c' → run_ops (downgrades l) c' = Ok c.
Proof.
  revert c. unfold upgrades, downgrades. induction l as [|rv l IH]; intros c Hsub Hnd Hwf Hv H.
  { cbn in H. by injection H as <-. }
  apply list.NoDup_cons in Hnd as [Hnew Hnd].
  assert (rv ∈ revisions) as Hin by (apply Hsub; left).
  rewrite bind_cons, run_ops_app in H. apply rbind_Ok in H as (c1 & H1 & H2).
  assert (wf c1) as Hwf1 by (by eapply run_ops_wf; [apply upgrade_forward|..]).
  rewrite reverse_cons, bind_app, run_ops_app, (IH c1); [|by intros x Hx; apply Hsub; right|done|done| |done].
  - cbn [rbind]. rewrite bind_cons, app_nil_r. apply restores; [done|done| |done].
    intros ->. apply Hv. left.
  - intros Hl. rewrite (run_ops_extensions (upgrade rv) c c1); [apply Hv; by right| |done].
    apply upgrade_extensions; [done|]. by intros ->.
Qed.

(** *** Without that condition the downgrade takes the extension of others *)
Definition with_vector : Catalog := mkCatalog {["vector"]} ∅ ∅ ∅ ∅.

Theorem downgrade_drops_foreign_extension :
  ∃ c', run_ops (upgrades revisions) with_vector = Ok c' ∧
        run_ops (downgrades revisions) c' = Ok empty_catalog.
Proof.
  exists (outcome (run_ops (upgrades revisions) with_vector)). split.
  - apply outcome_ok. vm_compute. reflexivity.
  - vm_cast_no_check (eq_refl (@Ok exn Catalog empty_catalog)).
Qed.

(** ** The schema at head *)

(** The rows of [Database] as rows of the catalog. *)
Definition row_of (l : list (string * option value)) : row :=
  foldr (λ kv m, match kv.2 with Some v => <[kv.1 := v]> m | None => m end) ∅ l.

Definition event_cells (r : EventRow) : list (string * option value) :=
  [("source", Some (VText (er_source r)));
   ("fingerprint", VText <$> er_fingerprint r);
   ("received_at", Some (VTime (er_received_at r)));
   ("dedupe_count", Some (VInt (er_dedupe_count r)));
   ("quarantined", Some (VBool (er_quarantined r)));
   ("quarantine_reason", VText <$> er_quarantine_reason r);
   ("payload", VJson <$> er_payload r);
   ("window_closed_at", VTime <$> er_window_closed_at r);
   ("queued_at", VTime <$> er_queued_at r);
   ("queue_message_id", VText <$> er_queue_message_id r)].

Definition run_cells (r : RunRow) : list (string * option value) :=
  [("fingerprint", Some (VText (rn_fingerprint r)));
   ("status", Some (VText (rn_status r)));
   ("started_at", Some (VTime (rn_started_at r)));
   ("audit_log_file", Some (VText (rn_audit_log_file r)));
   ("audit_start_offset", Some (VInt (rn_audit_start_offset r)));
   ("audit_end_offset", VInt <$> rn_audit_end_offset r);
   ("event_id", VUuid <$> rn_event_id r);
   ("conclusion", VJson <$> rn_conclusion r);
   ("finished_at", VTime <$> rn_finished_at r)].

Definition ticket_cells (r : TicketRow) : list (string * option value) :=
  [("fingerprint", Some (VText (tk_fingerprint r)));
   ("provider", Some (VText (tk_provider r)));
   ("external_id", Some (VText (tk_external_id r)));
   ("url", VText <$> tk_url r);
   ("created_at", Some (VTime (tk_created_at r)));
   ("closed_at", VTime <$> tk_closed_at r);
   ("update_count", Some (VInt (tk_update_count r)))].

Definition action_cells (r : ActionRow) : list (string * option value) :=
  [("fingerprint", Some (VText (ta_fingerprint r)));
   ("ticket_id", Some (VUuid (ta_ticket_id r)));
   ("external_id", Some (VText (ta_external_id r)));
   ("created", Some (VBool (ta_created r)));
   ("update_count", Some (VInt (ta_update_count r)));
   ("applied_at", Some (VTime (ta_applied_at r)))].

(** The four tables at head, with their columns in the order they were added. *)
Definition events_table (rows : gmap uuid row) : Table :=
  mkTable
    [primary "id"; column "source" Text false; column "fingerprint" Text true;
     column "received_at" Timestamptz false; defaulted "dedupe_count" Integer (VInt 1);
     defaulted "quarantined" Boolean (VBool false); column "quarantine_reason" Text true;
     column "payload" Jsonb true; column "window_closed_at" Timestamptz true;
     column "queued_at" Timestamptz true; column "queue_message_id" Text true]
    [("events_source_known", events_source_check);
     ("events_quarantine_invariant", events_quarantine_check);
     ("events_queue_state_paired", queue_state_check)] rows.

Definition runs_table (rows : gmap uuid row) : Table :=
  mkTable
    [primary "run_id"; column "fingerprint" Text false; column "status" Text false;
     column "started_at" Timestamptz false; column "audit_log_file" Text false;
     column "audit_start_offset" BigInteger false; column "audit_end_offset" BigInteger true;
     column "event_id" Uuid true; column "conclusion" Jsonb true;
     column "finished_at" Timestamptz true]
    [("runs_audit_offsets_ordered", runs_offsets_check);
     ("runs_status_known", runs_status_check);
     ("runs_concluded_has_conclusion", runs_concluded_check)] rows.

Definition tickets_table (rows : gmap uuid row) : Table :=
  mkTable
    [primary "id"; column "fingerprint" Text false; column "provider" Text false;
     column "external_id" Text false; column "url" Text true;
     column "created_at" Timestamptz false; column "closed_at" Timestamptz true;
     defaulted "update_count" Integer (VInt 0)] [] rows.

Definition actions_table (rows : gmap uuid row) : Table :=
  mkTable
    [mkColumn "run_id" Uuid true false None (Some ("runs", "run_id"));
     column "fingerprint" Text false;
     mkColumn "ticket_id" Uuid false false None (Some ("tickets", "id"));
     column "external_id" Text false; column "created" Boolean false;
     column "update_count" Integer false; column "applied_at" Timestamptz false] [] rows.

Definition open_ticket_index : Index :=
  mkIndex "tickets" ["fingerprint"] true (Some open_ticket_where).

Definition head_indexes : gmap string Index :=
  {["ix_events_fingerprint_received_at" := mkIndex "events" ["fingerprint"; "received_at"] false None;
    "ix_runs_fingerprint" := mkIndex "runs" ["fingerprint"] false None;
    "ix_events_open_window" :=
      mkIndex "events" ["fingerprint"; "received_at"] false (Some open_window_where);
    "uq_tickets_open_fingerprint" := open_ticket_index;
    "ix_events_pending_queue" := mkIndex "events" ["received_at"] false (Some pending_where)]}.

(** The database at head, holding the rows of [d]. *)
Definition at_head (d : DB) : Catalog :=
  mkCatalog {["vector"]}
    {["events" := events_table ((λ r, row_of (event_cells r)) <$> events d);
      "runs" := runs_table ((λ r, row_of (run_cells r)) <$> runs d);
      "tickets" := tickets_table ((λ r, row_of (ticket_cells r)) <$> tickets d);
      "ticket_actions" := actions_table ((λ r, row_of (action_cells r)) <$> ticket_actions d)]}
    head_indexes
    {["smokejumper_close_ticket_on_window" := CloseTicketOnWindow]}
    {[("events", "events_close_ticket_on_window") :=
        mkTrigger ["window_closed_at"] "smokejumper_close_ticket_on_window"]}.

(** The upgrades build it, empty. *)
Lemma upgraded_is_head : run_ops (upgrades revisions) empty_catalog = Ok (at_head empty_db).
Proof. vm_cast_no_check (eq_refl (@Ok exn Catalog (at_head empty_db))). Qed.

Fixpoint cell_of (x : string) (l : list (string * option value)) : option value :=
  match l with
  | [] => None
  | (k, v) :: l =>
      if String.eqb x k then match v with Some v => Some v | None => cell_of x l end
      else cell_of x l
  end.

Lemma lookup_row_of l x : row_of l !! x = cell_of x l.
Proof.
  induction l as [|[k v] l IH]; cbn; [apply lookup_empty|].
  destruct (String.eqb_spec x k) as [->|Hne].
  - destruct v; [apply lookup_insert_eq|done].
  - destruct v; [by rewrite lookup_insert_ne|done].
Qed.

(** Evaluates the constraints of a table on the cells of a row. *)
Ltac on_cells :=
  unfold row_ok, passes, cell_ok; cbn -[lookup row_of int4 int8 jsonb_ok existsb];
  rewrite !lookup_row_of; cbn -[int4 int8 jsonb_ok existsb Z.leb].

Lemma event_row_ok rows r : row_ok (events_table rows) (row_of (event_cells r)) = is_ok (event_check r).
Proof.
  on_cells. unfold event_check, events_source_known, events_quarantine_invariant,
    events_queue_state_paired.
  destruct (existsb _ _); destruct (int4 (er_dedupe_count r));
    destruct r as [src fp rc dc q qr pl wc qa qm]; cbn -[jsonb_ok];
    destruct q, fp, qr, pl as [pl|], qa, qm, wc; cbn -[jsonb_ok]; try destruct (jsonb_ok pl); done.
Qed.

Lemma run_row_ok rows r : row_ok (runs_table rows) (row_of (run_cells r)) = is_ok (run_check r).
Proof.
  on_cells. unfold run_check, runs_status_known, runs_concluded_has_conclusion,
    runs_audit_offsets_ordered.
  destruct r as [fp st t file off endo ev co fin]. cbn -[int8 jsonb_ok existsb Z.leb].
  destruct (existsb _ _), (int8 off), (String.eqb st "concluded"); destruct endo as [e|], ev, co as [j|], fin;
    cbn -[int8 jsonb_ok Z.leb]; try destruct (int8 e); try destruct (off <=? e);
    try destruct (jsonb_ok j); done.
Qed.

Lemma ticket_row_ok rows r : row_ok (tickets_table rows) (row_of (ticket_cells r)) = is_ok (ticket_check r).
Proof.
  on_cells. unfold ticket_check. destruct (int4 _), (tk_url r), (tk_closed_at r); done.
Qed.

Lemma action_row_ok rows r :
  row_ok (actions_table rows) (row_of (action_cells r)) = int4 (ta_update_count r).
Proof. on_cells. by rewrite !andb_true_r. Qed.

Lemma is_none_true {A} (o : option A) : is_none o = true ↔ o = None.
Proof. by destruct o. Qed.

Lemma is_ok_unit {E} (m : result E ()) : is_ok m = true ↔ m = Ok ().
Proof. destruct m as [[]|]; naive_solver. Qed.

(** The four tables, and nothing else. *)
Lemma at_head_tables d t tb :
  tables (at_head d) !! t = Some tb ↔
  (t = "events" ∧ tb = events_table ((λ r, row_of (event_cells r)) <$> events d)) ∨
  (t = "runs" ∧ tb = runs_table ((λ r, row_of (run_cells r)) <$> runs d)) ∨
  (t = "tickets" ∧ tb = tickets_table ((λ r, row_of (ticket_cells r)) <$> tickets d)) ∨
  (t = "ticket_actions" ∧ tb = actions_table ((λ r, row_of (action_cells r)) <$> ticket_actions d)).
Proof.
  unfold at_head. cbn [tables]. rewrite !lookup_insert_Some, lookup_singleton_Some. split.
  - intros [[<- <-]|[_ [[<- <-]|[_ [[<- <-]|[_ [<- <-]]]]]]];
      [left|right; left|right; right; left|right; right; right]; done.
  - intros [[-> ->]|[[-> ->]|[[-> ->]|[-> ->]]]]; [by left|right; split; [done|]..].
    + by left.
    + right. split; [done|]. by left.
    + right. split; [done|]. by right.
Qed.

Lemma at_head_rows d :
  rows_of (at_head d) "runs" = (λ r, row_of (run_cells r)) <$> runs d ∧
  rows_of (at_head d) "tickets" = (λ r, row_of (ticket_cells r)) <$> tickets d.
Proof. done. Qed.

Lemma action_refs_ok d k r :
  Forall (λ col, fk_ok (at_head d) k (row_of (action_cells r)) col = true)
    (t_columns (actions_table ∅)) ↔
  is_Some (runs d !! k) ∧ is_Some (tickets d !! ta_ticket_id r).
Proof.
  cbn [t_columns actions_table]. rewrite !list.Forall_cons. unfold fk_ok, column. cbn [c_ref c_pk cell].
  destruct (at_head_rows d) as [-> ->]. unfold cell. cbn [c_pk c_name]. rewrite !lookup_row_of.
  cbn [cell_of action_cells String.eqb Ascii.eqb Bool.eqb]. rewrite !bool_decide_eq_true, !lookup_fmap, !fmap_is_Some.
  rewrite list.Forall_nil. tauto.
Qed.

Lemma open_index_key r :
  indexed open_ticket_index (row_of (ticket_cells r)) = is_none (tk_closed_at r) ∧
  index_key open_ticket_index (row_of (ticket_cells r)) = Some [VText (tk_fingerprint r)].
Proof.
  unfold indexed, selects, index_key. cbn -[lookup row_of]. rewrite !lookup_row_of. cbn.
  by destruct (tk_closed_at r).
Qed.

Lemma unique_open_tickets m :
  unique_in open_ticket_index ((λ r, row_of (ticket_cells r)) <$> m) ↔ one_open_ticket m.
Proof.
  unfold unique_in, one_open_ticket. split.
  - intros Hu i j r s Hi Hj Hr Hs Hf. destruct (open_index_key r) as [Ir Kr], (open_index_key s) as [Is Ks].
    assert (∀ n x, m !! n = Some x →
      ((λ r, row_of (ticket_cells r)) <$> m) !! n = Some (row_of (ticket_cells x))) as Hm.
    { intros n x Hn. by rewrite lookup_fmap, Hn. }
    apply (Hu i _ (Hm i r Hi) j _ (Hm j s Hj)).
    + by rewrite Ir, Hr.
    + by rewrite Is, Hs.
    + rewrite Kr. by eexists.
    + by rewrite Kr, Ks, Hf.
  - intros Ho i x (r & <- & Hi)%lookup_fmap_Some j y (s & <- & Hj)%lookup_fmap_Some.
    cbv beta. destruct (open_index_key r) as [-> ->], (open_index_key s) as [-> ->].
    intros Hr Hs _ [= Hf]. apply (Ho i j r s); try done; by apply is_none_true.
Qed.

Lemma rows_exact d :
  (∀ t tb k r, tables (at_head d) !! t = Some tb → t_rows tb !! k = Some r → row_ok tb r = true) ↔
  (∀ i r, events d !! i = Some r → event_check r = Ok ()) ∧
  (∀ i r, runs d !! i = Some r → run_check r = Ok ()) ∧
  (∀ i r, tickets d !! i = Some r → ticket_check r = Ok ()) ∧
  (∀ i r, ticket_actions d !! i = Some r → int4 (ta_update_count r) = true).
Proof.
  split.
  - intros H. repeat split; intros i r Hi.
    + apply is_ok_unit. etrans; [symmetry; apply event_row_ok|].
      eapply (H "events"); [apply at_head_tables; by left|]. cbn. by rewrite lookup_fmap, Hi.
    + apply is_ok_unit. etrans; [symmetry; apply run_row_ok|].
      eapply (H "runs"); [apply at_head_tables; by auto|]. cbn. by rewrite lookup_fmap, Hi.
    + apply is_ok_unit. etrans; [symmetry; apply ticket_row_ok|].
      eapply (H "tickets"); [apply at_head_tables; by auto|]. cbn. by rewrite lookup_fmap, Hi.
    + etrans; [symmetry; apply action_row_ok|].
      eapply (H "ticket_actions"); [apply at_head_tables; by auto|]. cbn. by rewrite lookup_fmap, Hi.
  - intros (He & Hr & Ht & Ha) t tb k x [[-> ->]|[[-> ->]|[[-> ->]|[-> ->]]]]%at_head_tables;
      cbn [t_rows events_table runs_table tickets_table actions_table];
      intros (r & <- & Hk)%lookup_fmap_Some.
    + rewrite event_row_ok, is_ok_unit. by eapply He.
    + rewrite run_row_ok, is_ok_unit. by eapply Hr.
    + rewrite ticket_row_ok, is_ok_unit. by eapply Ht.
    + rewrite action_row_ok. by eapply Ha.
Qed.

Lemma refs_exact d :
  (∀ t tb k r col, tables (at_head d) !! t = Some tb → t_rows tb !! k = Some r →
     col ∈ t_columns tb → fk_ok (at_head d) k r col = true) ↔
  (∀ i r, ticket_actions d !! i = Some r → is_Some (runs d !! i) ∧ is_Some (tickets d !! ta_ticket_id r)).
Proof.
  split.
  - intros H i r Hi. apply action_refs_ok. apply list.Forall_forall. intros col Hc.
    eapply (H "ticket_actions"); [apply at_head_tables; by auto| |exact Hc].
    cbn. by rewrite lookup_fmap, Hi.
  - intros H t tb k x col [[-> ->]|[[-> ->]|[[-> ->]|[-> ->]]]]%at_head_tables;
      cbn [t_rows t_columns events_table runs_table tickets_table actions_table];
      intros (r & <- & Hk)%lookup_fmap_Some Hc.
    1-3: unfold fk_ok; replace (c_ref col) with (@None (string * string)); [done|];
      by repeat (apply elem_of_cons in Hc as [->|Hc]; [done|]); apply elem_of_nil in Hc.
    specialize (H k r Hk). apply action_refs_ok in H. rewrite list.Forall_forall in H. by apply H.
Qed.

Lemma uniques_exact d :
  (∀ n ix, indexes (at_head d) !! n = Some ix → ix_unique ix = true →
     unique_in ix (rows_of (at_head d) (ix_table ix))) ↔ one_open_ticket (tickets d).
Proof.
  destruct (at_head_rows d) as [_ Hrows]. split.
  - intros H. apply unique_open_tickets. rewrite <-Hrows.
    by apply (H "uq_tickets_open_fingerprint" open_ticket_index).
  - intros Ho n ix Hix Hu. assert (ix = open_ticket_index) as ->.
    { unfold at_head, head_indexes in Hix. cbn [indexes] in Hix.
      rewrite !lookup_insert_Some, lookup_singleton_Some in Hix.
      destruct Hix as [[_ <-]|[_ [[_ <-]|[_ [[_ <-]|[_ [[_ <-]|[_ [_ <-]]]]]]]]]; done. }
    cbn [ix_table open_ticket_index]. rewrite Hrows. by apply unique_open_tickets.
Qed.

(** C30. The migrated schema enforces exactly what [Database] assumes: rows are
    well-formed there when, put into the tables the four upgrades build on an
    empty database, they satisfy every type and width, NOT NULL, CHECK, foreign
    key and unique index of those tables. *)
Theorem schema_exact (d : DB) :
  run_ops (upgrades revisions) empty_catalog = Ok (at_head empty_db) ∧
  (db_ok d ↔ catalog_ok (at_head d)).
Proof.
  split; [exact upgraded_is_head|]. split.
  - intros [He Hr Ht Ha Ho Har Hat]. constructor.
    + by apply rows_exact.
    + apply refs_exact. intros i r Hi. split; [by eapply Har|by eapply Hat].
    + by apply uniques_exact.
  - intros [Hrow Href Hun]. apply rows_exact in Hrow as (He & Hr & Ht & Ha).
    pose proof (proj1 (refs_exact d) Href) as Hboth. apply uniques_exact in Hun.
    constructor; try done; intros i r Hi; by apply (Hboth i r Hi).
Qed.

(** ** The upgrade to the outbox *)

Definition events_columns_0003 : list Column := take 9 (t_columns (events_table ∅)).
Definition events_checks_0003 : list (string * expr) := take 2 (t_checks (events_table ∅)).

Definition other_tables (d : DB) : gmap string Table :=
  {["runs" := runs_table ((λ r, row_of (run_cells r)) <$> runs d);
    "tickets" := tickets_table ((λ r, row_of (ticket_cells r)) <$> tickets d)]}.

Definition event_rows (d : DB) : gmap uuid row := (λ r, row_of (event_cells r)) <$> events d.

(** The database at revision 0003, holding the rows of [d]. *)
Definition at_0003 (d : DB) : Catalog :=
  mkCatalog {["vector"]}
    (<["events" := mkTable events_columns_0003 events_checks_0003 (event_rows d)]> (other_tables d))
    (delete "ix_events_pending_queue" head_indexes) ∅ ∅.

Lemma upgraded_to_0003 : run_ops (upgrades [r0001; r0002; r0003]) empty_catalog = Ok (at_0003 empty_db).
Proof. vm_cast_no_check (eq_refl (@Ok exn Catalog (at_0003 empty_db))). Qed.

(** What the UPDATE of 0004 makes of a row. *)
Definition mark_legacy (r : EventRow) : EventRow :=
  if er_quarantined r then r
  else mkEventRow (er_source r) (er_fingerprint r) (er_received_at r) (er_dedupe_count r)
         (er_quarantined r) (er_quarantine_reason r) (er_payload r) (er_window_closed_at r)
         (Some (er_received_at r)) (Some "legacy-before-0004").

(** A row that was never offered to the outbox. *)
Definition unqueued (r : EventRow) : Prop := er_queued_at r = None ∧ er_queue_message_id r = None.

Lemma mark_legacy_cells r :
  unqueued r →
  updated legacy_sets legacy_where (row_of (event_cells r)) = row_of (event_cells (mark_legacy r)).
Proof.
  intros [Hq Hm]. unfold updated.
  assert (selects legacy_where (row_of (event_cells r)) = negb (er_quarantined r)) as ->.
  { unfold selects. cbn -[lookup row_of]. rewrite lookup_row_of. cbn. by destruct (er_quarantined r). }
  unfold mark_legacy. destruct (er_quarantined r) eqn:Equ; [done|].
  cbn [negb foldr legacy_sets]. unfold assign. cbn [fst snd eval]. rewrite lookup_row_of.
  change (cell_of "received_at" (event_cells r)) with (Some (VTime (er_received_at r))). cbn [from_option].
  apply map_eq. intros x. destruct (decide (x = "queued_at")) as [->|H1].
  { by rewrite lookup_insert_eq, lookup_row_of. }
  rewrite lookup_insert_ne by done. destruct (decide (x = "queue_message_id")) as [->|H2].
  { by rewrite lookup_insert_eq, lookup_row_of. }
  rewrite lookup_insert_ne by done. rewrite !lookup_row_of. cbn. rewrite Hq, Hm.
  apply String.eqb_neq in H1, H2. by rewrite Equ, H1, H2.
Qed.

Lemma mark_legacy_check r : unqueued r → event_check r = Ok () → event_check (mark_legacy r) = Ok ().
Proof.
  intros [Hq Hm]. unfold mark_legacy. destruct (er_quarantined r) eqn:E; [done|].
  unfold event_check, events_source_known, events_quarantine_invariant, events_queue_state_paired.
  cbn. by rewrite Hq, Hm, E.
Qed.

Lemma add_event_column T m ex ixs fns tgs name t :
  name ∉ column_names T → (∀ k r, t_rows T !! k = Some r → r !! name = None) →
  run_op (AddColumn "events" (column name t true)) (mkCatalog ex (<["events" := T]> m) ixs fns tgs) =
  Ok (mkCatalog ex (<["events" := mkTable (t_columns T ++ [column name t true]) (t_checks T) (t_rows T)]> m)
        ixs fns tgs).
Proof.
  intros Hn Hrows. cbn [run_op]. rewrite (rbind_get_table _ _ T) by apply lookup_insert_eq.
  rewrite rbind_require by done. rewrite rbind_require by done.
  assert (with_default (column name t true) <$> t_rows T = t_rows T) as He by apply map_fmap_id.
  rewrite rbind_require.
  2: { unfold add_column. cbn [t_rows]. rewrite He. intros k r Hk. split; [|done].
       unfold cell_ok. cbn. by rewrite (Hrows k r Hk). }
  unfold set_table, add_column. cbn [tables extensions indexes functions triggers]. rewrite He.
  by rewrite insert_insert_eq.
Qed.

(** The events table of 0003 with the columns of 0004 added. *)
Definition events_0004 (checks : list (string * expr)) (rows : gmap uuid row) : Table :=
  mkTable (t_columns (events_table ∅)) checks rows.

Definition marked (d : DB) : DB := set_events (mark_legacy <$> events d) d.

Lemma event_rows_marked d :
  (∀ i r, events d !! i = Some r → unqueued r) →
  updated legacy_sets legacy_where <$> event_rows d = event_rows (marked d).
Proof.
  intros Hq. unfold event_rows, marked. cbn [events set_events]. rewrite <-!map_fmap_compose.
  apply map_fmap_ext. intros i r Hi. cbn. apply mark_legacy_cells. by eapply Hq.
Qed.

Lemma marked_rows_ok d checks :
  (∀ i r, events d !! i = Some r → unqueued r ∧ event_check r = Ok ()) →
  checks ⊆ t_checks (events_table ∅) →
  ∀ k x, event_rows (marked d) !! k = Some x →
    row_ok (events_0004 checks (event_rows (marked d))) x = true ∧
    (∀ ck, ck ∈ t_checks (events_table ∅) → passes ck.2 x = true).
Proof.
  intros Hd Hsub k x (r & <- & (r0 & <- & Hi)%lookup_fmap_Some)%lookup_fmap_Some.
  destruct (Hd k r0 Hi) as [Hq Hc]. pose proof (mark_legacy_check r0 Hq Hc) as Hc'.
  apply is_ok_unit in Hc'. rewrite <-(event_row_ok ∅) in Hc'. unfold row_ok in *.
  apply andb_prop in Hc' as [Hcols Hchecks]. rewrite forallb_forall in Hchecks.
  assert (∀ ck, ck ∈ t_checks (events_table ∅) → passes ck.2 (row_of (event_cells (mark_legacy r0))) = true)
    as Hall by (intros ck Hck; by apply Hchecks, list_elem_of_In).
  split; [|exact Hall]. cbn [t_columns t_checks events_0004]. apply andb_true_intro. split; [exact Hcols|].
  apply forallb_forall. intros ck Hck%list_elem_of_In. by apply Hall, Hsub.
Qed.

Lemma events_no_refs : Forall (λ col, c_ref col = None) (t_columns (events_table ∅)).
Proof. repeat constructor. Qed.

(** The first four statements, which change the events table. *)
Lemma upgrade_0004_events d :
  (∀ i r, events d !! i = Some r → unqueued r ∧ event_check r = Ok ()) →
  run_ops (take 4 upgrade_0004) (at_0003 d) =
  Ok (mkCatalog {["vector"]}
        (<["events" := events_table (event_rows (marked d))]> (other_tables d))
        (delete "ix_events_pending_queue" head_indexes) ∅ ∅).
Proof.
  intros Hd. unfold at_0003. cbn [take upgrade_0004 run_ops].
  assert (Hno : ∀ x k r, x = "queued_at" ∨ x = "queue_message_id" → event_rows d !! k = Some r → r !! x = None).
  { intros x k r Hx (r0 & <- & Hi)%lookup_fmap_Some. destruct (Hd k r0 Hi) as [[Hq Hm] _].
    rewrite lookup_row_of. destruct Hx as [-> | ->]; cbn; by rewrite ?Hq, ?Hm. }
  rewrite add_event_column; [|by vm_compute; set_solver|intros k r; by apply Hno; left]. cbn [rbind].
  rewrite add_event_column; [|by vm_compute; set_solver|intros k r; by apply Hno; right]. cbn [rbind].
  cbn [run_op t_rows t_columns t_checks]. rewrite (rbind_get_table _ _ (events_0004 events_checks_0003 (event_rows d)))
    by apply lookup_insert_eq.
  rewrite rbind_require by (vm_compute; set_solver).
  cbn [t_rows t_columns t_checks events_0004]. rewrite event_rows_marked by (intros i r Hi; by eapply Hd).
  assert (events_checks_0003 ⊆ t_checks (events_table ∅)) as Hsub by (vm_compute; set_solver).
  rewrite rbind_require.
  2: { intros k x Hx. split; [by eapply (marked_rows_ok d)|].
       pose proof events_no_refs as Hn. rewrite list.Forall_forall in Hn. apply list.Forall_forall.
       intros col Hc. unfold fk_ok. by rewrite (Hn col Hc). }
  unfold set_table. cbn [tables extensions indexes functions triggers rbind]. rewrite insert_insert_eq.
  rewrite (rbind_get_table _ _ (events_0004 events_checks_0003 (event_rows (marked d))))
    by apply lookup_insert_eq.
  rewrite rbind_require by (vm_compute; set_solver).
  rewrite rbind_require by (vm_compute; set_solver).
  rewrite rbind_require.
  2: { intros k x Hx. apply (proj2 (marked_rows_ok d _ Hd Hsub k x Hx) ("events_queue_state_paired", queue_state_check)).
       right. right. left. }
  cbn [tables extensions indexes functions triggers rbind]. by rewrite insert_insert_eq.
Qed.

(** C31. The upgrade to the outbox goes through on any well-formed data of revision
    0003 and replays nothing: every event that was there is marked as delivered
    when it was received, quarantined rows and all other tables are as they
    were, and no event awaits the queue. *)
Theorem legacy_events_not_replayed (d : DB) :
  (∀ i r, events d !! i = Some r → unqueued r ∧ event_check r = Ok ()) → ticket_actions d = ∅ →
  run_ops (upgrades [r0001; r0002; r0003]) empty_catalog = Ok (at_0003 empty_db) ∧
  run_ops upgrade_0004 (at_0003 d) = Ok (at_head (marked d)) ∧
  (∀ i r, events (marked d) !! i = Some r → ¬ awaiting_queue r).
Proof.
  intros Hd Ha. split; [exact upgraded_to_0003|]. split.
  - change upgrade_0004 with (take 4 upgrade_0004 ++ drop 4 upgrade_0004).
    rewrite run_ops_app, upgrade_0004_events by done. cbn [rbind].
    unfold at_head, marked. cbn [events runs tickets ticket_actions set_events]. rewrite Ha.
    reflexivity.
  - intros i r (r0 & <- & Hi)%lookup_fmap_Some. unfold mark_legacy, awaiting_queue.
    destruct (er_quarantined r0) eqn:E; [intros [Hq _]; congruence|]. by intros [_ ?].
Qed.

(** A run of the migrations is all or nothing: it needs the URL, and when a
    statement of the plan fails nothing of the plan stays. *)
Theorem run_migrations_atomic connect plan os c :
  match run_migrations connect plan os c with
  | (Ok _, c') => is_ok (database_url os) = true ∧ run_ops (plan c) c = Ok c'
  | (Raise _, c') => c' = c
  end.
Proof.
  unfold run_migrations. destruct (database_url os) as [url|]; [|done].
  destruct (connect url); [|done]. by destruct (run_ops (plan c) c).
Qed.

(** ** Witnesses *)

(** A database that holds a table of others, with a row. *)
Definition host_catalog : Catalog :=
  mkCatalog ∅
    {["checkpoints" := mkTable [primary "id"; column "state" Text true] []
        {[1%N := {["state" := VText "saved"]}]}]} ∅ ∅ ∅.

Lemma host_catalog_wf : wf host_catalog.
Proof.
  constructor; unfold host_catalog; cbn [tables indexes triggers].
  - intros t tb k r x [<- <-]%lookup_singleton_Some Hr [v Hv]. cbn [t_rows] in Hr.
    apply lookup_singleton_Some in Hr as [<- <-].
    apply lookup_singleton_Some in Hv as [<- _]. right. left.
  - intros t tb ck [<- <-]%lookup_singleton_Some Hck. by apply elem_of_nil in Hck.
  - intros t tb col [<- <-]%lookup_singleton_Some Hc. cbn in Hc.
    repeat (apply elem_of_cons in Hc as [->|Hc]; [done|]). by apply elem_of_nil in Hc.
  - intros n ix Hix. by rewrite lookup_empty in Hix.
  - intros kt tg Htg. by rewrite lookup_empty in Htg.
Qed.

Lemma revisions_NoDup : NoDup revisions.
Proof. apply (NoDup_fmap_1 revision). apply (bool_decide_unpack _). vm_compute. exact I. Qed.

Lemma downgrades_restore_witness :
  let c' := outcome (run_ops (upgrades revisions) host_catalog) in
  size (tables c') = 5%nat ∧ run_ops (downgrades revisions) c' = Ok host_catalog.
Proof.
  intros c'. split; [vm_compute; reflexivity|].
  apply (downgrades_restore revisions host_catalog c').
  - intros x Hx. exact Hx.
  - exact revisions_NoDup.
  - exact host_catalog_wf.
  - intros _. apply not_elem_of_empty.
  - apply outcome_ok. vm_compute. reflexivity.
Defined.

#[local] Existing Instance strict_pydantic.

(** One event admitted before the outbox. *)
Definition legacy_db : DB := set_events {[7%N := admitted_row sample_event]} empty_db.

Lemma legacy_events_not_replayed_witness :
  size (events legacy_db) = 1%nat ∧
  run_ops upgrade_0004 (at_0003 legacy_db) = Ok (at_head (marked legacy_db)) ∧
  (∀ i r, events (marked legacy_db) !! i = Some r → ¬ awaiting_queue r).
Proof.
  split; [reflexivity|]. refine (proj2 (legacy_events_not_replayed legacy_db _ eq_refl)).
  intros i r Hr. unfold legacy_db in Hr. cbn [events set_events] in Hr.
  apply lookup_singleton_Some in Hr as [_ <-]. split; [split; reflexivity|vm_compute; reflexivity].
Defined.
