(* ===== verification/Inbound.v ===== *)
(** * B1 VerifiedInbound (contracts/inbound.py)

    The raw body travels as base64 in JSON.  Encoding works on groups of three
    bytes, decoding is [base64.b64decode(value, validate=True)]: four characters
    of the alphabet at a time, padding only at the end. *)

From Stdlib Require Import Ascii.
From S2P Require Import Prelude PyStr Json PyTime Contracts Wire.

Open Scope N_scope.

(** ** Base64 *)

(** The character of a value below 64. *)
Definition b64_char (n : N) : ascii :=
  ascii_of_N (if n <? 26 then n + 65 else if n <? 52 then n + 71 else if n <? 62 then n - 4
              else if n =? 62 then 43 else 47).

Definition b64_val (a : ascii) : option N :=
  let n := byte_val a in
  if (65 <=? n) && (n <=? 90) then Some (n - 65)
  else if (97 <=? n) && (n <=? 122) then Some (n - 71)
  else if (48 <=? n) && (n <=? 57) then Some (n + 4)
  else if n =? 43 then Some 62 else if n =? 47 then Some 63 else None.

Definition pad : ascii := "="%char.

(** [base64.b64encode(raw).decode("ascii")] *)
Fixpoint b64encode (s : string) : string :=
  match s with
  | EmptyString => EmptyString
  | String a EmptyString =>
      let x := byte_val a in
      String (b64_char (x / 4)) (String (b64_char (x mod 4 * 16)) (String pad (String pad EmptyString)))
  | String a (String b EmptyString) =>
      let x := byte_val a in let y := byte_val b in
      String (b64_char (x / 4)) (String (b64_char (x mod 4 * 16 + y / 16))
        (String (b64_char (y mod 16 * 4)) (String pad EmptyString)))
  | String a (String b (String c r)) =>
      let x := byte_val a in let y := byte_val b in let z := byte_val c in
      String (b64_char (x / 4)) (String (b64_char (x mod 4 * 16 + y / 16))
        (String (b64_char (y mod 16 * 4 + z / 64)) (String (b64_char (z mod 64)) (b64encode r))))
  end.

(** [base64.b64decode(value, validate=True)]; [None] is a binascii.Error, which
    is a ValueError. *)
Fixpoint b64decode (s : string) : option string :=
  match s with
  | EmptyString => Some EmptyString
  | String a (String b (String c (String d r))) =>
      p ← b64_val a; q ← b64_val b;
      if decide (c = pad) then
        if decide (d = pad ∧ r = EmptyString)
        then Some (String (ascii_of_N (p * 4 + q / 16)) EmptyString) else None
      else
        t ← b64_val c;
        if decide (d = pad) then
          if decide (r = EmptyString)
          then Some (String (ascii_of_N (p * 4 + q / 16))
                       (String (ascii_of_N (q mod 16 * 16 + t / 4)) EmptyString)) else None
        else
          u ← b64_val d; rest ← b64decode r;
          Some (String (ascii_of_N (p * 4 + q / 16))
                  (String (ascii_of_N (q mod 16 * 16 + t / 4))
                     (String (ascii_of_N (t mod 4 * 64 + u)) rest)))
  | _ => None
  end.

Example b64_examples :
  b64encode <$> [""; "f"; "fo"; "foo"; "foob"; "fooba"; "foobar"] =
  [""; "Zg=="; "Zm8="; "Zm9v"; "Zm9vYg=="; "Zm9vYmE="; "Zm9vYmFy"] ∧
  b64decode <$> ["Zm9vYg=="; "Zm9vYg="; "Zm9v Yg=="; "Zg==Zg=="; "===="; "Zh=="] =
  [Some "foob"; None; None; None; None; Some "f"].
Proof. vm_compute. done. Qed.

(** ** Round trip *)

Lemma below_64_char n : n < 64 → b64_val (b64_char n) = Some n ∧ b64_char n ≠ pad.
Proof.
  intros Hn. assert (Forall (λ k, b64_val (b64_char k) = Some k ∧ b64_char k ≠ pad)
    (N.of_nat <$> seq 0 64)) as Hall by (apply (bool_decide_unpack _); vm_compute; exact I).
  rewrite list.Forall_forall in Hall. apply Hall. apply list_elem_of_fmap.
  exists (N.to_nat n). split; [lia|]. apply elem_of_seq. lia.
Qed.

Lemma b64_val_char n : n < 64 → b64_val (b64_char n) = Some n.
Proof. apply below_64_char. Qed.

Lemma byte_bound a : byte_val a < 256.
Proof. apply N_ascii_bounded. Qed.

Lemma div_bound x d k : x < 256 → 256 <= d * k → d ≠ 0 → x / d < k.
Proof. intros Hx Hk Hd. apply N.Div0.div_lt_upper_bound. lia. Qed.

(** Glues the two halves of a byte together. *)
Lemma join_byte a d : d ≠ 0 → byte_val a / d * d + byte_val a mod d = byte_val a.
Proof. intros Hd. rewrite (N.div_mod (byte_val a) d) at 3 by done. lia. Qed.

Lemma ascii_byte a : ascii_of_N (byte_val a) = a.
Proof. apply ascii_N_embedding. Qed.

(** High and low parts of a six-bit group that spans two bytes. *)
Lemma group_parts hi lo m : m ≠ 0 → lo < m → (hi * m + lo) / m = hi ∧ (hi * m + lo) mod m = lo.
Proof.
  intros Hm Hlo. split.
  - rewrite N.div_add_l, N.div_small by done. lia.
  - rewrite N.add_comm, N.Div0.mod_add. by apply N.mod_small.
Qed.

Lemma first_byte a lo : lo < 16 →
  byte_val a / 4 * 4 + (byte_val a mod 4 * 16 + lo) / 16 = byte_val a.
Proof.
  intros Hlo. rewrite (proj1 (group_parts _ lo 16 ltac:(lia) Hlo)). by apply join_byte.
Qed.

Lemma second_byte x b lo : lo < 4 →
  (x * 16 + byte_val b / 16) mod 16 * 16 + (byte_val b mod 16 * 4 + lo) / 4 = byte_val b.
Proof.
  intros Hlo. rewrite (proj1 (group_parts _ lo 4 ltac:(lia) Hlo)).
  rewrite (proj2 (group_parts x (byte_val b / 16) 16 ltac:(lia)
             (div_bound _ 16 16 (byte_bound b) ltac:(lia) ltac:(lia)))).
  by apply join_byte.
Qed.

Lemma third_byte y c :
  (y * 4 + byte_val c / 64) mod 4 * 64 + byte_val c mod 64 = byte_val c.
Proof.
  rewrite (proj2 (group_parts y (byte_val c / 64) 4 ltac:(lia)
             (div_bound _ 64 4 (byte_bound c) ltac:(lia) ltac:(lia)))).
  by apply join_byte.
Qed.

Lemma mod_bound x m : m ≠ 0 → x mod m < m.
Proof. apply N.mod_lt. Qed.

Lemma b64decode_encode s : b64decode (b64encode s) = Some s.
Proof.
  enough (∀ n s, (String.length s <= n)%nat → b64decode (b64encode s) = Some s) by eauto.
  clear s. induction n as [|n IH]; intros s Hn; [by destruct s; [|cbn in Hn; lia]|].
  pose proof (λ a d k, div_bound (byte_val a) d k (byte_bound a)) as Hdiv.
  pose proof (λ a m, mod_bound (byte_val a) m) as Hmod.
  destruct s as [|a [|b [|c r]]]; [done|..]; cbn [b64encode b64decode];
    pose proof (Hdiv a 4 64 ltac:(lia) ltac:(lia)); pose proof (Hmod a 4 ltac:(lia)).
  - rewrite !b64_val_char by lia. cbn [mbind option_bind].
    rewrite decide_True, decide_True by done. do 2 f_equal.
    rewrite <-(N.add_0_r (byte_val a mod 4 * 16)), first_byte by lia. apply ascii_byte.
  - pose proof (Hdiv b 16 16 ltac:(lia) ltac:(lia)). pose proof (Hmod b 16 ltac:(lia)).
    rewrite !b64_val_char by lia. cbn [mbind option_bind].
    rewrite decide_False by (apply below_64_char; lia). rewrite decide_True, decide_True by done.
    rewrite first_byte by lia.
    rewrite <-(N.add_0_r (byte_val b mod 16 * 4)), second_byte by lia. by rewrite !ascii_byte.
  - pose proof (Hdiv b 16 16 ltac:(lia) ltac:(lia)). pose proof (Hmod b 16 ltac:(lia)).
    pose proof (Hdiv c 64 4 ltac:(lia) ltac:(lia)). pose proof (Hmod c 64 ltac:(lia)).
    rewrite !b64_val_char by lia. cbn [mbind option_bind].
    rewrite !decide_False by (apply below_64_char; lia).
    rewrite IH by (cbn in Hn; lia). cbn [mbind option_bind].
    by rewrite first_byte, second_byte, third_byte, !ascii_byte by lia.
Qed.

(** ** The contract *)

Record VerifiedInbound := mkInbound {
  vi_version : Z;
  vi_source : EventSource;
  vi_headers : list (string * string);
  vi_body : string;
}.
#[export] Instance VerifiedInbound_contract : Contract VerifiedInbound := {|
  contract_name := "VerifiedInbound";
  schema_version := vi_version;
  fields_ok _ := true;
|}.

Section inbound.
Context `{!Pydantic}.

(** [model_dump(mode="json")] *)
Definition inbound_json (v : VerifiedInbound) : json :=
  JObj [("schema_version", JInt (vi_version v)); ("source", JStr (source_value (vi_source v)));
        ("headers", JObj ((λ kv, (kv.1, JStr kv.2)) <$> vi_headers v));
        ("body", JStr (b64encode (vi_body v)))].

(** [_decode_body], of what JSON can hold: text is decoded. *)
Definition decode_body_field (j : json) : option string :=
  match j with JStr s => b64decode s | _ => None end.

Definition header_of (kv : string * json) : option (string * string) :=
  v ← as_str kv.2; Some (kv.1, v).

Definition inbound_of_json (j : json) : option VerifiedInbound :=
  d ← as_dict j;
  ver ← version_field d;
  src ← dget "source" d ≫= as_enum source_of_value;
  hs ← with_default [] (λ h, hd ← as_dict h; mapM header_of hd) (dget "headers" d);
  body ← dget "body" d ≫= decode_body_field;
  if no_extra ["schema_version"; "source"; "headers"; "body"] d && (ver =? 1)%Z
  then Some (mkInbound ver src hs body) else None.

(** C25. A verified payload survives its JSON form byte for byte: reading back
    the dump of a B1 instance gives that instance, whatever bytes its body
    holds. *)
Theorem inbound_roundtrip v :
  valid v = true → inbound_of_json (inbound_json v) = Some v.
Proof.
  intros Hv. apply valid_version in Hv. destruct v as [ver src hs body]. cbn in Hv. subst ver.
  unfold inbound_of_json, inbound_json, version_field.
  cbn -[source_of_value source_value b64encode b64decode].
  rewrite lit_one_1. cbn -[source_of_value source_value b64encode b64decode].
  rewrite source_of_source_value. cbn -[b64encode b64decode].
  assert (mapM header_of ((λ kv, (kv.1, JStr kv.2)) <$> hs) = Some hs) as ->.
  { apply mapM_Some. induction hs as [|[k x] hs IH]; cbn; constructor; [|done].
    unfold header_of. cbn [fst snd]. by rewrite as_str_str. }
  cbn -[b64encode b64decode]. by rewrite b64decode_encode.
Qed.
End inbound.

Lemma inbound_roundtrip_witness :
  let v := mkInbound 1 DATADOG [("x-request-id", "7")] (String (ascii_of_N 255) "{}") in
  @inbound_of_json strict_pydantic (inbound_json v) = Some v.
Proof. intros v. apply inbound_roundtrip. reflexivity. Defined.
