(* ===== verification/Ports.v ===== *)
(** * The ports and their substitutes (ports/)

    Each protocol is a class: its operations on the state of an implementation.
    What the docstrings promise beyond the signatures is a predicate on the
    class, or a law where every implementation here keeps it.  The in-memory
    substitutes local development runs on are instances: each is a state with
    its operations.  [FixtureTicketing] is the one with bookkeeping: it
    implements the ticketing port, whose promise to its caller is the class
    [TicketingPort]. *)

From Stdlib Require Import Ascii.
From S2P Require Import Prelude PyStr Json JsonParse PyTime Contracts.

Open Scope Z_scope.

(** ** The protocols *)

(** auth.py.  Minting draws randomness, [random]. *)
Class AuthPort (S : Type) := {
  auth_verify_inbound : string → list (string * string) → string → S → bool;
  auth_mint : string → string → S → string * S;
  auth_consume : string → string → S → bool * S;
}.

(** channel.py: what [listen] yields until it is cancelled, and [send]. *)
Class ChannelAdapter (S : Type) := {
  channel_listen : S → list json;
  channel_send : string → string → option string → S → string * S;
}.

(** governance.py, tenancy.py *)
Class GovernancePort (S : Type) := { governance_identity : S → string }.
Class TenancyPort (S : Type) := { tenancy_tenant_id : S → string }.

(** memory.py: a written episode never overwrites another, so a search keeps
    finding what it found before, or more of it. *)
Class MemoryPort (S : Type) := {
  memory_search : list pyfloat → Z → option datetime → S → list json;
  memory_write : json → S → S;
}.

(** model.py: [embed] gives one vector per text, of the configured width. *)
Class ModelProvider (S : Type) := {
  model_dimension : S → nat;
  model_complete : string → string → string → S → result exn (string * S);
  model_embed : list string → S → list (list pyfloat);
  model_embed_law : ∀ texts s,
    length (model_embed texts s) = length texts ∧
    Forall (λ v, length v = model_dimension s) (model_embed texts s);
}.

(** platform.py *)
Class PlatformPort (S : Type) := {
  platform_query_assets : json → S → list json;
  platform_write_finding : json → S → S;
}.

(** ** Construction

    [_announce]: the line every substitute logs when it is made. *)
Definition announce (substitute port : string) : string :=
  "port substitute in use: " +:+ substitute +:+ " backs " +:+ port +:+ " and enforces nothing".

Definition announced {S} (substitute port : string) (s : S) (log : list string) : S * list string :=
  (s, log ++ [announce substitute port]).

(** ** Substitutes without bookkeeping *)

(** [AllowAll]; the minted token is [secrets.token_urlsafe(32)]. *)
Definition verify_inbound (source : string) (headers : list (string * string)) (body : string) :
    bool := true.
Definition mint_approval_token (token_urlsafe : string) (binding : string) : string := token_urlsafe.
Definition consume_approval_token (token binding : string) : bool := true.

Record AllowAll := mkAllowAll {}.
Definition AllowAll_init : list string → AllowAll * list string :=
  announced "AllowAll" "AuthPort" mkAllowAll.
#[export] Instance allow_all : AuthPort AllowAll := {|
  auth_verify_inbound source headers body _ := verify_inbound source headers body;
  auth_mint random binding s := (mint_approval_token random binding, s);
  auth_consume token binding s := (consume_approval_token token binding, s);
|}.

(** [NoopGovernance], [SingleTenant] *)
Definition identity : string := "noop".
Definition tenant_id : string := "default".

Record NoopGovernance := mkNoopGovernance {}.
Definition NoopGovernance_init : list string → NoopGovernance * list string :=
  announced "NoopGovernance" "GovernancePort" mkNoopGovernance.
#[export] Instance noop_governance : GovernancePort NoopGovernance :=
  {| governance_identity _ := identity |}.
Record SingleTenant := mkSingleTenant {}.
#[export] Instance single_tenant : TenancyPort SingleTenant := {| tenancy_tenant_id _ := tenant_id |}.

(** [RecordedModel]: the completions left. *)
Definition complete (role : string) (completions : list string) :
    result exn (string * list string) :=
  match completions with
  | [] => Raise (LookupError ("no recorded completion left for role '" +:+ role +:+ "'"))
  | c :: rest => Ok (c, rest)
  end.
Definition embed (embedding_dimension : nat) (texts : list string) : list (list pyfloat) :=
  (λ _, replicate embedding_dimension (FFin 0 0)) <$> texts.

Record RecordedModel := mkRecordedModel { rm_completions : list string; rm_dimension : nat }.
Definition RecordedModel_init (completions : list string) (embedding_dimension : nat) :
    list string → RecordedModel * list string :=
  announced "RecordedModel" "ModelProvider" (mkRecordedModel completions embedding_dimension).
#[export] Instance recorded_model : ModelProvider RecordedModel.
Proof.
  refine {| model_dimension := rm_dimension;
            model_complete role prompt prompt_ref s :=
              let? p := complete role (rm_completions s) in
              Ok (p.1, mkRecordedModel p.2 (rm_dimension s));
            model_embed texts s := embed (rm_dimension s) texts |}.
  intros texts s. unfold embed. split; [apply length_fmap|].
  apply list.Forall_forall. intros v (t & -> & _)%list_elem_of_fmap. apply length_replicate.
Defined.

(** [FixturePlatform]: the assets and what was written. *)
Record FixturePlatform := mkPlatform { fp_assets : list json; fp_written : list json }.
Definition query_assets (query : json) (p : FixturePlatform) : list json := fp_assets p.
Definition write_finding (finding : json) (p : FixturePlatform) : FixturePlatform :=
  mkPlatform (fp_assets p) (fp_written p ++ [finding]).

Definition FixturePlatform_init (assets : list json) : list string → FixturePlatform * list string :=
  announced "FixturePlatform" "PlatformPort" (mkPlatform assets []).
#[export] Instance fixture_platform : PlatformPort FixturePlatform :=
  {| platform_query_assets := query_assets; platform_write_finding := write_finding |}.

(** [FakeChannel]: what was sent, and the timestamp of a message. *)
Record sent_message := mkSent { sm_channel_id : string; sm_text : string; sm_thread_ts : option string }.
Definition listen : list json := [].
Definition send (channel_id text : string) (thread_ts : option string) (sent : list sent_message) :
    string * list sent_message :=
  (str_int (Z.of_nat (length sent)) +:+ ".000000", sent ++ [mkSent channel_id text thread_ts]).

Record FakeChannel := mkFakeChannel { fc_sent : list sent_message }.
Definition FakeChannel_init : list string → FakeChannel * list string :=
  announced "FakeChannel" "ChannelAdapter" (mkFakeChannel []).
#[export] Instance fake_channel : ChannelAdapter FakeChannel := {|
  channel_listen _ := listen;
  channel_send channel_id text thread_ts s :=
    let p := send channel_id text thread_ts (fc_sent s) in (p.1, mkFakeChannel p.2);
|}.

(** [InMemoryStore]: [self.episodes[:limit]], from the end when negative. *)
Definition search_episodes (limit : Z) (episodes : list json) : list json :=
  take (Z.to_nat (if limit <? 0 then Z.of_nat (length episodes) + limit else limit)) episodes.
Definition write_episode (episode : json) (episodes : list json) : list json :=
  episodes ++ [episode].

Record InMemoryStore := mkInMemoryStore { im_episodes : list json }.
Definition InMemoryStore_init : list string → InMemoryStore * list string :=
  announced "InMemoryStore" "MemoryPort" (mkInMemoryStore []).
#[export] Instance in_memory_store : MemoryPort InMemoryStore := {|
  memory_search embedding limit as_of s := search_episodes limit (im_episodes s);
  memory_write episode s := mkInMemoryStore (write_episode episode (im_episodes s));
|}.

(** ** FixtureTicketing *)

Record FixtureTicket := mkTicket { ft_id : string; ft_closed : bool; ft_updates : list TicketUpdate }.

(** [self.tickets], in insertion order *)
Notation tickets := (list (string * FixtureTicket)).

Definition FixtureTicketing_init : list string → tickets * list string :=
  announced "FixtureTicketing" "TicketingPort" [].

Definition ref_of (t : FixtureTicket) : TicketRef := mkTicketRef 1 LINEAR (ft_id t) None.

Fixpoint ticket_get (fp : string) (s : tickets) : option FixtureTicket :=
  match s with
  | [] => None
  | (k, t) :: s => if String.eqb fp k then Some t else ticket_get fp s
  end.

(** [self.tickets[fp] = t]: a known key keeps its place. *)
Fixpoint ticket_put (fp : string) (t : FixtureTicket) (s : tickets) : tickets :=
  match s with
  | [] => [(fp, t)]
  | (k, u) :: s => if String.eqb fp k then (k, t) :: s else (k, u) :: ticket_put fp t s
  end.

Definition find_open_by_fingerprint (fp : string) (s : tickets) : option TicketRef :=
  match ticket_get fp s with
  | Some t => if ft_closed t then None else Some (ref_of t)
  | None => None
  end.

(** [f"FIXTURE-{n}"] *)
Definition fixture_id (n : nat) : string := "FIXTURE-" +:+ str_int (Z.of_nat n).

Definition create (draft : TicketDraft) (s : tickets) : TicketRef * tickets :=
  let t := mkTicket (fixture_id (length s + 1)) false [] in
  (ref_of t, ticket_put (td_fingerprint draft) t s).

(** [_by_ref] and the change its caller makes to the ticket found. *)
Fixpoint by_ref (ref : TicketRef) (f : FixtureTicket → FixtureTicket) (s : tickets) :
    result exn tickets :=
  match s with
  | [] => Raise (KeyError (tr_external_id ref))
  | (k, t) :: s =>
      if String.eqb (ft_id t) (tr_external_id ref) then Ok ((k, f t) :: s)
      else let? s := by_ref ref f s in Ok ((k, t) :: s)
  end.

Definition update (ref : TicketRef) (u : TicketUpdate) : tickets → result exn tickets :=
  by_ref ref (λ t, mkTicket (ft_id t) (ft_closed t) (ft_updates t ++ [u])).
Definition close (ref : TicketRef) (resolution : string) : tickets → result exn tickets :=
  by_ref ref (λ t, mkTicket (ft_id t) true (ft_updates t)).

(** ** What a ticketing port promises

    To a caller who creates a ticket only for a fingerprint that never had one:
    the created ticket is the one found, closing the found one makes it
    disappear, and no operation shows on another fingerprint. *)
Class TicketingPort (S : Type) := {
  port_ok : S → Prop;
  port_known : string → S → Prop;
  port_find : string → S → option TicketRef;
  port_create : TicketDraft → S → TicketRef * S;
  port_update : TicketRef → TicketUpdate → S → result exn S;
  port_close : TicketRef → string → S → result exn S;
  port_create_law : ∀ d s ref s',
    port_ok s → ¬ port_known (td_fingerprint d) s → port_create d s = (ref, s') →
    port_ok s' ∧ port_find (td_fingerprint d) s' = Some ref ∧
    (∀ fp, fp ≠ td_fingerprint d → port_find fp s' = port_find fp s) ∧
    (∀ fp, port_known fp s' → fp = td_fingerprint d ∨ port_known fp s);
  port_update_law : ∀ fp ref u s,
    port_ok s → port_find fp s = Some ref →
    ∃ s', port_update ref u s = Ok s' ∧ port_ok s' ∧ ∀ fp', port_find fp' s' = port_find fp' s;
  port_close_law : ∀ fp ref why s,
    port_ok s → port_find fp s = Some ref →
    ∃ s', port_close ref why s = Ok s' ∧ port_ok s' ∧ port_find fp s' = None ∧
      ∀ fp', fp' ≠ fp → port_find fp' s' = port_find fp' s;
}.

(** ** The fixture keeps the promise *)

(** Ids are numbered in insertion order, and each fingerprint has one entry. *)
Definition numbered (s : tickets) : Prop :=
  NoDup s.*1 ∧ ∀ i k t, s !! i = Some (k, t) → ft_id t = fixture_id (i + 1).

Lemma str_int_inj a b : str_int a = str_int b → a = b.
Proof.
  intros He. pose proof (@parse_number_int repr_text a) as Ha.
  pose proof (@parse_number_int repr_text b) as Hb. rewrite He in Ha. congruence.
Qed.

Lemma fixture_id_inj n m : fixture_id n = fixture_id m → n = m.
Proof.
  unfold fixture_id. intros He%(inj (String.app _)). apply str_int_inj in He. lia.
Qed.

Lemma ticket_get_None fp s : ticket_get fp s = None ↔ fp ∉ s.*1.
Proof.
  induction s as [|[k t] s IH]; cbn; [split; [intros _; apply not_elem_of_nil|done]|].
  rewrite not_elem_of_cons. destruct (String.eqb_spec fp k); naive_solver.
Qed.

Lemma ticket_put_fresh fp t s : fp ∉ s.*1 → ticket_put fp t s = s ++ [(fp, t)].
Proof.
  induction s as [|[k u] s IH]; cbn; [done|]. intros [Hk Hs]%not_elem_of_cons.
  destruct (String.eqb_spec fp k); [done|]. by rewrite IH.
Qed.

Lemma ticket_get_app fp s s' :
  ticket_get fp (s ++ s') = match ticket_get fp s with Some t => Some t | None => ticket_get fp s' end.
Proof. induction s as [|[k t] s IH]; cbn; [done|]. destruct (String.eqb fp k); [done|apply IH]. Qed.

Lemma ticket_get_lookup fp s i t :
  NoDup s.*1 → s !! i = Some (fp, t) → ticket_get fp s = Some t.
Proof.
  revert i. induction s as [|[k u] s IH]; intros i Hnd Hi; [done|]. cbn in *.
  apply list.NoDup_cons in Hnd as [Hk Hnd]. destruct (String.eqb_spec fp k) as [->|Hn].
  - destruct i as [|i]; cbn in Hi; [congruence|]. exfalso. apply Hk.
    apply list_elem_of_fmap. exists (k, t). split; [done|]. by eapply list_elem_of_lookup_2.
  - destruct i as [|i]; cbn in Hi; [congruence|by eapply IH].
Qed.

Lemma ticket_get_elem fp s t : ticket_get fp s = Some t → ∃ i, s !! i = Some (fp, t).
Proof.
  induction s as [|[k u] s IH]; [done|]. cbn. destruct (String.eqb_spec fp k) as [->|Hn].
  - intros [= ->]. by exists 0%nat.
  - intros [i Hi]%IH. by exists (S i).
Qed.

(** The ticket [_by_ref] finds is the only one with that id. *)
Lemma by_ref_numbered s j fp t ref f :
  s !! j = Some (fp, t) → tr_external_id ref = ft_id t →
  (∀ i k u, s !! i = Some (k, u) → ft_id u = ft_id t → i = j) →
  by_ref ref f s = Ok (<[j := (fp, f t)]> s).
Proof.
  revert j. induction s as [|[k u] s IH]; intros j Hj Hr Hu; [done|]. cbn.
  rewrite Hr. destruct (String.eqb_spec (ft_id u) (ft_id t)) as [He|Hn].
  - specialize (Hu 0%nat k u eq_refl He) as <-. cbn in Hj. by injection Hj as -> ->.
  - destruct j as [|j]; cbn in Hj; [congruence|].
    rewrite (IH j); [done|done|done|]. intros i k' u' Hi He. specialize (Hu (S i) k' u' Hi He). lia.
Qed.

Lemma insert_keys (s : tickets) j fp (t t' : FixtureTicket) :
  s !! j = Some (fp, t) → (<[j := (fp, t')]> s).*1 = s.*1.
Proof.
  intros Hj. rewrite list_fmap_insert. apply list_insert_id. by rewrite list_lookup_fmap, Hj.
Qed.

(** A change to the ticket of a fingerprint is made, to that ticket only. *)
Lemma by_ref_change s fp t f :
  numbered s → ticket_get fp s = Some t → (∀ t, ft_id (f t) = ft_id t) →
  ∃ s', by_ref (ref_of t) f s = Ok s' ∧ numbered s' ∧
    ticket_get fp s' = Some (f t) ∧ ∀ fp', fp' ≠ fp → ticket_get fp' s' = ticket_get fp' s.
Proof.
  intros [Hnd Hid] Hg Hf. destruct (ticket_get_elem _ _ _ Hg) as [j Hj].
  pose proof (lookup_lt_Some _ _ _ Hj) as Hlt.
  exists (<[j := (fp, f t)]> s). split_and!.
  - apply by_ref_numbered; [done|done|]. intros i k u Hi He.
    rewrite (Hid _ _ _ Hi), (Hid _ _ _ Hj) in He. apply fixture_id_inj in He. lia.
  - split; [by rewrite (insert_keys _ _ _ t)|]. intros i k u Hi.
    apply list_lookup_insert_Some in Hi as [(<- & [= <- <-] & _)|(_ & Hi)].
    + rewrite Hf. by eapply Hid.
    + by eapply Hid.
  - eapply ticket_get_lookup; [by rewrite (insert_keys _ _ _ t)|].
    by apply list_lookup_insert_eq.
  - intros fp' Hne. destruct (ticket_get fp' s) as [u|] eqn:Hu.
    + destruct (ticket_get_elem _ _ _ Hu) as [i Hi].
      eapply ticket_get_lookup; [by rewrite (insert_keys _ _ _ t)|].
      rewrite list_lookup_insert_ne; [exact Hi|]. intros ->. congruence.
    + apply ticket_get_None in Hu. apply ticket_get_None. by rewrite (insert_keys _ _ _ t).
Qed.

Lemma find_open_Some fp s ref :
  find_open_by_fingerprint fp s = Some ref →
  ∃ t, ticket_get fp s = Some t ∧ ft_closed t = false ∧ ref = ref_of t.
Proof.
  unfold find_open_by_fingerprint. destruct (ticket_get fp s) as [t|]; [|done].
  destruct (ft_closed t) eqn:E; [done|]. intros [= <-]. by exists t.
Qed.

#[export] Instance fixture_ticketing : TicketingPort tickets.
Proof.
  refine {| port_ok := numbered; port_known fp s := fp ∈ s.*1;
            port_find := find_open_by_fingerprint; port_create := create;
            port_update := update; port_close := close |}.
  - intros d s ref s' [Hnd Hid] Hk. unfold create. rewrite ticket_put_fresh by done.
    intros [= <- <-]. unfold find_open_by_fingerprint. split_and!.
    + split.
      * rewrite fmap_app. apply list.NoDup_app. split; [done|]. split; [|apply list.NoDup_singleton].
        intros x Hx ->%list_elem_of_singleton. done.
      * intros i k t [Hi|(Hle & Hi)]%lookup_app_Some; [by eapply Hid|].
        apply list_lookup_singleton_Some in Hi as [Hz [= <- <-]]. cbn. f_equal. lia.
    + rewrite ticket_get_app, (proj2 (ticket_get_None _ _) Hk). cbn. by rewrite String.eqb_refl.
    + intros fp Hne. rewrite ticket_get_app. destruct (ticket_get fp s); [done|]. cbn.
      by destruct (String.eqb_spec fp (td_fingerprint d)).
    + intros fp. rewrite fmap_app, elem_of_app. cbn. rewrite list_elem_of_singleton. tauto.
  - intros fp ref u s Hok (t & Hg & Hc & ->)%find_open_Some.
    destruct (by_ref_change s fp t (λ t, mkTicket (ft_id t) (ft_closed t) (ft_updates t ++ [u]))
                Hok Hg) as (s' & Hb & Hok' & Hg' & Ho); [done|].
    exists s'. split_and!; [done|done|]. intros fp'. unfold find_open_by_fingerprint.
    destruct (decide (fp' = fp)) as [->|Hne]; [by rewrite Hg', Hg|by rewrite Ho].
  - intros fp ref why s Hok (t & Hg & Hc & ->)%find_open_Some.
    destruct (by_ref_change s fp t (λ t, mkTicket (ft_id t) true (ft_updates t)) Hok Hg)
      as (s' & Hb & Hok' & Hg' & Ho); [done|].
    exists s'. split_and!; [done|done| |].
    + unfold find_open_by_fingerprint. by rewrite Hg'.
    + intros fp' Hne. unfold find_open_by_fingerprint. by rewrite Ho.
Defined.

(** ** A caller of the port *)

Section client.
Context {S : Type} `{!TicketingPort S}.

Fixpoint create_all (drafts : list TicketDraft) (s : S) : list TicketRef * S :=
  match drafts with
  | [] => ([], s)
  | d :: drafts =>
      let '(ref, s) := port_create d s in
      let '(refs, s) := create_all drafts s in (ref :: refs, s)
  end.

(** A ticket for each of several new incidents. *)
Lemma create_all_found drafts s refs s' :
  port_ok s → NoDup (td_fingerprint <$> drafts) →
  (∀ d, d ∈ drafts → ¬ port_known (td_fingerprint d) s) →
  create_all drafts s = (refs, s') →
  port_ok s' ∧ Forall2 (λ d ref, port_find (td_fingerprint d) s' = Some ref) drafts refs ∧
  ∀ fp, fp ∉ (td_fingerprint <$> drafts) → port_find fp s' = port_find fp s.
Proof.
  revert s refs. induction drafts as [|d drafts IH]; intros s refs Hok Hnd Hk Hc.
  { injection Hc as <- <-. split_and!; [done|constructor|done]. }
  cbn in Hnd, Hc. apply list.NoDup_cons in Hnd as [Hd Hnd].
  destruct (port_create d s) as [ref s1] eqn:E1. destruct (create_all drafts s1) as [rs s2] eqn:E2.
  injection Hc as <- <-.
  destruct (port_create_law d s ref s1 Hok) as (Hok1 & Hf & Ho & Hkn); [apply Hk; by left|done|].
  destruct (IH s1 rs Hok1 Hnd) as (Hok2 & Hall & Hoth); [|done|].
  { intros d' Hd' [He|Hk']%Hkn.
    - apply Hd. rewrite <-He. by apply list_elem_of_fmap_2.
    - by apply (Hk d'); [right|]. }
  split_and!; [done| |].
  - constructor; [by rewrite Hoth|done].
  - intros fp [Hne Hn]%not_elem_of_cons. by rewrite Hoth, Ho.
Qed.
End client.

(** One ticket per incident: tickets created through the fixture for
    incidents with distinct fingerprints are all open and found under their
    fingerprint, each with an id of its own, and closing one of them closes that
    one and leaves the others open. *)
Theorem fixture_one_ticket_per_incident drafts refs (s : tickets) d ref why :
  NoDup (td_fingerprint <$> drafts) → create_all drafts [] = (refs, s) →
  (d, ref) ∈ zip drafts refs →
  Forall2 (λ d ref, find_open_by_fingerprint (td_fingerprint d) s = Some ref) drafts refs ∧
  (∀ d' ref', (d', ref') ∈ zip drafts refs → tr_external_id ref' = tr_external_id ref → d' = d) ∧
  ∃ s', close ref why s = Ok s' ∧ find_open_by_fingerprint (td_fingerprint d) s' = None ∧
    ∀ d', d' ∈ drafts → d' ≠ d →
      find_open_by_fingerprint (td_fingerprint d') s' =
      find_open_by_fingerprint (td_fingerprint d') s.
Proof.
  intros Hnd Hc Hin.
  destruct (create_all_found drafts ([] : tickets) refs s) as (Hok & Hall & _); [..|done|].
  { split; [apply base.NoDup_nil_2|]. by intros []. }
  { done. }
  { intros x _. apply not_elem_of_nil. }
  assert (Hz : ∀ x r, (x, r) ∈ zip drafts refs →
    find_open_by_fingerprint (td_fingerprint x) s = Some r).
  { intros x r (i & Hi)%list_elem_of_lookup_1. apply lookup_zip_Some in Hi as [Hx Hr].
    by apply (Forall2_lookup_lr _ _ _ _ _ _ Hall Hx Hr). }
  assert (Hinj : ∀ x y, x ∈ drafts → y ∈ drafts → td_fingerprint x = td_fingerprint y → x = y).
  { intros x y (i & Hi)%list_elem_of_lookup_1 (j & Hj)%list_elem_of_lookup_1 He.
    assert (i = j) as ->; [|congruence].
    apply (NoDup_lookup (td_fingerprint <$> drafts) i j (td_fingerprint x)); [done|..];
      rewrite list_lookup_fmap, ?Hi, ?Hj; cbn; congruence. }
  assert (Hd : d ∈ drafts) by (apply elem_of_zip_l in Hin; exact Hin).
  split; [exact Hall|]. split.
  - intros d' ref' Hin' He. apply Hinj; [by apply elem_of_zip_l in Hin'|done|].
    apply Hz, find_open_Some in Hin' as (t' & Hg' & _ & ->).
    apply Hz, find_open_Some in Hin as (t & Hg & _ & ->). cbn in He.
    destruct (ticket_get_elem _ _ _ Hg') as [i Hi]. destruct (ticket_get_elem _ _ _ Hg) as [j Hj].
    destruct Hok as [_ Hid]. rewrite (Hid _ _ _ Hi), (Hid _ _ _ Hj) in He.
    apply fixture_id_inj in He. assert (i = j) as -> by lia. congruence.
  - destruct (port_close_law (td_fingerprint d) ref why s Hok (Hz _ _ Hin))
      as (s' & Hcl & _ & Hn & Ho). exists s'. split_and!; [done|done|].
    intros d' Hd' Hne. apply Ho. intros He. by apply Hne, Hinj.
Qed.

Definition sample_draft (fp : string) : TicketDraft := mkTicketDraft 1 fp 1%N "title" "body".

Lemma fixture_one_ticket_per_incident_witness :
  let drafts := [sample_draft "a"; sample_draft "b"] in
  let p := create_all drafts ([] : tickets) in
  ∃ s', close (mkTicketRef 1 LINEAR "FIXTURE-2" None) "done" p.2 = Ok s' ∧
    find_open_by_fingerprint "b" s' = None ∧
    ∀ d', d' ∈ drafts → d' ≠ sample_draft "b" →
      find_open_by_fingerprint (td_fingerprint d') s' =
      find_open_by_fingerprint (td_fingerprint d') p.2.
Proof.
  intros drafts p.
  refine (proj2 (proj2 (fixture_one_ticket_per_incident drafts p.1 p.2 (sample_draft "b")
    (mkTicketRef 1 LINEAR "FIXTURE-2" None) "done" _ (surjective_pairing p) _))).
  - apply (bool_decide_unpack _). vm_compute. exact I.
  - vm_compute. right. left.
Defined.

(** Reopening an incident spoils the numbering: after a ticket was closed and
    created again, the next incident gets the id that is already taken, and an
    update meant for it lands on the other ticket. *)
Theorem fixture_ids_collide :
  let s1 := (create (sample_draft "a") []).2 in
  let s2 := match close (mkTicketRef 1 LINEAR "FIXTURE-1" None) "done" s1 with
            | Ok s => s | Raise _ => s1 end in
  let '(again, s3) := create (sample_draft "a") s2 in
  let '(other, s4) := create (sample_draft "b") s3 in
  tr_external_id again = tr_external_id other ∧
  match update other (mkTicketUpdate 1 1%N "note" None) s4 with
  | Ok s5 => ft_updates <$> ticket_get "b" s5 = Some [] ∧
             length ∘ ft_updates <$> ticket_get "a" s5 = Some 1%nat
  | Raise _ => False
  end.
Proof. vm_compute. done. Qed.

(** ** What the other protocols promise, and the substitutes *)

(** A token authorises one thing once: after it was accepted it is not accepted
    again, and never for another binding. *)
Definition single_use {S} `{!AuthPort S} : Prop :=
  ∀ token b b' s, (auth_consume token b s).1 = true →
    (auth_consume token b' (auth_consume token b s).2).1 = false.

(** Why [prod] refuses to boot on it: [AllowAll] takes what no signature covers
    and spends a token as often as it is shown, for any tool call. *)
Theorem allow_all_enforces_nothing :
  (∀ source headers body s, auth_verify_inbound (S := AllowAll) source headers body s = true) ∧
  (∀ token binding s, (auth_consume (S := AllowAll) token binding s).1 = true) ∧
  ¬ single_use (S := AllowAll).
Proof.
  split; [done|]. split; [done|]. intros Hs.
  by specialize (Hs EmptyString EmptyString EmptyString mkAllowAll eq_refl).
Qed.

(** A recorded model replays: the completions come in order, whatever the roles
    and prompts, and the one after the last is an error. *)
Fixpoint replay {S} `{!ModelProvider S} (calls : list (string * string * string)) (s : S) :
    result exn (list string * S) :=
  match calls with
  | [] => Ok ([], s)
  | (role, prompt, prompt_ref) :: calls =>
      let? p := model_complete role prompt prompt_ref s in
      let? q := replay calls p.2 in Ok (p.1 :: q.1, q.2)
  end.

Theorem recorded_model_replays calls completions rest n :
  length calls = length completions →
  replay calls (mkRecordedModel (completions ++ rest) n) = Ok (completions, mkRecordedModel rest n) ∧
  (∀ role prompt prompt_ref, ∃ e, model_complete role prompt prompt_ref (mkRecordedModel [] n) = Raise e).
Proof.
  intros Hl. split; [|by eexists]. revert completions Hl.
  induction calls as [|[[role prompt] prompt_ref] calls IH]; intros [|c completions] Hl; try done.
  cbn in Hl. injection Hl as Hl. cbn. by rewrite (IH completions Hl).
Qed.

Lemma recorded_model_replays_witness :
  replay [("worker", "p", "r")] (mkRecordedModel ["a"; "b"] 3) = Ok (["a"], mkRecordedModel ["b"] 3).
Proof.
  destruct (recorded_model_replays [("worker", "p", "r")] ["a"] ["b"] 3) as [H _]; [reflexivity|].
  exact H.
Defined.

(** Belief is appended, not edited: what a search over the store found is found
    again, in the same places, after any write. *)
Theorem store_search_stable embedding limit as_of episode (s : InMemoryStore) i e :
  0 ≤ limit → memory_search embedding limit as_of s !! i = Some e →
  memory_search embedding limit as_of (memory_write episode s) !! i = Some e.
Proof.
  intros Hl. cbn. unfold search_episodes, write_episode.
  destruct (limit <? 0) eqn:Hn; [lia|]. rewrite !lookup_take_Some. intros [Hi Hlt].
  split; [|done]. by apply lookup_app_l_Some.
Qed.

Lemma store_search_stable_witness :
  memory_search [] 1 None (memory_write JNull (mkInMemoryStore [JBool true])) !! 0%nat
  = Some (JBool true).
Proof. apply (store_search_stable [] 1 None JNull (mkInMemoryStore [JBool true])); [done|reflexivity]. Defined.

(** A receipt threads under its message: a message sent later through the fake
    channel gets another timestamp. *)
Theorem channel_timestamps_new channel_id text thread_ts channel_id' text' thread_ts' s between :
  let p := channel_send channel_id text thread_ts s in
  (channel_send channel_id' text' thread_ts' (mkFakeChannel (fc_sent p.2 ++ between))).1 ≠ p.1.
Proof.
  cbn. intros He%(f_equal String.rev). rewrite !rev_str_app in He. apply (inj (String.app _)) in He.
  apply (f_equal String.rev) in He. rewrite !rev_str_involutive in He.
  apply str_int_inj in He. rewrite !length_app in He. cbn in He. lia.
Qed.
