(* ===== verification/HostPorts.v ===== *)
(** * The host-port preflight (scripts/check_host_ports.py)

    The script that refuses a start when a host port is taken.  Sockets, the
    PATH lookup and the subprocess are the interface [Host]; argparse hands
    [main] the value of [--profiles].  What is printed is a list of lines. *)

From Stdlib Require Import Ascii.
From S2P Require Import Prelude PyStr.

Open Scope Z_scope.

Definition LOOPBACK : string := "127.0.0.1".
Definition OVERRIDE_OFFSET : Z := 10000.

Record PublishedPort := mkPort {
  pp_profile : string;
  pp_service : string;
  pp_container_port : Z;
  pp_host_port : Z;
  pp_env_var : string;
}.

#[export] Instance PublishedPort_eq_dec : EqDecision PublishedPort.
Proof. solve_decision. Defined.

Definition INVENTORY : list PublishedPort :=
  [mkPort "default" "app" 8000 8000 "APP_HOST_PORT";
   mkPort "lab" "prometheus" 9090 9090 "PROMETHEUS_HOST_PORT";
   mkPort "obs" "phoenix" 6006 6006 "PHOENIX_HOST_PORT"].

Definition SELECTABLE_PROFILES : list string := ["lab"; "obs"].
Definition CORE_PROFILE : string := "default".

Definition parse_profiles (raw : string) : result exn (list string) :=
  let names := filter (λ x, nonempty x = true) (strip <$> split "," raw) in
  match filter (λ x, x ∉ SELECTABLE_PROFILES) names with
  | [] => Ok names
  | unknown => Raise (ValueError ("unknown profile(s): " +:+ join ", " unknown +:+
                                  "; choose from " +:+ join ", " SELECTABLE_PROFILES))
  end.

Definition selected_ports (profiles : list string) : list PublishedPort :=
  filter (λ p, pp_profile p ∈ CORE_PROFILE :: profiles) INVENTORY.

(** The generator stops where [is_free] raises. *)
Fixpoint find_collisions (ports : list PublishedPort) (is_free : Z → result exn bool) :
    result exn (list PublishedPort) :=
  match ports with
  | [] => Ok []
  | port :: ports =>
      let? free := is_free (pp_host_port port) in
      let? rest := find_collisions ports is_free in
      Ok (if free : bool then rest else port :: rest)
  end.

Definition override_hint (port : PublishedPort) : string :=
  pp_env_var port +:+ "=" +:+ str_int (pp_host_port port + OVERRIDE_OFFSET).

(** ** Lines of text *)

(** [s.splitlines()], on UTF-8: line feed, carriage return or both, vertical
    tab, form feed, the separators 1C to 1E, U+0085, U+2028 and U+2029. *)
Definition line_break1 (a : ascii) : bool :=
  let n := byte_val a in ((10 <=? n) && (n <=? 13) || (28 <=? n) && (n <=? 30))%N.

Fixpoint splitlines_go (cur : string) (s : string) : list string :=
  match s with
  | EmptyString => if nonempty cur then [String.rev cur] else []
  | String a r =>
      if line_break1 a then
        String.rev cur ::
        match r with
        | String b r2 =>
            if (byte_val a =? 13)%N && (byte_val b =? 10)%N then splitlines_go EmptyString r2
            else splitlines_go EmptyString r
        | EmptyString => splitlines_go EmptyString r
        end
      else match r with
      | String b r2 =>
          if (byte_val a =? 194)%N && (byte_val b =? 133)%N
          then String.rev cur :: splitlines_go EmptyString r2
          else match r2 with
          | String c r3 =>
              if (byte_val a =? 226)%N && (byte_val b =? 128)%N &&
                 ((byte_val c =? 168)%N || (byte_val c =? 169)%N)
              then String.rev cur :: splitlines_go EmptyString r3
              else splitlines_go (String a cur) r
          | EmptyString => splitlines_go (String a cur) r
          end
      | EmptyString => splitlines_go (String a cur) r
      end
  end.
Definition splitlines (s : string) : list string := splitlines_go EmptyString s.

(** ** The host *)

Class Host := {
  (** [socket.socket(AF_INET, SOCK_STREAM)] *)
  open_socket : result exn ();
  (** [probe.bind((host, port))] *)
  bind : string → Z → result exn ();
  (** [shutil.which(name)] *)
  which : string → option string;
  (** [subprocess.run(argv, ...).stdout] *)
  run : list string → result exn string;
}.

Definition is_OSError (e : exn) : bool := match e with OSError => true | _ => false end.

(** [except (OSError, subprocess.SubprocessError)] *)
Definition is_run_error (e : exn) : bool :=
  match e with OSError | SubprocessError => true | _ => false end.

(** The loop over the fields lsof printed, one per line. *)
Fixpoint holder_of (command pid : string) (lines : list string) : option string :=
  match lines with
  | [] => None
  | line :: lines =>
      let '(command, pid) :=
        match line with
        | String "p" r => (command, r)
        | String "c" r => (r, pid)
        | _ => (command, pid)
        end in
      if nonempty command && nonempty pid
      then Some (command +:+ " (pid " +:+ pid +:+ ")")
      else holder_of command pid lines
  end.

Section preflight.
Context `{!Host}.

Definition probe_loopback (port : Z) : result exn bool :=
  let? _ := open_socket in
  match bind LOOPBACK port with
  | Ok _ => Ok true
  | Raise e => if is_OSError e then Ok false else Raise e
  end.

(** [None] and the empty string are alike in the tests on [command] and
    [pid]. *)
Definition describe_holder (port : Z) : result exn (option string) :=
  match which "lsof" with
  | None => Ok None
  | Some lsof =>
      match run [lsof; "-nP"; "-iTCP:" +:+ str_int port; "-sTCP:LISTEN"; "-F"; "cp"] with
      | Raise e => if is_run_error e then Ok None else Raise e
      | Ok stdout => Ok (holder_of EmptyString EmptyString (splitlines stdout))
      end
  end.

Definition collision_line (port : PublishedPort) (holder : string) : string :=
  "ERROR: host port " +:+ str_int (pp_host_port port) +:+ " for service '" +:+
  pp_service port +:+ "' (profile " +:+ pp_profile port +:+ ") is held by " +:+ holder.

Definition hint_line (port : PublishedPort) : string :=
  "       set " +:+ override_hint port +:+ " in .env, or any other free port".

(** The printing loop: the lines, and whether it ran to its end. *)
Fixpoint report (collisions : list PublishedPort) : list string * result exn () :=
  match collisions with
  | [] => ([], Ok ())
  | port :: rest =>
      match describe_holder (pp_host_port port) with
      | Raise e => ([], Raise e)
      | Ok holder =>
          let '(lines, r) := report rest in
          (collision_line port (default "an unidentified process" holder) ::
           hint_line port :: lines, r)
      end
  end.

Definition count (l : list PublishedPort) : string := str_int (Z.of_nat (length l)).

(** [main]: the lines printed and the exit code. *)
Definition main (profiles_arg : string) : list string * result exn Z :=
  match parse_profiles profiles_arg with
  | Raise (ValueError error) => (["ERROR: " +:+ error], Ok 2)
  | Raise e => ([], Raise e)
  | Ok profiles =>
      let ports := selected_ports profiles in
      match find_collisions ports probe_loopback with
      | Raise e => ([], Raise e)
      | Ok collisions =>
          let '(lines, r) := report collisions in
          match r with
          | Raise e => (lines, Raise e)
          | Ok _ =>
              match collisions with
              | [] => (lines ++ ["host ports: PASS (" +:+ count ports +:+ " checked)"], Ok 0)
              | _ => (lines ++ ["host ports: FAIL (" +:+ count collisions +:+ " of " +:+
                                count ports +:+ " checked port(s) unavailable)"], Ok 1)
              end
          end
      end
  end.
End preflight.

(** ** What the preflight decides *)

(** A profile list is accepted exactly when every name in it is selectable;
    blank entries and spaces do not count. *)
Lemma parse_profiles_Ok raw names :
  parse_profiles raw = Ok names ↔
  names = filter (λ x, nonempty x = true) (strip <$> split "," raw) ∧
  ∀ x, x ∈ names → x ∈ SELECTABLE_PROFILES.
Proof.
  unfold parse_profiles. set (all := filter (λ x, nonempty x = true) _). split.
  - destruct (filter (λ x, x ∉ SELECTABLE_PROFILES) all) eqn:E; [|done]. intros [= <-].
    split; [done|]. intros x Hx. destruct (decide (x ∈ SELECTABLE_PROFILES)); [done|].
    assert (x ∈ filter (λ x, x ∉ SELECTABLE_PROFILES) all) as Hin
      by (by apply list_elem_of_filter).
    rewrite E in Hin. by apply not_elem_of_nil in Hin.
  - intros [-> Hall].
    destruct (filter (λ x, x ∉ SELECTABLE_PROFILES) all) as [|x l] eqn:E; [done|].
    assert (x ∈ filter (λ x, x ∉ SELECTABLE_PROFILES) all) as [Hn Hin]%list_elem_of_filter
      by (rewrite E; left).
    by destruct (Hn (Hall x Hin)).
Qed.

Lemma parse_profiles_Raise raw e : parse_profiles raw = Raise e → ∃ msg, e = ValueError msg.
Proof.
  unfold parse_profiles. destruct (filter _ _); [done|]. intros [= <-]. by eexists.
Qed.

Section verdict.
Context `{!Host}.

(** The port can be bound. *)
Definition binds (p : PublishedPort) : bool := is_ok (bind LOOPBACK (pp_host_port p)).

Context (Hsocket : open_socket = Ok ()).
Context (Hbind : ∀ port e, bind LOOPBACK port = Raise e → is_OSError e = true).

Lemma probe_loopback_eq p : probe_loopback (pp_host_port p) = Ok (binds p).
Proof using Hsocket Hbind.
  unfold probe_loopback, binds. rewrite Hsocket. cbn.
  destruct (bind _ _) as [|e] eqn:E; [done|]. by rewrite (Hbind _ _ E).
Qed.

Lemma find_collisions_eq ports :
  find_collisions ports probe_loopback = Ok (filter (λ p, binds p = false) ports).
Proof using Hsocket Hbind.
  induction ports as [|p ports IH]; [done|]. cbn [find_collisions].
  rewrite probe_loopback_eq, IH. cbn [rbind]. rewrite filter_cons.
  by destruct (binds p).
Qed.

(** lsof fails in a way [describe_holder] does not catch: what it prints is not
    text in the encoding of the locale. *)
Definition lsof_escapes (p : PublishedPort) (e : exn) : Prop :=
  ∃ lsof, which "lsof" = Some lsof ∧
    run [lsof; "-nP"; "-iTCP:" +:+ str_int (pp_host_port p); "-sTCP:LISTEN"; "-F"; "cp"] = Raise e ∧
    is_run_error e = false.

Lemma describe_holder_cases p :
  (∃ holder, describe_holder (pp_host_port p) = Ok holder ∧ ∀ e, ¬ lsof_escapes p e) ∨
  (∃ e, describe_holder (pp_host_port p) = Raise e ∧ lsof_escapes p e).
Proof.
  unfold describe_holder, lsof_escapes. destruct (which _) as [lsof|] eqn:Hw.
  2: { left. eexists. split; [done|]. by intros e (? & [=] & _). }
  destruct (run _) as [out|e] eqn:E.
  - left. eexists. split; [done|]. intros e (? & [= <-] & Hr & _). congruence.
  - destruct (is_run_error e) eqn:He; [left|right; by eauto 6].
    eexists. split; [done|]. intros e' (? & [= <-] & Hr & Hn). congruence.
Qed.

(** The lines for the ports [l], each with its holder. *)
Definition report_lines (l : list PublishedPort) (holders : list string) : list string :=
  concat (zip_with (λ p h, [collision_line p h; hint_line p]) l holders).

Lemma report_eq collisions :
  (∃ holders, length holders = length collisions ∧
     (∀ p e, p ∈ collisions → ¬ lsof_escapes p e) ∧
     report collisions = (report_lines collisions holders, Ok ())) ∨
  (∃ before p after holders e, collisions = before ++ p :: after ∧
     length holders = length before ∧ lsof_escapes p e ∧
     (∀ q e, q ∈ before → ¬ lsof_escapes q e) ∧
     report collisions = (report_lines before holders, Raise e)).
Proof.
  induction collisions as [|p l IH].
  { left. exists []. split; [done|]. split; [|done]. by intros p e ?%not_elem_of_nil. }
  cbn [report]. destruct (describe_holder_cases p) as [(h & -> & Hn)|(e & -> & He)].
  2: { right. exists [], p, l, [], e. do 3 (split; [done|]). split; [|done].
       by intros q e' ?%not_elem_of_nil. }
  set (h' := default "an unidentified process" h).
  destruct IH as [(hs & Hl & Hno & ->)|(before & q & after & hs & e & -> & Hl & He & Hno & ->)].
  - left. exists (h' :: hs). split; [by cbn; f_equal|]. split; [|done].
    intros q e [->|Hq]%elem_of_cons; [by apply Hn|by apply Hno].
  - right. exists (p :: before), q, after, (h' :: hs), e. split; [done|].
    split; [by cbn; f_equal|]. split; [done|]. split; [|done].
    intros r e' [->|Hr]%elem_of_cons; [by apply Hn|by apply Hno].
Qed.

(** ** What [--profiles] asks for *)

(** A name of the comma-separated list. *)
Definition named_profile (raw x : string) : Prop :=
  ∃ piece, piece ∈ split "," raw ∧ x = strip piece ∧ x ≠ EmptyString.

(** The ports v1 publishes: the core service's, and those of the two profiles. *)
Definition app_port : PublishedPort := mkPort "default" "app" 8000 8000 "APP_HOST_PORT".
Definition prometheus_port : PublishedPort :=
  mkPort "lab" "prometheus" 9090 9090 "PROMETHEUS_HOST_PORT".
Definition phoenix_port : PublishedPort := mkPort "obs" "phoenix" 6006 6006 "PHOENIX_HOST_PORT".
Definition ports_for (lab obs : bool) : list PublishedPort :=
  app_port :: (if lab then [prometheus_port] else []) ++ (if obs then [phoenix_port] else []).

Lemma named_profile_spec raw x :
  x ∈ filter (λ x, nonempty x = true) (strip <$> split "," raw) ↔ named_profile raw x.
Proof.
  rewrite list_elem_of_filter, list_elem_of_fmap. unfold named_profile.
  assert (nonempty x = true ↔ x ≠ EmptyString) as -> by by destruct x. naive_solver.
Qed.

Lemma selected_ports_eq names lab obs :
  (lab = true ↔ "lab" ∈ names) → (obs = true ↔ "obs" ∈ names) →
  selected_ports names = ports_for lab obs.
Proof.
  intros Hl Ho. unfold selected_ports, INVENTORY, ports_for, CORE_PROFILE.
  rewrite !filter_cons, filter_nil. cbn [pp_profile].
  assert (∀ x (b : bool) (l : list PublishedPort) l', x ≠ "default" → (b = true ↔ x ∈ names) →
      (if decide (x ∈ "default" :: names) then l else l') = if b then l else l') as Hx.
  { intros x b l l' Hne Hb. destruct (decide _) as [Hin|Hin]; rewrite elem_of_cons, <-Hb in Hin;
      destruct b; naive_solver. }
  rewrite decide_True by left. rewrite (Hx "lab" lab), (Hx "obs" obs) by done.
  by destruct lab, obs.
Qed.

Lemma elem_of_selectable x : x ∈ SELECTABLE_PROFILES ↔ x = "lab" ∨ x = "obs".
Proof. unfold SELECTABLE_PROFILES. rewrite !elem_of_cons, elem_of_nil. naive_solver. Qed.

(** A list is refused exactly when it names something that is not selectable. *)
Lemma parse_profiles_cases raw :
  (∃ msg, parse_profiles raw = Raise (ValueError msg) ∧
     ∃ x, named_profile raw x ∧ x ≠ "lab" ∧ x ≠ "obs") ∨
  (∃ names, parse_profiles raw = Ok names ∧ (∀ x, x ∈ names ↔ named_profile raw x) ∧
     ∀ x, named_profile raw x → x = "lab" ∨ x = "obs").
Proof.
  destruct (parse_profiles raw) as [names|e] eqn:E.
  - right. apply parse_profiles_Ok in E as [-> Hall]. eexists. split; [done|].
    split; [apply named_profile_spec|].
    intros x Hx%named_profile_spec%Hall. by apply elem_of_selectable.
  - left. revert E. unfold parse_profiles.
    destruct (filter (λ x, x ∉ SELECTABLE_PROFILES) _) as [|x l] eqn:E; [done|]. intros [= <-].
    eexists. split; [done|]. exists x.
    assert (x ∈ filter (λ x, x ∉ SELECTABLE_PROFILES)
                  (filter (λ x, nonempty x = true) (strip <$> split "," raw)))
      as [Hn Hin%named_profile_spec]%list_elem_of_filter by (rewrite E; left).
    split; [done|]. split; intros ->; apply Hn, elem_of_selectable; auto.
Qed.

(** The last line, for the ports taken and the number checked. *)
Definition last_line (taken : list PublishedPort) (checked : nat) : string :=
  match taken with
  | [] => "host ports: PASS (" +:+ str_int (Z.of_nat checked) +:+ " checked)"
  | _ => "host ports: FAIL (" +:+ str_int (Z.of_nat (length taken)) +:+ " of " +:+
         str_int (Z.of_nat checked) +:+ " checked port(s) unavailable)"
  end.

Lemma filter_busy ports :
  match filter (λ p, binds p = false) ports with [] => 0 | _ => 1 end =
  if forallb binds ports then 0 else 1.
Proof.
  induction ports as [|p ports IH]; [done|]. rewrite filter_cons. cbn [forallb].
  by destruct (binds p).
Qed.

(** The course of [main] over ports [ports]: all of it, or up to lsof's exception. *)
Definition checks (ports : list PublishedPort) (out : list string * result exn Z) : Prop :=
  let taken := filter (λ p, binds p = false) ports in
  (∃ holders, (∀ p e, p ∈ taken → ¬ lsof_escapes p e) ∧
     length holders = length taken ∧
     out = (report_lines taken holders ++ [last_line taken (length ports)],
            Ok (if forallb binds ports then 0 else 1))) ∨
  (∃ before p after holders e, taken = before ++ p :: after ∧ lsof_escapes p e ∧
     (∀ q e, q ∈ before → ¬ lsof_escapes q e) ∧ length holders = length before ∧
     out = (report_lines before holders, Raise e)).

Lemma main_known raw names :
  parse_profiles raw = Ok names → checks (selected_ports names) (main raw).
Proof using Hsocket Hbind.
  intros Hp. unfold main, checks. rewrite Hp, find_collisions_eq.
  rewrite <-filter_busy.
  set (taken := filter _ _).
  destruct (report_eq taken) as [(hs & Hl & Hno & ->)|(bf & p & af & hs & e & Ht & Hl & He & Hno & ->)].
  - left. exists hs. split; [done|]. split; [done|]. by destruct taken.
  - right. by exists bf, p, af, hs, e.
Qed.

(** The assignments that move the three ports. *)
Definition advice (p : PublishedPort) : string :=
  if decide (p = app_port) then "APP_HOST_PORT=18000"
  else if decide (p = prometheus_port) then "PROMETHEUS_HOST_PORT=19090"
  else "PHOENIX_HOST_PORT=16006".

(** The port, its service and its profile. *)
Definition whose (p : PublishedPort) : string :=
  if decide (p = app_port) then "8000 for service 'app' (profile default)"
  else if decide (p = prometheus_port) then "9090 for service 'prometheus' (profile lab)"
  else "6006 for service 'phoenix' (profile obs)".

Lemma lines_of_port lab obs p holder :
  p ∈ ports_for lab obs →
  collision_line p holder = "ERROR: host port " +:+ whose p +:+ " is held by " +:+ holder ∧
  hint_line p = "       set " +:+ advice p +:+ " in .env, or any other free port".
Proof.
  unfold ports_for. intros Hp.
  assert (p = app_port ∨ p = prometheus_port ∨ p = phoenix_port) as [->|[->| ->]]
    by (revert Hp; destruct lab, obs; cbn; rewrite ?elem_of_cons, ?elem_of_nil; tauto);
    by split.
Qed.

(** C36. The preflight tells the truth.  On a host whose sockets work, it exits
    2 exactly when [--profiles] names something else than lab and obs.
    Otherwise it checks port 8000, port 9090 when lab is named and port 6006
    when obs is, and exits 1 when one of them cannot be bound, 0 when all
    can; it names exactly the taken ones, in that order, each with the
    assignment that moves it, and ends with the counts.  The one thing that
    stops it is a failure of lsof other than an OSError or SubprocessError
    (printing what is not text): then, and only then, it dies of that exception,
    after the lines of the ports before. *)
Theorem preflight_exact raw lab obs :
  (lab = true ↔ named_profile raw "lab") → (obs = true ↔ named_profile raw "obs") →
  ((main raw).2 = Ok 2 ↔ ∃ x, named_profile raw x ∧ x ≠ "lab" ∧ x ≠ "obs") ∧
  ((∀ x, named_profile raw x → x = "lab" ∨ x = "obs") → checks (ports_for lab obs) (main raw)) ∧
  (∀ p holder, p ∈ ports_for lab obs →
     collision_line p holder = "ERROR: host port " +:+ whose p +:+ " is held by " +:+ holder ∧
     hint_line p = "       set " +:+ advice p +:+ " in .env, or any other free port").
Proof using Hsocket Hbind.
  intros Hlab Hobs. split; [|split; [|intros p holder; apply lines_of_port]].
  - destruct (parse_profiles_cases raw) as [(msg & E & Hx)|(names & E & _ & Hk)].
    + unfold main. rewrite E. split; [by intros _|done].
    + split; [|intros (x & [->| ->]%Hk & ? & ?); congruence]. intros Hm.
      destruct (main_known _ _ E) as [(? & _ & _ & He)|(? & ? & ? & ? & ? & _ & _ & _ & _ & He)];
        rewrite He in Hm; [|done].
      by destruct (forallb _ _).
  - intros Hk. destruct (parse_profiles_cases raw) as [(msg & E & x & Hx & ? & ?)|(names & E & Hn & _)].
    + by destruct (Hk x Hx).
    + rewrite <-(selected_ports_eq names lab obs); [by apply main_known|by rewrite Hn..].
Qed.
End verdict.

(** The ports published and their replacements are distinct ports of TCP, so
    following every hint at once leaves no clash within the inventory. *)
Theorem overrides_distinct :
  NoDup ((pp_host_port <$> INVENTORY) ++
         ((λ p, pp_host_port p + OVERRIDE_OFFSET) <$> INVENTORY)) ∧
  Forall (λ p, 1024 ≤ pp_host_port p ∧ pp_host_port p + OVERRIDE_OFFSET < 2 ^ 16) INVENTORY.
Proof. split; apply (bool_decide_eq_true_1 _); vm_compute; reflexivity. Qed.

(** ** A host on which port 9090 is taken *)

Definition busy_host : Host := {|
  open_socket := Ok ();
  bind _ port := if port =? 9090 then Raise OSError else Ok ();
  which _ := Some "/usr/bin/lsof";
  run _ := Ok ("p4242" +:+ String (ascii_of_N 10) ("cprometheus" +:+ String (ascii_of_N 10) EmptyString));
|}.

Lemma preflight_exact_witness :
  let out := @main busy_host " lab ," in
  out = (["ERROR: host port 9090 for service 'prometheus' (profile lab) is held by prometheus (pid 4242)";
          "       set PROMETHEUS_HOST_PORT=19090 in .env, or any other free port";
          "host ports: FAIL (1 of 2 checked port(s) unavailable)"], Ok 1) ∧
  (out.2 = Ok 2 ↔ ∃ x, named_profile " lab ," x ∧ x ≠ "lab" ∧ x ≠ "obs").
Proof.
  intros out. split; [vm_compute; reflexivity|].
  apply (@preflight_exact busy_host eq_refl
           ltac:(intros port e; cbn; destruct (port =? 9090); by intros [= <-])
           " lab ," true false).
  - split; [intros _|done]. exists " lab ". split; [left|done].
  - split; [done|]. intros H%named_profile_spec. exfalso.
    assert (filter (λ x, nonempty x = true) (strip <$> split "," " lab ,") = ["lab"]) as E
      by (vm_compute; reflexivity).
    rewrite E, elem_of_cons, elem_of_nil in H. by destruct H.
Defined.

(** The same host when the name of the process holding the port is not text in
    the encoding of the locale: [text=True] decodes strictly. *)
Definition undecodable_host : Host := {|
  open_socket := Ok ();
  bind _ port := if port =? 9090 then Raise OSError else Ok ();
  which _ := Some "/usr/bin/lsof";
  run _ := Raise (ValueError "UnicodeDecodeError");
|}.

(** Then the collision is not reported: the script dies in the lookup that is
    advisory only. *)
Theorem undecodable_holder_hides_collision :
  @binds undecodable_host prometheus_port = false ∧
  @main undecodable_host "lab" = ([], Raise (ValueError "UnicodeDecodeError")).
Proof. split; vm_compute; reflexivity. Qed.
