(* ===== verification/DocContract.v ===== *)
(** * The documentation gate (scripts/check_doc_contract.py)

    The checks on README.md, SPEC.md and every Markdown file of the repository.
    The three regular-expression uses are matchers on UTF-8 text.  The file
    system is the interface [Tree]; which characters beyond ASCII are word
    characters (the Unicode database) is the interface [WordText].  argparse
    hands [main] the resolved root, which the tree stands for. *)

From Stdlib Require Import Ascii.
From S2P Require Import Prelude PyStr PyValue.

Definition fence : string := "```".

Definition REQUIRED_SPEC_HEADINGS : list string :=
  ["## 0. Documentation contract";
   "## 11. Build prerequisites and operator inputs";
   "## 12. Executable implementation plan"].

Definition README_FORBIDDEN_TOKENS : list string :=
  [fence; "docker compose"; "SMOKEJUMPER__"; "SLACK_BOT_TOKEN"; "SLACK_APP_TOKEN";
   "LINEAR_API_KEY"; "localhost:"].

Definition EXCLUDED_DIRS : list string :=
  [".git"; ".venv"; "venv"; ".artifacts"; "node_modules"; "build"; "dist";
   ".pytest_cache"; ".ruff_cache"; ".uv-cache"; ".mypy_cache"].

(** ** [README_STATUS_PATTERN]: implemented, landed or outstanding as a word,
    "not yet" as words, or "status:" anywhere, in any case *)

Class WordText := {
  (** [chr(c).isalnum()] for a code point from 128 on *)
  isalnum : N → bool;
}.

Section status.
Context `{!WordText}.
Open Scope N_scope.

(** [\w] *)
Definition is_word (c : N) : bool :=
  if c <? 128 then
    ((48 <=? c) && (c <=? 57)) || ((65 <=? c) && (c <=? 90)) || (c =? 95) ||
    ((97 <=? c) && (c <=? 122))
  else isalnum c.

Definition word_next (s : string) : bool :=
  match next_char s with Some (c, _, _) => is_word c | None => false end.

(** [\b] between a character that is a word character or not and the text. *)
Definition boundary (prev : bool) (s : string) : bool := xorb prev (word_next s).

(** One lower-case letter of the pattern under [re.I]: what it matches and the
    rest.  U+0130 and U+0131 match "i", U+017F matches "s". *)
Definition ci_char (k : ascii) (s : string) : option (string * string) :=
  match s with
  | EmptyString => None
  | String a r =>
      if Ascii.eqb (lower_ascii a) k then Some (String a EmptyString, r) else
      match r with
      | EmptyString => None
      | String b r =>
          let x := byte_val a in let y := byte_val b in
          if (Ascii.eqb k "i" && (x =? 196) && ((y =? 176) || (y =? 177))) ||
             (Ascii.eqb k "s" && (x =? 197) && (y =? 191))
          then Some (String a (String b EmptyString), r) else None
      end
  end.

Fixpoint ci_match (w s : string) : option (string * string) :=
  match w with
  | EmptyString => Some (EmptyString, s)
  | String k w =>
      '(m, r) ← ci_char k s; '(m', r') ← ci_match w r; Some (m +:+ m', r')
  end.

(** [\bw\b]: every alternative ends in a word character. *)
Definition ci_words (prev : bool) (w s : string) : option string :=
  if boundary prev s then
    '(m, r) ← ci_match w s; if boundary true r then Some m else None
  else None.

(** The pattern at one position: the first alternative that matches. *)
Definition status_at (prev : bool) (s : string) : option string :=
  match ci_words prev "implemented" s with
  | Some m => Some m
  | None =>
      match ci_words prev "landed" s with
      | Some m => Some m
      | None =>
          match ci_words prev "outstanding" s with
          | Some m => Some m
          | None =>
              match ci_words prev "not yet" s with
              | Some m => Some m
              | None => fst <$> ci_match "status:" s
              end
          end
      end
  end.

(** [search(s)]: the leftmost match.  Every character takes at least one byte,
    so the length is enough fuel. *)
Fixpoint status_go (fuel : nat) (prev : bool) (s : string) : option string :=
  match status_at prev s with
  | Some m => Some m
  | None =>
      match fuel, next_char s with
      | S fuel, Some (c, _, r) => status_go fuel (is_word c) r
      | _, _ => None
      end
  end.
Definition status_search (s : string) : option string := status_go (String.length s) false s.
End status.

(** ** [MARKDOWN_LINK]: [!?(?:\[[^\]]*\])\(([^)]+)\)] *)

(** A match at the start of the text: the group and the text after it. *)
Definition match_link (s : string) : option (string * string) :=
  let s := match s with String "!" r => r | _ => s end in
  match s with
  | String "[" r =>
      match partition "]" r with
      | (_, true, String "(" r) =>
          match partition ")" r with
          | (target, true, r) => if nonempty target then Some (target, r) else None
          | _ => None
          end
      | _ => None
      end
  | _ => None
  end.

(** [findall(s)]: the groups of the leftmost matches that do not overlap.  Each
    turn drops at least one byte. *)
Fixpoint findall_go (fuel : nat) (s : string) : list string :=
  match fuel with
  | O => []
  | S fuel =>
      match match_link s, s with
      | Some (target, r), _ => target :: findall_go fuel r
      | None, String _ r => findall_go fuel r
      | None, EmptyString => []
      end
  end.
Definition findall (s : string) : list string := findall_go (S (String.length s)) s.

(** [text.count] of three backquotes: matches that do not overlap. *)
Fixpoint count_fences (s : string) : nat :=
  match s with
  | String a ((String b (String c r)) as s') =>
      if Ascii.eqb a "`" && Ascii.eqb b "`" && Ascii.eqb c "`" then S (count_fences r)
      else count_fences s'
  | _ => O
  end.

(** ** Link targets *)

(** The first word of text that does not start with whitespace. *)
Fixpoint take_word (s : string) : string :=
  match s with
  | EmptyString => EmptyString
  | String a r =>
      if ws1 a then EmptyString else
      match r with
      | String b r2 =>
          if ws2 a b then EmptyString else
          match r2 with
          | String c _ => if ws3 a b c then EmptyString else String a (take_word r)
          | EmptyString => String a (take_word r)
          end
      | EmptyString => String a (take_word r)
      end
  end.

(** [s.strip("<>")] *)
Fixpoint ltrim_angle (s : string) : string :=
  match s with
  | String a r => if Ascii.eqb a "<" || Ascii.eqb a ">" then ltrim_angle r else s
  | EmptyString => s
  end.
Definition strip_angle (s : string) : string :=
  String.rev (ltrim_angle (String.rev (ltrim_angle s))).

(** [raw_target.strip().split()[0].strip("<>")] *)
Definition link_target (raw : string) : result exn string :=
  match strip raw with
  | EmptyString => Raise IndexError
  | s => Ok (strip_angle (take_word s))
  end.

(** [not target or target.startswith(("http://", "https://", "mailto:", "#"))] *)
Definition not_local (target : string) : bool :=
  negb (nonempty target) || startswith target "http://" || startswith target "https://" ||
  startswith target "mailto:" || startswith target "#".

(** [target.split("#", 1)[0]] *)
Definition path_part (target : string) : string := (partition "#" target).1.1.

(** ** The tree *)

(** A path is its parts below the root. *)
Notation path := (list string).

Class Tree := {
  (** [(root / name).is_file()] *)
  is_file : string → result exn bool;
  (** [(root / path).read_text(encoding="utf-8")] *)
  read_text : path → result exn string;
  (** [root.rglob("*.md")], in the order the directory is read *)
  rglob_md : result exn (list path);
  (** [(root / path.parent / part).exists()] *)
  exists_beside : path → string → result exn bool;
}.

Definition is_ours (p : path) : bool := negb (existsb (λ part, bool_decide (part ∈ EXCLUDED_DIRS)) p).

(** The order of paths: by their parts. *)
Fixpoint path_le (p q : path) : Prop :=
  match p, q with
  | [], _ => True
  | _ :: _, [] => False
  | a :: p, b :: q => (a = b ∧ path_le p q) ∨ (a ≠ b ∧ String.le a b)
  end.
#[export] Instance path_le_dec : RelDecision path_le.
Proof. intros p. induction p as [|a p IH]; intros [|b q]; cbn; apply _. Defined.

Definition show_path (p : path) : string := join "/" p.

Section validate.
Context `{!Tree, !WordText, !PyText}.

Fixpoint link_errors (p : path) (targets : list string) : result exn (list string) :=
  match targets with
  | [] => Ok []
  | raw :: targets =>
      let? target := link_target raw in
      let? missing :=
        if not_local target then Ok false
        else if nonempty (path_part target)
        then let? found := exists_beside p (path_part target) in Ok (negb found)
        else Ok false in
      let? rest := link_errors p targets in
      Ok (if missing : bool
          then (show_path p +:+ " has missing local link target: " +:+ target) :: rest
          else rest)
  end.

Definition file_errors (p : path) : result exn (list string) :=
  if negb (is_ours p) then Ok [] else
  let? text := read_text p in
  let? links := link_errors p (findall text) in
  Ok (if Nat.odd (count_fences text)
      then (show_path p +:+ " has unbalanced code fences") :: links
      else links).

Definition token_errors (readme : string) : list string :=
  (λ token, "README.md contains forbidden normative token " +:+ repr_str token +:+
            "; link to SPEC.md instead") <$>
  filter (λ token, contains token readme = true) README_FORBIDDEN_TOKENS.

Definition status_errors (readme : string) : list string :=
  match status_search readme with
  | Some claim => ["README.md contains implementation-status language " +:+ repr_str claim +:+
                   "; link to SPEC.md §12 instead"]
  | None => []
  end.

Definition heading_errors (spec : string) : list string :=
  (λ heading, "SPEC.md is missing required heading: " +:+ heading) <$>
  filter (λ heading, contains heading spec = false) REQUIRED_SPEC_HEADINGS.

Definition validate : result exn (list string) :=
  let? has_readme := is_file "README.md" in
  let? has_spec := is_file "SPEC.md" in
  let errors := (if has_readme : bool then [] else ["README.md is missing"]) ++
                (if has_spec : bool then [] else ["SPEC.md is missing"]) in
  match errors with
  | _ :: _ => Ok errors
  | [] =>
      let? readme := read_text ["README.md"] in
      let? spec := read_text ["SPEC.md"] in
      let? paths := rglob_md in
      let? per_file := rmapM file_errors (sorted path_le paths) in
      Ok (token_errors readme ++ status_errors readme ++ heading_errors spec ++ concat per_file)
  end.

(** [main]: the lines printed and the exit code. *)
Definition main : result exn (list string * Z) :=
  let? errors := validate in
  match errors with
  | [] => Ok (["documentation contract: PASS"], 0%Z)
  | _ => Ok (((λ e, "ERROR: " +:+ e) <$> errors) ++
             ["documentation contract: FAIL (" +:+ str_int (Z.of_nat (length errors)) +:+
              " error(s))"], 1%Z)
  end.
End validate.

(** ** The order of paths *)

#[export] Instance path_le_po : PartialOrder path_le.
Proof.
  split; [split|].
  - intros p. induction p as [|a p IH]; cbn; [done|]. by left.
  - intros p. induction p as [|a p IH]; intros [|b q] [|c r]; cbn; try done.
    intros [[-> H1]|[N1 H1]] [[-> H2]|[N2 H2]].
    + left. split; [done|]. by eapply IH.
    + by right.
    + by right.
    + right. split; [|by trans b]. intros ->. by apply N1, (anti_symm String.le).
  - intros p. induction p as [|a p IH]; intros [|b q]; cbn; try done.
    intros [[-> H1]|[N1 H1]] [[E2 H2]|[N2 H2]]; try done.
    + f_equal. by apply IH.
    + exfalso. by apply N1, (anti_symm String.le).
Qed.

#[export] Instance path_le_total : Total path_le.
Proof.
  intros p. induction p as [|a p IH]; intros [|b q]; cbn; auto.
  destruct (decide (a = b)) as [->|Hn].
  - destruct (IH q); tauto.
  - destruct (total String.le a b); naive_solver.
Qed.

(** ** What the link pattern finds *)

(** [s] starts with a link to [t], and [r] follows it. *)
Definition link_at (s t r : string) : Prop :=
  ∃ bang label, (bang = EmptyString ∨ bang = "!") ∧
    has_char "]" label = false ∧ t ≠ EmptyString ∧ has_char ")" t = false ∧
    s = bang +:+ String "[" (label +:+ String "]" (String "(" (t +:+ String ")" r))).

(** The targets of the leftmost links that do not overlap. *)
Inductive found_links : string → list string → Prop :=
| FoundEnd : found_links EmptyString []
| FoundSkip a s l :
    (∀ t r, ¬ link_at (String a s) t r) → found_links s l → found_links (String a s) l
| FoundLink s t r l : link_at s t r → found_links r l → found_links s (t :: l).

Lemma match_link_iff s t r : match_link s = Some (t, r) ↔ link_at s t r.
Proof.
  assert (Hb : ∀ s', (match s' with String "[" q =>
      match partition "]" q with
      | (_, true, String "(" q) =>
          match partition ")" q with
          | (target, true, q) => if nonempty target then Some (target, q) else None
          | _ => None end
      | _ => None end
    | _ => None end) = Some (t, r) ↔
    ∃ label, has_char "]" label = false ∧ t ≠ EmptyString ∧ has_char ")" t = false ∧
      s' = String "[" (label +:+ String "]" (String "(" (t +:+ String ")" r)))).
  { intros s'. split.
    - destruct s' as [|a q]; [done|]. destruct (decide (a = "["%char)) as [->|]; [|by intros; repeat case_match].
      destruct (partition "]" q) as [[label f] q2] eqn:E1. destruct f; [|done].
      apply partition_true in E1 as [-> H1].
      destruct q2 as [|b q2]; [done|]. destruct (decide (b = "("%char)) as [->|]; [|by intros; repeat case_match].
      destruct (partition ")" q2) as [[u f] q3] eqn:E2. destruct f; [|done].
      apply partition_true in E2 as [-> H2].
      destruct (nonempty u) eqn:Hu; [|done]. intros [= -> ->]. apply nonempty_true in Hu.
      by exists label.
    - intros (label & Hl & Ht & Ht' & ->). cbn.
      rewrite (proj2 (partition_true "]" _ label (String "(" (t +:+ String ")" r))) (conj eq_refl Hl)).
      rewrite (proj2 (partition_true ")" _ t r) (conj eq_refl Ht')).
      by rewrite (proj2 (nonempty_true t) Ht). }
  unfold match_link, link_at. rewrite Hb. clear Hb. split.
  - intros (label & Hl & Ht & Ht' & E). destruct s as [|a s]; [done|].
    destruct (decide (a = "!"%char)) as [->|Hn].
    + exists "!", label. rewrite app_cons_str, app_nil_str. subst s. auto 6.
    + exists EmptyString, label. rewrite app_nil_str. split; [by left|].
      assert (match String a s with String "!" r0 => r0 | _ => String a s end = String a s) as Hs
        by (repeat case_match; by simplify_eq).
      rewrite Hs in E. done.
  - intros (bang & label & [->| ->] & Hl & Ht & Ht' & ->); exists label; auto 6.
Qed.

Lemma link_at_shorter s t r : link_at s t r → (String.length r < String.length s)%nat.
Proof.
  intros (bang & label & _ & _ & _ & _ & ->).
  rewrite length_app_str; cbn; rewrite length_app_str; cbn; rewrite length_app_str; cbn. lia.
Qed.

Lemma findall_go_found fuel s :
  (String.length s < fuel)%nat → found_links s (findall_go fuel s).
Proof.
  revert s. induction fuel as [|fuel IH]; intros s Hf; [lia|]. cbn [findall_go].
  destruct (match_link s) as [[t r]|] eqn:E.
  - apply match_link_iff in E. apply FoundLink with r; [done|]. apply IH.
    apply link_at_shorter in E. lia.
  - destruct s as [|a s]; [constructor|]. constructor.
    + intros t r Hl%match_link_iff. congruence.
    + apply IH. cbn in Hf. lia.
Qed.

Lemma link_at_inj s t r t' r' : link_at s t r → link_at s t' r' → t = t' ∧ r = r'.
Proof. intros H1%match_link_iff H2%match_link_iff. rewrite H1 in H2. by injection H2 as -> ->. Qed.

Lemma found_links_inj s l l' : found_links s l → found_links s l' → l = l'.
Proof.
  intros Hl. revert l'. induction Hl as [|a s l Hno Hl IH|s t r l Hat Hl IH]; intros l' Hl'.
  - inversion Hl' as [| |s' t r k Hat]; [done|]. subst. apply link_at_shorter in Hat. cbn in Hat. lia.
  - inversion Hl' as [|a' s' k _ Hk|s' t r k Hat]; subst; [by apply IH|]. by destruct (Hno t r).
  - inversion Hl' as [|a' s' k Hno Hk|s' t' r' k Hat' Hk]; subst.
    + apply link_at_shorter in Hat. cbn in Hat. lia.
    + by destruct (Hno t r).
    + destruct (link_at_inj _ _ _ _ _ Hat Hat') as [<- <-]. f_equal. by apply IH.
Qed.

(** C38. The search for links ends and is exact: with the fuel it is given it
    returns the targets of the leftmost links that do not overlap, in order,
    and nothing else is such a list. *)
Theorem findall_exact s l : findall s = l ↔ found_links s l.
Proof.
  assert (found_links s (findall s)) as Hf by (apply findall_go_found; lia).
  split; [by intros <-|]. by apply found_links_inj.
Qed.

(** ** What the gate accepts *)

Lemma rmapM_concat_nil {A} (f : A → result exn (list string)) l :
  (∃ ys, rmapM f l = Ok ys ∧ concat ys = []) ↔ ∀ x, x ∈ l → f x = Ok [].
Proof.
  split.
  - intros (ys & Hy%rmapM_Ok & Hc) x Hx.
    apply list_elem_of_lookup in Hx as [i Hi].
    destruct (Forall2_lookup_l _ _ _ _ _ Hy Hi) as (y & Hyi & Hfx).
    assert (y ∈ ys) as Hin by (by eapply list_elem_of_lookup_2). rewrite Hfx. f_equal.
    clear -Hc Hin. induction ys as [|z ys IH]; [by apply not_elem_of_nil in Hin|].
    cbn in Hc. apply app_eq_nil in Hc as [-> Hc]. apply elem_of_cons in Hin as [->|]; auto.
  - intros H. exists ((λ _, []) <$> l). split.
    + apply rmapM_Ok. rewrite Forall2_fmap_r. apply Forall_Forall2_diag, list.Forall_forall. auto.
    + clear. by induction l.
Qed.

Section accepts.
Context `{!Tree, !WordText, !PyText}.

Definition link_fine (p : path) (raw : string) : Prop :=
  ∃ target, link_target raw = Ok target ∧
    (not_local target = true ∨ path_part target = EmptyString ∨
     exists_beside p (path_part target) = Ok true).

Definition file_fine (p : path) : Prop :=
  ∃ text, read_text p = Ok text ∧ Nat.odd (count_fences text) = false ∧
    ∀ raw, raw ∈ findall text → link_fine p raw.

Lemma link_errors_nil p targets :
  link_errors p targets = Ok [] ↔ ∀ raw, raw ∈ targets → link_fine p raw.
Proof.
  induction targets as [|raw l IH].
  - split; [|done]. by intros _ raw Hn%not_elem_of_nil.
  - transitivity (link_fine p raw ∧ link_errors p l = Ok []).
    2: { rewrite IH. split.
         - intros [Hone Hmore] x [->|Hx]%elem_of_cons; auto.
         - intros Hall. split; [apply Hall; left|]. intros x Hx. apply Hall. by right. }
    cbn [link_errors]. unfold link_fine. split.
    + intros (target & Ht & (missing & Hm & (rest & Hr & E)%rbind_Ok)%rbind_Ok)%rbind_Ok.
      destruct missing; [done|]. injection E as ->. split; [|done]. exists target.
      split; [done|]. destruct (not_local target); [by left|]. right.
      destruct (nonempty (path_part target)) eqn:En.
      * right. apply rbind_Ok in Hm as (found & Hf & E). by destruct found.
      * left. by destruct (path_part target).
    + intros [(target & -> & Hok) ->]. cbn.
      destruct (not_local target); [done|]. destruct Hok as [|[->|Hex]]; [done..|].
      destruct (nonempty _); [|done]. by rewrite Hex.
Qed.

Lemma file_errors_nil p : file_errors p = Ok [] ↔ (is_ours p = true → file_fine p).
Proof.
  unfold file_errors, file_fine. destruct (is_ours p); [|done]. cbn [negb]. split.
  - intros (text & Ht & (links & Hl & E)%rbind_Ok)%rbind_Ok _. exists text.
    destruct (Nat.odd _); [done|]. injection E as ->. split; [done|]. split; [done|].
    by apply link_errors_nil.
  - intros Hfine. destruct (Hfine eq_refl) as (text & -> & Hf & Hl). cbn [rbind].
    rewrite (proj2 (link_errors_nil p _) Hl). cbn [rbind]. by rewrite Hf.
Qed.

(** The contract of the documents, as the script's docstring and messages state it. *)
Definition compliant : Prop :=
  is_file "README.md" = Ok true ∧ is_file "SPEC.md" = Ok true ∧
  ∃ readme spec paths,
    read_text ["README.md"] = Ok readme ∧ read_text ["SPEC.md"] = Ok spec ∧ rglob_md = Ok paths ∧
    (∀ token, token ∈ README_FORBIDDEN_TOKENS → contains token readme = false) ∧
    status_search readme = None ∧
    (∀ heading, heading ∈ REQUIRED_SPEC_HEADINGS → contains heading spec = true) ∧
    ∀ p, p ∈ paths → is_ours p = true → file_fine p.

(** C37. The gate passes exactly the repositories that keep the contract: both
    documents are there, the README has no forbidden token and no status claim,
    the SPEC has its headings, and every Markdown file of ours has balanced
    fences and only links whose local targets exist. *)
Theorem gate_exact : main = Ok (["documentation contract: PASS"], 0%Z) ↔ compliant.
Proof.
  transitivity (validate = Ok []).
  { unfold main. destruct validate as [[|e l]|e]; cbn; split; intros He; try done; by injection He. }
  unfold validate, compliant. split.
  - intros (b1 & Hb1 & (b2 & Hb2 & E)%rbind_Ok)%rbind_Ok. destruct b1, b2; try done. cbn [app] in E.
    split; [done|]. split; [done|].
    apply rbind_Ok in E as (readme & Hr & (spec & Hs & (paths & Hp & (pf & Hf & E)%rbind_Ok)%rbind_Ok)%rbind_Ok).
    apply Ok_inj in E. apply app_eq_nil in E as [E1 [E2 [E3 E4]%app_eq_nil]%app_eq_nil].
    exists readme, spec, paths. do 3 (split; [done|]). split; [|split; [|split]].
    + apply fmap_nil_inv in E1. intros t Ht. destruct (contains t readme) eqn:Hc; [|done].
      by destruct (proj1 (filter_none _ _) E1 t Ht).
    + unfold status_errors in E2. by destruct (status_search readme).
    + apply fmap_nil_inv in E3. intros t Ht. destruct (contains t spec) eqn:Hc; [done|].
      by destruct (proj1 (filter_none _ _) E3 t Ht).
    + intros p Hin. apply file_errors_nil. eapply rmapM_concat_nil; [by exists pf|].
      by apply elem_of_sorted.
  - intros (-> & -> & readme & spec & paths & -> & -> & -> & Ht & Hst & Hh & Hp). cbn [rbind app].
    destruct (proj2 (rmapM_concat_nil file_errors (sorted path_le paths))) as (pf & -> & Hc).
    { intros p Hin%elem_of_sorted. apply file_errors_nil. auto. }
    cbn [rbind]. rewrite Hc. unfold token_errors, status_errors, heading_errors. rewrite Hst.
    rewrite (proj2 (filter_none _ README_FORBIDDEN_TOKENS)) by (intros t Hin; rewrite (Ht t Hin); done).
    rewrite (proj2 (filter_none _ REQUIRED_SPEC_HEADINGS)) by (intros t Hin; rewrite (Hh t Hin); done).
    done.
Qed.
End accepts.

(** The answer does not depend on the order in which the directory lists its
    files. *)
Theorem gate_order_independent `{!WordText, !PyText} files texts beside ps qs :
  ps ≡ₚ qs →
  @main (Build_Tree files texts (Ok ps) beside) _ _ =
  @main (Build_Tree files texts (Ok qs) beside) _ _.
Proof.
  intros Hp. unfold main. f_equal. unfold validate. cbn [is_file read_text rglob_md rbind].
  by rewrite (sorted_proper path_le ps qs Hp).
Qed.

(** ** The status search covers the text *)

Section search.
Context `{!WordText}.

(** The text left, and whether a word character precedes it, after some
    characters of [s] were passed. *)
Inductive passed : bool → string → bool → string → Prop :=
| PassedNone prev s : passed prev s prev s
| PassedOne prev s c bytes r prev' s' :
    next_char s = Some (c, bytes, r) → passed (is_word c) r prev' s' → passed prev s prev' s'.

Lemma next_char_shorter s c bytes r :
  next_char s = Some (c, bytes, r) → (String.length r < String.length s)%nat.
Proof.
  unfold next_char. intros Hn. repeat (case_match; try done; subst); simplify_eq; cbn; lia.
Qed.

(** The search misses nothing: it finds no claim exactly when the pattern
    matches at no character of the text. *)
Theorem status_search_exact s :
  status_search s = None ↔ ∀ prev' s', passed false s prev' s' → status_at prev' s' = None.
Proof.
  unfold status_search.
  enough (∀ fuel prev s, (String.length s ≤ fuel)%nat →
    status_go fuel prev s = None ↔ ∀ prev' s', passed prev s prev' s' → status_at prev' s' = None)
    as Hgo by (apply Hgo; lia).
  clear s. induction fuel as [|fuel IH]; intros prev s Hf; cbn [status_go].
  - destruct s; [|cbn in Hf; lia]. destruct (status_at prev EmptyString) eqn:E.
    + split; [done|]. intros Hall. specialize (Hall _ _ (PassedNone _ _)). congruence.
    + split; [|done]. intros _ p s' Hp. inversion Hp as [|? ? ? ? ? ? ? Hn]; subst; [done|].
      by cbn in Hn.
  - destruct (status_at prev s) as [m|] eqn:E.
    { split; [done|]. intros Hall. specialize (Hall _ _ (PassedNone _ _)). congruence. }
    destruct (next_char s) as [[[c bytes] r]|] eqn:En.
    + rewrite IH by (apply next_char_shorter in En; lia). split; intros Hall p s' Hp.
      * inversion Hp as [|? ? c' b' r' ? ? Hn Hr]; subst; [done|].
        rewrite En in Hn. injection Hn as <- <- <-. by apply Hall.
      * apply Hall. by eapply PassedOne.
    + split; [|done]. intros _ p s' Hp. inversion Hp as [|? ? ? ? ? ? ? Hn]; subst; [done|].
      congruence.
Qed.
End search.

(** ** A small repository *)

#[local] Instance ascii_words : WordText := {| isalnum _ := false |}.
#[local] Existing Instance ascii_text.

Definition sample_tree (doc : string) : Tree := {|
  is_file _ := Ok true;
  read_text p :=
    if bool_decide (p = ["README.md"]) then Ok "Smokejumper, see [the spec](SPEC.md#0)."
    else if bool_decide (p = ["SPEC.md"]) then Ok (join " " REQUIRED_SPEC_HEADINGS)
    else Ok doc;
  rglob_md := Ok [["docs"; "a.md"]; ["SPEC.md"]; ["build"; "vendored.md"]; ["README.md"]];
  exists_beside _ part := Ok (bool_decide (part = "SPEC.md"));
|}.

Example sample_passes : @main (sample_tree "plain") _ _ = Ok (["documentation contract: PASS"], 0%Z).
Proof. vm_compute. reflexivity. Qed.

Example sample_missing_target :
  @main (sample_tree "![a](<gone.png> 'title') and ```") _ _ =
  Ok (["ERROR: docs/a.md has unbalanced code fences";
       "ERROR: docs/a.md has missing local link target: gone.png";
       "documentation contract: FAIL (2 error(s))"], 1%Z).
Proof. vm_compute. reflexivity. Qed.

(** "Status:" and words with a letter of another case or alphabet are seen; a
    word inside a longer one is not. *)
Example sample_status :
  status_search "It is Not Yet done" = Some "Not Yet" ∧
  status_search "reimplemented, landed_ and Status : ok" = None.
Proof. vm_compute. done. Qed.

(** A link whose target is only whitespace stops the gate with an IndexError
    instead of an error about the file. *)
Theorem blank_target_crashes :
  @main (sample_tree "[empty]( )") _ _ = Raise IndexError.
Proof. vm_compute. reflexivity. Qed.
