(* ===== verification/RenderSvg.v ===== *)
(** * The Mermaid renderer (scripts/render_architecture.py)

    The script runs mermaid-cli on a source and post-processes the SVG it
    wrote.  The file system and the subprocess are the interface [Shell]; paths
    are absolute POSIX paths as text. *)

From Stdlib Require Import Ascii.
From S2P Require Import Prelude PyStr Json PyValue.

Class Shell := {
  (** [ROOT], the repository *)
  ROOT : string;
  (** [str(Path(p).resolve())] *)
  resolve : string → result exn string;
  (** [which("npx")] *)
  which_npx : option string;
  (** [subprocess.run(argv, cwd=ROOT, check=True)] *)
  run : list string → result exn ();
  (** [Path(p).read_text(encoding="utf-8")] *)
  read_text : string → result exn string;
}.

(** ** The suffix of a path *)

(** The text after the last [sep], and the text up to and with it. *)
Fixpoint rsplit (sep : ascii) (s : string) : option (string * string) :=
  match s with
  | EmptyString => None
  | String a r =>
      match rsplit sep r with
      | Some (x, y) => Some (String a x, y)
      | None => if Ascii.eqb a sep then Some (String a EmptyString, r) else None
      end
  end.

(** The parent, with its slash, and the name. *)
Definition path_name (p : string) : string * string :=
  default (EmptyString, p) (rsplit "/" p).

(** [name] without its suffix: a suffix starts at the last dot, which is neither
    the first nor the last character. *)
Definition stem (name : string) : string :=
  match rsplit "." name with
  | Some (x, y) =>
      let x := String.substring 0 (String.length x - 1) x in
      if nonempty x && nonempty y then x else name
  | None => name
  end.

(** [source.with_suffix(".svg")] *)
Definition with_svg (p : string) : result exn string :=
  let '(parent, name) := path_name p in
  if nonempty name then Ok (parent +:+ stem name +:+ ".svg")
  else Raise (ValueError "has an empty name").

(** ** Post-processing *)

Definition q (s : string) : string := String dquote (s +:+ String dquote EmptyString).

Definition marker : string := "<svg id=" +:+ q "my-svg".
Definition marked : string := "<svg xml:space=" +:+ q "preserve" +:+ " id=" +:+ q "my-svg".
Definition background : string :=
  "<rect width=" +:+ q "100%" +:+ " height=" +:+ q "100%" +:+ " fill=" +:+ q "#fff" +:+ "/>".

(** [s.replace(old, new, 1)] *)
Fixpoint replace_first (old new s : string) : string :=
  match strip_prefix old s with
  | Some r => new +:+ r
  | None => match s with EmptyString => EmptyString | String a r => String a (replace_first old new r) end
  end.

Definition post_process (rendered : string) : result exn string :=
  if negb (contains marker rendered)
  then Raise (RuntimeError "Mermaid output root changed; refusing an unverified post-process")
  else
    let rendered := replace_first marker marked rendered in
    (* rendered.index(">") *)
    match partition ">" rendered with
    | (_, false, _) => Raise (ValueError "substring not found")
    | (before, true, after) =>
        let rendered := before +:+ ">" +:+ background +:+ after in
        if endswith (rstrip rendered) "</svg>" then Ok rendered
        else Raise (RuntimeError "Mermaid output is not a complete SVG document")
    end.

(** [main]: the path written and the text written to it. *)
Definition main `{!Shell} (args : list string) : result exn (string * string) :=
  let? source := match args with
                 | arg :: _ => resolve arg
                 | [] => Ok (ROOT +:+ "/architecture/system/c2-containers.mmd")
                 end in
  let? output := with_svg source in
  match which_npx with
  | None => Raise (RuntimeError "npx is required to render the Mermaid architecture")
  | Some npx =>
      let? _ := run [npx; "-y"; "@mermaid-js/mermaid-cli"; "-i"; source; "-o"; output; "-b"; "white"] in
      let? rendered := read_text output in
      let? text := post_process rendered in
      Ok (output, text)
  end.

(** ** What is written *)

Lemma strip_prefix_app p r : strip_prefix p (p +:+ r) = Some r.
Proof. by apply strip_prefix_Some. Qed.

Lemma replace_first_head old new r : replace_first old new (old +:+ r) = new +:+ r.
Proof.
  destruct (old +:+ r) as [|a s] eqn:E; cbn [replace_first]; rewrite <-E, strip_prefix_app; done.
Qed.

Lemma contains_head p r : contains p (p +:+ r) = true.
Proof.
  destruct (p +:+ r) as [|a s] eqn:E; cbn [contains]; rewrite <-E;
    rewrite (proj2 (startswith_true _ _)); [done|by exists r|done|by exists r].
Qed.

Lemma has_char_app a x y : has_char a x = false → has_char a y = false → has_char a (x +:+ y) = false.
Proof.
  induction x as [|b x IH]; [done|]. rewrite app_cons_str. cbn.
  intros [-> Hx]%orb_false_iff Hy. by apply IH.
Qed.

Lemma partition_char_free sep x y :
  has_char sep x = false → partition sep (x +:+ String sep y) = (x, true, y).
Proof. intros Hx. by apply partition_true. Qed.

Lemma complete_svg x : endswith (rstrip (x +:+ "</svg>")) "</svg>" = true.
Proof.
  unfold endswith, rstrip. rewrite rev_str_app.
  assert (∀ y, drop_ws (λ a b, ws2 b a) (λ a b c, ws3 c b a) (String.rev "</svg>" +:+ y)
            = String.rev "</svg>" +:+ y) as -> by done.
  rewrite rev_str_involutive. apply startswith_true. by eexists.
Qed.

(** On a complete SVG whose first tag is the root mermaid-cli writes, the
    script marks the root as space-preserving, puts the white background
    directly after it and changes nothing else. *)
Theorem post_process_exact attrs body :
  has_char ">" attrs = false →
  post_process (marker +:+ attrs +:+ ">" +:+ body +:+ "</svg>") =
  Ok (marked +:+ attrs +:+ ">" +:+ background +:+ body +:+ "</svg>").
Proof.
  intros Ha. unfold post_process. rewrite contains_head, replace_first_head. cbn [negb].
  assert (marked +:+ attrs +:+ ">" +:+ body +:+ "</svg>" =
          (marked +:+ attrs) +:+ String ">" (body +:+ "</svg>")) as -> by (by rewrite app_str_assoc).
  rewrite partition_char_free by (apply (has_char_app ">" marked); done).
  assert ((marked +:+ attrs) +:+ ">" +:+ background +:+ body +:+ "</svg>" =
          (marked +:+ attrs +:+ ">" +:+ background +:+ body) +:+ "</svg>") as ->
    by (by rewrite !app_str_assoc).
  rewrite complete_svg. by rewrite !app_str_assoc.
Qed.
