(* ===== verification/Lifespan.v ===== *)
(** * Start and stop of the process (app.py, worker.py, receiver/delivery.py)

    The lifespan of the application and the two context managers that run the
    outbox loop and the worker beside it.  Code is a computation that leaves a
    trace of what it did and returns or raises; how each awaited call ends is
    given by [Outcomes]. *)

From S2P Require Import Prelude.

Inductive task := OutboxTask | WorkerTask.

Inductive act :=
| Spawn (t : task)      (* asyncio.create_task *)
| Publish (t : task)    (* state[...] = handle *)
| Serve                 (* the body of the lifespan *)
| DisposeEngine         (* await engine.dispose() *)
| CloseRedis            (* await redis.aclose() *)
| Cancel (t : task)     (* task.cancel() *)
| Join (t : task).      (* await task *)

Class Outcomes := {
  serving : result exn ();
  disposing : result exn ();
  closing : result exn ();
  (** How the task ends once cancelled: [CancelledError] when it stopped at the
      cancellation, another exception when it had died of it before, a value
      when it had returned. *)
  joining : task → result exn ();
}.

(** ** Computations with a trace *)

Definition T (A : Type) : Type := list act * result exn A.

Definition tret {A} (a : A) : T A := ([], Ok a).
Definition tact (a : act) (r : result exn ()) : T () := ([a], r).
Definition tbind {A B} (m : T A) (k : A → T B) : T B :=
  match m with
  | (l, Ok a) => let '(l', r) := k a in (l ++ l', r)
  | (l, Raise e) => (l, Raise e)
  end.
Notation "m >>> k" := (tbind m (λ _, k)) (at level 60, right associativity) : smoke_scope.

(** [try: body finally: last] *)
Definition tfinally {A} (body : T A) (last : T ()) : T A :=
  let '(l, r) := body in
  match last with
  | (l', Ok _) => (l ++ l', r)
  | (l', Raise e) => (l ++ l', Raise e)
  end.

(** [with suppress(CancelledError): body] *)
Definition suppress_cancelled (body : T ()) : T () :=
  match body with
  | (l, Raise CancelledError) => (l, Ok ())
  | m => m
  end.

Section lifespan.
Context `{!Outcomes}.

(** [outbox_task] and [worker_task] around the code that runs in them. *)
Definition background_task {A} (t : task) (body : T A) : T A :=
  tact (Spawn t) (Ok ()) >>>
  tfinally body (tact (Cancel t) (Ok ()) >>> suppress_cancelled (tact (Join t) (joining t))).

Definition outbox_task {A} (body : T A) : T A := background_task OutboxTask body.
Definition worker_task {A} (body : T A) : T A := background_task WorkerTask body.

Definition lifespan : T () :=
  outbox_task (worker_task (
    tact (Publish OutboxTask) (Ok ()) >>>
    tact (Publish WorkerTask) (Ok ()) >>>
    tfinally (tact Serve serving)
      (tact DisposeEngine disposing >>> tact CloseRedis closing))).

(** ** What every stop does *)

(** The exception a joined task passes on. *)
Definition task_error (t : task) : option exn :=
  match joining t with
  | Ok _ | Raise CancelledError => None
  | Raise e => Some e
  end.

Definition error_of {A} (r : result exn A) : option exn :=
  match r with Ok _ => None | Raise e => Some e end.

(** The first of several exceptions, the latest first. *)
Fixpoint first_error (l : list (option exn)) : option exn :=
  match l with
  | [] => None
  | Some e :: _ => Some e
  | None :: l => first_error l
  end.

Lemma background_eq {A} t (l : list act) (r : result exn A) :
  background_task t (l, r) =
  (Spawn t :: l ++ [Cancel t; Join t],
   match task_error t with Some e => Raise e | None => r end).
Proof.
  unfold background_task, task_error. cbn.
  by destruct (joining t) as [|[]].
Qed.

(** C35. A stop always ends both tasks.  However serving, closing the pools and the
    tasks end, the trace is the same: both tasks are started, outbox first, and
    published before a request is served; the engine is disposed and then the
    Redis client closed (unless disposing raised); then the worker and, last,
    the outbox task are cancelled and awaited.  The stop raises exactly when
    one of these did, cancellation of a task apart, and then the last
    exception. *)
Theorem stop_ends_both_tasks :
  lifespan =
  ([Spawn OutboxTask; Spawn WorkerTask; Publish OutboxTask; Publish WorkerTask; Serve] ++
   DisposeEngine :: (if is_ok disposing then [CloseRedis] else []) ++
   [Cancel WorkerTask; Join WorkerTask; Cancel OutboxTask; Join OutboxTask],
   match first_error [task_error OutboxTask; task_error WorkerTask;
                      (if is_ok disposing then error_of closing else None);
                      error_of disposing; error_of serving] with
   | Some e => Raise e
   | None => Ok ()
   end).
Proof.
  unfold lifespan, outbox_task, worker_task.
  assert ((tact (Publish OutboxTask) (Ok ()) >>> tact (Publish WorkerTask) (Ok ()) >>>
    tfinally (tact Serve serving) (tact DisposeEngine disposing >>> tact CloseRedis closing)) =
    ([Publish OutboxTask; Publish WorkerTask; Serve; DisposeEngine] ++
       (if is_ok disposing then [CloseRedis] else []),
     match first_error [(if is_ok disposing then error_of closing else None);
                        error_of disposing; error_of serving] with
     | Some e => Raise e | None => Ok () end)) as ->.
  { by destruct serving as [[]|?], disposing as [[]|?], closing as [[]|?]. }
  rewrite !background_eq. cbn [first_error].
  destruct (task_error OutboxTask), (task_error WorkerTask); by destruct (is_ok disposing).
Qed.
End lifespan.

(** The pools are closed while the two tasks that use them still run: they are
    cancelled only after the engine was disposed and the client closed. *)
Theorem pools_close_before_tasks `{!Outcomes} :
  disposing = Ok () →
  ∃ before after, lifespan.1 = before ++ CloseRedis :: after ∧
    Spawn WorkerTask ∈ before ∧ Cancel WorkerTask ∈ after ∧ Cancel OutboxTask ∈ after ∧
    Cancel WorkerTask ∉ before ∧ Cancel OutboxTask ∉ before.
Proof.
  intros Hd.
  exists [Spawn OutboxTask; Spawn WorkerTask; Publish OutboxTask; Publish WorkerTask; Serve;
          DisposeEngine], [Cancel WorkerTask; Join WorkerTask; Cancel OutboxTask; Join OutboxTask].
  split.
  - unfold lifespan. rewrite Hd. unfold outbox_task, worker_task. cbn -[background_task].
    destruct serving, closing; cbn -[background_task]; rewrite !background_eq; done.
  - repeat split; rewrite ?elem_of_cons, ?elem_of_nil; intuition congruence.
Qed.
