(* ===== verification/PyFloat.v ===== *)
(** * Python numbers

    Integers and binary64 floats as the drawing code mixes them.  A float is an
    exact dyadic number [m * 2^e]; every operation rounds the exact result to 53
    bits, ties to even.  The numbers here are screen coordinates, so overflow,
    subnormals and the sign of zero are outside the model.  [repr] gives the
    shortest decimal that reads back as the same float. *)

From Stdlib Require Import Ascii.
From S2P Require Import Prelude PyStr PyTime.

Open Scope Z_scope.

Inductive num :=
| Int (z : Z)
| Flt (m e : Z).

(** The float nearest to [m * 2^e]. *)
Definition round_fl (m e : Z) : num :=
  if m =? 0 then Flt 0 0 else
  let '(q, x) := round_ratio (Z.abs m * 2 ^ Z.max 0 e) (2 ^ Z.max 0 (- e)) in
  Flt (Z.sgn m * q) x.

(** The number as [m * 2^e]. *)
Definition dyadic (n : num) : Z * Z := match n with Int z => (z, 0) | Flt m e => (m, e) end.

(** An operand as a float. *)
Definition to_float (n : num) : Z * Z :=
  match n with Int z => dyadic (round_fl z 0) | Flt m e => (m, e) end.

Definition add_dyadic (a b : Z * Z) : Z * Z :=
  let e := Z.min a.2 b.2 in (a.1 * 2 ^ (a.2 - e) + b.1 * 2 ^ (b.2 - e), e).

Definition nadd (a b : num) : num :=
  match a, b with
  | Int x, Int y => Int (x + y)
  | _, _ => let '(m, e) := add_dyadic (to_float a) (to_float b) in round_fl m e
  end.

Definition nneg (a : num) : num := match a with Int z => Int (- z) | Flt m e => Flt (- m) e end.
Definition nsub (a b : num) : num := nadd a (nneg b).

Definition nmul (a b : num) : num :=
  match a, b with
  | Int x, Int y => Int (x * y)
  | _, _ => let '(m, e) := to_float a in let '(m', e') := to_float b in round_fl (m * m') (e + e')
  end.

(** [n / 2], always a float *)
Definition nhalf (n : num) : num :=
  match n with Int z => round_fl z (-1) | Flt m e => Flt m (e - 1) end.

(** Numbers compare by their exact values. *)
Definition ncompare (a b : num) : comparison :=
  let '(m, _) := add_dyadic (dyadic a) (dyadic (nneg b)) in m ?= 0.
Definition nltb (a b : num) : bool := match ncompare a b with Lt => true | _ => false end.
Definition neqb (a b : num) : bool := match ncompare a b with Eq => true | _ => false end.

(** [min(a, b)] *)
Definition nmin (a b : num) : num := if nltb b a then b else a.

Declare Scope num_scope.
Delimit Scope num_scope with num.
Infix "+" := nadd : num_scope.
Infix "-" := nsub : num_scope.
Infix "*" := nmul : num_scope.

(** ** Printing *)

(** [10^(d-1) <= a/b < 10^d] for a positive ratio *)
Fixpoint small_decpt (fuel : nat) (d a b : Z) : Z :=
  match fuel with
  | O => d
  | S fuel => if a * 10 <? b then small_decpt fuel (d - 1) (a * 10) b else d
  end.
Definition decpt (a b : Z) : Z :=
  if b <=? a then Z.of_nat (String.length (str_int (a / b))) else small_decpt 400 0 a b.

Definition div_half_even (a b : Z) : Z :=
  let q := a / b in let r := a mod b in
  if (b <? 2 * r) || ((2 * r =? b) && Z.odd q) then q + 1 else q.

Definition same_double (f g : Z * Z) : bool :=
  let '(m, _) := add_dyadic f (- g.1, g.2) in m =? 0.

(** The first of 1 to 17 digits that reads back: the digits and the point. *)
Fixpoint shortest (fuel : nat) (p d a b : Z) : Z * Z :=
  let n := div_half_even (a * 10 ^ Z.max 0 (p - d)) (b * 10 ^ Z.max 0 (d - p)) in
  let r := if n =? 10 ^ p then (n / 10, d + 1) else (n, d) in
  match fuel with
  | O => r
  | S fuel =>
      if same_double (round_ratio (n * 10 ^ Z.max 0 (d - p)) (10 ^ Z.max 0 (p - d)))
                     (round_ratio a b)
      then r else shortest fuel (p + 1) d a b
  end.

Definition zeros (n : Z) : string := Nat.iter (Z.to_nat n) (String "0"%char) EmptyString.

Definition float_repr (m e : Z) : string :=
  if m =? 0 then "0.0" else
  let a := Z.abs m * 2 ^ Z.max 0 e in let b := 2 ^ Z.max 0 (- e) in
  let '(n, d) := shortest 16 1 (decpt a b) a b in
  let ds := str_int n in
  let p := Z.of_nat (String.length ds) in
  (if m <? 0 then "-" else EmptyString) +:+
  if (-4 <? d) && (d <=? 16) then
    if d <=? 0 then "0." +:+ zeros (- d) +:+ ds
    else if p <=? d then ds +:+ zeros (d - p) +:+ ".0"
    else String.substring 0 (Z.to_nat d) ds +:+ "." +:+
         String.substring (Z.to_nat d) (Z.to_nat (p - d)) ds
  else
    String.substring 0 1 ds +:+
    (if p =? 1 then EmptyString else "." +:+ String.substring 1 (Z.to_nat (p - 1)) ds) +:+
    "e" +:+ (if d - 1 <? 0 then "-" else "+") +:+ zpad 2 (Z.abs (d - 1)).

(** [str(n)] *)
Definition show (n : num) : string := match n with Int z => str_int z | Flt m e => float_repr m e end.

(** The float written [a/b] in the source, with [b] a power of ten. *)
Definition lit (a b : Z) : num := let '(m, e) := round_ratio a b in Flt m e.

Open Scope num_scope.

(** Sums and products as CPython prints them. *)
Example float_text :
  show <$> [lit 63 10; lit 63 10 * Int 11; Int 28 + lit 63 10 * Int 11 + Int 26;
            lit 54 10 * Int 7 + Int 10; nhalf (Int 235); lit 1 10 + lit 2 10; lit 5 100000;
            lit 1 1 * Int (10 ^ 16); nsub (lit 1 10) (Int 3); nhalf (Int 0)] =
  ["6.3"; "69.3"; "123.3"; "47.800000000000004"; "117.5"; "0.30000000000000004"; "5e-05"; "1e+16";
   "-2.9"; "0.0"].
Proof. vm_compute. reflexivity. Qed.

(** ** Half-integers are exact

    Coordinates are sums of integers and halves; below 2^52 the floats carry
    them without rounding. *)

Close Scope num_scope.

(** [m * 2^e = k / 2] *)
Definition half_of (f : Z * Z) (k : Z) : Prop :=
  f.1 * 2 ^ Z.max 0 (f.2 + 1) = k * 2 ^ Z.max 0 (- (f.2 + 1)).

(** Twice the number is [k]. *)
Definition twice (n : num) (k : Z) : Prop := half_of (dyadic n) k.

Lemma round_ratio_exact a j k :
  0 ≤ j → 0 < k < 2 ^ 53 → 2 * a = k * 2 ^ j →
  let '(m, e) := round_ratio a (2 ^ j) in e ≤ -1 ∧ m = k * 2 ^ (- e - 1).
Proof.
  intros Hj Hk Ha. assert (0 < 2 ^ j) as Hb by (apply Z.pow_pos_nonneg; lia).
  assert (0 < a) as Hpos by nia.
  assert (Z.log2 a = Z.log2 k + j - 1) as Hl.
  { pose proof (Z.log2_double a Hpos) as Hd. rewrite Ha, Z.log2_mul_pow2 in Hd by lia. lia. }
  assert (Z.log2 k < 53) as Hk2 by (apply Z.log2_lt_pow2; lia).
  unfold round_ratio. rewrite Hl, (Z.log2_pow2 j Hj).
  set (e0 := Z.log2 k + j - 1 - j - 53).
  set (e := if _ <? _ then e0 else e0 + 1).
  assert (e ≤ -1) as He by (subst e; destruct (_ <? _); lia). clearbody e.
  rewrite (Z.max_r 0 (- e)), (Z.max_l 0 e), Z.mul_1_r by lia.
  assert (a * 2 ^ (- e) = k * 2 ^ (- e - 1) * 2 ^ j) as Hnum.
  { replace (- e) with (1 + (- e - 1)) at 1 by lia. rewrite Z.pow_add_r by lia. nia. }
  rewrite Hnum, Z.div_mul, Z.mod_mul by lia. split; [lia|].
  destruct (2 ^ j <? 2 * 0) eqn:E1; [apply Z.ltb_lt in E1; lia|].
  destruct (2 * 0 =? 2 ^ j) eqn:E2; [apply Z.eqb_eq in E2; lia|]. done.
Qed.

Lemma half_of_abs m e k :
  half_of (m, e) k → 2 * (Z.abs m * 2 ^ Z.max 0 e) = Z.abs k * 2 ^ Z.max 0 (- e).
Proof.
  unfold half_of. cbn [fst snd]. intros Hh.
  destruct (decide (0 ≤ e)) as [He|He].
  - rewrite (Z.max_r 0 (e + 1)), (Z.max_l 0 (- (e + 1))), Z.pow_add_r in Hh by lia.
    rewrite (Z.max_r 0 e), (Z.max_l 0 (- e)) by lia.
    assert (0 < 2 ^ e) by (apply Z.pow_pos_nonneg; lia). nia.
  - rewrite (Z.max_l 0 (e + 1)), (Z.max_r 0 (- (e + 1))) in Hh by lia.
    rewrite (Z.max_l 0 e), (Z.max_r 0 (- e)) by lia.
    replace (- e) with (1 + - (e + 1)) by lia. rewrite Z.pow_add_r by lia.
    assert (0 < 2 ^ - (e + 1)) by (apply Z.pow_pos_nonneg; lia). nia.
Qed.

Lemma round_fl_twice m e k : half_of (m, e) k → Z.abs k < 2 ^ 53 → twice (round_fl m e) k.
Proof.
  intros Hh Hk. pose proof (half_of_abs _ _ _ Hh) as Ha. unfold round_fl.
  assert (0 < 2 ^ Z.max 0 (- e)) by (apply Z.pow_pos_nonneg; lia).
  assert (0 < 2 ^ Z.max 0 e) by (apply Z.pow_pos_nonneg; lia).
  destruct (m =? 0) eqn:Hm.
  { apply Z.eqb_eq in Hm as ->. change (Z.abs 0) with 0 in Ha.
    rewrite Z.mul_0_l, Z.mul_0_r in Ha. symmetry in Ha.
    apply Z.mul_eq_0 in Ha as [Ha|Ha]; [|lia]. assert (k = 0) as -> by lia. done. }
  apply Z.eqb_neq in Hm.
  pose proof (round_ratio_exact (Z.abs m * 2 ^ Z.max 0 e) (Z.max 0 (- e)) (Z.abs k)) as Hr.
  destruct (round_ratio _ _) as [q x].
  destruct Hr as [Hx ->]; [lia|nia|done|]. unfold twice, half_of. cbn [dyadic fst snd].
  rewrite (Z.max_l 0 (x + 1)), (Z.max_r 0 (- (x + 1))) by lia.
  replace (- (x + 1)) with (- x - 1) by lia.
  assert (Z.sgn m * Z.abs k = k) as Hs; [|rewrite Z.mul_1_r; nia].
  unfold half_of in Hh. cbn [fst snd] in Hh.
  assert (0 < 2 ^ Z.max 0 (e + 1)) by (apply Z.pow_pos_nonneg; lia).
  assert (0 < 2 ^ Z.max 0 (- (e + 1))) by (apply Z.pow_pos_nonneg; lia).
  destruct (decide (0 < m)); [rewrite Z.sgn_pos by lia|rewrite Z.sgn_neg by lia]; nia.
Qed.

Lemma half_of_add f g j k : half_of f j → half_of g k → half_of (add_dyadic f g) (j + k).
Proof.
  destruct f as [m e], g as [n x]. unfold half_of, add_dyadic. cbn [fst snd].
  assert (Hshift : ∀ m e j y, y ≤ e →
    m * 2 ^ Z.max 0 (e + 1) = j * 2 ^ Z.max 0 (- (e + 1)) →
    m * 2 ^ (e - y) * 2 ^ Z.max 0 (y + 1) = j * 2 ^ Z.max 0 (- (y + 1))).
  { clear. intros m e j y Hy Hm.
    destruct (decide (0 ≤ y + 1)) as [H1|H1].
    - rewrite (Z.max_r 0 (e + 1)), (Z.max_l 0 (- (e + 1))) in Hm by lia.
      rewrite (Z.max_r 0 (y + 1)), (Z.max_l 0 (- (y + 1))) by lia.
      rewrite <-Z.mul_assoc, <-Z.pow_add_r by lia. rewrite <-Hm. do 2 f_equal. lia.
    - rewrite (Z.max_l 0 (y + 1)), (Z.max_r 0 (- (y + 1))), Z.mul_1_r by lia.
      destruct (decide (0 ≤ e + 1)) as [H2|H2].
      + rewrite (Z.max_r 0 (e + 1)), (Z.max_l 0 (- (e + 1))), Z.mul_1_r in Hm by lia.
        rewrite <-Hm, <-Z.mul_assoc, <-Z.pow_add_r by lia. do 2 f_equal. lia.
      + rewrite (Z.max_l 0 (e + 1)), (Z.max_r 0 (- (e + 1))), Z.mul_1_r in Hm by lia.
        rewrite Hm, <-Z.mul_assoc, <-Z.pow_add_r by lia. do 2 f_equal. lia. }
  intros Hf Hg. rewrite !Z.mul_add_distr_r. f_equal; apply Hshift; auto; lia.
Qed.

Lemma twice_Int_iff z k : twice (Int z) k ↔ k = 2 * z.
Proof.
  unfold twice, half_of. cbn [dyadic fst snd].
  change (2 ^ Z.max 0 (0 + 1)) with 2. change (2 ^ Z.max 0 (- (0 + 1))) with 1. lia.
Qed.

Lemma to_float_twice n k : twice n k → Z.abs k < 2 ^ 53 → half_of (to_float n) k.
Proof. destruct n as [z|m e]; [|done]. intros Ht Hk. by apply round_fl_twice. Qed.

Lemma nadd_twice a b j k :
  twice a j → twice b k → Z.abs j < 2 ^ 53 → Z.abs k < 2 ^ 53 → Z.abs (j + k) < 2 ^ 53 →
  twice (nadd a b) (j + k).
Proof.
  intros Ha Hb Hj Hk Hs.
  destruct a as [x|m e], b as [y|n f]; [|unfold nadd..].
  { apply twice_Int_iff in Ha, Hb. apply twice_Int_iff. lia. }
  all: match goal with |- context [add_dyadic (to_float ?p) (to_float ?q)] =>
    pose proof (half_of_add _ _ _ _ (to_float_twice p j Ha Hj) (to_float_twice q k Hb Hk)) as Hh;
    destruct (add_dyadic _ _); by apply round_fl_twice end.
Qed.

Lemma nhalf_Int_twice z : Z.abs z < 2 ^ 53 → twice (nhalf (Int z)) z.
Proof. intros Hz. apply round_fl_twice; [|done]. unfold half_of. cbn [fst snd].
  change (2 ^ Z.max 0 (-1 + 1)) with 1. change (2 ^ Z.max 0 (- (-1 + 1))) with 1. lia. Qed.
