(* ===== verification/Swimlane.v ===== *)
(** * The swimlane renderer (architecture/_gen/swimlane.py)

    Lanes are rows, time is columns, each step is a card, edges join cards.
    [render] gives the lines of the SVG file; a kind that is not in the palette
    raises KeyError, a lane or step index out of range IndexError. *)

From Stdlib Require Import Ascii.
From S2P Require Import Prelude PyStr Json PyFloat.

Open Scope Z_scope.

Definition PALETTE : list (string * (string * string * string)) :=
  [("core", ("#e3f3f6", "#0b7285", "#0b3a42"));
   ("files", ("#e6f4ea", "#2b8a3e", "#1b4d24"));
   ("port", ("#f1f3f5", "#5b6b7a", "#3d4852"));
   ("gate", ("#fbf0da", "#9a6700", "#5c3d00"));
   ("audit", ("#efeafb", "#6741b8", "#2f1e5c"));
   ("store", ("#eef2fb", "#3f5b9a", "#1f2d4a"));
   ("human", ("#fff4e6", "#d9480f", "#6b2a00"));
   ("signal", ("#fff0f0", "#c92a2a", "#5c0d0d"));
   ("ok", ("#e6f4ea", "#2b8a3e", "#1b4d24"))].
Definition GREY : string := "#5b6b7a".
Definition INK : string := "#10334a".
Definition FONT : string := "-apple-system, 'Segoe UI', Helvetica, Arial, sans-serif".

Record Step := mkStep {
  st_lane : Z;
  st_col : Z;
  st_title : string;
  st_lines : list string;
  st_kind : string;
  st_span : Z;
  st_badge : option string;
}.

Record Diagram := mkDiagram {
  dg_title : string;
  dg_subtitle : string;
  dg_lanes : list string;
  dg_columns : list string;
  dg_steps : list Step;
  dg_edges : list (Z * Z * option string);
  dg_footer : list string;
  dg_legend : list (string * string);
  dg_lane_w : Z;
  dg_col_w : Z;
  dg_card_w : Z;
  dg_line_h : Z;
  dg_pad : Z;
}.

(** ** Python's pieces *)

(** [html.escape(s)] *)
Definition escape_char (a : ascii) : string :=
  let n := byte_val a in
  if (n =? 38)%N then "&amp;" else if (n =? 60)%N then "&lt;" else if (n =? 62)%N then "&gt;"
  else if (n =? 34)%N then "&quot;" else if (n =? 39)%N then "&#x27;" else String a EmptyString.
Fixpoint escape (s : string) : string :=
  match s with EmptyString => EmptyString | String a r => escape_char a +:+ escape r end.

(** [len(s)]: characters, not bytes *)
Fixpoint str_len (s : string) : Z :=
  match s with
  | EmptyString => 0
  | String a r => if is_cont a then str_len r else 1 + str_len r
  end.

(** [l[i]], counting from the end when negative *)
Definition py_index {A} (l : list A) (i : Z) : result exn A :=
  let i := if i <? 0 then i + Z.of_nat (length l) else i in
  match (if i <? 0 then None else l !! Z.to_nat i) with
  | Some x => Ok x
  | None => Raise IndexError
  end.

(** [if label:] on an optional string *)
Definition given (o : option string) : option string :=
  match o with Some s => if nonempty s then Some s else None | None => None end.

Definition palette (kind : string) : result exn (string * string * string) :=
  match list_find (λ kv, kv.1 = kind) PALETTE with
  | Some (_, (_, colours)) => Ok colours
  | None => Raise (KeyError kind)
  end.

(** ** Markup *)

Definition attr (kv : string * string) : string :=
  " " +:+ kv.1 +:+ "=" +:+ String dquote (kv.2 +:+ String dquote EmptyString).
Definition attrs (l : list (string * string)) : string := foldr (λ kv s, attr kv +:+ s) EmptyString l.
Definition element (name : string) (l : list (string * string)) : string :=
  "  <" +:+ name +:+ attrs l +:+ "/>".

(** [_text] *)
Definition text (x y : num) (s : string) (size : num) (weight : option string) (fill : string)
    (anchor : string) : string :=
  "  <text" +:+ attrs ([("x", show x); ("y", show y); ("font-size", show size); ("fill", fill)] ++
    match given weight with Some w => [("font-weight", w)] | None => [] end ++
    (if String.eqb anchor "start" then [] else [("text-anchor", anchor)])) +:+
  ">" +:+ escape s +:+ "</text>".

Section diagram.
Context (d : Diagram).

(** ** Layout *)

Definition badge_h (s : Step) : Z := match given (st_badge s) with Some _ => 14 | None => 0 end.

(** The tallest card of a lane. *)
Definition tallest (li : Z) : Z :=
  foldl (λ t s, if st_lane s =? li
                then Z.max t (40 + dg_line_h d * Z.of_nat (length (st_lines s)) + badge_h s)
                else t) 0 (dg_steps d).

Definition lane_h : list Z :=
  (λ li, Z.max 72 (tallest (Z.of_nat li) + 24)) <$> seq 0 (length (dg_lanes d)).

Definition grid_x : Z := dg_pad d + dg_lane_w d.
Definition grid_y : Z := 150.
Definition width : Z := grid_x + dg_col_w d * Z.of_nat (length (dg_columns d)) + dg_pad d.
Definition grid_h : Z := foldr Z.add 0 lane_h.
Definition footer_h : Z :=
  match dg_footer d with [] => 0 | l => 30 + 16 * Z.of_nat (length l) end.
Definition height : Z := grid_y + grid_h + 40 + footer_h + dg_pad d.

(** The top of each lane: [lane_y]. *)
Fixpoint tops (y : Z) (hs : list Z) : list Z :=
  match hs with [] => [] | h :: hs => y :: tops (y + h) hs end.
Definition lane_y : list Z := tops grid_y lane_h.

Definition card_width (s : Step) : Z := dg_card_w d + (st_span s - 1) * dg_col_w d.
Definition card_height (s : Step) : Z :=
  34 + dg_line_h d * Z.of_nat (length (st_lines s)) + 6 + badge_h s.

Record bbox := mkBox { bx : num; by_ : num; bw : Z; bh : Z }.

Definition card_x (s : Step) : num :=
  (Int (grid_x + st_col s * dg_col_w d) + nhalf (Int (dg_col_w d - dg_card_w d)))%num.

Definition card_box (s : Step) : result exn bbox :=
  let? top := py_index lane_y (st_lane s) in
  let? lh := py_index lane_h (st_lane s) in
  Ok (mkBox (card_x s) (Int top + nhalf (Int (lh - card_height s)))%num
        (card_width s) (card_height s)).

(** ** Drawing *)

Definition svg_tag : string :=
  "<svg" +:+ attrs [("xmlns", "http://www.w3.org/2000/svg"); ("width", str_int width);
    ("height", str_int height); ("viewBox", "0 0 " +:+ str_int width +:+ " " +:+ str_int height);
    ("font-family", FONT); ("role", "img"); ("aria-labelledby", "t d")] +:+ ">".

Definition arrow_defs : string :=
  "  <defs><marker" +:+ attrs [("id", "arrow"); ("viewBox", "0 0 10 10"); ("refX", "9"); ("refY", "5");
    ("markerWidth", "7"); ("markerHeight", "7"); ("orient", "auto-start-reverse")] +:+
  "><path" +:+ attrs [("d", "M0,0 L10,5 L0,10 z"); ("fill", "#3d4852")] +:+ "/></marker></defs>".

Definition head_lines : list string :=
  [svg_tag;
   "  <title" +:+ attrs [("id", "t")] +:+ ">" +:+ escape (dg_title d) +:+ "</title>";
   "  <desc" +:+ attrs [("id", "d")] +:+ ">" +:+ escape (dg_subtitle d) +:+ "</desc>";
   arrow_defs;
   element "rect" [("width", str_int width); ("height", str_int height); ("fill", "#ffffff")];
   text (Int (dg_pad d)) (Int 62) (dg_title d) (Int 26) (Some "700") INK "start";
   text (Int (dg_pad d)) (Int 88) (dg_subtitle d) (lit 125 10) None GREY "start"].

Fixpoint legend_lines (lx : num) (l : list (string * string)) : result exn (list string) :=
  match l with
  | [] => Ok []
  | (kind, lab) :: l =>
      let? colours := palette kind in
      let '(fill, stroke, _) := colours in
      let? rest := legend_lines (lx + (Int 28 + lit 63 10 * Int (str_len lab) + Int 26))%num l in
      Ok (element "rect" [("x", show lx); ("y", "104"); ("width", "22"); ("height", "14");
                          ("rx", "3"); ("fill", fill); ("stroke", stroke)] ::
          text (lx + Int 28)%num (Int 116) lab (Int 11) None GREY "start" :: rest)
  end.

Definition column_lines (ci : nat) (c : string) : list string :=
  let cx := grid_x + Z.of_nat ci * dg_col_w d in
  [element "rect" [("x", str_int cx); ("y", str_int (grid_y - 24)); ("width", str_int (dg_col_w d));
                   ("height", "24"); ("fill", "#f8f9fa"); ("stroke", "#d5dde5")];
   text (Int cx + nhalf (Int (dg_col_w d)))%num (Int (grid_y - 8)) c (lit 115 10) (Some "700") GREY
     "middle"].

Fixpoint part_lines (ty : num) (parts : list string) : list string :=
  match parts with
  | [] => []
  | part :: parts =>
      text (Int (dg_pad d) + nhalf (Int (dg_lane_w d)))%num (ty + Int 5)%num part (lit 125 10)
        (Some "700") "#3d4852" "middle" :: part_lines (ty + Int 15)%num parts
  end.

Fixpoint lane_lines (li : nat) (y : Z) (lanes : list (string * Z)) : list string :=
  match lanes with
  | [] => []
  | (name, h) :: lanes =>
      let fill := if Nat.even li then "#ffffff" else "#fbfbfc" in
      let parts := split (ascii_of_N 10) name in
      element "rect" [("x", str_int (dg_pad d)); ("y", str_int y);
        ("width", str_int (width - 2 * dg_pad d)); ("height", str_int h); ("fill", fill);
        ("stroke", "#d5dde5")] ::
      element "rect" [("x", str_int (dg_pad d)); ("y", str_int y); ("width", str_int (dg_lane_w d));
        ("height", str_int h); ("fill", "#f1f3f5"); ("stroke", "#d5dde5")] ::
      part_lines (Int y + nhalf (Int h) - Int (7 * (Z.of_nat (length parts) - 1)))%num parts ++
      lane_lines (S li) (y + h) lanes
  end.

Definition separator_line (ci : nat) : string :=
  let cx := grid_x + Z.of_nat ci * dg_col_w d in
  element "line" [("x1", str_int cx); ("y1", str_int grid_y); ("x2", str_int cx);
                  ("y2", str_int (grid_y + grid_h)); ("stroke", "#e9ecef")].

Fixpoint body_lines (x ty : num) (ink : string) (lines : list string) : list string :=
  match lines with
  | [] => []
  | ln :: lines =>
      text (x + Int 10)%num ty ln (lit 105 10) None ink "start" ::
      body_lines x (ty + Int (dg_line_h d))%num ink lines
  end.

Definition badge_lines (b : bbox) (stroke badge : string) : list string :=
  let w := Int (bw b) in let h := Int (bh b) in
  let bw := (lit 54 10 * Int (str_len badge) + Int 10)%num in
  [element "rect" [("x", show (bx b + w - bw - Int 6)%num); ("y", show (by_ b + h - Int 17)%num);
     ("width", show bw); ("height", "13"); ("rx", "6"); ("fill", "#ffffff"); ("stroke", stroke);
     ("stroke-width", "0.8")];
   text (bx b + w - Int 6 - nhalf bw)%num (by_ b + h - lit 75 10)%num badge (lit 85 10) (Some "700")
     stroke "middle"].

(** One turn of the card loop: what it draws, and the [_bbox] it leaves. *)
Definition card_lines (s : Step) : result exn (list string * bbox) :=
  let? colours := palette (st_kind s) in
  let '(fill, stroke, ink) := colours in
  let? b := card_box s in
  Ok ([element "rect" [("x", show (bx b)); ("y", show (by_ b)); ("width", str_int (bw b));
         ("height", str_int (bh b)); ("rx", "7"); ("fill", fill); ("stroke", stroke)];
       text (bx b + Int 10)%num (by_ b + Int 18)%num (st_title s) (lit 115 10) (Some "700") ink
         "start"] ++
      match given (st_badge s) with Some badge => badge_lines b stroke badge | None => [] end ++
      body_lines (bx b) (by_ b + Int 33)%num ink (st_lines s), b).

Definition line_style : list (string * string) :=
  [("stroke", "#3d4852"); ("stroke-width", "1.3"); ("marker-end", "url(#arrow)")].

Definition vertical_edge (a b : bbox) (label : option string) : list string :=
  let ax := (bx a + nhalf (Int (bw a)))%num in
  let bx := (bx b + nhalf (Int (bw b)))%num in
  let '(y1, y2) := if nltb (by_ a) (by_ b) then ((by_ a + Int (bh a))%num, by_ b)
                   else (by_ a, (by_ b + Int (bh b))%num) in
  element "line" ([("x1", show ax); ("y1", show y1); ("x2", show bx); ("y2", show y2)] ++ line_style) ::
  match given label with
  | Some l => [text (ax + Int 6)%num (nhalf (y1 + y2) + Int 3)%num l (lit 95 10) None GREY "start"]
  | None => []
  end.

Definition bent_edge (a b : bbox) (label : option string) : list string :=
  let x1 := (bx a + Int (bw a))%num in
  let y1 := (by_ a + nhalf (Int (bh a)))%num in
  let x2 := bx b in
  let y2 := (by_ b + nhalf (Int (bh b)))%num in
  let mx := nhalf (x1 + x2)%num in
  let point x y := show x +:+ " " +:+ show y in
  element "path" ([("d", "M" +:+ point x1 y1 +:+ " L" +:+ point mx y1 +:+ " L" +:+ point mx y2 +:+
                         " L" +:+ point x2 y2); ("fill", "none")] ++ line_style) ::
  match given label with
  | Some l => [text mx (if neqb y1 y2 then y1 - Int 6 else nmin y1 y2 - Int 4)%num l (lit 95 10) None
                 GREY "middle"]
  | None => []
  end.

Definition edge_lines (boxes : list bbox) (edge : Z * Z * option string) :
    result exn (list string) :=
  let '(a, b, label) := edge in
  let? box_a := py_index boxes a in
  let? box_b := py_index boxes b in
  let? step_a := py_index (dg_steps d) a in
  let? step_b := py_index (dg_steps d) b in
  Ok (if st_col step_a =? st_col step_b then vertical_edge box_a box_b label
      else bent_edge box_a box_b label).

Fixpoint footer_texts (fy : Z) (l : list string) : list string :=
  match l with
  | [] => []
  | ln :: l =>
      text (Int (dg_pad d + 14)) (Int fy) ln (Int 11) None "#2f1e5c" "start" :: footer_texts (fy + 16) l
  end.

Definition footer_lines : list string :=
  match dg_footer d with
  | [] => []
  | l =>
      let fy := grid_y + grid_h + 28 in
      element "rect" [("x", str_int (dg_pad d)); ("y", str_int (fy - 18));
        ("width", str_int (width - 2 * dg_pad d)); ("height", str_int footer_h); ("rx", "8");
        ("fill", "#fbfaff"); ("stroke", "#6741b8"); ("stroke-width", "1")] :: footer_texts fy l
  end.

(** [render]: the text it writes, line by line. *)
Definition render : result exn (list string) :=
  let? legend := legend_lines (Int (dg_pad d)) (dg_legend d) in
  let? cards := rmapM card_lines (dg_steps d) in
  let? edges := rmapM (edge_lines (cards.*2)) (dg_edges d) in
  Ok (head_lines ++ legend ++
      concat (imap column_lines (dg_columns d)) ++
      lane_lines 0 grid_y (zip (dg_lanes d) lane_h) ++
      (separator_line <$> seq 0 (S (length (dg_columns d)))) ++
      concat (cards.*1) ++ concat edges ++ footer_lines ++ ["</svg>"]).
End diagram.

(** ** Where the cards are *)

Lemma py_index_Ok {A} (l : list A) i x :
  0 ≤ i → l !! Z.to_nat i = Some x → py_index l i = Ok x.
Proof.
  intros Hi Hx. unfold py_index. rewrite (proj2 (Z.ltb_ge i 0)) by lia.
  rewrite (proj2 (Z.ltb_ge i 0)) by lia. by rewrite Hx.
Qed.

Lemma tops_lookup y hs i h :
  hs !! i = Some h → tops y hs !! i = Some (y + foldr Z.add 0 (take i hs)).
Proof.
  revert y i. induction hs as [|a hs IH]; intros y [|i] Hi; try done.
  - cbn. f_equal. lia.
  - cbn in *. rewrite (IH _ _ Hi). f_equal. lia.
Qed.

Lemma sum_take_step hs i h :
  hs !! i = Some h → foldr Z.add 0 (take (S i) hs) = foldr Z.add 0 (take i hs) + h.
Proof.
  revert i. induction hs as [|a hs IH]; intros [|i] Hi; try done.
  - cbn in Hi. injection Hi as ->. cbn [take foldr]. rewrite take_0. cbn. lia.
  - cbn [take foldr]. cbn in Hi. rewrite <-Z.add_assoc, <-(IH _ Hi). done.
Qed.

Lemma sum_take_le hs i j :
  Forall (λ h, 0 ≤ h) hs → (i ≤ j)%nat →
  foldr Z.add 0 (take i hs) ≤ foldr Z.add 0 (take j hs).
Proof.
  intros Hp. revert i j. induction Hp as [|h hs Hh Hp IH]; intros i j Hij; [by rewrite !take_nil|].
  assert (0 ≤ foldr Z.add 0 (take (pred j) hs)) as H0.
  { specialize (IH 0%nat (pred j) ltac:(lia)). by rewrite take_0 in IH. }
  destruct i as [|i], j as [|j]; cbn in *; try lia.
  specialize (IH i j ltac:(lia)). lia.
Qed.

Section layout.
Context (d : Diagram).

(** The sizes a diagram is drawn with. *)
Record drawable : Prop := {
  dr_line : 0 ≤ dg_line_h d;
  dr_pad : 0 ≤ dg_pad d;
  dr_lane : 0 ≤ dg_lane_w d;
  dr_card : 0 ≤ dg_card_w d ≤ dg_col_w d;
  dr_width : width d < 2 ^ 50;
  dr_height : height d < 2 ^ 50;
}.

(** The step has a place on the grid. *)
Definition placed (s : Step) : Prop :=
  0 ≤ st_lane s < Z.of_nat (length (dg_lanes d)) ∧
  0 ≤ st_col s ∧ 1 ≤ st_span s ∧ st_col s + st_span s ≤ Z.of_nat (length (dg_columns d)).

Lemma fold_max_ge (f : Step → Z) (p : Step → bool) l t :
  t ≤ foldl (λ t s, if p s then Z.max t (f s) else t) t l ∧
  ∀ s, s ∈ l → p s = true → f s ≤ foldl (λ t s, if p s then Z.max t (f s) else t) t l.
Proof.
  revert t. induction l as [|x l IH]; intros t; cbn; [split; [lia|by intros s ?%not_elem_of_nil]|].
  destruct (IH (if p x then Z.max t (f x) else t)) as [IH1 IH2]. split.
  - destruct (p x); lia.
  - intros s [->|Hs]%elem_of_cons Hp; [rewrite Hp in *; lia|by apply IH2].
Qed.

Lemma tallest_ge s : s ∈ dg_steps d → card_height d s ≤ tallest d (st_lane s).
Proof.
  intros Hs. unfold tallest.
  destruct (fold_max_ge (λ s, 40 + dg_line_h d * Z.of_nat (length (st_lines s)) + badge_h s)
    (λ s', st_lane s' =? st_lane s) (dg_steps d) 0) as [_ Hge].
  etrans; [|apply (Hge s Hs), Z.eqb_refl]. unfold card_height. lia.
Qed.

Lemma lane_h_lookup i :
  (i < length (dg_lanes d))%nat → lane_h d !! i = Some (Z.max 72 (tallest d (Z.of_nat i) + 24)).
Proof. intros Hi. unfold lane_h. by rewrite list_lookup_fmap, lookup_seq_lt. Qed.

Lemma lane_h_pos : Forall (λ h, 0 ≤ h) (lane_h d).
Proof. apply list.Forall_forall. intros h (i & -> & _)%list_elem_of_fmap. lia. Qed.

(** Lane [i]: its top and its height. *)
Definition lane_at (i : Z) (top h : Z) : Prop :=
  lane_y d !! Z.to_nat i = Some top ∧ lane_h d !! Z.to_nat i = Some h.

Lemma lane_at_top i top h :
  lane_at i top h → top = grid_y + foldr Z.add 0 (take (Z.to_nat i) (lane_h d)).
Proof.
  intros [Ht Hh]. unfold lane_y in Ht. rewrite (tops_lookup _ _ _ _ Hh) in Ht. by injection Ht as <-.
Qed.

(** Lanes follow each other without overlap, inside the grid. *)
Lemma lane_at_order i j top h top' h' :
  lane_at i top h → lane_at j top' h' → 0 ≤ i < j → top + h ≤ top'.
Proof.
  intros Hi Hj Hij. rewrite (lane_at_top _ _ _ Hi), (lane_at_top _ _ _ Hj).
  pose proof (sum_take_step _ _ _ (proj2 Hi)) as Hs.
  pose proof (sum_take_le (lane_h d) (S (Z.to_nat i)) (Z.to_nat j) lane_h_pos ltac:(lia)). lia.
Qed.

Lemma lane_at_grid i top h : lane_at i top h → grid_y ≤ top ∧ top + h ≤ grid_y + grid_h d.
Proof.
  intros Hi. rewrite (lane_at_top _ _ _ Hi).
  pose proof (sum_take_step _ _ _ (proj2 Hi)) as Hs.
  pose proof (sum_take_le (lane_h d) 0 (Z.to_nat i) lane_h_pos ltac:(lia)) as H0.
  rewrite take_0 in H0. cbn [foldr] in H0.
  pose proof (sum_take_le (lane_h d) (S (Z.to_nat i)) (S (Z.to_nat i) + length (lane_h d))
    lane_h_pos ltac:(lia)) as H1.
  rewrite (take_ge (lane_h d) (S (Z.to_nat i) + _)) in H1 by lia. unfold grid_h. lia.
Qed.

Context (Hd : drawable).

(** The card of a step, in half units: its left and top edge. *)
Definition box_at (b : bbox) (x y : Z) : Prop := twice (bx b) x ∧ twice (by_ b) y.

Lemma card_placed s :
  s ∈ dg_steps d → placed s →
  ∃ b x y top h, card_box d s = Ok b ∧ box_at b x y ∧ lane_at (st_lane s) top h ∧
    2 * (grid_x d + st_col s * dg_col_w d) ≤ x ∧
    x + 2 * bw b ≤ 2 * (grid_x d + (st_col s + st_span s) * dg_col_w d) ∧
    2 * (top + 12) ≤ y ∧ y + 2 * bh b ≤ 2 * (top + h - 12).
Proof using Hd.
  intros Hs (Hl & Hc & Hsp & Hcols). destruct Hd as [Hline Hpad Hlane Hcard Hw Hh].
  set (i := Z.to_nat (st_lane s)). assert (Z.of_nat i = st_lane s) as Hi by lia.
  pose proof (lane_h_lookup i ltac:(lia)) as Hlh. rewrite Hi in Hlh.
  set (lh := Z.max 72 (tallest d (st_lane s) + 24)) in *.
  assert (lane_at (st_lane s) (grid_y + foldr Z.add 0 (take i (lane_h d))) lh) as Hat.
  { split; [by apply (tops_lookup _ _ _ lh)|done]. }
  set (top := grid_y + _) in Hat. exists (mkBox (card_x d s)
    (nadd (Int top) (nhalf (Int (lh - card_height d s)))) (card_width d s) (card_height d s)).
  exists (2 * (grid_x d + st_col s * dg_col_w d) + (dg_col_w d - dg_card_w d)),
    (2 * top + (lh - card_height d s)), top, lh.
  pose proof (tallest_ge s Hs) as Hta. pose proof (lane_at_grid _ _ _ Hat) as [Hg1 Hg2].
  assert (0 ≤ card_height d s) by (unfold card_height, badge_h; destruct (given _); lia).
  unfold width in Hw. unfold height, footer_h in Hh. unfold grid_x in *.
  set (n := Z.of_nat (length (dg_columns d))) in *.
  assert (st_col s * dg_col_w d ≤ n * dg_col_w d) by (apply Z.mul_le_mono_nonneg_r; lia).
  assert (0 ≤ st_col s * dg_col_w d) by (apply Z.mul_nonneg_nonneg; lia).
  assert (dg_col_w d ≤ n * dg_col_w d) by nia.
  assert (0 ≤ match dg_footer d with [] => 0 | l => 30 + 16 * Z.of_nat (length l) end)
    by (destruct (dg_footer d); lia).
  assert (grid_y = 150) as Hgy by done.
  split; [|split; [|split; [done|split; [|split; [|split]]]]].
  - unfold card_box. rewrite (py_index_Ok _ _ top) by (try apply Hat; lia).
    by rewrite (py_index_Ok _ _ lh) by (try apply Hat; lia).
  - split; cbn [bx by_].
    + apply nadd_twice; [by apply twice_Int_iff|apply nhalf_Int_twice; lia|..]; lia.
    + apply nadd_twice; [by apply twice_Int_iff|apply nhalf_Int_twice; lia|..]; lia.
  - lia.
  - cbn [bw]. unfold card_width. nia.
  - lia.
  - cbn [bh]. lia.
Qed.

(** Two boxes share no point: one is left of the other, or above it. *)
Definition apart (b b' : bbox) (x y x' y' : Z) : Prop :=
  x + 2 * bw b ≤ x' ∨ x' + 2 * bw b' ≤ x ∨ y + 2 * bh b ≤ y' ∨ y' + 2 * bh b' ≤ y.

(** Two steps are in different cells of the grid. *)
Definition other_cell (s s' : Step) : Prop :=
  st_lane s ≠ st_lane s' ∨ st_col s + st_span s ≤ st_col s' ∨ st_col s' + st_span s' ≤ st_col s.

(** Cards neither overlap nor leave the drawing.  Whatever the texts and
    badges, every placed step gets a card inside its own lane, with 12 units to
    spare above and below, and inside its columns, so inside the canvas; and
    the cards of steps in different cells share no point. *)
Theorem cards_apart s s' :
  s ∈ dg_steps d → s' ∈ dg_steps d → placed s → placed s' → other_cell s s' →
  ∃ b b' x y x' y',
    card_box d s = Ok b ∧ card_box d s' = Ok b' ∧ box_at b x y ∧ box_at b' x' y' ∧
    apart b b' x y x' y' ∧
    0 ≤ x ∧ x + 2 * bw b ≤ 2 * width d ∧ 0 ≤ y ∧ y + 2 * bh b ≤ 2 * height d.
Proof using Hd.
  intros Hs Hs' Hp Hp' Ho.
  destruct (card_placed s Hs Hp) as (b & x & y & top & h & Hb & Hxy & Hat & B1 & B2 & B3 & B4).
  destruct (card_placed s' Hs' Hp') as (b' & x' & y' & top' & h' & Hb' & Hxy' & Hat' & C1 & C2 & C3 & C4).
  exists b, b', x, y, x', y'. do 4 (split; [done|]).
  destruct Hp as (Hl & Hc & Hsp & Hcols), Hp' as (Hl' & Hc' & Hsp' & Hcols').
  destruct Hd as [_ Hpad Hlane Hcard _ _].
  pose proof (lane_at_grid _ _ _ Hat) as [Hg1 Hg2].
  assert (150 = grid_y) as Hgy by done.
  assert (0 ≤ footer_h d) by (unfold footer_h; destruct (dg_footer d); lia).
  split; [|unfold width, height, grid_x in *; repeat split; nia].
  unfold apart. destruct Ho as [Hn|[Hn|Hn]].
  - destruct (decide (st_lane s < st_lane s')).
    + pose proof (lane_at_order _ _ _ _ _ _ Hat Hat' ltac:(lia)). lia.
    + pose proof (lane_at_order _ _ _ _ _ _ Hat' Hat ltac:(lia)). lia.
  - assert ((st_col s + st_span s) * dg_col_w d ≤ st_col s' * dg_col_w d)
      by (apply Z.mul_le_mono_nonneg_r; lia). lia.
  - assert ((st_col s' + st_span s') * dg_col_w d ≤ st_col s * dg_col_w d)
      by (apply Z.mul_le_mono_nonneg_r; lia). lia.
Qed.
End layout.

(** ** When rendering succeeds *)

Lemma is_ok_iff {A} (m : result exn A) : is_ok m = true ↔ ∃ a, m = Ok a.
Proof. destruct m; split; try done; [by eexists|by intros [? ?]]. Qed.

Lemma rbind_is_ok {A B} (m : result exn A) (k : A → result exn B) :
  is_ok (rbind m k) = true ↔ ∃ a, m = Ok a ∧ is_ok (k a) = true.
Proof. destruct m; cbn; split; [eauto|by intros (? & [= <-] & ?)|done|by intros (? & ? & ?)]. Qed.

Lemma rmapM_is_ok {A B} (f : A → result exn B) l :
  is_ok (rmapM f l) = true ↔ Forall (λ x, is_ok (f x) = true) l.
Proof.
  induction l as [|x l IH]; [done|]. cbn [rmapM]. rewrite rbind_is_ok, list.Forall_cons, <-IH.
  rewrite (is_ok_iff (f x)). split.
  - intros (y & Hy & Hr%rbind_is_ok). destruct Hr as (ys & Hys & _). split; [eauto|].
    apply is_ok_iff. eauto.
  - intros [[y Hy] [ys Hys]%is_ok_iff]. exists y. split; [done|]. by rewrite Hys.
Qed.

Lemma palette_is_ok kind : is_ok (palette kind) = true ↔ kind ∈ PALETTE.*1.
Proof.
  unfold palette. destruct (list_find _ _) as [[i [k c]]|] eqn:E; cbn [is_ok].
  - split; [|done]. intros _. apply list_find_Some in E as (Hk & He & _). cbn in He. subst k.
    apply list_elem_of_fmap. exists (kind, c). split; [done|]. by eapply list_elem_of_lookup_2.
  - split; [done|]. intros ([k c] & -> & Hin)%list_elem_of_fmap.
    apply list_find_None in E. by destruct (proj1 (list.Forall_forall _ _) E (k, c) Hin).
Qed.

Lemma py_index_is_ok {A} (l : list A) i :
  is_ok (py_index l i) = true ↔ - Z.of_nat (length l) ≤ i < Z.of_nat (length l).
Proof.
  unfold py_index. set (k := if i <? 0 then _ else i).
  assert (k = if decide (i < 0) then i + Z.of_nat (length l) else i) as Hk.
  { subst k. destruct (Z.ltb_spec i 0); destruct (decide (i < 0)); lia. }
  clearbody k. destruct (Z.ltb_spec k 0) as [Hn|Hn].
  - cbn. split; [done|]. destruct (decide (i < 0)); lia.
  - destruct (l !! Z.to_nat k) as [x|] eqn:E; cbn.
    + apply lookup_lt_Some in E. split; [|done]. destruct (decide (i < 0)); lia.
    + apply lookup_ge_None in E. split; [done|]. destruct (decide (i < 0)); lia.
Qed.

Lemma lane_h_length d : length (lane_h d) = length (dg_lanes d).
Proof. unfold lane_h. by rewrite length_fmap, length_seq. Qed.

Lemma tops_length y hs : length (tops y hs) = length hs.
Proof. revert y. induction hs as [|h hs IH]; intros y; cbn; [done|]. by rewrite IH. Qed.

Lemma rmapM_length {E A B} (f : A → result E B) l ys : rmapM f l = Ok ys → length ys = length l.
Proof. intros Hf%rmapM_Ok. by apply Forall2_length in Hf. Qed.

Lemma card_lines_is_ok d s :
  is_ok (card_lines d s) = true ↔
  st_kind s ∈ PALETTE.*1 ∧
  - Z.of_nat (length (dg_lanes d)) ≤ st_lane s < Z.of_nat (length (dg_lanes d)).
Proof.
  unfold card_lines. rewrite rbind_is_ok, <-palette_is_ok, is_ok_iff.
  assert (is_ok (card_box d s) = true ↔
    - Z.of_nat (length (dg_lanes d)) ≤ st_lane s < Z.of_nat (length (dg_lanes d))) as Hb.
  { unfold card_box. rewrite rbind_is_ok, <-lane_h_length.
    rewrite <-(tops_length grid_y (lane_h d)) at 1 2. rewrite <-(py_index_is_ok (tops _ _)).
    rewrite is_ok_iff. split; [intros (t & Ht & _); eauto|]. intros [t Ht]. exists t.
    split; [done|]. apply rbind_is_ok.
    assert (is_ok (py_index (lane_h d) (st_lane s)) = true) as [h Hh]%is_ok_iff; [|by exists h].
    rewrite py_index_is_ok, <-(tops_length grid_y), <-py_index_is_ok, Ht. done. }
  rewrite <-Hb. split.
  - intros ([[f k] i] & Hp & Hr%rbind_is_ok). destruct Hr as (b & Hbx & _).
    split; [eauto|]. by rewrite Hbx.
  - intros [[[[f k] i] Hp] [b Hbx]%is_ok_iff]. exists (f, k, i). split; [done|].
    by rewrite Hbx.
Qed.

Lemma legend_is_ok lx l :
  is_ok (legend_lines lx l) = true ↔ Forall (λ kv, kv.1 ∈ PALETTE.*1) l.
Proof.
  revert lx. induction l as [|[kind lab] l IH]; intros lx; [done|]. cbn [legend_lines].
  rewrite rbind_is_ok, list.Forall_cons. cbn [fst]. rewrite <-palette_is_ok, is_ok_iff. split.
  - intros ([[f k] i] & Hp & Hr%rbind_is_ok). destruct Hr as (r & Hr & _). split; [eauto|].
    eapply IH. apply is_ok_iff. eauto.
  - intros [[[[f k] i] Hp] Hl]. exists (f, k, i). split; [done|].
    apply rbind_is_ok. assert (is_ok (legend_lines (lx + (Int 28 + lit 63 10 * Int (str_len lab) +
      Int 26))%num l) = true) as [r Hr]%is_ok_iff by (by apply IH). by exists r.
Qed.

Lemma edge_is_ok d boxes a b label :
  length boxes = length (dg_steps d) →
  is_ok (edge_lines d boxes (a, b, label)) = true ↔
  let n := Z.of_nat (length (dg_steps d)) in - n ≤ a < n ∧ - n ≤ b < n.
Proof.
  intros Hlen. cbv zeta. set (n := Z.of_nat (length (dg_steps d))). unfold edge_lines.
  assert (Hi : ∀ {A} (l : list A) i, length l = length (dg_steps d) →
    (∃ x, py_index l i = Ok x) ↔ - n ≤ i < n).
  { intros A l i Hl. rewrite <-is_ok_iff, py_index_is_ok. by rewrite Hl. }
  split.
  - intros (x & Hx & Hr)%rbind_is_ok. apply rbind_is_ok in Hr as (y & Hy & _).
    split; [apply (Hi _ boxes)|apply (Hi _ boxes)]; eauto.
  - intros [Ha Hb].
    destruct (proj2 (Hi _ boxes a Hlen) Ha) as [x ->], (proj2 (Hi _ boxes b Hlen) Hb) as [y ->].
    destruct (proj2 (Hi _ (dg_steps d) a eq_refl) Ha) as [s ->].
    by destruct (proj2 (Hi _ (dg_steps d) b eq_refl) Hb) as [t ->].
Qed.

(** A diagram renders, and raises nothing, exactly when every kind it names is in
    the palette and every lane and step index is one Python accepts, counting
    from either end. *)
Theorem render_succeeds d :
  is_ok (render d) = true ↔
  Forall (λ kv, kv.1 ∈ PALETTE.*1) (dg_legend d) ∧
  Forall (λ s, st_kind s ∈ PALETTE.*1 ∧
    - Z.of_nat (length (dg_lanes d)) ≤ st_lane s < Z.of_nat (length (dg_lanes d))) (dg_steps d) ∧
  Forall (λ e, let n := Z.of_nat (length (dg_steps d)) in
    - n ≤ e.1.1 < n ∧ - n ≤ e.1.2 < n) (dg_edges d).
Proof.
  unfold render. rewrite <-(legend_is_ok (Int (dg_pad d))).
  rewrite <-(list.Forall_iff _ _ _ (card_lines_is_ok d)), <-rmapM_is_ok.
  rewrite rbind_is_ok, (is_ok_iff (legend_lines _ _)), (is_ok_iff (rmapM _ _)).
  assert (Hedges : ∀ cards, rmapM (card_lines d) (dg_steps d) = Ok cards →
    is_ok (rmapM (edge_lines d (cards.*2)) (dg_edges d)) = true ↔
    Forall (λ e, let n := Z.of_nat (length (dg_steps d)) in
      - n ≤ e.1.1 < n ∧ - n ≤ e.1.2 < n) (dg_edges d)).
  { intros cards Hc%rmapM_length. rewrite rmapM_is_ok. apply list.Forall_iff. intros [[a b] l].
    apply edge_is_ok. by rewrite length_fmap. }
  split.
  - intros (lg & Hl & (cs & Hc & Hr)%rbind_is_ok). split; [eauto|]. split; [eauto|].
    apply rbind_is_ok in Hr as (es & He & _). apply (Hedges cs Hc). apply is_ok_iff. eauto.
  - intros ([lg Hl] & [cs Hc] & He). exists lg. split; [done|]. rewrite Hc. cbn [rbind].
    apply (Hedges cs Hc), is_ok_iff in He as [es ->]. done.
Qed.

(** ** What the file shows of the cards *)

(** A number has one double. *)
Lemma twice_unique n j k : twice n j → twice n k → j = k.
Proof.
  unfold twice, half_of. destruct (dyadic n) as [m e]. cbn [fst snd].
  assert (0 < 2 ^ Z.max 0 (- (e + 1))) by (apply Z.pow_pos_nonneg; lia). nia.
Qed.

(** The point, in half units, is inside the box. *)
Definition in_box (b : bbox) (px py : Z) : Prop :=
  ∃ x y, box_at b x y ∧ x ≤ px < x + 2 * bw b ∧ y ≤ py < y + 2 * bh b.

Lemma apart_no_point b b' x y x' y' px py :
  box_at b x y → box_at b' x' y' → apart b b' x y x' y' → in_box b px py → in_box b' px py → False.
Proof.
  intros [Hx Hy] [Hx' Hy'] Ha (u & v & [Hu Hv] & ? & ?) (u' & v' & [Hu' Hv'] & ? & ?).
  rewrite (twice_unique _ _ _ Hu Hx), (twice_unique _ _ _ Hv Hy) in *.
  rewrite (twice_unique _ _ _ Hu' Hx'), (twice_unique _ _ _ Hv' Hy') in *.
  unfold apart in Ha. lia.
Qed.

(** The rectangle with this place and size is one of the lines. *)
Definition drawn (x y w h : string) (lines : list string) : Prop :=
  ∃ more, element "rect" ([("x", x); ("y", y); ("width", w); ("height", h)] ++ more) ∈ lines.

Lemma drawn_sub x y w h l l' : l ⊆ l' → drawn x y w h l → drawn x y w h l'.
Proof. intros Hl [more Hin]. exists more. by apply Hl. Qed.

Lemma lane_lines_drawn d li y lanes i name h :
  lanes !! i = Some (name, h) →
  drawn (str_int (dg_pad d)) (str_int (y + foldr Z.add 0 (take i (lanes.*2))))
    (str_int (width d - 2 * dg_pad d)) (str_int h) (lane_lines d li y lanes).
Proof.
  revert li y i. induction lanes as [|[n hh] lanes IH]; intros li y [|i]; try done; cbn [lane_lines].
  - cbn. intros [= <- <-]. rewrite Z.add_0_r. eexists [_; _]. left.
  - cbn [lookup list_lookup fmap list_fmap take foldr]. intros Hi.
    specialize (IH (S li) (y + hh) i Hi). rewrite <-Z.add_assoc in IH.
    eapply drawn_sub, IH. intros ln Hln. do 2 right. apply elem_of_app. by right.
Qed.

(** A drawable diagram where every step has its place and no two share a cell. *)
Definition well_laid (d : Diagram) : Prop :=
  drawable d ∧ (∀ s, s ∈ dg_steps d → placed d s) ∧
  ∀ i j s s', dg_steps d !! i = Some s → dg_steps d !! j = Some s' → i ≠ j → other_cell s s'.

(** Every kind has a colour and every edge joins two steps, which may be counted
    from the end. *)
Definition supported (d : Diagram) : Prop :=
  Forall (λ kv, kv.1 ∈ PALETTE.*1) (dg_legend d) ∧
  Forall (λ s, st_kind s ∈ PALETTE.*1) (dg_steps d) ∧
  Forall (λ e, let n := Z.of_nat (length (dg_steps d)) in
    - n ≤ e.1.1 < n ∧ - n ≤ e.1.2 < n) (dg_edges d).

Lemma supported_renders d : well_laid d → supported d → is_ok (render d) = true.
Proof.
  intros (_ & Hp & _) (Hl & Hk & He). apply render_succeeds. split; [done|]. split; [|done].
  apply list.Forall_forall. intros s Hs. split; [by apply (proj1 (list.Forall_forall _ _) Hk)|].
  destruct (Hp s Hs) as [? _]. lia.
Qed.

(** The card [b] of step [s]: it is in the lines, inside the band of its lane,
    which is in the lines too, inside the columns it spans, and inside the
    canvas. *)
Definition card_sound (d : Diagram) (lines : list string) (s : Step) (b : bbox) : Prop :=
  ∃ x y top h, box_at b x y ∧
    drawn (show (bx b)) (show (by_ b)) (str_int (bw b)) (str_int (bh b)) lines ∧
    drawn (str_int (dg_pad d)) (str_int top) (str_int (width d - 2 * dg_pad d)) (str_int h) lines ∧
    lane_at d (st_lane s) top h ∧ 2 * top ≤ y ∧ y + 2 * bh b ≤ 2 * (top + h) ∧
    2 * (grid_x d + st_col s * dg_col_w d) ≤ x ∧
    x + 2 * bw b ≤ 2 * (grid_x d + (st_col s + st_span s) * dg_col_w d) ∧
    0 ≤ x ∧ x + 2 * bw b ≤ 2 * width d ∧ 0 ≤ y ∧ y + 2 * bh b ≤ 2 * height d.

Lemma render_cards d lines :
  render d = Ok lines →
  ∃ cards, rmapM (card_lines d) (dg_steps d) = Ok cards ∧
    (∀ c, c ∈ cards → c.1 ⊆ lines) ∧ lane_lines d 0 grid_y (zip (dg_lanes d) (lane_h d)) ⊆ lines.
Proof.
  unfold render. destruct (legend_lines _ _) as [lg|]; [|done]. cbn [rbind].
  destruct (rmapM (card_lines d) _) as [cards|]; [|done]. cbn [rbind].
  destruct (rmapM (edge_lines _ _) _) as [edges|]; [|done]. cbn [rbind]. intros Hl.
  assert (lines = _) as -> by (symmetry; exact (f_equal (λ r, match r with Ok l => l | Raise _ => [] end) Hl)).
  clear Hl. cbv beta iota.
  exists cards. split; [done|]. split.
  - intros c Hc ln Hln. assert (ln ∈ concat cards.*1); [|rewrite !elem_of_app; tauto].
    apply list_elem_of_In, in_concat. exists c.1.
    split; apply list_elem_of_In; [by apply list_elem_of_fmap_2|done].
  - intros ln Hln. rewrite !elem_of_app. tauto.
Qed.

(** The turn of the loop draws the card's box. *)
Lemma card_lines_drawn d s c :
  card_lines d s = Ok c →
  card_box d s = Ok c.2 ∧
  drawn (show (bx c.2)) (show (by_ c.2)) (str_int (bw c.2)) (str_int (bh c.2)) c.1.
Proof.
  unfold card_lines. destruct (palette _) as [[[f k] i]|]; [|done]. cbn [rbind].
  destruct (card_box d s) as [b|]; [|done]. cbn [rbind]. intros [= <-]. split; [done|].
  eexists [_; _; _]. left.
Qed.

Lemma lane_at_drawn d i top h :
  lane_at d i top h →
  drawn (str_int (dg_pad d)) (str_int top) (str_int (width d - 2 * dg_pad d)) (str_int h)
    (lane_lines d 0 grid_y (zip (dg_lanes d) (lane_h d))).
Proof.
  intros Hat. rewrite (lane_at_top _ _ _ _ Hat). destruct Hat as [_ Hh].
  pose proof (lookup_lt_Some _ _ _ Hh) as Hlt. rewrite lane_h_length in Hlt.
  apply lookup_lt_is_Some in Hlt as [name Hn].
  pose proof (lane_lines_drawn d 0 grid_y (zip (dg_lanes d) (lane_h d)) (Z.to_nat i) name h) as Hd.
  rewrite snd_zip in Hd by by rewrite lane_h_length. apply Hd.
  apply lookup_zip_with_Some. by exists name, h.
Qed.

Lemma card_sound_of d lines s c :
  drawable d → s ∈ dg_steps d → placed d s → card_lines d s = Ok c → c.1 ⊆ lines →
  lane_lines d 0 grid_y (zip (dg_lanes d) (lane_h d)) ⊆ lines → card_sound d lines s c.2.
Proof.
  intros Hd Hs Hp [Hb Hdr]%card_lines_drawn Hsub Hlanes.
  destruct (card_placed d Hd s Hs Hp) as (b & x & y & top & h & Hb' & Hxy & Hat & B1 & B2 & B3 & B4).
  rewrite Hb in Hb'. injection Hb' as <-. exists x, y, top, h. split; [done|].
  split; [exact (drawn_sub _ _ _ _ _ _ Hsub Hdr)|].
  split; [exact (drawn_sub _ _ _ _ _ _ Hlanes (lane_at_drawn _ _ _ _ Hat))|].
  split; [done|]. destruct Hp as (Hl & Hc & Hsp & Hcols), Hd as [_ Hpad Hlane Hcard _ _].
  pose proof (lane_at_grid _ _ _ _ Hat) as [Hg1 Hg2].
  assert (150 = grid_y) as Hgy by done.
  assert (0 ≤ footer_h d) by (unfold footer_h; destruct (dg_footer d); lia).
  unfold width, height, grid_x in *. repeat split; nia.
Qed.

(** C39. What the renderer writes is laid out as the diagram says.  Take any diagram of
    drawable sizes whose steps are on the grid, no two in one cell, and whose
    kinds and edges exist.  Then the file is written, and the card of every
    step is a rectangle of it, inside the band drawn for its lane, inside the
    columns it spans and inside the canvas, whatever its texts and badge; and
    the cards of two steps share no point. *)
Theorem cards_sound d :
  well_laid d → supported d →
  ∃ lines cards, render d = Ok lines ∧ length cards = length (dg_steps d) ∧
    (∀ i s b, dg_steps d !! i = Some s → cards !! i = Some b → card_sound d lines s b) ∧
    (∀ i j b b' px py, cards !! i = Some b → cards !! j = Some b' → i ≠ j →
       in_box b px py → in_box b' px py → False).
Proof.
  intros Hw [lines Hr]%(supported_renders d Hw)%is_ok_iff. destruct Hw as (Hd & Hplaced & Hcells).
  destruct (render_cards _ _ Hr) as (cards & Hc & Hsub & Hlanes).
  apply rmapM_Ok in Hc as Hall.
  assert (Hturn : ∀ i b, cards.*2 !! i = Some b →
    ∃ s c, dg_steps d !! i = Some s ∧ b = c.2 ∧ card_lines d s = Ok c ∧ c.1 ⊆ lines).
  { intros i b (c & -> & Hi)%list_lookup_fmap_Some.
    destruct (Forall2_lookup_r _ _ _ _ _ Hall Hi) as (s & Hs & Hsc). exists s, c.
    do 3 (split; [done|]). by apply Hsub, (list_elem_of_lookup_2 _ i). }
  exists lines, (cards.*2). split; [done|].
  split; [by rewrite length_fmap, (rmapM_length _ _ _ Hc)|]. split.
  - intros i s b Hs (s' & c & Hs' & -> & Hl & Hin)%Hturn. rewrite Hs in Hs'. injection Hs' as <-.
    apply list_elem_of_lookup_2 in Hs as Hel. apply card_sound_of; auto.
  - intros i j b b' px py (s & c & Hs & -> & [Hl _]%card_lines_drawn & _)%Hturn
      (s' & c' & Hs' & -> & [Hl' _]%card_lines_drawn & _)%Hturn Hij.
    destruct (cards_apart d Hd s s') as (k & k' & x & y & x' & y' & Hk & Hk' & Hxy & Hxy' & Ha & _);
      eauto using list_elem_of_lookup_2.
    rewrite Hl in Hk. rewrite Hl' in Hk'. injection Hk as <-. injection Hk' as <-.
    by apply (apart_no_point _ _ x y x' y').
Qed.

(** ** Text is inert *)

Lemma escape_char_prefix a b x y :
  escape_char a +:+ x = escape_char b +:+ y → a = b ∧ x = y.
Proof.
  assert (Hinj : ∀ n, byte_val a = n → byte_val b = n → a = b).
  { intros n <- Hb. apply (f_equal ascii_of_N) in Hb. unfold byte_val in Hb.
    by rewrite !ascii_N_embedding in Hb. }
  assert (Hc : ∀ c n, byte_val c = n → c = ascii_of_N n).
  { intros c n <-. unfold byte_val. by rewrite ascii_N_embedding. }
  unfold escape_char.
  repeat match goal with |- context [(byte_val ?c =? ?n)%N] => destruct (N.eqb_spec (byte_val c) n) end;
    rewrite ?app_cons_str, ?app_nil_str; intros [= ]; subst; try (split; [by eapply Hinj|done]);
    try done.
Qed.

Lemma escape_inj s t : escape s = escape t → s = t.
Proof.
  revert t. induction s as [|a s IH]; intros [|b t]; cbn [escape]; [done|..].
  - unfold escape_char. repeat (destruct (_ =? _)%N); rewrite ?app_cons_str; done.
  - unfold escape_char. repeat (destruct (_ =? _)%N); rewrite ?app_cons_str; done.
  - intros [-> Hs]%escape_char_prefix. f_equal. by apply IH.
Qed.

(** The text of a card can neither break the markup nor be confused with another
    text: what is written has no angle bracket and no quote, and texts that
    differ are written differently. *)
Theorem escape_inert s t :
  str_forallb (λ a, negb ((byte_val a =? 60) || (byte_val a =? 62) ||
                          (byte_val a =? 34) || (byte_val a =? 39))%N) (escape s) = true ∧
  (escape s = escape t ↔ s = t).
Proof.
  split; [|split; [apply escape_inj|by intros ->]].
  induction s as [|a s IH]; [done|]. cbn [escape]. rewrite str_forallb_app, IH, andb_true_r.
  unfold escape_char.
  repeat match goal with |- context [if (byte_val a =? ?n)%N then _ else _] =>
    destruct (N.eqb_spec (byte_val a) n); [by vm_compute|] end.
  cbn [str_forallb]. rewrite andb_true_r.
  by repeat match goal with |- context [(byte_val a =? ?n)%N] =>
    destruct (N.eqb_spec (byte_val a) n); [done|] end.
Qed.

(** ** A small diagram *)

Definition two_cards : Diagram :=
  mkDiagram "T" "S" ["a"; "b"] ["c1"; "c2"; "c3"]
    [mkStep 0 0 "left" ["x"; "y"] "core" 1 (Some "B1"); mkStep 0 1 "right" [] "gate" 2 None]
    [(0, 1, Some "next")] [] [] 170 236 222 14 60.

Lemma cards_apart_witness :
  ∃ b b' x y x' y',
    card_box two_cards (mkStep 0 0 "left" ["x"; "y"] "core" 1 (Some "B1")) = Ok b ∧
    card_box two_cards (mkStep 0 1 "right" [] "gate" 2 None) = Ok b' ∧
    box_at b x y ∧ box_at b' x' y' ∧ apart b b' x y x' y' ∧
    0 ≤ x ∧ x + 2 * bw b ≤ 2 * width two_cards ∧ 0 ≤ y ∧ y + 2 * bh b ≤ 2 * height two_cards.
Proof.
  apply (cards_apart two_cards).
  - constructor; vm_compute; done.
  - left.
  - right. left.
  - repeat split; vm_compute; done.
  - repeat split; vm_compute; done.
  - right. left. vm_compute. done.
Defined.
