(* ===== verification/Journeys.v ===== *)
(** * The user journeys (architecture/_gen/journeys.py)

    J1 and J2 as data, field by field. *)

From S2P Require Import Prelude PyStr PyFloat Swimlane.

Open Scope Z_scope.

Definition nl : string := String (Ascii.ascii_of_N 10) EmptyString.
Definition dq : string := String (Ascii.ascii_of_N 34) EmptyString.

Definition Journeys_LEGEND : list (string * string) :=
  [("human", "person");
   ("port", "chat surface");
   ("core", "Smokejumper");
   ("audit", "audit / evidence");
   ("gate", "approval-gated");
   ("store", "ticket / record");
   ("signal", "system signal")].

Definition J1_steps_1 : list Step :=
  [mkStep 3 0 "Alertmanager fires"
     ["HighErrorRate api p99 5xx";
      "posts webhook v4 batch"]
     "signal" 1 None;
   mkStep 2 1 "admit · dedupe · enqueue"
     ["verify token · normalize B2";
      "fingerprint → run_id";
      "202 to Alertmanager"]
     "core" 1 (Some "B8 event");
   mkStep 1 1 "root card created"
     ["“Investigating: HighErrorRate api”";
      "scope: high → ≤8 agents · $ cap";
      "checklist: triage ▸ investigate ▸ verify"]
     "port" 1 None;
   mkStep 2 2 "triage agents ∥"
     ["impact: 3.1% of req/min (n=42k)";
      "severity: SEV2 by rubric";
      "owner: team-payments on call"]
     "core" 1 (Some "B11");
   mkStep 1 2 "card edited in place"
     ["impact + SEV + owner lines appear";
      "no new posts — checklist ticks"]
     "port" 1 None;
   mkStep 2 3 "investigate agents ∥"
     ["change-correlator · saturation-finder";
      "error-signature-summarizer";
      "precedent-researcher"]
     "core" 1 (Some "B4 → MCP");
   mkStep 3 3 "witness reads"
     ["mcp-grafana: query_prometheus";
      "github-mcp: deployments";
      "k8s-mcp: events (read-only)"]
     "port" 1 (Some "EvidenceRecord");
   mkStep 4 3 "evidence snapshots"
     ["E1 deploy #412 t−4m";
      "E2 pool_wait p99 ↑";
      "E3 signature first seen svc/api"]
     "audit" 1 None;
   mkStep 2 4 "verify gate"
     ["adversarial-verifier: disproof tried";
      "temporal-order: cause < effect ✓";
      "H1 validated · H2 invalidated"]
     "core" 1 (Some "hypothesis");
   mkStep 1 4 "thread reply: findings"
     ["H1 ✓ deploy #412 4m before onset [E1][E3]";
      "H2 ✗ no saturation [E2]";
      "14 tool calls · 3 sources · View steps"]
     "port" 1 None;
   mkStep 2 5 "synthesize B6"
     ["verdict: root_caused · confidence 0.86";
      "proposed: rollback #412 (reversible)";
      "tokens 41k · $0.31"]
     "core" 1 (Some "B6");
   mkStep 4 5 "ticket opened"
     ["Linear PAY-1187 via MCP";
      "B6 summary + Source chips";
      "run closed · byte range"]
     "store" 1 (Some "B8 action");
   mkStep 1 5 "conclusion reply"
     ["verdict + top hypothesis + citations";
      "buttons: Approve rollback · Deny · Ask"]
     "port" 1 None;
   mkStep 0 6 "reads, decides"
     ["opens Source 1 and Source 3";
      "clicks Approve rollback"]
     "human" 1 None].

Definition J1_steps_2 : list Step :=
  [mkStep 2 6 "approval consumed once"
     ["B5 token bound to tool call sha";
      "double-click → one consumption";
      "graph resumes from interrupt"]
     "gate" 1 (Some "B5");
   mkStep 2 7 "rollback-executor (ACT)"
     ["privileged tier · serialized";
      "argocd rollback (change source)";
      "mitigation-verifier pre/post"]
     "gate" 1 (Some "act");
   mkStep 3 7 "post-action reads"
     ["5xx rate 3.1% → 0.2% in 90s";
      "pool_wait back to baseline"]
     "port" 1 None;
   mkStep 1 7 "thread reply: mitigated"
     ["“rollback applied · verified ✓ [E4]”";
      "status: mitigated (verified)"]
     "port" 1 None;
   mkStep 2 8 "recovery-confirmer"
     ["queues drained · retries settled";
      "AM resolved → window closed"]
     "core" 1 None;
   mkStep 4 8 "ticket updated"
     ["PAY-1187: mitigated · resolved";
      "(fingerprint, run_id) idempotent"]
     "store" 1 None;
   mkStep 0 8 "reads resolution"
     ["“Was this the cause?” → Yes";
      "human verdict recorded"]
     "human" 1 (Some "feedback");
   mkStep 2 9 "learn agents (scheduled)"
     ["postmortem-drafter · factors";
      "action-item-gate on follow-ups";
      "case → episode (post-v1)"]
     "core" 1 None;
   mkStep 4 9 "replay proves it"
     ["smokejumper replay <run_id>";
      "same B6 from snapshots offline"]
     "audit" 1 None].

Definition J1_edges : list (Z * Z * option string) :=
  [(0, 1, Some "B1");
   (1, 2, None);
   (1, 3, None);
   (3, 4, None);
   (3, 5, None);
   (5, 6, None);
   (6, 7, None);
   (5, 8, None);
   (8, 9, None);
   (8, 10, None);
   (10, 11, None);
   (10, 12, None);
   (12, 13, None);
   (13, 14, Some "approve");
   (14, 15, None);
   (15, 16, None);
   (16, 17, None);
   (15, 18, None);
   (18, 19, None);
   (18, 20, None);
   (18, 21, None);
   (21, 22, None)].

Definition J1_lanes : list string :=
  [("Responder" +:+ nl +:+ "(on-call)");
   ("Slack thread" +:+ nl +:+ "(root card + replies)");
   ("Smokejumper" +:+ nl +:+ "(agents · workflows)");
   ("Witnesses" +:+ nl +:+ "(MCP servers)");
   ("Ticket &" +:+ nl +:+ "Flight Recorder")].

Definition J1_columns : list string :=
  ["t+0 · alert";
   "t+5s · admitted";
   "t+10s · triage";
   "t+1m · investigate";
   "t+2m · verify";
   "t+3m · conclude";
   "t+4m · decide";
   "t+6m · mitigate";
   "t+15m · resolve";
   "later · learn"].

Definition J1_footer : list string :=
  ["What the responder never does: open Grafana, grep logs, find the deploy, or write the ticket. What the responder always does: read three citations and press one button.";
   "Every card in lanes 3–5 is one or more B8 lines; ‘View steps’ opens the full ledger (see system/c3-components.svg, step ledger). Cards in lane 2 are the ONLY Slack posts — one root card edited in place plus four thread replies.";
   "Design targets, not measurements: t+3m to a cited conclusion on a high-severity alert; t+6m mitigated when a reversible action exists and a human approves."].

Definition J1 : Diagram :=
  mkDiagram "J1 — On-call responder: from page to closed ticket without leaving Slack"
    "One incident, one Slack thread. The responder reads, decides, approves. Smokejumper witnesses, reasons, files, and proves. Times are the design target for a high-severity alert."
    J1_lanes J1_columns
    (J1_steps_1 ++ J1_steps_2) J1_edges
    J1_footer Journeys_LEGEND 170 214 202 14 60.

Definition J2_steps : list Step :=
  [mkStep 0 0 "clone · cp .env.example .env"
     ["fill nothing yet";
      "uv sync"]
     "human" 1 None;
   mkStep 1 0 "docker compose up -d --build"
     ["postgres+pgvector · redis · app";
      "alembic upgrade head at boot"]
     "core" 1 None;
   mkStep 1 1 "curl /healthz → 200"
     ["postgres ok · schema head · redis ok";
      "worker ok · outbox ok"]
     "core" 1 (Some "proof");
   mkStep 0 1 "smokejumper check-config"
     ["local env · stubs allowed";
      "prod refuses stubs — by design"]
     "human" 1 None;
   mkStep 2 2 "Slack app from manifest.json"
     ["scopes: app_mentions:read chat:write";
      "channels:history reactions:write";
      "Socket Mode + Interactivity ON"]
     "port" 1 (Some "8 steps");
   mkStep 2 3 "two tokens → .env"
     ["xapp-… app token (connections:write)";
      "xoxb-… bot token after install";
      "no public URL · no ngrok"]
     "port" 1 (Some "2 creds");
   mkStep 0 3 "invite bot to #incidents"
     ["/invite @smokejumper";
      "SLACK_CHANNEL_ID → .env"]
     "human" 1 None;
   mkStep 3 4 "point the alert source at us"
     ["Alertmanager receiver → /webhooks/alertmanager";
      "  peer CIDR allowlist (no credential)";
      "Datadog: webhook + X-Smokejumper-Token"]
     "signal" 1 (Some "1 secret");
   mkStep 4 4 "witness credentials"
     ["GRAFANA_SERVICE_ACCOUNT_TOKEN";
      "(optional) Datadog api/app keys";
      "k8s-mcp --read-only via kubeconfig"]
     "port" 1 (Some "1–2 creds");
   mkStep 1 5 "compose up --profile witness"
     ["mcp-grafana sidecar · k8s-mcp sidecar";
      "manifest.yaml: every tool tiered";
      "boot fails on untiered tool"]
     "core" 1 None;
   mkStep 1 6 "fixtures replay --source alertmanager"
     ["202 · one run · one fixture ticket";
      "GET /runs/{fp} → B6 + audit range"]
     "core" 1 (Some "proof");
   mkStep 2 6 "first thread appears"
     ["root card + triage lines";
      "reply with citations"]
     "port" 1 None;
   mkStep 0 6 "operator reads the thread"
     ["@smokejumper what did you rule out?";
      "→ hypothesis board reply"]
     "human" 1 None].

Definition J2_edges : list (Z * Z * option string) :=
  [(0, 1, None);
   (1, 2, None);
   (2, 3, None);
   (3, 4, None);
   (4, 5, None);
   (5, 6, None);
   (6, 7, None);
   (7, 8, None);
   (8, 9, None);
   (9, 10, None);
   (10, 11, None);
   (11, 12, None)].

Definition J2_lanes : list string :=
  ["Operator";
   ("Terminal /" +:+ nl +:+ "compose");
   ("Slack app" +:+ nl +:+ "(manifest)");
   ("Alert source" +:+ nl +:+ "(Alertmanager / Datadog)");
   ("MCP servers" +:+ nl +:+ "(witnesses)")].

Definition J2_columns : list string :=
  ["0–3 min";
   "3–6 min";
   "6–12 min";
   "12–18 min";
   "18–24 min";
   "24–30 min";
   "verify"].

Definition J2_footer : list string :=
  ["Credential count for the minimum path (Slack + Alertmanager + Grafana): 4 — xapp, xoxb, Grafana service-account token, and the Alertmanager peer CIDR (not a secret). Datadog adds one webhook token; Linear MCP adds one API key or OAuth.";
   "Three proofs on the way, each a command with a checkable output: /healthz 200 · check-config exit 0 · fixtures replay → GET /runs/{fp}. Nothing here is ‘it should work’.";
   "Facts behind the counts: Slack Socket Mode quickstart (docs.slack.dev), mcp-grafana README, kubernetes-mcp-server README — see docs/plans/2026-08-29-reference-architecture-analysis.md §5."].

Definition J2 : Diagram :=
  mkDiagram "J2 — Operator setup: from clone to first investigated alert in about 30 minutes"
    "The whole point of adopting official SDKs and existing MCP servers: five credentials, no public URL, no tunnel. Counted against the vendor docs read on 2026-08-29."
    J2_lanes J2_columns
    (J2_steps) J2_edges
    J2_footer Journeys_LEGEND 170 236 222 14 60.
