(* ===== verification/Scenarios.v ===== *)
(** * The incident scenarios (architecture/_gen/scenarios.py)

    S1 to S4 as data, field by field. *)

From S2P Require Import Prelude PyStr Sha256 PyFloat Swimlane Journeys.

Open Scope Z_scope.


Definition LANES : list string :=
  [("System signals" +:+ nl +:+ "(causal chain)");
   ("First human" +:+ nl +:+ "signal");
   ("Smokejumper" +:+ nl +:+ "hypotheses");
   ("Evidence that" +:+ nl +:+ "decides");
   ("Mitigation" +:+ nl +:+ "ladder");
   "Responder"].

Definition Scenarios_LEGEND : list (string * string) :=
  [("signal", "system signal");
   ("port", "alert / chat");
   ("core", "hypothesis held");
   ("ok", "validated");
   ("audit", "evidence snapshot");
   ("gate", "action (approval)");
   ("human", "person")].

Definition COLS : list string :=
  ["hours before";
   "T0 · trigger";
   "T+min · symptom";
   "detect";
   "triage";
   "investigate";
   "verify";
   "mitigate";
   "resolve"].

Definition S1_steps_1 : list Step :=
  [mkStep 0 0 "BurstBalance declining"
     ["EBSIOBalance% / EBSByteBalance% ↓ 10–12 h";
      "nobody alerts on a leading indicator";
      "(Chen 2025: dropped for 10–12 h before)"]
     "signal" 1 (Some "leading");
   mkStep 0 1 "IOPS hits ceiling"
     ["ReadIOPS+WriteIOPS flat at 3×GiB (min 100)";
      "BurstBalance → 0";
      "DiskQueueDepth rises"]
     "signal" 1 (Some "T0");
   mkStep 0 2 "latency → pool → 5xx"
     ["ReadLatency ms → 100s ms";
      "pg wait_event IO:DataFileRead";
      "DatabaseConnections → cap · pool wait ↑";
      "504 (LB) · 503 (health) · 500 (driver)"]
     "signal" 1 None;
   mkStep 1 3 "HighErrorRate api"
     ["synthetic / SLO alert, not the cause metric";
      "Honeycomb: SLO burn dismissed overnight";
      "→ webhook v4 → Smokejumper"]
     "port" 1 (Some "B1");
   mkStep 2 4 "hypotheses seeded"
     ["H1 storage credit exhaustion";
      "H2 single bad query / plan flip";
      "H3 lock queue · H4 connection storm";
      "H5 T-class CPU credits"]
     "core" 1 (Some "board");
   mkStep 5 4 "sees root card"
     ["impact 4.2% of req (n=61k) · SEV2";
      "owner: platform-db";
      "checklist ticking"]
     "human" 1 None;
   mkStep 3 5 "witness reads (∥)"
     ["CW: BurstBalance=0 · IOPS flat · latency ×40";
      "pg_stat_statements: uniform, no single query";
      "pg_locks not granted = 0";
      "change.list: no deploy in window"]
     "audit" 1 (Some "E1–E4");
   mkStep 2 5 "board updates"
     ["H1 ✓ validated (E1 all three conditions)";
      "H2 ✗ (E2 uniform) · H3 ✗ (E3)";
      "H4 ✗ ordering: IO first · H5 n/a class"]
     "ok" 1 None;
   mkStep 3 6 "disproof attempted"
     ["is IO latency up with balance > 20%? no";
      "connections before IO? no (E4 order)";
      "order: balance→IOPS→latency→conns→5xx ✓"]
     "audit" 1 (Some "verify");
   mkStep 2 6 "B6 root_caused 0.84"
     ["cause: gp2 credits exhausted on db-main";
      "red herring named: CPU looked hot (Chen)";
      "Source chips [1][2][3][4]"]
     "ok" 1 (Some "B6");
   mkStep 4 7 "ladder (reversible first)"
     ["1 shed load / circuit-break (Honeycomb)";
      "2 cancel worst statements · ANALYZE";
      "3 failover to replica";
      "4 gp2 → gp3 3,000 IOPS (one-way, online)";
      "5 scale class (restart)"]
     "gate" 1 (Some "proposed");
   mkStep 5 7 "approves 1 then 4"
     ["reads E1 chart · approves shed";
      "approves storage change (B5)"]
     "human" 1 (Some "B5")].

Definition S1_steps_2 : list Step :=
  [mkStep 3 7 "mitigation-verifier"
     ["DiskQueueDepth ↓ · latency ↓ in 4 min";
      "5xx 4.2% → 0.3%"]
     "audit" 1 None;
   mkStep 0 8 "recovery confirmed"
     ["pool drained · retries settled";
      "AM resolved → window closed"]
     "signal" 1 None;
   mkStep 4 8 "ticket + prevent"
     ["Linear DB-… mitigated · resolved";
      "expiry-forecaster: BurstBalance < 30% alert";
      "postmortem: indicator visible for 10 h"]
     "gate" 1 None].

Definition S1_edges : list (Z * Z * option string) :=
  [(0, 1, None);
   (1, 2, None);
   (2, 3, None);
   (3, 4, None);
   (4, 5, None);
   (4, 6, None);
   (6, 7, None);
   (7, 8, None);
   (8, 9, None);
   (9, 10, None);
   (10, 11, None);
   (11, 12, None);
   (12, 13, None);
   (13, 14, None)].

Definition S1_footer : list string :=
  ["Discriminating queries: CloudWatch BurstBalance · EBSIOBalance% · ReadIOPS/WriteIOPS · ReadLatency · DiskQueueDepth · DatabaseConnections · CPUCreditBalance ‖ SQL: pg_stat_activity wait_event grouping · pg_stat_statements by total_exec_time · pg_locks NOT granted ‖ PromQL: 5xx ratio · p99 · hikaricp_connections_pending.";
   "Grounding: AWS RDS metric reference (READ) · Honeycomb ‘RDS clogs & cache-refresh crash loops’ 2023, 68 min (READ) · GitLab INC 2026-08-27 plan flip → 500s, fixed by ANALYZE (READ) · Grafana Labs unbounded join, 28 min human vs 8 min assistant (READ) · Chen RDS gp2 burst post 2025 (INFERRED, page blocked).";
   "Open: no first-party postmortem names BurstBalance with a minute timeline — next probe is GitLab gl-infra ‘disk util|iops’ and SRE Weekly ‘burst balance’. Why it matters to Smokejumper: none of the four surveyed products publishes an IOPS example; the leading indicator is the open lane."].

Definition S1 : Diagram :=
  mkDiagram "S1 — API 5xx from database I/O saturation (gp2 burst-balance / IOPS ceiling)"
    "The slow-burn cause hidden behind an application symptom. Mechanism from AWS RDS metric definitions (READ); timeline shape from Honeycomb 2023, GitLab 2026, Grafana Labs — no first-party postmortem names BurstBalance with minutes; say so."
    LANES COLS
    (S1_steps_1 ++ S1_steps_2) S1_edges
    S1_footer Scenarios_LEGEND 170 262 248 14 60.

Definition S2_steps_1 : list Step :=
  [mkStep 0 0 "quiet baseline"
     ["RPS flat · 5xx 0.1%";
      "no leading indicator — that is the point"]
     "signal" 1 None;
   mkStep 0 1 "deploy / config marker"
     ["CI deploy #412 · observed_generation ↑";
      "or config edit with no code deploy";
      "(Cloudflare 2025: permission → doubled file)"]
     "signal" 1 (Some "T0");
   mkStep 0 2 "step-change in errors"
     ["5xx within 1–15 min of marker";
      "CPU pinned (2019) or panic/crash-loop (2025)";
      "errors segregate by version label"]
     "signal" 1 None;
   mkStep 1 3 "synthetic check pages"
     ["Cloudflare 2019: PagerDuty at T0+3m";
      "GitHub Aug-24: impact detected at +3m";
      "→ webhook → Smokejumper"]
     "port" 1 (Some "B1");
   mkStep 2 4 "hypotheses seeded"
     ["H1 the change at T0";
      "H2 attack / traffic surge (red herring ×3)";
      "H3 dependency outage (S4)";
      "H4 artifact drift · H5 rollback didn't take"]
     "core" 1 (Some "board");
   mkStep 5 4 "sees root card"
     ["impact 3.1% (n=42k) · SEV2";
      "owner: team-payments"]
     "human" 1 None;
   mkStep 3 5 "witness reads (∥)"
     ["change.list: deploy #412 at T0−4m (E1)";
      "5xx by version: new 9.8% · old 0.1% (E2)";
      "RPS flat, unique IPs flat (E3)";
      "dependency p99 unchanged (E4)"]
     "audit" 1 (Some "E1–E4");
   mkStep 2 5 "board updates"
     ["H1 ✓ (E1+E2 segregation)";
      "H2 ✗ flat traffic (E3) — red herring named";
      "H3 ✗ (E4) · H4 open until artifact hash read"]
     "ok" 1 None;
   mkStep 3 6 "disproof attempted"
     ["errors on old version too? no (E2)";
      "onset before marker? no (E1 order)";
      "canary vs baseline confirms"]
     "audit" 1 (Some "verify");
   mkStep 2 6 "B6 root_caused 0.91"
     ["cause: deploy #412 · commit abc123";
      "proposed: rollback (reversible)";
      "Source chips [1][2][3]"]
     "ok" 1 (Some "B6");
   mkStep 4 7 "ladder"
     ["1 kill switch / flag off (CF 2019: 2 min)";
      "2 roll back artifact/config to known-good";
      "3 roll back code · VERIFY fleet version";
      "4 restart to flush state · 5 forward-fix last"]
     "gate" 1 (Some "proposed");
   mkStep 5 7 "approves rollback"
     ["one button · B5 token consumed once"]
     "human" 1 (Some "B5");
   mkStep 3 7 "mitigation-verifier"
     ["fleet version = old? (incident.io: pipeline re-deployed it)";
      "5xx 3.1% → 0.2% in 90 s"]
     "audit" 1 None;
   mkStep 0 8 "recovery confirmed"
     ["error rate baseline · queues drained"]
     "signal" 1 None].

Definition S2_steps_2 : list Step :=
  [mkStep 4 8 "ticket + prevent"
     ["ticket: mitigated → resolved";
      "action: pipeline must not re-apply revert";
      "episode saved for precedent-researcher"]
     "gate" 1 None].

Definition S2_edges : list (Z * Z * option string) :=
  [(0, 1, None);
   (1, 2, None);
   (2, 3, None);
   (3, 4, None);
   (4, 5, None);
   (4, 6, None);
   (6, 7, None);
   (7, 8, None);
   (8, 9, None);
   (9, 10, None);
   (10, 11, None);
   (11, 12, None);
   (12, 13, None);
   (13, 14, None)].

Definition S2_footer : list string :=
  ["Discriminating queries: deploy list / kubectl rollout history / flag audit ‖ PromQL: sum by(version)(rate(5xx)) / sum by(version)(rate(all)) · changes(kube_deployment_status_observed_generation[30m]) · increase(container_restarts[10m]) · sum(rate(http_requests_total[1m])) flat ⇒ not attack ‖ logs: panic|unwrap|FATAL.";
   "Grounding (all READ): Cloudflare 2019-07-02 WAF regex — 13:42 deploy · 13:45 page · 14:07 kill · 14:09 recovered; attack suspected first · Cloudflare 2025-11-18 Bot Mgmt file — 126 min to identify, DDoS red herring · GitHub 2024-08-14 config revert 36 min · GitHub 2024-03-15 framework upgrade rollback 42 min · incident.io 2024-07-09 pipeline re-deployed the reverted change.";
   "Why it matters to Smokejumper: change-correlator is the highest-yield question in the public record (config + deploy ≈ 65 of ~200 danluu postmortems); the verifier must check the fleet version AFTER rollback, not the rollback command's exit code."].

Definition S2 : Diagram :=
  mkDiagram "S2 — Bad deploy or config change → error spike → rollback"
    "The most common cause in public postmortems and the fastest to fix when a discrete change exists. Timelines: Cloudflare 2019 (detect→mitigate 22 min, mitigate→recover 2 min), GitHub Aug-2024 (36 min), incident.io Jul-2024 (rollback re-deployed by pipeline)."
    LANES COLS
    (S2_steps_1 ++ S2_steps_2) S2_edges
    S2_footer Scenarios_LEGEND 170 262 248 14 60.

Definition S3_steps_1 : list Step :=
  [mkStep 0 0 "trigger accumulates"
     ["cache flush (Slack 22) · migration lock (Heroku)";
      "N+1 join (incident.io) · pool shrink (CircleCI)";
      "or plain traffic surge"]
     "signal" 1 (Some "varies");
   mkStep 0 1 "per-request hold time ↑"
     ["pg_locks not granted (locks) or";
      "queries/request ×N (N+1) or";
      "slow IO (→ S1)"]
     "signal" 1 (Some "T0");
   mkStep 0 2 "pool → cap → 5xx"
     ["pool in-use = max · pool wait appears";
      "pgbouncer cl_waiting ↑ · FATAL too many conns";
      "threads block → health fails → 502/503/504";
      "‘context canceled’ in logs"]
     "signal" 1 None;
   mkStep 1 3 "customer report / Sentry"
     ["incident.io 2023: customer + Sentry flurry";
      "GitLab 2023: Apdex SLO + DB saturation";
      "Slack 2020: DB alert → 503s hours later"]
     "port" 1 (Some "B1");
   mkStep 2 4 "hypotheses seeded"
     ["H1 lock queue · H2 slow query / bad plan";
      "H3 many small holds · N+1 · needless txn";
      "H4 pool config regression";
      "H5 downstream / IO slow (→ S1/S4)"]
     "core" 1 (Some "board");
   mkStep 5 4 "sees root card"
     ["impact: 12% of API req (n=88k) · SEV2";
      "owner: core-api"]
     "human" 1 None;
   mkStep 3 5 "witness reads (∥)"
     ["pg_locks not granted: 0 (E1)";
      "pg_stat_statements: all fast, ×7 per req (E2)";
      "traces: 7 DB spans/req since #390 (E3)";
      "pool pending p99 18 s (E4) · DB CPU 30% (E5)"]
     "audit" 1 (Some "E1–E5");
   mkStep 2 5 "board updates"
     ["H1 ✗ (E1) · H2 ✗ (E2 fast) · H5 ✗ (E5 idle DB)";
      "H3 ✓ N+1 introduced by #390 (E2+E3)";
      "H4 open: pool cap unchanged? read config"]
     "ok" 1 None;
   mkStep 3 6 "disproof attempted"
     ["wait high while DB idle? yes (E4+E5) → not DB";
      "did span count rise at #390? yes (E3)";
      "red herring named: ‘scale up’ (Slack 2020)"]
     "audit" 1 (Some "verify");
   mkStep 2 6 "B6 root_caused 0.79"
     ["cause: N+1 from #390 holding connections";
      "note: pool wait is the metric to alert on";
      "Source chips [2][3][4]"]
     "ok" 1 (Some "B6");
   mkStep 4 7 "ladder"
     ["1 throttle / shed inbound (Slack boot throttle)";
      "2 cancel blocker pid (locks) — n/a here";
      "3 disable flag / job class (GitLab)";
      "4 rollback #390 · 5 rolling restart";
      "6 raise pool caps — usually worsens; last"]
     "gate" 1 (Some "proposed");
   mkStep 5 7 "approves 1 + 4"
     ["shed first, then rollback";
      "declines ‘raise max_connections’"]
     "human" 1 (Some "B5");
   mkStep 3 7 "mitigation-verifier"
     ["pending p99 18 s → 40 ms";
      "5xx 12% → 0.4% · DB conns 200 → 60"]
     "audit" 1 None].

Definition S3_steps_2 : list Step :=
  [mkStep 0 8 "recovery confirmed"
     ["pool drained · no idle-in-transaction";
      "retries settled (metastable loop broken)"]
     "signal" 1 None;
   mkStep 4 8 "ticket + prevent"
     ["ticket mitigated → resolved";
      "action: instrument pool wait; alert on it";
      "runbook: no pool-cap raise before diagnosis"]
     "gate" 1 None].

Definition S3_edges : list (Z * Z * option string) :=
  [(0, 1, None);
   (1, 2, None);
   (2, 3, None);
   (3, 4, None);
   (4, 5, None);
   (4, 6, None);
   (6, 7, None);
   (7, 8, None);
   (8, 9, None);
   (9, 10, None);
   (10, 11, None);
   (11, 12, None);
   (12, 13, None);
   (13, 14, None)].

Definition S3_footer : list string :=
  ["Discriminating queries: SQL pg_stat_activity by wait_event · blocked/blocking pg_locks join · pgbouncer SHOW POOLS (cl_waiting, maxwait) ‖ PromQL: hikaricp_connections_pending · go_sql_wait_duration_seconds_total · pgbouncer_pools_client_waiting_connections · idle-in-transaction count · per-trace DB span count.";
   "Grounding (all READ): incident.io 2023 ‘database-performance’ — 2 weeks, 24 deploys, cause = needless transaction on Slack modal · incident.io 2023 ‘clouds, caches, connections’ — N+1 → anetd CPU · Slack 2020-05-12 HAProxy slots, scale-up ‘didn’t help at all’ · Slack 2022-02-22 Vitess scatter, metastable · Heroku lock-queue gist 25 min · GitLab 2023-10-30 48 min · CircleCI JVM pool shrink · incident.io PGAudit restart.";
   "Why it matters to Smokejumper: the verifier must separate ‘DB is slow’ from ‘DB is idle but the app holds connections’ — E4+E5 together. Resolve and Cleric both centre ‘pool at 9x%’ as the clincher; the pool WAIT metric is sharper and rarer."].

Definition S3 : Diagram :=
  mkDiagram "S3 — Connection / thread-pool exhaustion (traffic surge, slow downstream, N+1, lock queue)"
    "Tests saturation-finder vs change-correlator disambiguation. The discriminating metric — pool WAIT time — was uninstrumented in almost every postmortem read (incident.io found a 20 s wait only by monkey-patching database/sql)."
    LANES COLS
    (S3_steps_1 ++ S3_steps_2) S3_edges
    S3_footer Scenarios_LEGEND 170 262 248 14 60.

Definition S4_steps_1 : list Step :=
  [mkStep 0 0 "expiry approaching"
     ["cert notAfter in 30 d (blackbox probe)";
      "or nothing — vendor change is invisible"]
     "signal" 1 (Some "leading?");
   mkStep 0 1 "vendor change at T0"
     ["cert expires · DNS removed · prefix withdrawn";
      "ZERO internal deploy markers";
      "(AWS: DNS Enactor race removed all IPs)"]
     "signal" 1 (Some "T0");
   mkStep 0 2 "new connections fail"
     ["keep-alives survive → errors RAMP, not step";
      "x509 expired · ENOTFOUND · connect timeout";
      "all callers of that host fail at once";
      "retries amplify (Epic launcher surge)"]
     "signal" 1 None;
   mkStep 1 3 "outbound error alert"
     ["DependencyErrorRate payments-processor";
      "vendor status page lags 20–40 min";
      "→ webhook → Smokejumper"]
     "port" 1 (Some "B1");
   mkStep 2 4 "hypotheses seeded"
     ["H1 vendor endpoint down / unresolvable";
      "H2 cert expired (theirs or ours)";
      "H3 our egress / resolver / SG";
      "H4 our own deploy (S2) · H5 vendor rate limit"]
     "core" 1 (Some "board");
   mkStep 5 4 "sees root card"
     ["impact: 100% of card auths (n=9.4k/min)";
      "SEV1 · owner: payments"]
     "human" 1 None;
   mkStep 3 5 "witness reads (∥)"
     ["change.list: zero deploys/flags (E1)";
      "dig from 2 resolvers: NXDOMAIN (E2)";
      "openssl s_client: n/a — no resolution (E3)";
      "vendor status page ‘investigating’ (E4)";
      "errors from all AZs, not one (E5)"]
     "audit" 1 (Some "E1–E5");
   mkStep 2 5 "board updates"
     ["H1 ✓ (E2+E5) · H2 blocked (E3) · H3 ✗ (E5)";
      "H4 ✗ (E1) · H5 ✗ (connect errors, not 429)";
      "red herring named: BGP hijack / DDoS"]
     "ok" 1 None;
   mkStep 3 6 "disproof attempted"
     ["resolves from external vantage? no";
      "did anything of ours change? no (E1)";
      "→ verdict: theirs"]
     "audit" 1 (Some "verify");
   mkStep 2 6 "B6 not_actionable · 0.88"
     ["cause: vendor DNS for api.processor.example";
      "nothing to fix here; mitigate impact only";
      "Source chips [1][2][4][5]"]
     "ok" 1 (Some "B6");
   mkStep 4 7 "ladder"
     ["1 fail open: flag off dependent feature";
      "2 route around: 2nd processor · pinned IP";
      "3 renew cert if OURS (Epic 37 min) — n/a";
      "4 widen timeouts · retry budgets";
      "5 wait on vendor; freeze autoscaling"]
     "gate" 1 (Some "proposed");
   mkStep 5 7 "approves 1 + 4"
     ["flag off · retry budget";
      "posts status-page draft (C3) after review"]
     "human" 1 (Some "B5")].

Definition S4_steps_2 : list Step :=
  [mkStep 3 7 "mitigation-verifier"
     ["auth failures 100% → 0% via fallback path";
      "vendor still down — impact mitigated only"]
     "audit" 1 None;
   mkStep 0 8 "vendor recovers"
     ["dig resolves · handshake ok";
      "pools recycle · error rate → 0"]
     "signal" 1 None;
   mkStep 4 8 "ticket + prevent"
     ["ticket: not_actionable · mitigated";
      "stakeholder-notifier: contract SLA clock";
      "expiry-forecaster: alert on cert < 30 d"]
     "gate" 1 None].

Definition S4_edges : list (Z * Z * option string) :=
  [(0, 1, None);
   (1, 2, None);
   (2, 3, None);
   (3, 4, None);
   (4, 5, None);
   (4, 6, None);
   (6, 7, None);
   (7, 8, None);
   (8, 9, None);
   (9, 10, None);
   (10, 11, None);
   (11, 12, None);
   (12, 13, None);
   (13, 14, None)].

Definition S4_footer : list string :=
  [("Discriminating queries: dig +short host @1.1.1.1 / @8.8.8.8 · openssl s_client … | x509 -noout -dates · curl -sv from ≥2 regions ‖ PromQL: probe_ssl_earliest_cert_expiry − time() · probe_success · sum by(host)(rate(http_client_requests{status=~" +:+ dq +:+ "5..|0" +:+ dq +:+ "})) · dns_lookup_failures ‖ logs: x509|certificate has expired|ENOTFOUND|EAI_AGAIN ‖ change events: confirm ZERO.");
   "Grounding: AWS us-east-1 2025-10-19 DynamoDB DNS — 23:48 onset · 00:38 root cause · 02:25 DNS restored (READ) · Cloudflare 1.1.1.1 2025-07-14 — 21:48 withdraw · 22:01 alert · 22:20 revert · 22:54 restored; BGP hijack unrelated (READ) · Google Voice 2021 cert 4 h 22 min, new SIP only (READ via report) · Epic 2021 wildcard cert 37 min (INFERRED) · incident.io 2025-10-20 hit via transitive vendors (READ via summary).";
   "Why it matters to Smokejumper: this is the only scenario whose correct verdict is NOT root_caused — `not_actionable` must exist in B6 (it does not today; see reference-architecture-analysis §4). The unit of failure is the transitive dependency, not the named vendor."].

Definition S4 : Diagram :=
  mkDiagram "S4 — Upstream dependency, certificate or DNS expiry (vendor fault)"
    "Tests ‘ours or theirs’ and the not_actionable verdict. AWS us-east-1 Oct-2025 (50 min to root cause), Cloudflare 1.1.1.1 Jul-2025 (9-min detection gap, BGP hijack red herring), Google Voice 2021 cert (only NEW connections failed)."
    LANES COLS
    (S4_steps_1 ++ S4_steps_2) S4_edges
    S4_footer Scenarios_LEGEND 170 262 248 14 60.

(** ** The diagrams the repository ships *)

Definition shipped : list Diagram := [J1; J2; S1; S2; S3; S4].

Definition placedb (d : Diagram) (s : Step) : bool :=
  (0 <=? st_lane s) && (st_lane s <? Z.of_nat (length (dg_lanes d))) && (0 <=? st_col s) &&
  (1 <=? st_span s) && (st_col s + st_span s <=? Z.of_nat (length (dg_columns d))).

Definition other_cellb (s s' : Step) : bool :=
  negb (st_lane s =? st_lane s') || (st_col s + st_span s <=? st_col s') ||
  (st_col s' + st_span s' <=? st_col s).

Fixpoint all_cells_apart (l : list Step) : bool :=
  match l with [] => true | s :: l => forallb (other_cellb s) l && all_cells_apart l end.

Definition drawableb (d : Diagram) : bool :=
  (0 <=? dg_line_h d) && (0 <=? dg_pad d) && (0 <=? dg_lane_w d) && (0 <=? dg_card_w d) &&
  (dg_card_w d <=? dg_col_w d) && (width d <? 2 ^ 50) && (height d <? 2 ^ 50).

Definition known (kind : string) : bool := existsb (λ kv, String.eqb kv.1 kind) PALETTE.

Definition edgeb (d : Diagram) (e : Z * Z * option string) : bool :=
  let n := Z.of_nat (length (dg_steps d)) in
  (- n <=? e.1.1) && (e.1.1 <? n) && (- n <=? e.1.2) && (e.1.2 <? n).

Definition fits (d : Diagram) : bool :=
  drawableb d && forallb (placedb d) (dg_steps d) && all_cells_apart (dg_steps d) &&
  forallb (λ s, known (st_kind s)) (dg_steps d) && forallb (λ kv, known kv.1) (dg_legend d) &&
  forallb (edgeb d) (dg_edges d).

Lemma other_cellb_sym s s' : other_cellb s s' = other_cellb s' s.
Proof.
  unfold other_cellb. rewrite (Z.eqb_sym (st_lane s')).
  destruct (_ =? _), (_ <=? _), (_ <=? _); done.
Qed.

Lemma other_cellb_true s s' : other_cellb s s' = true → other_cell s s'.
Proof.
  unfold other_cellb, other_cell. rewrite !orb_true_iff, negb_true_iff, Z.eqb_neq, !Z.leb_le. lia.
Qed.

Lemma all_cells_apart_true l i j s s' :
  all_cells_apart l = true → l !! i = Some s → l !! j = Some s' → i ≠ j → other_cellb s s' = true.
Proof.
  revert i j. induction l as [|x l IH]; intros i j; [done|].
  cbn [all_cells_apart]. intros [Hx Hl]%andb_true_iff Hi Hj Hij.
  assert (Hh : ∀ k y, l !! k = Some y → other_cellb x y = true).
  { intros k y Hk. rewrite forallb_forall in Hx. apply Hx, list_elem_of_In.
    by eapply list_elem_of_lookup_2. }
  destruct i as [|i], j as [|j]; cbn in Hi, Hj; [done|..].
  - injection Hi as <-. eauto.
  - injection Hj as <-. rewrite other_cellb_sym. eauto.
  - eapply (IH i j); eauto.
Qed.

Lemma known_true kind : known kind = true → kind ∈ PALETTE.*1.
Proof.
  unfold known. rewrite existsb_exists. intros ([k c] & Hin & <-%String.eqb_eq).
  apply list_elem_of_fmap. exists (k, c). split; [done|]. by apply list_elem_of_In.
Qed.

Lemma forallb_In {A} (f : A → bool) l x : forallb f l = true → x ∈ l → f x = true.
Proof. rewrite forallb_forall. intros Hf Hx. by apply Hf, list_elem_of_In. Qed.

Lemma fits_well_laid d : fits d = true → well_laid d ∧ supported d.
Proof.
  unfold fits. rewrite !andb_true_iff. intros [[[[[Hd Hp] Ha] Hk] Hl] He].
  assert (∀ s, s ∈ dg_steps d → placed d s) as Hplaced.
  { intros s Hs. pose proof (forallb_In _ _ _ Hp Hs) as Hb. unfold placedb in Hb.
    rewrite !andb_true_iff, !Z.leb_le, Z.ltb_lt in Hb. unfold placed. tauto. }
  split; [split; [|split; [done|]]|].
  - unfold drawableb in Hd. rewrite !andb_true_iff, !Z.leb_le, !Z.ltb_lt in Hd.
    constructor; tauto.
  - intros. eapply other_cellb_true, all_cells_apart_true; eauto.
  - split; [|split]; apply list.Forall_forall.
    + intros kv Hkv. by apply known_true, (forallb_In _ _ kv Hl).
    + intros s Hs. by apply known_true, (forallb_In _ _ s Hk).
    + intros e Hin. pose proof (forallb_In _ _ _ He Hin) as Hb. unfold edgeb in Hb.
      rewrite !andb_true_iff, !Z.leb_le, !Z.ltb_lt in Hb. cbv zeta. tauto.
Qed.

(** The six diagrams of the repository are sound data for the renderer: every
    step is on the grid, no two steps share a cell, every kind has a colour
    and every edge joins two steps. *)
Theorem shipped_fit : Forall (λ d, well_laid d ∧ supported d) shipped.
Proof.
  apply list.Forall_forall. intros d Hd. apply fits_well_laid, (forallb_In fits shipped d); [|done].
  vm_compute. reflexivity.
Qed.

Lemma cards_sound_witness :
  well_laid J1 ∧
  ∃ lines cards, render J1 = Ok lines ∧ length cards = length (dg_steps J1) ∧
    (∀ i s b, dg_steps J1 !! i = Some s → cards !! i = Some b → card_sound J1 lines s b) ∧
    (∀ i j b b' px py, cards !! i = Some b → cards !! j = Some b' → i ≠ j →
       in_box b px py → in_box b' px py → False).
Proof.
  destruct (proj1 (list.Forall_forall _ _) shipped_fit J1 ltac:(left)) as [Hw Hr].
  split; [exact Hw|]. exact (cards_sound J1 Hw Hr).
Defined.

(** The file the renderer writes for J2 is the one in the repository
    (architecture/journeys/j2-operator-setup.svg), byte for byte: its SHA-256 is
    that file's. *)
Example j2_digest :
  match render J2 with Ok lines => sha256_hex (join nl lines) | Raise _ => EmptyString end =
  "4f31017e0768eee3180e71c8a28db7ebb2c41b6ee01054d880112ef8f2225dfb".
Proof. vm_compute. reflexivity. Qed.
