(* ===== verification/C3.v ===== *)
(** * The component diagram: drawing (architecture/_gen/c3_components.py)

    The helpers of the script: text, status dots, component boxes, packages and
    arrows.  The script draws by calling them in order; here the calls are a
    list, [draw] gives the lines an [item] adds to the file, and a kind or tag
    that has no colour raises KeyError. *)

From Stdlib Require Import Ascii.
From S2P Require Import Prelude PyStr Json PyFloat Swimlane.

Open Scope Z_scope.

Definition C3_W : Z := 2200.
Definition C3_H : Z := 2440.

Definition C : list (string * (string * string * string)) :=
  [("core", ("#e3f3f6", "#0b7285", "#0b3a42"));
   ("files", ("#e6f4ea", "#2b8a3e", "#1b4d24"));
   ("port", ("#f1f3f5", "#5b6b7a", "#3d4852"));
   ("gate", ("#fbf0da", "#9a6700", "#5c3d00"));
   ("audit", ("#efeafb", "#6741b8", "#2f1e5c"));
   ("store", ("#eef2fb", "#3f5b9a", "#1f2d4a"));
   ("ext", ("#ffffff", "#5b6b7a", "#3d4852"))].

Definition TAGC : list (string * string) :=
  [("ADOPT", "#2b8a3e"); ("CONSUME", "#3f5b9a"); ("COPY", "#0b7285"); ("BUILD", "#9a6700");
   ("KEEP", "#5b6b7a")].

(** [table[key]] *)
Definition get {A} (key : string) (table : list (string * A)) : result exn A :=
  match list_find (λ kv, kv.1 = key) table with
  | Some (_, (_, a)) => Ok a
  | None => Raise (KeyError key)
  end.

(** [text] *)
Definition text_family (x y : num) (s : string) (size : num) (weight : option string)
    (fill anchor : string) (family : option string) : string :=
  "  <text" +:+ attrs ([("x", show x); ("y", show y); ("font-size", show size); ("fill", fill)] ++
    match given weight with Some w => [("font-weight", w)] | None => [] end ++
    (if String.eqb anchor "start" then [] else [("text-anchor", anchor)]) ++
    match given family with Some f => [("font-family", f)] | None => [] end) +:+
  ">" +:+ escape s +:+ "</text>".

Definition status_dot (x y : Z) (st : string) : list string :=
  let dot more := [element "circle" ([("cx", str_int x); ("cy", str_int y); ("r", "5")] ++ more)] in
  if String.eqb st "landed" then dot [("fill", "#2b8a3e")]
  else if String.eqb st "planned" then
    dot [("fill", "#ffffff"); ("stroke", "#3f5b9a"); ("stroke-width", "1.6")]
  else if String.eqb st "proposed" then
    dot [("fill", "#ffffff"); ("stroke", "#9a6700"); ("stroke-width", "1.6");
         ("stroke-dasharray", "2 2")]
  else [].

Record Comp := mkComp {
  cp_x : Z; cp_y : Z; cp_w : Z; cp_h : Z;
  cp_title : string;
  cp_lines : list string;
  cp_kind : string;
  cp_st : string;
  cp_mono : option string;
  cp_ts : num;
  cp_ls : num;
  cp_tag : option (string * string);
}.

Definition nleb (a b : num) : bool := negb (nltb b a).

(** The label of a tag and the width of its pill. *)
Definition tag_label (tag : string * string) : string :=
  if nonempty tag.2 then tag.1 +:+ " · " +:+ tag.2 else tag.1.
Definition tag_width (label : string) : num := (lit 56 10 * Int (str_len label) + Int 12)%num.

(** Where the pill goes: the bottom, the title row, or just inside the bottom. *)
Definition tag_y (c : Comp) (tw : num) : Z :=
  let fits_bottom := 36 + 15 * Z.of_nat (length (cp_lines c)) + 2 <=? cp_h c - 18 in
  let fits_title :=
    nleb (Int 24 + lit 62 100 * cp_ts c * Int (str_len (cp_title c)) + tw + Int 14)%num
         (Int (cp_w c)) in
  if fits_bottom then cp_y c + cp_h c - 18
  else if fits_title then cp_y c + 6 else cp_y c + cp_h c - 6.

Definition tag_lines (c : Comp) (tag : string * string) : result exn (list string) :=
  let label := tag_label tag in
  let tw := tag_width label in
  let ty := tag_y c tw in
  let? colour := get tag.1 TAGC in
  Ok [element "rect" [("x", show (Int (cp_x c + cp_w c) - tw - Int 6)%num); ("y", str_int ty);
        ("width", show tw); ("height", "13"); ("rx", "6"); ("fill", "#ffffff"); ("stroke", colour);
        ("stroke-width", "0.9")];
      text (Int (cp_x c + cp_w c - 6) - nhalf tw)%num (Int ty + lit 95 10)%num label (lit 88 10)
        (Some "700") colour "middle"].

Fixpoint comp_texts (c : Comp) (ink : string) (yy : Z) (lines : list string) : list string :=
  match lines with
  | [] => []
  | ln :: lines =>
      text_family (Int (cp_x c + 12)) (Int yy) ln (cp_ls c) None ink "start" (cp_mono c) ::
      comp_texts c ink (yy + 15) lines
  end.

Definition comp (c : Comp) : result exn (list string) :=
  let? colours := get (cp_kind c) C in
  let '(fill, stroke, ink) := colours in
  let dash := if String.eqb (cp_kind c) "port" || String.eqb (cp_kind c) "ext"
              then [("stroke-dasharray", "5 4")] else [] in
  let? pill := match cp_tag c with Some tag => tag_lines c tag | None => Ok [] end in
  Ok (element "rect" ([("x", str_int (cp_x c)); ("y", str_int (cp_y c)); ("width", str_int (cp_w c));
        ("height", str_int (cp_h c)); ("rx", "7"); ("fill", fill); ("stroke", stroke)] ++ dash) ::
      status_dot (cp_x c + 12) (cp_y c + 15) (cp_st c) ++
      [text (Int (cp_x c + 24)) (Int (cp_y c + 19)) (cp_title c) (cp_ts c) (Some "700") ink "start"] ++
      pill ++ comp_texts c ink (cp_y c + 36) (cp_lines c)).

Record Pkg := mkPkg { pk_x : Z; pk_y : Z; pk_w : Z; pk_h : Z; pk_name : string; pk_sub : string;
                      pk_kind : string }.

Definition pkg (p : Pkg) : result exn (list string) :=
  let? colours := get (pk_kind p) C in
  let '(fill, stroke, ink) := colours in
  Ok [element "rect" [("x", str_int (pk_x p)); ("y", str_int (pk_y p)); ("width", str_int (pk_w p));
        ("height", str_int (pk_h p)); ("rx", "10"); ("fill", "#fffdf9"); ("stroke", stroke);
        ("stroke-width", "1.4")];
      text (Int (pk_x p + 16)) (Int (pk_y p + 26)) (pk_name p) (Int 15) (Some "700") stroke "start";
      text (Int (pk_x p + 16)) (Int (pk_y p + 44)) (pk_sub p) (Int 11) None GREY "start"].

Record Arrow := mkArrow { ar_x1 : Z; ar_y1 : Z; ar_x2 : Z; ar_y2 : Z; ar_label : option string;
                          ar_bold : bool; ar_dashed : bool; ar_lx : option Z; ar_ly : option Z }.

(** [v or d] on an optional integer *)
Definition or_num (o : option Z) (d : num) : num :=
  match o with Some z => if z =? 0 then d else Int z | None => d end.

Definition arrow (a : Arrow) : list string :=
  element "line" ([("x1", str_int (ar_x1 a)); ("y1", str_int (ar_y1 a)); ("x2", str_int (ar_x2 a));
    ("y2", str_int (ar_y2 a)); ("stroke", "#3d4852");
    ("stroke-width", if ar_bold a then "2.4" else "1.3")] ++
    (if ar_dashed a then [("stroke-dasharray", "6 4")] else []) ++
    [("marker-end", "url(#arrow)")]) ::
  match given (ar_label a) with
  | Some label =>
      [text (or_num (ar_lx a) (nhalf (Int (ar_x1 a + ar_x2 a))))
         (or_num (ar_ly a) (nhalf (Int (ar_y1 a + ar_y2 a)) - Int 6)%num) label (lit 105 10) None GREY
         "middle"]
  | None => []
  end.

(** ** The calls of the script *)

(** A rectangle: left, top, width, height. *)
Definition rect : Type := Z * Z * Z * Z.

(** The script writes some rectangles itself: the panels around a row, and the
    boxes of the external systems and of the ledger. *)
Inductive role := Panel | Box.

Inductive item :=
| DrawComp (c : Comp)
| DrawPkg (p : Pkg)
| DrawArrow (a : Arrow)
| DrawText (x y : num) (s : string) (size : num) (weight : option string) (fill anchor : string)
| DrawDot (x y : Z) (st : string)
| DrawRect (ro : role) (r : rect) (rx fill stroke : string) (more : list (string * string))
| DrawLine (line : string).

Definition draw (i : item) : result exn (list string) :=
  match i with
  | DrawComp c => comp c
  | DrawPkg p => pkg p
  | DrawArrow a => Ok (arrow a)
  | DrawText x y s size weight fill anchor => Ok [text x y s size weight fill anchor]
  | DrawDot x y st => Ok (status_dot x y st)
  | DrawRect _ (x, y, w, h) rx fill stroke more =>
      Ok [element "rect" ([("x", str_int x); ("y", str_int y); ("width", str_int w);
            ("height", str_int h); ("rx", rx); ("fill", fill); ("stroke", stroke)] ++ more)]
  | DrawLine line => Ok [line]
  end.

(** A call of the script; one whose arguments raise, because they look up a
    colour that is not in the table, is never made. *)
Definition drawcall : Type := result exn item.

(** The lines of the file. *)
Definition draw_all (calls : list drawcall) : result exn (list string) :=
  let? parts := rmapM (λ c : drawcall, let? i := c in draw i) calls in Ok (concat parts).

(** ** Text in narrow columns *)

(** [s.split()] *)
Fixpoint split_ws_go (cur : string) (s : string) : list string :=
  let word := if nonempty cur then [String.rev cur] else [] in
  match s with
  | EmptyString => word
  | String a r =>
      if ws1 a then word ++ split_ws_go EmptyString r else
      match r with
      | String b r2 =>
          if ws2 a b then word ++ split_ws_go EmptyString r2 else
          match r2 with
          | String c r3 =>
              if ws3 a b c then word ++ split_ws_go EmptyString r3 else split_ws_go (String a cur) r
          | EmptyString => split_ws_go (String a cur) r
          end
      | EmptyString => split_ws_go (String a cur) r
      end
  end.
Definition split_ws (s : string) : list string := split_ws_go EmptyString s.

(** The wrapping loop: lines of at most twenty characters. *)
Fixpoint wrap (line : string) (words : list string) : list string :=
  match words with
  | [] => [line]
  | wd :: words =>
      if 20 <? str_len line + str_len wd + 1 then line :: wrap wd words
      else wrap (strip (line +:+ " " +:+ wd)) words
  end.
