(* ===== verification/C3Scene.v ===== *)
(** * The component diagram: the drawing (architecture/_gen/c3_components.py)

    The calls of the script in order, row by row, and the loops over its
    tables. *)

From Stdlib Require Import Ascii.
From S2P Require Import Prelude PyStr Json PyFloat Swimlane Journeys C3.

Open Scope Z_scope.

Definition C3_part_1 : list item :=
  [DrawLine (("<svg xmlns=" +:+ dq +:+ "http://www.w3.org/2000/svg" +:+ dq +:+ " width=" +:+ dq) +:+ str_int C3_W +:+ (dq +:+ " height=" +:+ dq) +:+ str_int C3_H +:+ (dq +:+ " viewBox=" +:+ dq +:+ "0 0 ") +:+ str_int C3_W +:+ " " +:+ str_int C3_H +:+ (dq +:+ " font-family=" +:+ dq +:+ "-apple-system, 'Segoe UI', Helvetica, Arial, sans-serif" +:+ dq +:+ " role=" +:+ dq +:+ "img" +:+ dq +:+ " aria-labelledby=" +:+ dq +:+ "c3-title c3-desc" +:+ dq +:+ ">"));
   DrawLine ("  <title id=" +:+ dq +:+ "c3-title" +:+ dq +:+ ">Smokejumper C4 Level 3 — components of the app container and the step ledger of one run</title>");
   DrawLine ("  <desc id=" +:+ dq +:+ "c3-desc" +:+ dq +:+ ">Every component inside the single app process, grouped by package, with landed / planned / proposed status; the two backing containers; and the ordered ledger of the smallest reported steps in one investigation run.</desc>");
   DrawLine ("  <defs><marker id=" +:+ dq +:+ "arrow" +:+ dq +:+ " viewBox=" +:+ dq +:+ "0 0 10 10" +:+ dq +:+ " refX=" +:+ dq +:+ "9" +:+ dq +:+ " refY=" +:+ dq +:+ "5" +:+ dq +:+ " markerWidth=" +:+ dq +:+ "8" +:+ dq +:+ " markerHeight=" +:+ dq +:+ "8" +:+ dq +:+ " orient=" +:+ dq +:+ "auto-start-reverse" +:+ dq +:+ "><path d=" +:+ dq +:+ "M0,0 L10,5 L0,10 z" +:+ dq +:+ " fill=" +:+ dq +:+ "#3d4852" +:+ dq +:+ "/></marker></defs>");
   DrawLine (element "rect" [("width", str_int C3_W); ("height", str_int C3_H); ("fill", "#ffffff")]);
   DrawText (Int 60) (Int 70)
     "Smokejumper — C4 Level 3: components inside the app container"
     (Int 28) (Some "700") INK "start";
   DrawText (Int 60) (Int 98)
     "One process (docker compose service `app`) · every component by package · status against commit d0ed9fe on 2026-08-29 · reuse verdict per component from docs/plans/2026-08-29-reference-architecture-analysis.md"
     (Int 13) None GREY "start"].


Definition status_names : list (string * string) :=
  [("landed", "landed — code + tests exist"); ("planned", "planned — in SPEC §12, not built");
   ("proposed", "proposed — pre-plan only")].

Fixpoint status_legend (lx : Z) (l : list (string * string)) : list item :=
  match l with
  | [] => []
  | (st, lab) :: l =>
      DrawDot (lx + 6) 124 st :: DrawText (Int (lx + 18)) (Int 128) lab (lit 115 10) None GREY "start" ::
      status_legend (lx + 250) l
  end.

Definition kind_names : list (string * string) :=
  [("core", "code you build"); ("files", "declarative files, zero code"); ("port", "port / external");
   ("gate", "approval-gated"); ("audit", "audit spine"); ("store", "data container")].

Fixpoint kind_legend (lx : Z) (l : list (string * string)) : list drawcall :=
  match l with
  | [] => []
  | (kind, lab) :: l =>
      (let? colours := get kind C in
       let '(fill, stroke, _) := colours in
       Ok (DrawLine (element "rect" ([("x", str_int lx); ("y", "116"); ("width", "22"); ("height", "14");
         ("rx", "3"); ("fill", fill); ("stroke", stroke)] ++
         (if String.eqb kind "port" then [("stroke-dasharray", "4 3")] else []))))) ::
      Ok (DrawText (Int (lx + 28)) (Int 128) lab (lit 115 10) None GREY "start") ::
      kind_legend (lx + 200) l
  end.

Definition tag_names : list (string * string) :=
  [("ADOPT", "pip dependency"); ("CONSUME", "existing server / hosted");
   ("COPY", "design copied, we write it"); ("BUILD", "nothing exists — ours");
   ("KEEP", "landed, no change")].

Fixpoint tag_legend (lx : num) (l : list (string * string)) : list drawcall :=
  match l with
  | [] => []
  | (verb, lab) :: l =>
      let vw := (lit 56 10 * Int (str_len verb))%num in
      (let? colour := get verb TAGC in
       Ok (DrawLine (element "rect" [("x", show lx); ("y", "135"); ("width", show (vw + Int 12)%num);
         ("height", "13"); ("rx", "6"); ("fill", "#ffffff"); ("stroke", colour);
         ("stroke-width", "0.9")]))) ::
      (let? colour := get verb TAGC in
       Ok (DrawText (lx + nhalf (vw + Int 12))%num (Int 145) verb (lit 88 10) (Some "700") colour
         "middle")) ::
      Ok (DrawText (lx + vw + Int 18)%num (Int 145) lab (Int 11) None GREY "start") ::
      tag_legend (lx + (vw + Int 18 + lit 62 10 * Int (str_len lab) + Int 24))%num l
  end.

Definition C3_part_2 : list item :=
  [DrawRect Panel (60, 158, 2080, 84) "10" "#f8f9fa" "#8a99a8" [];
   DrawText (Int 78) (Int 176)
     "EXTERNAL SYSTEMS (outside the container)"
     (Int 12) (Some "700") GREY "start"].

Definition ext_names : list (string * string) :=
  [("Alertmanager", "webhook · peer-network allowlist");
   ("Grafana", "webhook · shared token · batches");
   ("Datadog", "webhook · bearer token");
   ("PagerDuty v3", "webhook · HMAC raw body");
   ("Generic JSON", "webhook · HMAC sha256=");
   ("Slack · Discord · Telegram", "slack-bolt · discord.py · python-telegram-bot");
   ("Linear", "GraphQL · tickets out");
   ("Prometheus · Loki", "lab profile · read tier");
   ("LLM provider", "SDK · via ports/model.py only")].


Fixpoint ext_boxes (x : Z) (l : list (string * string)) : list item :=
  match l with
  | [] => []
  | (t, s) :: l =>
      DrawRect Box (x, 186, 214, 46) "6" "#ffffff" "#5b6b7a" [("stroke-dasharray", "5 4")] ::
      DrawText (Int x + nhalf (Int 214))%num (Int 205) t (Int 12) (Some "700") "#3d4852" "middle" ::
      DrawText (Int x + nhalf (Int 214))%num (Int 222) s (lit 105 10) None GREY "middle" ::
      ext_boxes (x + 214 + 15) l
  end.

Definition row_B : Z := 270.

Definition C3_part_3 : list item :=
  [DrawPkg (mkPkg 60 row_B 720 330 "receiver/"
     "deterministic · no LLM · verify before parse · 5 sources landed" "core");
   DrawComp (mkComp 76 (row_B + 56) 220 118 "routes.py"
     ["POST /webhooks/datadog";
      "POST /webhooks/pagerduty";
      "POST /webhooks/grafana";
      "POST /webhooks/alertmanager";
      "POST /webhooks/generic"]
     "core" "landed" None (lit 125 10) (Int 11) (Some ("KEEP", "Alerta webhook shape")));
   DrawComp (mkComp 308 (row_B + 56) 220 118 "verification.py"
     ["verify_shared_token";
      "verify_hmac_signature";
      "verify_pagerduty_signature";
      "verify_source_ip (CIDR)";
      "constant-time compare"]
     "core" "landed" None (lit 125 10) (Int 11) (Some ("KEEP", "vendor schemes")));
   DrawComp (mkComp 540 (row_B + 56) 224 118 "normalizers/"
     ["datadog.py · sources.py";
      "pagerduty · grafana · alertmanager";
      "generic · identity-tag allowlist";
      "batch fan-out → N events";
      "recovery → window_closed_at"]
     "core" "landed" None (lit 125 10) (Int 11) (Some ("COPY", "Alertmanager v4 + Keep enums")));
   DrawComp (mkComp 76 (row_B + 186) 220 128 "repository.py"
     ["admit() — advisory lock per fp";
      "15-min dedupe window";
      "quarantine() — 202 + reason";
      "close_window() on Recovered";
      "outbox: mark_queued / pending"]
     "core" "landed" None (lit 125 10) (Int 11) (Some ("COPY", "Keep full/partial dedup")));
   DrawComp (mkComp 308 (row_B + 186) 220 128 "delivery.py (outbox)"
     ["dispatch_event → XADD";
      "dispatch_pending retry loop";
      "OutboxHandle.status → /healthz";
      "Redis down ≠ lost event"]
     "core" "landed" None (lit 125 10) (Int 11) (Some ("KEEP", EmptyString)));
   DrawComp (mkComp 540 (row_B + 186) 224 60 "storm_policy.py"
     ["21st fp in 5 min → kind=storm";
      "5-min quiet reset"]
     "core" "planned" None (lit 125 10) (Int 11) (Some ("COPY", "Robusta GroupingParams")));
   DrawComp (mkComp 540 (row_B + 254) 224 60 "audit for 401 / quarantine"
     ["exact-B1 bytes → B8";
      "rejected · quarantined kinds"]
     "audit" "planned" None (lit 125 10) (Int 11) (Some ("BUILD", EmptyString)));
   DrawPkg (mkPkg 800 row_B 380 330 "queue/ · worker.py"
     "Redis Streams · at-least-once · ack after commit" "core");
   DrawComp (mkComp 816 (row_B + 56) 348 74 "queue/producer.py"
     ["XADD agentevents maxlen=…";
      "event UUID reused as run_id"]
     "core" "landed" None (lit 125 10) (Int 11) (Some ("KEEP", "redis-py")));
   DrawComp (mkComp 816 (row_B + 140) 348 100 "worker.py — consumer group `intelligence`"
     ["XREADGROUP block 2s · count 10";
      "handle(): open_run → engine → apply → close_run";
      "poison payload → ack · failure → leave pending";
      "queue_depth {lag, pending} → /healthz"]
     "core" "landed" None (lit 125 10) (Int 11) (Some ("KEEP", EmptyString)));
   DrawComp (mkComp 816 (row_B + 250) 168 64 "reclaim (XAUTOCLAIM)"
     ["stale pending of dead";
      "consumer — M4"]
     "core" "planned" None (lit 125 10) (Int 11) (Some ("KEEP", "redis-py")))].

Definition C3_part_4 : list item :=
  [DrawComp (mkComp 996 (row_B + 250) 168 64 "max in-flight = 3"
     ["semaphore · M4";
      "storm brake lag>25"]
     "core" "planned" None (lit 125 10) (Int 11) (Some ("COPY", "Alerta flapping window")));
   DrawPkg (mkPkg 1200 row_B 400 330 "app.py · cli.py"
     "FastAPI + Typer · composition root reads config only" "core");
   DrawComp (mkComp 1216 (row_B + 56) 368 84 "app.py"
     ["GET /healthz — postgres · schema · redis · worker · outbox";
      "GET /runs/{fingerprint} — conclusion + ticket + audit range";
      "lifespan: outbox_task ∥ worker_task"]
     "core" "landed" None (lit 125 10) (Int 11) (Some ("KEEP", "FastAPI")));
   DrawComp (mkComp 1216 (row_B + 150) 176 74 "cli: check-config"
     ["validates layered settings";
      "exits non-zero fail-closed"]
     "core" "landed" None (lit 125 10) (Int 11) (Some ("KEEP", "Typer")));
   DrawComp (mkComp 1408 (row_B + 150) 176 74 "cli: fixtures replay"
     ["POST fixture w/ source cred";
      "--source <s> · M1"]
     "core" "planned" None (lit 125 10) (Int 11) (Some ("BUILD", EmptyString)));
   DrawComp (mkComp 1216 (row_B + 234) 176 80 "cli: logs · runs latest"
     ["logs --follow (broadcast)";
      "runs latest --format id";
      "M1"]
     "core" "planned" None (lit 125 10) (Int 11) (Some ("BUILD", EmptyString)));
   DrawComp (mkComp 1408 (row_B + 234) 176 80 "cli: replay · eval"
     ["replay <run_id> from JSONL";
      "eval → hit/total per agent";
      "M6"]
     "core" "planned" None (lit 125 10) (Int 11) (Some ("BUILD", EmptyString)));
   DrawPkg (mkPkg 1620 row_B 520 330 "config.py · ports/"
     "one Settings object · 8 Protocols · prod refuses stubs" "core");
   DrawComp (mkComp 1636 (row_B + 56) 488 84 "config.py — Settings"
     ["defaults < base.yaml < <env>.yaml < env vars < flags";
      "_fail_closed: prod ∧ stubbed security port → ConfigError";
      "unpriced prod model → ConfigError (M4) · lab only in local"]
     "core" "landed" None (lit 125 10) (Int 11) (Some ("KEEP", "pydantic-settings")))].

Definition port_names : list (string * string) :=
  [("AuthPort", "AllowAll"); ("GovernancePort", "NoopGovernance");
   ("TenancyPort", "SingleTenant — real"); ("ModelProvider", "RecordedModel");
   ("PlatformPort", "FixturePlatform"); ("TicketingPort", "FixtureTicketing");
   ("MemoryPort", "InMemoryStore"); ("ChannelAdapter", "FakeChannel")].


Definition port_box (i : nat) (port : string * string) : item :=
  let i := Z.of_nat i in
  DrawComp (mkComp (1636 + i mod 4 * 122) (row_B + 150 + i / 4 * 84) 116 74 port.1
    ["stub: " +:+ port.2; "real: M2–M5"] "port" "landed" None (lit 105 10) (lit 95 10) None).

Definition row_C : Z := 630.

Definition C3_part_5 : list item :=
  [DrawPkg (mkPkg 60 row_C 1400 640 "intelligence/"
     "B2 in → B6 out · never imports actions · the only package that thinks" "core");
   DrawComp (mkComp 76 (row_C + 56) 300 88 "triage.py (current engine)"
     ["deterministic · alert-grounded";
      "needs_human | inconclusive only";
      "adapter: DeterministicTriage(ConclusionEngine)"]
     "core" "landed" None (lit 125 10) (Int 11) (Some ("KEEP", EmptyString)));
   DrawComp (mkComp 76 (row_C + 154) 300 118 "workflows/ — deterministic edges"
     ["registry/workflows/alert.yaml";
      "slack-question · mitigate · learn";
      "effort ladder: low ≤2 · med ≤4 · high ≤8 agents";
      "phase order fixed; no LLM chooses it";
      "LangGraph graph + Postgres checkpointer"]
     "files" "proposed" None (lit 125 10) (Int 11) (Some ("ADOPT", "LangGraph 1.2 · @task")));
   DrawComp (mkComp 76 (row_C + 282) 300 150 "supervisor nodes (graph/nodes/*.py)"
     ["intake — B2 → state";
      "retrieve — B3 KnowledgeBundle under budget";
      "plan — WHICH agents + context_slice  [llm]";
      "dispatch — N Assignments ∥ (gather)";
      "aggregate — registry-stable order";
      "verify — V1/V2 gate  [proposed]";
      "synthesize — B6  [llm] · root_caused iff verified"]
     "core" "planned" None (lit 125 10) (Int 11) (Some ("ADOPT", "LangGraph + pg checkpointer")));
   DrawComp (mkComp 76 (row_C + 442) 300 100 "hypothesis_board.py"
     ["Hypothesis{text, state, evidence_refs, owner}";
      "open · validated · invalidated · inconclusive";
      "written by plan/I7/V1 · read by synthesize/C2";
      "checkpointed with graph state"]
     "audit" "proposed" None (lit 125 10) (Int 11) (Some ("BUILD", "no library exists")));
   DrawComp (mkComp 76 (row_C + 552) 300 62 "prompts/supervisor/"
     ["plan/v1.md · synthesize/v1.md · verify/v1.md";
      "sha256 stamped on every llm_call"]
     "files" "planned" None (lit 125 10) (Int 11) (Some ("KEEP", "git + sha256, ADR-0020")));
   DrawComp (mkComp 392 (row_C + 56) 340 250 "agent_runner.py — one Assignment → one Finding"
     ["1 load registry/agents/<name>.yaml (AgentSpec)";
      "2 resolve prompt_ref → text + sha256";
      "3 preload skills/<s>/SKILL.md ≤5k tokens";
      "4 validate input against schemas/…in.json";
      "5 loop ≤max_turns: model turn → tool call(s)";
      "    each tool call → mcp.gateway (B4)";
      "    each model turn → ports.model (B8 llm_call)";
      "    governor.charge() after every step";
      "6 validate output against schemas/…out.json";
      "7 emit Finding + artifact_ref + open_questions";
      "budget breach → partial Finding, never raise";
      "stateless: no memory between runs"]
     "core" "planned" None (lit 125 10) (Int 11) (Some ("COPY", "HolmesGPT safeguards")));
   DrawComp (mkComp 392 (row_C + 316) 164 100 "registry_loader.py"
     ["AgentSpec pydantic schema";
      "boot resolves every prompt_ref";
      "hot-reload on Governor tick";
      "disabled agents never dispatch"]
     "core" "planned" None (lit 125 10) (Int 11) (Some ("COPY", "PydanticAI AgentSpec shape")));
   DrawComp (mkComp 568 (row_C + 316) 164 100 "prompt_registry.py"
     ["GitPromptRegistry";
      "prompts/agents/<n>/vN.md";
      "immutable versions";
      "dangling ref fails boot"]
     "core" "planned" None (lit 125 10) (Int 11) (Some ("KEEP", "git, ADR-0020")))].

Definition C3_part_6 : list item :=
  [DrawComp (mkComp 392 (row_C + 426) 164 90 "skill_loader.py"
     ["skills/<name>/SKILL.md";
      "frontmatter name/desc";
      "≤500 lines · refs 1 deep"]
     "files" "proposed" None (lit 125 10) (Int 11) (Some ("ADOPT", "agentskills.io spec")));
   DrawComp (mkComp 568 (row_C + 426) 164 90 "schema_validator.py"
     ["schemas/agents/*.in|out";
      "reject before/after run";
      "evidence_ref per claim"]
     "core" "proposed" None (lit 125 10) (Int 11) (Some ("ADOPT", "langchain ToolStrategy")));
   DrawComp (mkComp 392 (row_C + 526) 340 88 "eval_runner.py → `smokejumper eval`"
     ["evals/agents/<name>/*.json · ≥20 cases · ≥3 no-fault";
      "judge: schema_valid · factual · citation · tool_efficiency";
      "reports hit / total per agent · CI ≥ 4/5"]
     "core" "planned" None (lit 125 10) (Int 11) (Some ("COPY", "HolmesGPT tests/llm + Inspect AI")))].

Definition cx0 : Z := 748.
Definition cy0 : Z := row_C + 56.

Definition C3_part_7 : list item :=
  [DrawText (Int cx0) (Int (cy0 - 6))
     "registry/agents/*.yaml + prompts/agents/*/vN.md — 32 question-agents, one directory each, zero code"
     (lit 115 10) (Some "700") "#2b8a3e" "start"].

Definition catalog : list (string * list string * string * string) :=
  [("TRIAGE",
    ["impact-quantifier"; "severity-assessor"; "ownership-resolver"; "known-issue-matcher"],
    "files", "proposed");
   ("INVESTIGATE ∥ read",
    ["change-correlator"; "saturation-finder"; "error-signature-summarizer"; "blast-radius-mapper"; "vendor-fault-checker"; "precedent-researcher"; "hypothesis-tracker"; "bisection-planner"],
    "files", "proposed");
   ("VERIFY (gate)",
    ["adversarial-verifier"; "temporal-order-checker"; "mitigation-verifier"],
    "files", "proposed");
   ("DETECT",
    ["symptom-classifier"; "storm-root-picker"; "alert-quality-auditor"],
    "files", "proposed");
   ("COMMUNICATE",
    ["timeline-scribe"; "internal-update-drafter"; "status-page-drafter"; "stakeholder-notifier"; "handoff-packager"],
    "files", "proposed");
   ("MITIGATE",
    ["mitigation-ranker (draft)"; "runbook-stepper (draft)"; "rollback-executor  ACT"; "flag-toggler  ACT"],
    "gate", "proposed");
   ("RESOLVE",
    ["recovery-confirmer"; "divergence-tracker"],
    "files", "proposed");
   ("LEARN / PREVENT",
    ["postmortem-drafter"; "factor-extractor"; "action-item-gate"; "action-item-chaser"; "trend-analyst"; "expiry-forecaster"],
    "files", "proposed")].

(** [col_heights] is the running height of each of the four columns. *)
Fixpoint catalog_boxes (i : nat) (col_heights : list Z)
    (l : list (string * list string * string * string)) : list item :=
  match l with
  | [] => []
  | (ph, items, kind, st) :: l =>
      let col := (i mod 4)%nat in
      let h := 36 + 15 * Z.of_nat (length items) + 4 in
      let used := default 0 (col_heights !! col) in
      DrawComp (mkComp (cx0 + Z.of_nat col * (166 + 10)) (cy0 + 8 + used) 166 h ph items kind st None
        (lit 125 10) (Int 11) None) ::
      catalog_boxes (S i) (<[col := used + (h + 10)]> col_heights) l
  end.

Definition C3_part_8 : list item :=
  [DrawText (Int cx0) (Int (row_C + 456))
     "SPEC §5.3 today: Metrics Analyst · Log Analyst · Change Auditor (planned personas) →"
     (Int 11) None GREY "start";
   DrawText (Int cx0) (Int (row_C + 472))
     "become saturation-finder · error-signature-summarizer · change-correlator above."
     (Int 11) None GREY "start";
   DrawComp (mkComp cx0 (row_C + 486) 692 128 "Finding (B11) — the only thing that crosses an agent boundary"
     ["agent · hypothesis · evidence[] → evidence_refs[] (→ EvidenceRecord, proposed) · confidence · budget_spent";
      "+ artifact_ref (full result in recorder) · + open_questions[] — ≤2k tokens to the parent, never the trace";
      "Assignment (B11): agent · question · context_slice · budget — sub-agents are stateless"]
     "audit" "landed" None (lit 125 10) (Int 11) (Some ("BUILD", "+Hypothesis +Evidence typed")));
   DrawPkg (mkPkg 1480 row_C 660 300 "knowledge/"
     "retrieve(ctx) → B3 · federates via mcp/, never its own client" "core");
   DrawComp (mkComp 1496 (row_C + 56) 300 100 "facade.py"
     ["episodes + recipes + federated";
      "token + item budget → KnowledgeBundle";
      "source_ref + score per item";
      "graph_paths stays empty (post-v1)"]
     "core" "planned" None (lit 125 10) (Int 11) (Some ("BUILD", EmptyString)));
   DrawComp (mkComp 1808 (row_C + 56) 316 100 "episodes (PostgresMemory)"
     ["pgvector · dimension fixed by owner";
      "valid_at / recorded_at bi-temporal";
      "supersede by insert, never delete";
      "as_of=T → replay belief at T"]
     "store" "planned" None (lit 125 10) (Int 11) (Some ("ADOPT", "pgvector")));
   DrawComp (mkComp 1496 (row_C + 166) 300 100 "recipes/*.yaml"
     ["Recipe{name, triggers.tags, steps, tools}";
      "trigger match on entity tags";
      "hand-authored; drafts/ post-v1 Distiller"]
     "files" "planned" None (lit 125 10) (Int 11) (Some ("COPY", "Robusta playbooks")));
   DrawComp (mkComp 1808 (row_C + 166) 316 100 "federated (stub) · embed"
     ["federated[] = [] until M5";
      "ModelProvider.embed → vector width check";
      "B8 embed_call recorded"]
     "core" "planned" None (lit 125 10) (Int 11) (Some ("ADOPT", "langchain-mcp-adapters")));
   DrawPkg (mkPkg 1480 (row_C + 320) 660 320 "governor/"
     "per AGENT FILE first, per run second · fails closed" "core");
   DrawComp (mkComp 1496 (row_C + 376) 300 110 "budget.py + ledger.py"
     ["max_tool_calls · max_tokens · max_turns · timeout";
      "Decimal USD ledger in Postgres";
      "price table settings.model.prices";
      "unpriced prod model → boot failure";
      "breach → inconclusive w/ partial findings"]
     "core" "planned" None (lit 125 10) (Int 11) (Some ("BUILD", "+ litellm completion_cost")));
   DrawComp (mkComp 1808 (row_C + 376) 316 110 "breaker.py"
     ["3 consecutive provider failures";
      "→ pause consumption 60s";
      "→ needs_human for open runs";
      "tests at 2 vs 3, pause −1s vs +1s"]
     "core" "planned" None (lit 125 10) (Int 11) (Some ("ADOPT", "tenacity · purgatory")))].

Definition C3_part_9 : list item :=
  [DrawComp (mkComp 1496 (row_C + 496) 300 124 "scheduler.py (APScheduler)"
     ["registry sync tick";
      "approval-expiry sweep (30 min)";
      "recipe-driven scheduled investigations";
      "LEARN/PREVENT agents: daily · weekly · monthly";
      "emit ordinary B2 events"]
     "core" "planned" None (lit 125 10) (Int 11) (Some ("ADOPT", "APScheduler 3.11")));
   DrawComp (mkComp 1808 (row_C + 496) 316 124 "storm_brake.py"
     ["queue lag > 25 → only critical|high dequeued";
      "tests at 25 vs 26";
      "worker max in-flight 3";
      "RPM/TPM limiter on provider"]
     "core" "planned" None (lit 125 10) (Int 11) (Some ("COPY", "OnCall window step")))].

Definition row_D : Z := 1300.

Definition C3_part_10 : list item :=
  [DrawPkg (mkPkg 60 row_D 1120 400 "mcp/"
     "ONE client · ONE manifest · TWO enforcement points (ADR-0010, -0017)" "core");
   DrawComp (mkComp 76 (row_D + 56) 250 110 "gateway.py — the only MCP client"
     ["FastMCP in-memory transport";
      "Client(server) same process";
      "federated: HTTPS + cert verify";
      "every call → B8 tool_call"]
     "core" "planned" None (lit 125 10) (Int 11) (Some ("ADOPT", "langchain-mcp-adapters 0.3")));
   DrawComp (mkComp 338 (row_D + 56) 250 110 "manifest.yaml + loader"
     ["tool → tier (read | privileged)";
      "unknown tool / dup / no tier → boot fail";
      "registry tool absent → boot fail";
      "privileged set EMPTY in prod"]
     "files" "planned" None (lit 125 10) (Int 11) (Some ("BUILD", EmptyString)));
   DrawComp (mkComp 600 (row_D + 56) 250 110 "tiers.py — two checks"
     ["① on_call_tool middleware → ToolError";
      "② executor re-check before dispatch";
      "each proven to deny ALONE";
      "privileged → B5 interrupt"]
     "gate" "planned" None (lit 125 10) (Int 11) (Some ("ADOPT", "wrap_tool_call middleware")));
   DrawComp (mkComp 862 (row_D + 56) 302 110 "approvals.py — B5 broker"
     ["mint(binding) → 256-bit opaque token";
      "only sha stored · 30-min expiry";
      "consume = ONE atomic UPDATE (race-safe)";
      "expire sweep · Slack buttons · resume graph"]
     "gate" "planned" None (lit 125 10) (Int 11) (Some ("COPY", "HolmesGPT ApprovalRequirement")));
   DrawComp (mkComp 76 (row_D + 176) 250 104 "existing MCP servers (bindings only)"
     ["grafana/mcp-grafana → Prom · Loki · alerting · on-call";
      "Datadog MCP (hosted, 50 calls/10s) · k8s-mcp --read-only";
      "github-mcp-server · mcp.linear.app · prometheus-mcp"]
     "port" "planned" None (lit 125 10) (lit 95 10) (Some ("CONSUME", "6 official servers")));
   DrawComp (mkComp 338 (row_D + 176) 250 104 "servers/ we still write (FastMCP 3.4)"
     ["knowledge.search / expand → knowledge.facade";
      "recipe.read → recipes/ · change.list → PlatformPort";
      "channel.post_thread · channel.ask_with_buttons";
      "testing/demo_destructive_noop (test config only)"]
     "core" "planned" None (lit 125 10) (lit 95 10) (Some ("BUILD", "no external MCP has these")));
   DrawComp (mkComp 600 (row_D + 176) 250 104 "federated/loader.py"
     ["descriptors/*.yaml: endpoint,";
      "tool_allowlist, prefix";
      "remote cannot widen surface";
      "same client · same manifest · same checks"]
     "core" "planned" None (lit 125 10) (Int 11) (Some ("ADOPT", "MultiServerMCPClient")));
   DrawComp (mkComp 862 (row_D + 176) 302 104 "evidence_snapshot.py"
     ["EvidenceRecord{ref, tool, query, ts,";
      "result_sha256, snapshot_ref}";
      "written on EVERY witness read";
      "resolvable after vendor retention"]
     "audit" "proposed" None (lit 125 10) (Int 11) (Some ("BUILD", "13/14 products lack it")));
   DrawText (Int 76) (Int (row_D + 306))
     "witness ports — what an agent can see; 6 of 8 are bindings to the MCP servers above (COPY Keep BaseProvider shape), 2 in-process:"
     (lit 115 10) (Some "700") "#0b7285" "start"].

Definition witness_ports : list string :=
  ["ChangeSource"; "MetricSource"; "LogSource"; "TraceSource"; "TopologySource";
   "IncidentHistorySource"; "ExternalStatusSource"; "ChatSource"].

Definition witness_box (i : nat) (n : string) : item :=
  let inproc := String.eqb n "ChatSource" || String.eqb n "IncidentHistorySource" in
  DrawComp (mkComp (76 + Z.of_nat i * 137) (row_D + 316) 132 78 n
    [if inproc then "in-process" else "→ MCP binding"; "domain packs swap it"] "port" "proposed" None
    (lit 105 10) (lit 95 10) (Some (if inproc then "BUILD" else "CONSUME", EmptyString))).

Definition C3_part_11 : list item :=
  [DrawPkg (mkPkg 1200 row_D 400 400 "actions/"
     "deterministic · no LLM · exactly one ticket per fingerprint" "core");
   DrawComp (mkComp 1216 (row_D + 56) 368 118 "service.py"
     ["open_run() — ON CONFLICT (run_id) → state read";
      "apply() — FOR UPDATE run · read ticket_actions";
      "INSERT tickets ON CONFLICT (fp) WHERE closed_at IS NULL";
      "  → created | loser UPDATEs winner's ticket";
      "close_run() — status + conclusion + audit_end_offset"]
     "core" "landed" None (lit 125 10) (Int 11) (Some ("KEEP", EmptyString)));
   DrawComp (mkComp 1216 (row_D + 184) 176 96 "ticket_actions ledger"
     ["(fingerprint, run_id) unique";
      "replayed:true on redelivery";
      "partial unique index 0003"]
     "store" "landed" None (lit 125 10) (Int 11) (Some ("KEEP", EmptyString)));
   DrawComp (mkComp 1408 (row_D + 184) 176 96 "TicketingPort adapters"
     ["FixtureTicketing ✓";
      "LinearAdapter (GraphQL,";
      "inspect errors on 200) M2";
      "conformance suite"]
     "core" "landed" None (lit 125 10) (Int 11) (Some ("CONSUME", "Linear MCP · gql")));
   DrawComp (mkComp 1216 (row_D + 290) 176 96 "channels/ (IR + adapters)"
     ["ir.py: Message/Section IR";
      "slack.py · discord.py · telegram.py";
      "root card edited in place";
      "thread only findings/approval"]
     "core" "planned" None (lit 125 10) (Int 11) (Some ("ADOPT", "slack-bolt Socket Mode")));
   DrawComp (mkComp 1408 (row_D + 290) 176 96 "findings_writeback.py"
     ["PlatformPort.write_finding";
      "B10 · stub in v1"]
     "core" "planned" None (lit 125 10) (Int 11) (Some ("BUILD", EmptyString)));
   DrawPkg (mkPkg 1620 row_D 520 400 "recorder/"
     "JSONL is the source of truth (ADR-0012) · Postgres only indexes" "audit");
   DrawComp (mkComp 1636 (row_D + 56) 244 118 "writer.py"
     ["audit-<date>T<time>-<pid>.jsonl";
      "fsync per line · monotonic seq";
      "byte offsets returned";
      "failures counter → /healthz";
      "read_run(run_id) → lines"]
     "audit" "landed" None (lit 125 10) (Int 11) (Some ("KEEP", EmptyString)));
   DrawComp (mkComp 1892 (row_D + 56) 232 118 "runs index (Postgres)"
     ["run_id → file + start/end offset";
      "status · conclusion jsonb";
      "GET /runs/{fp} reads it";
      "migration 0003"]
     "store" "landed" None (lit 125 10) (Int 11) (Some ("KEEP", EmptyString)));
   DrawComp (mkComp 1636 (row_D + 184) 244 96 "broadcast.py"
     ["in-process async channel";
      "publish after append (file first)";
      "feeds `logs --follow`";
      "seam for SSE later"]
     "audit" "planned" None (lit 125 10) (Int 11) (Some ("BUILD", EmptyString)));
   DrawComp (mkComp 1892 (row_D + 184) 232 96 "redaction"
     ["settings.redaction patterns";
      "runs before EVERY append";
      "credentials never in payload"]
     "audit" "planned" None (lit 125 10) (Int 11) (Some ("BUILD", EmptyString)))].

Definition C3_part_12 : list item :=
  [DrawComp (mkComp 1636 (row_D + 290) 244 96 "replay.py"
     ["read run byte range";
      "feed recorded llm_call + tool_call";
      "→ RecordedModel + RecordedExecutor";
      "--live is explicit opt-in"]
     "audit" "planned" None (lit 125 10) (Int 11) (Some ("ADOPT", "vcrpy + @task cache")));
   DrawComp (mkComp 1892 (row_D + 290) 232 96 "B8 AuditEvent kinds"
     ["event · transition · llm_call";
      "tool_call · gate · action";
      "+ hypothesis · evidence (proposed)";
      "+ rejected · quarantined"]
     "audit" "landed" None (lit 125 10) (Int 11) (Some ("COPY", "FH events · Dispatch Event")))].

Definition row_E : Z := 1730.

Definition C3_part_13 : list item :=
  [DrawText (Int 60) (Int (row_E - 10))
     "BACKING CONTAINERS (compose services + volume)"
     (Int 12) (Some "700") GREY "start";
   DrawComp (mkComp 60 row_E 900 96 "postgres — pgvector/pgvector:0.8.1-pg16"
     ["tables (0001–0004): events · quarantine · runs · tickets · ticket_actions · outbox columns";
      "planned: episodes (0006) · langgraph checkpoints · approvals · spend_ledger · storm counters";
      "advisory lock per fingerprint · partial unique index open ticket per fp"]
     "store" "landed" None (lit 125 10) (Int 11) None);
   DrawComp (mkComp 980 row_E 560 96 "redis:7.4-alpine — appendonly"
     ["stream agentevents (maxlen) · consumer group intelligence";
      "XINFO GROUPS → {lag, pending} on /healthz";
      "never the source of truth — the outbox is"]
     "store" "landed" None (lit 125 10) (Int 11) None);
   DrawComp (mkComp 1560 row_E 580 96 "volume audit-logs:/app/logs"
     ["JSONL files · one per recorder start";
      "proposed: evidence snapshots beside it, content-addressed";
      "outlives `docker compose down`"]
     "audit" "landed" None (lit 125 10) (Int 11) None)].

Definition row_F : Z := 1870.

Definition C3_part_14 : list item :=
  [DrawRect Panel (60, row_F, 2080, 520) "10" "#fbfaff" "#6741b8" [("stroke-width", "1.4")];
   DrawText (Int 76) (Int (row_F + 28))
     "ONE RUN, STEP BY STEP — the smallest things that get reported"
     (Int 15) (Some "700") "#6741b8" "start";
   DrawText (Int 76) (Int (row_F + 46))
     "Each column is one reported step. Row 1: what the component does · Row 2: the B8 line it appends (kind) · Row 3: what the responder sees in the Slack thread / GET /runs · modelled on Cleric's activity-log rows, Grafana's hypothesis states + numbered citation chips, Datadog's validated / invalidated / inconclusive."
     (lit 105 10) None GREY "start"].

Definition ledger_steps : list (string * string * list string * string * list string * string) :=
  [("1 admit", "receiver",
    ["verify → normalize"; "fingerprint → dedupe"; "or quarantine / 401"],
    "event | quarantined | rejected", ["202 accepted"; "dedupe_count n"], "landed");
   ("2 enqueue", "outbox",
    ["commit row"; "XADD → receipt"; "retry if Redis down"],
    "transition: queued", ["queue lag on /healthz"], "landed");
   ("3 claim run", "worker",
    ["run_id = event id"; "ON CONFLICT → state"; "audit start offset"],
    "transition: run.open", ["🧵 “Investigating <title>”"; "run_id"], "landed");
   ("4 route", "workflows",
    ["pick workflow by kind"; "effort ladder by sev"; "≤2 / ≤4 / ≤8 agents"],
    "transition: workflow", ["“scope: N agents,"; "budget $X”"], "proposed");
   ("5 retrieve", "knowledge",
    ["episodes + recipes"; "under token budget"; "source_ref + score"],
    "transition: retrieve (B3)", ["“2 precedents,"; "1 runbook” chips"], "planned");
   ("6 plan", "supervisor",
    ["WHICH agents"; "context_slice each"; "hypotheses seeded"],
    "llm_call plan · hypothesis: open", ["hypothesis board:"; "H1 open · H2 open"], "planned");
   ("7 agent start", "agent_runner",
    ["load spec · prompt sha"; "skills preloaded"; "input validated"],
    "transition: agent.start", ["“↳ change-correlator"; "running”"], "planned");
   ("8 witness read", "mcp.gateway",
    ["tier check ×2"; "query vendor"; "snapshot result"],
    "tool_call + evidence (proposed)", ["citation chip [1]"; "query · ts · sha"], "planned");
   ("9 model turn", "ports.model",
    ["prompt_ref + sha"; "usage · latency"; "Decimal cost"],
    "llm_call", ["cost so far $0.0x"; "turn k / max"], "planned");
   ("10 finding", "agent_runner",
    ["output validated"; "evidence_ref per claim"; "artifact_ref"],
    "finding (B11)", ["“deploy #412 landed"; "4m before onset [1][2]”"], "planned");
   ("11 board", "hypothesis_board",
    ["H1 → validated"; "H2 → invalidated"; "H3 inconclusive"],
    "hypothesis: state change", ["board updated"; "✓ ✗ ?"], "proposed");
   ("12 verify", "verify agents",
    ["disproof attempted"; "temporal order ok?"; "gate root_caused"],
    "gate: verify", ["“tried to disprove H1:"; "no counter-evidence”"], "proposed");
   ("13 conclude", "synthesize",
    ["B6 status + confidence"; "summary_md · actions"; "tokens · wall_ms"],
    "conclusion (B6)", ["status · confidence"; "findings · next steps"], "planned");
   ("14 act", "actions",
    ["ticket create | update"; "(fp, run_id) ledger"; "receipt"],
    "action", ["“opened SMOKE-… ” or"; "“updated (#3)”"], "landed");
   ("15 close", "worker",
    ["audit end offset"; "status concluded"; "XACK after commit"],
    "transition: run.close", ["GET /runs/{fp}"; "audit byte range"], "landed")].

Definition sx : Z := 76.
Definition sy : Z := row_F + 84.
Definition colw : Z := 128.

Fixpoint step_texts (x yy : Z) (fill : string) (l : list string) : list item :=
  match l with
  | [] => []
  | ln :: l => DrawText (Int (x + 8)) (Int yy) ln (Int 10) None fill "start" :: step_texts x (yy + 13) fill l
  end.

Definition rule (x y : Z) : item :=
  DrawLine (element "line" [("x1", str_int x); ("y1", str_int y); ("x2", str_int (x + colw));
    ("y2", str_int y); ("stroke", "#d5dde5")]).

Definition ledger_step (i : nat)
    (s : string * string * list string * string * list string * string) : list drawcall :=
  let '(name, who, does, kind, sees, st) := s in
  let x := sx + Z.of_nat i * (colw + 9) in
  let colours := get (if String.eqb st "landed" then "core" else "audit") C in
  [(let? c := colours in let '(_, stroke, _) := c in
    Ok (DrawRect Box (x, sy, colw, 290) "6" "#ffffff" stroke []));
   Ok (DrawDot (x + 12) (sy + 16) st);
   (let? c := colours in let '(_, _, ink) := c in
    Ok (DrawText (Int (x + 22)) (Int (sy + 20)) name (Int 12) (Some "700") ink "start"));
   Ok (DrawText (Int (x + 8)) (Int (sy + 36)) who (Int 10) None GREY "start")] ++
  (Ok <$> step_texts x (sy + 56) INK does ++
  [rule x (sy + 100);
   DrawText (Int (x + 8)) (Int (sy + 116)) "B8:" (lit 95 10) (Some "700") "#6741b8" "start"] ++
  step_texts x (sy + 130) "#2f1e5c" (wrap EmptyString (split_ws kind)) ++
  [rule x (sy + 172);
   DrawText (Int (x + 8)) (Int (sy + 188)) "sees:" (lit 95 10) (Some "700") "#0b7285" "start"] ++
  step_texts x (sy + 202) "#0b3a42" sees ++
  (if (i <? length ledger_steps - 1)%nat
   then [DrawArrow (mkArrow (x + colw) (sy + 145) (x + colw + 9) (sy + 145) None false false None None)]
   else [])).

Definition lx1 : Z := sx + 6 * (colw + 9).
Definition lx2 : Z := sx + 10 * (colw + 9) - 9.

Definition loop_mark : list item :=
  [DrawLine (element "path" [("d", "M" +:+ str_int lx1 +:+ " " +:+ str_int (sy - 8) +:+
      " L" +:+ str_int lx1 +:+ " " +:+ str_int (sy - 16) +:+ " L" +:+ str_int lx2 +:+ " " +:+
      str_int (sy - 16) +:+ " L" +:+ str_int lx2 +:+ " " +:+ str_int (sy - 8)); ("fill", "none");
     ("stroke", "#6741b8"); ("stroke-width", "1.2")]);
   DrawText (nhalf (Int (lx1 + lx2))) (Int (sy - 21))
     "repeats per agent (∥ across agents) and per turn within an agent, bounded by governor budget"
     (lit 105 10) None "#6741b8" "middle"].

Definition side_y : Z := sy + 310.

Definition C3_part_15 : list item :=
  [DrawComp (mkComp 76 side_y 672 92 "budget / provider failure path"
     ["governor breach or breaker open → synthesize inconclusive | needs_human";
      "with partial findings → B8 gate: budget → ticket still filed";
      "a run never dies silently (§5.7); XACK only after that Conclusion is durable"]
     "gate" "planned" None (lit 125 10) (Int 11) None);
   DrawComp (mkComp 764 side_y 672 92 "privileged action path (M5)"
     ["mitigation-ranker draft → B5 ApprovalRequest → Slack buttons → interrupt";
      "persists across restart → consume token ONCE → act → mitigation-verifier";
      "B8: gate approval.requested · approval.decided · action · gate verified → mitigated"]
     "gate" "planned" None (lit 125 10) (Int 11) None);
   DrawComp (mkComp 1452 side_y 672 92 "healthy-system path (no-fault eval)"
     ["flapping monitor → every agent returns empty candidates → board all inconclusive";
      "→ verify has nothing to validate → B6 inconclusive, explicit “no change / no saturation”";
      "ticket updated, not opened · this run IS the no-fault eval case (12/14 products lack one)"]
     "audit" "proposed" None (lit 125 10) (Int 11) None);
   DrawArrow (mkArrow 400 242 400 270 (Some "B1 verified inbound") true false (Some 470) (Some 262));
   DrawArrow (mkArrow 780 380 800 380 (Some "B2") true false None None);
   DrawArrow (mkArrow 990 600 990 630 (Some "B2 → engine") true false (Some 1060) (Some 622));
   DrawArrow (mkArrow 560 1270 560 1300 (Some "B4 ToolCall") true false (Some 620) (Some 1292));
   DrawArrow (mkArrow 1400 1000 1200 1000 None false false None None);
   DrawText (Int 1300) (Int 992)
     "B6 Conclusion — determinism boundary"
     (lit 105 10) None GREY "middle";
   DrawArrow (mkArrow 1200 1000 1200 1300 None true false None None);
   DrawArrow (mkArrow 1460 690 1480 690 None false true None None);
   DrawText (Int 1470) (Int 680)
     "B3"
     (lit 105 10) None GREY "middle";
   DrawArrow (mkArrow 1460 1000 1480 1000 (Some "budget") false true None None);
   DrawArrow (mkArrow 1600 1500 1620 1500 (Some "B8 action") false true None None);
   DrawArrow (mkArrow 1180 1500 1200 1500 None false true None None);
   DrawArrow (mkArrow 600 1700 600 1708 None false true None None);
   DrawLine (element "line" [("x1", "600"); ("y1", "1708"); ("x2", "1880"); ("y2", "1708"); ("stroke", "#6741b8"); ("stroke-width", "1.3"); ("stroke-dasharray", "6 4")]);
   DrawArrow (mkArrow 1880 1708 1880 1700 None false true None None);
   DrawText (Int 1240) (Int 1704)
     "B8 — every node, llm_call, tool_call, gate, action, evidence → recorder"
     (lit 105 10) None "#6741b8" "middle";
   DrawLine "</svg>"].

(** The whole drawing, in the order of the script. *)
Definition c3_scene : list drawcall :=
  (Ok <$> C3_part_1 ++ status_legend 60 status_names) ++
  kind_legend 810 kind_names ++
  Ok (DrawText (Int 60) (Int 145) "reuse tag on each box:" (lit 115 10) (Some "700") GREY "start") ::
  tag_legend (Int 195) tag_names ++
  (Ok <$> C3_part_2 ++
  ext_boxes 78 ext_names ++
  C3_part_3 ++
  C3_part_4 ++
  imap port_box port_names ++
  C3_part_5 ++
  C3_part_6 ++
  C3_part_7 ++
  catalog_boxes 0 [0; 0; 0; 0] catalog ++
  C3_part_8 ++
  C3_part_9 ++
  C3_part_10 ++
  imap witness_box witness_ports ++
  C3_part_11 ++
  C3_part_12 ++
  C3_part_13 ++
  C3_part_14) ++
  concat (imap ledger_step ledger_steps) ++
  (Ok <$> loop_mark ++ C3_part_15).

(** ** The drawing is sound *)

Definition comp_rect (c : Comp) : rect := (cp_x c, cp_y c, cp_w c, cp_h c).

(** The boxes: the components, the external systems and the steps of the ledger. *)
Definition item_box (i : item) : option rect :=
  match i with DrawComp c => Some (comp_rect c) | DrawRect Box r _ _ _ _ => Some r | _ => None end.
(** The frames around them: the packages and the two panels. *)
Definition item_frame (i : item) : option rect :=
  match i with
  | DrawPkg p => Some (pk_x p, pk_y p, pk_w p, pk_h p)
  | DrawRect Panel r _ _ _ _ => Some r
  | _ => None
  end.

Definition picked {A} (f : item → option A) (calls : list drawcall) : list A :=
  omap (λ c : drawcall, match c with Ok i => f i | Raise _ => None end) calls.
Definition comps : list Comp :=
  picked (λ i, match i with DrawComp c => Some c | _ => None end) c3_scene.
Definition boxes : list rect := picked item_box c3_scene.
Definition frames : list rect := picked item_frame c3_scene.

Definition apartb (r r' : rect) : bool :=
  let '(x, y, w, h) := r in let '(x', y', w', h') := r' in
  (x + w <=? x') || (x' + w' <=? x) || (y + h <=? y') || (y' + h' <=? y).
Definition withinb (r r' : rect) : bool :=
  let '(x, y, w, h) := r in let '(x', y', w', h') := r' in
  (x' <=? x) && (x + w <=? x' + w') && (y' <=? y) && (y + h <=? y' + h').

(** Some point lies in both. *)
Definition covers (r : rect) (px py : Z) : Prop :=
  let '(x, y, w, h) := r in x ≤ px < x + w ∧ y ≤ py < y + h.

Lemma apartb_disjoint r r' px py : apartb r r' = true → covers r px py → covers r' px py → False.
Proof.
  destruct r as [[[x y] w] h], r' as [[[x' y'] w'] h']. unfold apartb, covers.
  rewrite !orb_true_iff, !Z.leb_le. lia.
Qed.

Lemma withinb_covers r r' px py : withinb r r' = true → covers r px py → covers r' px py.
Proof.
  destruct r as [[[x y] w] h], r' as [[[x' y'] w'] h']. unfold withinb, covers.
  rewrite !andb_true_iff, !Z.leb_le. lia.
Qed.

Fixpoint pairwise_apart (l : list rect) : bool :=
  match l with [] => true | r :: l => forallb (apartb r) l && pairwise_apart l end.

Lemma apartb_sym r r' : apartb r r' = apartb r' r.
Proof.
  destruct r as [[[x y] w] h], r' as [[[x' y'] w'] h']. unfold apartb.
  repeat destruct (_ <=? _); done.
Qed.

Lemma pairwise_apart_lookup l i j r r' :
  pairwise_apart l = true → l !! i = Some r → l !! j = Some r' → i ≠ j → apartb r r' = true.
Proof.
  revert i j. induction l as [|x l IH]; intros i j; [done|].
  cbn [pairwise_apart]. intros [Hx Hl]%andb_true_iff Hi Hj Hij.
  assert (Hh : ∀ k y, l !! k = Some y → apartb x y = true).
  { intros k y Hk. rewrite forallb_forall in Hx. apply Hx, list_elem_of_In.
    by eapply list_elem_of_lookup_2. }
  destruct i as [|i], j as [|j]; cbn in Hi, Hj; [done|..].
  - injection Hi as <-. eauto.
  - injection Hj as <-. rewrite apartb_sym. eauto.
  - eapply (IH i j); eauto.
Qed.

(** What is picked was drawn: its rectangle is a line of the file. *)
Definition rect_drawn (r : rect) (lines : list string) : Prop :=
  let '(x, y, w, h) := r in drawn (str_int x) (str_int y) (str_int w) (str_int h) lines.

Lemma draw_rect i ls r :
  draw i = Ok ls → item_box i = Some r ∨ item_frame i = Some r → rect_drawn r ls.
Proof.
  destruct i as [c|p| | | |ro [[[x y] w] h] rx fill stroke more|]; cbn [draw item_box item_frame];
    try by intros _ [|].
  - unfold comp. destruct (get _ _) as [[[f s] k]|]; [|done]. cbn [rbind].
    destruct (match cp_tag c with Some tag => _ | None => _ end) as [pill|]; [|done].
    cbn [rbind]. intros [= <-] [[= <-]|[=]]. eexists (_ :: _ :: _ :: _). left.
  - unfold pkg. destruct (get _ _) as [[[f s] k]|]; [|done]. cbn [rbind].
    intros [= <-] [[=]|[= <-]]. eexists (_ :: _ :: _ :: _). left.
  - intros [= <-] Hr. assert (r = (x, y, w, h)) as -> by (destruct ro, Hr; congruence).
    eexists (_ :: _ :: _ :: _). left.
Qed.

Lemma picked_drawn calls lines r :
  draw_all calls = Ok lines → r ∈ picked item_box calls ∨ r ∈ picked item_frame calls →
  rect_drawn r lines.
Proof.
  unfold draw_all. destruct (rmapM _ calls) as [parts|] eqn:E; [|done]. cbn [rbind].
  intros [= <-] Hr. apply rmapM_Ok in E.
  assert (∃ i, Ok i ∈ calls ∧ (item_box i = Some r ∨ item_frame i = Some r)) as (i & Hi & Hb).
  { unfold picked in Hr. rewrite !list_elem_of_omap in Hr.
    destruct Hr as [(c & Hc & Hr)|(c & Hc & Hr)]; destruct c as [i|]; try done; eauto. }
  apply list_elem_of_lookup_1 in Hi as [k Hk].
  destruct (Forall2_lookup_l _ _ _ _ _ E Hk) as (ls & Hls & Hd). cbn [rbind] in Hd.
  pose proof (draw_rect _ _ _ Hd Hb) as Hdr. destruct r as [[[x y] w] h].
  eapply drawn_sub, Hdr. intros ln Hln. apply list_elem_of_In, in_concat. exists ls.
  split; apply list_elem_of_In; [by eapply list_elem_of_lookup_2|done].
Qed.

Lemma boxes_drawn lines r :
  draw_all c3_scene = Ok lines → r ∈ boxes ∨ r ∈ frames → rect_drawn r lines.
Proof. unfold boxes, frames. apply picked_drawn. Qed.

(** The [k]-th text line of a component is drawn at its baseline. *)
Lemma comp_texts_drawn c ink yy lines k ln :
  lines !! k = Some ln →
  text_family (Int (cp_x c + 12)) (Int (yy + 15 * Z.of_nat k)) ln (cp_ls c) None ink "start"
    (cp_mono c) ∈ comp_texts c ink yy lines.
Proof.
  revert yy k. induction lines as [|x lines IH]; intros yy [|k]; try done; cbn [comp_texts].
  - intros [= ->]. rewrite Z.add_0_r. left.
  - intros Hk. right. replace (yy + 15 * Z.of_nat (S k)) with (yy + 15 + 15 * Z.of_nat k) by lia.
    by apply IH.
Qed.

Definition text_drawn (c : Comp) (y : Z) (ln : string) (lines : list string) : Prop :=
  ∃ ink, text_family (Int (cp_x c + 12)) (Int y) ln (cp_ls c) None ink "start" (cp_mono c) ∈ lines.

Lemma comp_text_drawn c ls k ln :
  comp c = Ok ls → cp_lines c !! k = Some ln →
  text_drawn c (cp_y c + 36 + 15 * Z.of_nat k) ln ls.
Proof.
  unfold comp. destruct (get _ _) as [[[f s] ink]|]; [|done]. cbn [rbind].
  destruct (match cp_tag c with Some tag => _ | None => _ end) as [pill|]; [|done].
  cbn [rbind]. intros Hl Hk. apply Ok_inj in Hl as <-. exists ink. right.
  do 3 (apply elem_of_app; right). by apply comp_texts_drawn.
Qed.

Lemma comps_drawn lines c k ln :
  draw_all c3_scene = Ok lines → c ∈ comps → cp_lines c !! k = Some ln →
  text_drawn c (cp_y c + 36 + 15 * Z.of_nat k) ln lines.
Proof.
  unfold comps, picked, draw_all. generalize c3_scene. intros calls.
  destruct (rmapM _ calls) as [parts|] eqn:E; [|done]. cbn [rbind]. intros [= <-] Hc Hk.
  apply rmapM_Ok in E. apply list_elem_of_omap in Hc as ([i|] & Hi & Hc); [|done].
  destruct i as [c'| | | | | |]; try done. injection Hc as ->.
  apply list_elem_of_lookup_1 in Hi as [j Hj].
  destruct (Forall2_lookup_l _ _ _ _ _ E Hj) as (ls & Hls & Hd). cbn [rbind draw] in Hd.
  destruct (comp_text_drawn _ _ _ _ Hd Hk) as [ink Hin]. exists ink.
  apply list_elem_of_In, in_concat. exists ls.
  split; apply list_elem_of_In; [by eapply list_elem_of_lookup_2|done].
Qed.

Lemma pairwise_disjoint l i j r r' px py :
  pairwise_apart l = true → l !! i = Some r → l !! j = Some r' → i ≠ j →
  covers r px py → covers r' px py → False.
Proof. intros Hl Hi Hj Hij. apply apartb_disjoint. by eapply pairwise_apart_lookup. Qed.

(** C40. The component diagram is written without an error, and its layout is
    sound.  The rectangles of its boxes (components,
    external systems, steps of the ledger) and of its frames (packages and the
    two panels) are lines of the file, inside the canvas; no two boxes share a
    point, nor do two frames; a box lies inside a frame or apart from it; and the
    text lines of a component are lines of the file whose baselines are inside
    its box, each 15 units below the one before. *)
Theorem c3_sound :
  ∃ lines, draw_all c3_scene = Ok lines ∧
  (∀ r, r ∈ boxes ∨ r ∈ frames → rect_drawn r lines ∧ withinb r (0, 0, C3_W, C3_H) = true) ∧
  (∀ i j r r' px py, boxes !! i = Some r → boxes !! j = Some r' → i ≠ j →
     covers r px py → covers r' px py → False) ∧
  (∀ i j r r' px py, frames !! i = Some r → frames !! j = Some r' → i ≠ j →
     covers r px py → covers r' px py → False) ∧
  (∀ b f, b ∈ boxes → f ∈ frames → withinb b f = true ∨ apartb b f = true) ∧
  (∀ c k ln, c ∈ comps → cp_lines c !! k = Some ln →
     let y := cp_y c + 36 + 15 * Z.of_nat k in
     text_drawn c y ln lines ∧ cp_y c < y ≤ cp_y c + cp_h c).
Proof.
  assert (is_ok (draw_all c3_scene) = true) as [lines E]%is_ok_iff by (vm_compute; reflexivity).
  exists lines. split; [done|]. split; [|split; [|split; [|split]]].
  - intros r Hr. split; [by apply (boxes_drawn _ _ E)|].
    assert (forallb (λ r, withinb r (0, 0, C3_W, C3_H)) (boxes ++ frames) = true) as Hc
      by (vm_compute; reflexivity).
    rewrite forallb_forall in Hc. by apply Hc, list_elem_of_In, elem_of_app.
  - intros *. apply pairwise_disjoint. vm_compute. reflexivity.
  - intros *. apply pairwise_disjoint. vm_compute. reflexivity.
  - intros b f Hb%list_elem_of_In Hf%list_elem_of_In.
    assert (forallb (λ b, forallb (λ f, withinb b f || apartb b f) frames) boxes = true) as Hc
      by (vm_compute; reflexivity).
    rewrite forallb_forall in Hc. specialize (Hc b Hb). rewrite forallb_forall in Hc.
    by apply orb_true_iff, Hc.
  - intros c k ln Hc Hk y. split; [by apply comps_drawn|].
    apply lookup_lt_Some in Hk. apply list_elem_of_In in Hc.
    assert (forallb (λ c, 36 + 15 * (Z.of_nat (length (cp_lines c)) - 1) <=? cp_h c) comps = true)
      as Ha by (vm_compute; reflexivity).
    rewrite forallb_forall in Ha. specialize (Ha c Hc). apply Z.leb_le in Ha. lia.
Qed.

(** The point is under the tag of the component. *)
Definition under_tag (c : Comp) (px py : Z) : Prop :=
  ∃ tag, cp_tag c = Some tag ∧
    let tw := tag_width (tag_label tag) in
    let left := (Int (cp_x c + cp_w c) - tw - Int 6)%num in
    nleb left (Int px) = true ∧ nltb (Int px) (left + tw)%num = true ∧
    tag_y c tw ≤ py < tag_y c tw + 13.

(** The tags are not kept inside their boxes: the one of registry_loader.py is
    wider than its box, and covers a part of the box on its left. *)
Theorem tag_covers_neighbour :
  ∃ c r, c ∈ comps ∧ cp_title c = "registry_loader.py" ∧ r ∈ boxes ∧ r ≠ comp_rect c ∧
    ∃ px py, under_tag c px py ∧ covers r px py.
Proof.
  exists (mkComp 392 946 164 100 "registry_loader.py"
     ["AgentSpec pydantic schema"; "boot resolves every prompt_ref";
      "hot-reload on Governor tick"; "disabled agents never dispatch"]
     "core" "planned" None (lit 125 10) (Int 11) (Some ("COPY", "PydanticAI AgentSpec shape"))).
  exists (76, 912, 300, 150). split; [|split; [done|split; [|split; [discriminate|]]]].
  - apply (list_elem_of_lookup_2 _ 31). vm_compute. reflexivity.
  - apply (list_elem_of_lookup_2 _ 36). vm_compute. reflexivity.
  - exists 360, 1042. split; [|done]. eexists. split; [done|].
    split; [vm_compute; reflexivity|]. split; [vm_compute; reflexivity|].
    vm_compute. split; [discriminate|done].
Qed.
